(** * Territories: a shallow embedding of the tick engine

    The development follows [territories.h] (the C core of the
    environment), [utils/bitset.h] and [utils/helper.h].

    Conventions of the embedding.
    - C [int] values are integers of [Z]; signed overflow is undefined in C
      and is not reached by the quantities below inside an episode.  Stores
      into narrower unsigned buffers ([unsigned char], [unsigned short],
      [uint64_t]) are written with their wrap-around ([u8], [u16], [u64]).
    - C [/] and [%] on [int] are [Z.quot] and [Z.rem].
    - A C array is a [list]; [zget] reads a cell and [zset] writes one.  A
      read or a write outside the array is undefined in C: the model reads
      a default value and drops the write.
    - The [float] and [double] computations (statistics, rewards, the crop
      law) go through the interface [CFloat].  Nothing is assumed about its
      operations, except in the statement on the crop law, which asks that
      the [double] operations be accurate ([double_accurate]).
    - [rand()] reads the field [rand_state], the stream of values the C
      library will deliver.
    - The rendering client, the episode log and the observation buffer are
      outputs that no modelled function reads back; they are left out. *)

From Stdlib Require Import ZArith QArith List Bool Lia Permutation Sorted.
From Stdlib Require Import Reals Qreals Lra.
Import ListNotations.
Local Open Scope Z_scope.

(** ** Machine integers *)

Definition u8 (x : Z) : Z := x mod 256.
Definition u16 (x : Z) : Z := x mod 65536.
Definition u64 (x : Z) : Z := x mod 18446744073709551616.
Definition s16 (x : Z) : Z := (x + 32768) mod 65536 - 32768.
Definition RAND_MAX : Z := 2147483647.

(** ** Arrays *)

Definition zget {A : Type} (d : A) (l : list A) (i : Z) : A :=
  if i <? 0 then d else nth (Z.to_nat i) l d.

Fixpoint upd_nth {A : Type} (n : nat) (v : A) (l : list A) : list A :=
  match l, n with
  | [], _ => []
  | _ :: t, O => v :: t
  | h :: t, S n' => h :: upd_nth n' v t
  end.

Definition zset {A : Type} (l : list A) (i : Z) (v : A) : list A :=
  if i <? 0 then l else upd_nth (Z.to_nat i) v l.

(** [memset]-like fill of the first [n] cells. *)
Fixpoint fill_nat {A : Type} (v : A) (n : nat) (l : list A) : list A :=
  match n, l with
  | S n', _ :: t => v :: fill_nat v n' t
  | _, _ => l
  end.

Definition fill {A : Type} (v : A) (n : Z) (l : list A) : list A :=
  fill_nat v (Z.to_nat n) l.

Definition geti (l : list Z) (i : Z) : Z := zget 0 l i.
Definition getb (l : list bool) (i : Z) : bool := zget false l i.

(** ** Loops *)

(** [for (i = lo; i < lo + n; i++) s = body i s]. *)
Fixpoint for_up {S : Type} (n : nat) (i : Z) (body : Z -> S -> S) (s : S) : S :=
  match n with
  | O => s
  | Datatypes.S n' => for_up n' (i + 1) body (body i s)
  end.

Definition for_range {S : Type} (lo hi : Z) (body : Z -> S -> S) (s : S) : S :=
  for_up (Z.to_nat (hi - lo)) lo body s.

(** ** Constants of [territories.h] *)

Definition MAX_GROWTH_DURATION : Z := 70.
Definition STARTING_DAY : Z := 55.
Definition SUMMER_DURATION : Z := 100.
Definition WINTER_DURATION : Z := 10.
Definition WALL_HP_MAX : Z := 8.
Definition MAX_SATIATION : Z := 100.
Definition MAX_HP : Z := 3.
Definition MAX_FOOD_CARRYING_CAPACITY : Z := 150.
Definition MAX_STONE_CARRYING_CAPACITY : Z := 10.
Definition MAX_FOOD_STORAGE_CAPACITY : Z := 150.
Definition STONE_MINED_PER_TICK : Z := 5.
Definition STONE_PER_MINE : Z := 600.
Definition METABOLISM_RATE : Z := 5.
Definition REPRODUCTION_AGE : Z := 10.

(** [Action] *)
Definition MOVE_UP : Z := 0.
Definition MOVE_RIGHT : Z := 1.
Definition MOVE_DOWN : Z := 2.
Definition MOVE_LEFT : Z := 3.
Definition NOOP : Z := 4.
Definition PICKUP : Z := 5.
Definition MINE : Z := 6.
Definition PACKAGE_FOOD : Z := 7.
Definition BUILD_WALL : Z := 8.
Definition ATTACK : Z := 9.
Definition REPRODUCE : Z := 10.

(** [ResourceType]: the column of a tile property. *)
Definition LAST_HARVEST : Z := 0.
Definition STORED_FOOD : Z := 1.
Definition STONE : Z := 2.
Definition WALL_HP : Z := 3.

(** [DELTAS[dir]] as (row, column). *)
Definition DELTAS (d : Z) : Z * Z :=
  zget (0, 0) [(-1, 0); (0, 1); (1, 0); (0, -1)] d.

(** [ATTACK_SWORD[dir][k]] as (row, column): three offsets per direction. *)
Definition ATTACK_SWORD (d k : Z) : Z * Z :=
  zget (0, 0)
    (zget []
       [ [(-1, -1); (-1, 0); (-1, 1)];
         [(-1, 1); (0, 1); (1, 1)];
         [(1, -1); (1, 0); (1, 1)];
         [(-1, -1); (0, -1); (1, -1)] ] d) k.

(** ** Bitset ([utils/bitset.h]) *)

Record BitSet : Type := mkBitSet {
  max_num : Z;
  words : Z;
  data : list Z
}.

Definition bitset_clear (bs : BitSet) : BitSet :=
  {| max_num := max_num bs; words := words bs;
     data := fill 0 (words bs) (data bs) |}.

(** The argument is a [size_t]: a negative [int] converts to a value above
    every [max_num], so it takes the early return too. *)
Definition bitset_add (bs : BitSet) (x : Z) : BitSet :=
  if (x <? 0) || (x >=? max_num bs) then bs
  else
    let wi := Z.shiftr x 6 in
    let off := Z.land x 63 in
    {| max_num := max_num bs; words := words bs;
       data := zset (data bs) wi
                 (Z.lor (geti (data bs) wi) (Z.shiftl 1 off)) |}.

Definition bitset_remove (bs : BitSet) (x : Z) : BitSet :=
  if (x <? 0) || (x >=? max_num bs) then bs
  else
    let wi := Z.shiftr x 6 in
    let off := Z.land x 63 in
    {| max_num := max_num bs; words := words bs;
       data := zset (data bs) wi
                 (Z.land (geti (data bs) wi)
                    (u64 (Z.lnot (Z.shiftl 1 off)))) |}.

Definition bitset_contains (bs : BitSet) (x : Z) : Z :=
  if (x <? 0) || (x >=? max_num bs) then 0
  else
    let wi := Z.shiftr x 6 in
    let off := Z.land x 63 in
    Z.land (Z.shiftr (geti (data bs) wi) off) 1.

(** [__builtin_ctzll] on a non-zero word. *)
Definition ctzll (word : Z) : Z := Z.log2 (Z.land word (- word)).

(** The inner [while (word)] loop: every round clears the lowest set bit,
    so 64 rounds exhaust a 64-bit word. *)
Fixpoint drain_word (rounds : nat) (wi word : Z) (st : list Z * Z)
  : list Z * Z :=
  match rounds with
  | O => st
  | S k =>
      if word =? 0 then st
      else
        let bit := ctzll word in
        let index := wi * 64 + bit in
        drain_word k wi (Z.land word (word - 1))
          (zset (fst st) (snd st) (u16 index), snd st + 1)
  end.

(** Returns the members array and [n_members]. *)
Definition bitset_update_members (bs : BitSet) (members : list Z)
  : list Z * Z :=
  for_range 0 (words bs)
    (fun wi st => drain_word 64 wi (geti (data bs) wi) st)
    (members, 0).

(** ** Agents *)

Module Agent.
Record t : Type := mk {
  r : Z;
  c : Z;
  dir : Z;
  hp : Z;
  hp_max : Z;
  satiation : Z;
  max_satiation : Z;
  age : Z;
  food_carried : Z;
  stone_carried : Z;
  role : Z
}.

Definition set_r (x : t) (v : Z) : t :=
  {| r := v; c := c x; dir := dir x; hp := hp x; hp_max := hp_max x;
     satiation := satiation x; max_satiation := max_satiation x; age := age x;
     food_carried := food_carried x; stone_carried := stone_carried x;
     role := role x |}.

Definition set_c (x : t) (v : Z) : t :=
  {| r := r x; c := v; dir := dir x; hp := hp x; hp_max := hp_max x;
     satiation := satiation x; max_satiation := max_satiation x; age := age x;
     food_carried := food_carried x; stone_carried := stone_carried x;
     role := role x |}.

Definition set_dir (x : t) (v : Z) : t :=
  {| r := r x; c := c x; dir := v; hp := hp x; hp_max := hp_max x;
     satiation := satiation x; max_satiation := max_satiation x; age := age x;
     food_carried := food_carried x; stone_carried := stone_carried x;
     role := role x |}.

Definition set_hp (x : t) (v : Z) : t :=
  {| r := r x; c := c x; dir := dir x; hp := v; hp_max := hp_max x;
     satiation := satiation x; max_satiation := max_satiation x; age := age x;
     food_carried := food_carried x; stone_carried := stone_carried x;
     role := role x |}.

Definition set_hp_max (x : t) (v : Z) : t :=
  {| r := r x; c := c x; dir := dir x; hp := hp x; hp_max := v;
     satiation := satiation x; max_satiation := max_satiation x; age := age x;
     food_carried := food_carried x; stone_carried := stone_carried x;
     role := role x |}.

Definition set_satiation (x : t) (v : Z) : t :=
  {| r := r x; c := c x; dir := dir x; hp := hp x; hp_max := hp_max x;
     satiation := v; max_satiation := max_satiation x; age := age x;
     food_carried := food_carried x; stone_carried := stone_carried x;
     role := role x |}.

Definition set_age (x : t) (v : Z) : t :=
  {| r := r x; c := c x; dir := dir x; hp := hp x; hp_max := hp_max x;
     satiation := satiation x; max_satiation := max_satiation x; age := v;
     food_carried := food_carried x; stone_carried := stone_carried x;
     role := role x |}.

Definition set_food_carried (x : t) (v : Z) : t :=
  {| r := r x; c := c x; dir := dir x; hp := hp x; hp_max := hp_max x;
     satiation := satiation x; max_satiation := max_satiation x; age := age x;
     food_carried := v; stone_carried := stone_carried x; role := role x |}.

Definition set_stone_carried (x : t) (v : Z) : t :=
  {| r := r x; c := c x; dir := dir x; hp := hp x; hp_max := hp_max x;
     satiation := satiation x; max_satiation := max_satiation x; age := age x;
     food_carried := food_carried x; stone_carried := v; role := role x |}.

Definition set_role (x : t) (v : Z) : t :=
  {| r := r x; c := c x; dir := dir x; hp := hp x; hp_max := hp_max x;
     satiation := satiation x; max_satiation := max_satiation x; age := age x;
     food_carried := food_carried x; stone_carried := stone_carried x;
     role := v |}.

Definition set_max_satiation (x : t) (v : Z) : t :=
  {| r := r x; c := c x; dir := dir x; hp := hp x; hp_max := hp_max x;
     satiation := satiation x; max_satiation := v; age := age x;
     food_carried := food_carried x; stone_carried := stone_carried x;
     role := role x |}.

Definition zero : t := mk 0 0 0 0 0 0 0 0 0 0 0.

End Agent.

(** ** Agent manager *)

Record AgentManager : Type := mkAgentManager {
  alive_bitset : BitSet;
  alive_mask : list bool;
  free_pids : list Z;
  alive_pids : list Z;
  free_count : Z;
  alive_count : Z;
  next_pid : Z
}.

Definition set_alive_bitset (x : AgentManager) (v : BitSet) : AgentManager :=
  {| alive_bitset := v; alive_mask := alive_mask x; free_pids := free_pids x;
     alive_pids := alive_pids x; free_count := free_count x;
     alive_count := alive_count x; next_pid := next_pid x |}.

Definition set_alive_mask (x : AgentManager) (v : list bool) : AgentManager :=
  {| alive_bitset := alive_bitset x; alive_mask := v; free_pids := free_pids x;
     alive_pids := alive_pids x; free_count := free_count x;
     alive_count := alive_count x; next_pid := next_pid x |}.

Definition set_free_pids (x : AgentManager) (v : list Z) : AgentManager :=
  {| alive_bitset := alive_bitset x; alive_mask := alive_mask x; free_pids := v;
     alive_pids := alive_pids x; free_count := free_count x;
     alive_count := alive_count x; next_pid := next_pid x |}.

Definition set_alive_pids (x : AgentManager) (v : list Z) : AgentManager :=
  {| alive_bitset := alive_bitset x; alive_mask := alive_mask x;
     free_pids := free_pids x; alive_pids := v; free_count := free_count x;
     alive_count := alive_count x; next_pid := next_pid x |}.

Definition set_free_count (x : AgentManager) (v : Z) : AgentManager :=
  {| alive_bitset := alive_bitset x; alive_mask := alive_mask x;
     free_pids := free_pids x; alive_pids := alive_pids x; free_count := v;
     alive_count := alive_count x; next_pid := next_pid x |}.

Definition set_alive_count (x : AgentManager) (v : Z) : AgentManager :=
  {| alive_bitset := alive_bitset x; alive_mask := alive_mask x;
     free_pids := free_pids x; alive_pids := alive_pids x;
     free_count := free_count x; alive_count := v; next_pid := next_pid x |}.

Definition set_next_pid (x : AgentManager) (v : Z) : AgentManager :=
  {| alive_bitset := alive_bitset x; alive_mask := alive_mask x;
     free_pids := free_pids x; alive_pids := alive_pids x;
     free_count := free_count x; alive_count := alive_count x; next_pid := v |}.

(** ** Floating point *)

(** A finite C [float] or [double] is modelled by the rational it denotes.
    The operations the engine applies to them, with their rounding, are
    the fields of [CFloat].  [d_K] is the constant [K = 0.07167543];
    [d_to_int] is the cast [(int)] of a [double]. *)
Abbreviation float := Q (only parsing).
Abbreviation double := Q (only parsing).

Class CFloat : Type := mkCFloat {
  f_of_int : Z -> float;
  f_add : float -> float -> float;
  f_sub : float -> float -> float;
  f_div : float -> float -> float;
  f_ltb : float -> float -> bool;
  f_to_d : float -> double;
  d_to_f : double -> float;
  d_of_int : Z -> double;
  d_K : double;
  d_add : double -> double -> double;
  d_sub : double -> double -> double;
  d_mul : double -> double -> double;
  d_exp : double -> double;
  d_log : double -> double;
  d_to_int : double -> Z
}.

Section Engine.

Context {fl : CFloat}.

(** The macros [min] and [max] at type [float]. *)
Definition f_min (a b : float) : float := if f_ltb a b then a else b.
Definition f_max (a b : float) : float := if f_ltb b a then a else b.

(** ** Statistics and the environment *)

Record Stats : Type := mkStats {
  births : float;
  starvations : float;
  murders : float;
  stone_mined : float;
  walls_built : float;
  wall_destroyed : float;
  food_stored : float;
  food_eaten : float;
  avg_population : float;
  max_pop : float;
  min_pop : float;
  total_reward : float;
  agent_life_expectancy : float;
  agent_n : float
}.

Definition set_births (x : Stats) (v : float) : Stats :=
  {| births := v; starvations := starvations x; murders := murders x;
     stone_mined := stone_mined x; walls_built := walls_built x;
     wall_destroyed := wall_destroyed x; food_stored := food_stored x;
     food_eaten := food_eaten x; avg_population := avg_population x;
     max_pop := max_pop x; min_pop := min_pop x; total_reward := total_reward x;
     agent_life_expectancy := agent_life_expectancy x; agent_n := agent_n x |}.

Definition set_starvations (x : Stats) (v : float) : Stats :=
  {| births := births x; starvations := v; murders := murders x;
     stone_mined := stone_mined x; walls_built := walls_built x;
     wall_destroyed := wall_destroyed x; food_stored := food_stored x;
     food_eaten := food_eaten x; avg_population := avg_population x;
     max_pop := max_pop x; min_pop := min_pop x; total_reward := total_reward x;
     agent_life_expectancy := agent_life_expectancy x; agent_n := agent_n x |}.

Definition set_murders (x : Stats) (v : float) : Stats :=
  {| births := births x; starvations := starvations x; murders := v;
     stone_mined := stone_mined x; walls_built := walls_built x;
     wall_destroyed := wall_destroyed x; food_stored := food_stored x;
     food_eaten := food_eaten x; avg_population := avg_population x;
     max_pop := max_pop x; min_pop := min_pop x; total_reward := total_reward x;
     agent_life_expectancy := agent_life_expectancy x; agent_n := agent_n x |}.

Definition set_stone_mined (x : Stats) (v : float) : Stats :=
  {| births := births x; starvations := starvations x; murders := murders x;
     stone_mined := v; walls_built := walls_built x;
     wall_destroyed := wall_destroyed x; food_stored := food_stored x;
     food_eaten := food_eaten x; avg_population := avg_population x;
     max_pop := max_pop x; min_pop := min_pop x; total_reward := total_reward x;
     agent_life_expectancy := agent_life_expectancy x; agent_n := agent_n x |}.

Definition set_walls_built (x : Stats) (v : float) : Stats :=
  {| births := births x; starvations := starvations x; murders := murders x;
     stone_mined := stone_mined x; walls_built := v;
     wall_destroyed := wall_destroyed x; food_stored := food_stored x;
     food_eaten := food_eaten x; avg_population := avg_population x;
     max_pop := max_pop x; min_pop := min_pop x; total_reward := total_reward x;
     agent_life_expectancy := agent_life_expectancy x; agent_n := agent_n x |}.

Definition set_wall_destroyed (x : Stats) (v : float) : Stats :=
  {| births := births x; starvations := starvations x; murders := murders x;
     stone_mined := stone_mined x; walls_built := walls_built x;
     wall_destroyed := v; food_stored := food_stored x;
     food_eaten := food_eaten x; avg_population := avg_population x;
     max_pop := max_pop x; min_pop := min_pop x; total_reward := total_reward x;
     agent_life_expectancy := agent_life_expectancy x; agent_n := agent_n x |}.

Definition set_food_stored (x : Stats) (v : float) : Stats :=
  {| births := births x; starvations := starvations x; murders := murders x;
     stone_mined := stone_mined x; walls_built := walls_built x;
     wall_destroyed := wall_destroyed x; food_stored := v;
     food_eaten := food_eaten x; avg_population := avg_population x;
     max_pop := max_pop x; min_pop := min_pop x; total_reward := total_reward x;
     agent_life_expectancy := agent_life_expectancy x; agent_n := agent_n x |}.

Definition set_food_eaten (x : Stats) (v : float) : Stats :=
  {| births := births x; starvations := starvations x; murders := murders x;
     stone_mined := stone_mined x; walls_built := walls_built x;
     wall_destroyed := wall_destroyed x; food_stored := food_stored x;
     food_eaten := v; avg_population := avg_population x; max_pop := max_pop x;
     min_pop := min_pop x; total_reward := total_reward x;
     agent_life_expectancy := agent_life_expectancy x; agent_n := agent_n x |}.

Definition set_avg_population (x : Stats) (v : float) : Stats :=
  {| births := births x; starvations := starvations x; murders := murders x;
     stone_mined := stone_mined x; walls_built := walls_built x;
     wall_destroyed := wall_destroyed x; food_stored := food_stored x;
     food_eaten := food_eaten x; avg_population := v; max_pop := max_pop x;
     min_pop := min_pop x; total_reward := total_reward x;
     agent_life_expectancy := agent_life_expectancy x; agent_n := agent_n x |}.

Definition set_max_pop (x : Stats) (v : float) : Stats :=
  {| births := births x; starvations := starvations x; murders := murders x;
     stone_mined := stone_mined x; walls_built := walls_built x;
     wall_destroyed := wall_destroyed x; food_stored := food_stored x;
     food_eaten := food_eaten x; avg_population := avg_population x;
     max_pop := v; min_pop := min_pop x; total_reward := total_reward x;
     agent_life_expectancy := agent_life_expectancy x; agent_n := agent_n x |}.

Definition set_min_pop (x : Stats) (v : float) : Stats :=
  {| births := births x; starvations := starvations x; murders := murders x;
     stone_mined := stone_mined x; walls_built := walls_built x;
     wall_destroyed := wall_destroyed x; food_stored := food_stored x;
     food_eaten := food_eaten x; avg_population := avg_population x;
     max_pop := max_pop x; min_pop := v; total_reward := total_reward x;
     agent_life_expectancy := agent_life_expectancy x; agent_n := agent_n x |}.

Definition set_total_reward (x : Stats) (v : float) : Stats :=
  {| births := births x; starvations := starvations x; murders := murders x;
     stone_mined := stone_mined x; walls_built := walls_built x;
     wall_destroyed := wall_destroyed x; food_stored := food_stored x;
     food_eaten := food_eaten x; avg_population := avg_population x;
     max_pop := max_pop x; min_pop := min_pop x; total_reward := v;
     agent_life_expectancy := agent_life_expectancy x; agent_n := agent_n x |}.

Definition set_agent_life_expectancy (x : Stats) (v : float) : Stats :=
  {| births := births x; starvations := starvations x; murders := murders x;
     stone_mined := stone_mined x; walls_built := walls_built x;
     wall_destroyed := wall_destroyed x; food_stored := food_stored x;
     food_eaten := food_eaten x; avg_population := avg_population x;
     max_pop := max_pop x; min_pop := min_pop x; total_reward := total_reward x;
     agent_life_expectancy := v; agent_n := agent_n x |}.

Definition set_agent_n (x : Stats) (v : float) : Stats :=
  {| births := births x; starvations := starvations x; murders := murders x;
     stone_mined := stone_mined x; walls_built := walls_built x;
     wall_destroyed := wall_destroyed x; food_stored := food_stored x;
     food_eaten := food_eaten x; avg_population := avg_population x;
     max_pop := max_pop x; min_pop := min_pop x; total_reward := total_reward x;
     agent_life_expectancy := agent_life_expectancy x; agent_n := v |}.

Record Territories : Type := mkTerritories {
  stats : Stats;
  extinction_reward : float;
  agents : list Agent.t;
  agent_manager : AgentManager;
  pids_2d : list Z;
  is_soil : list bool;
  tile_props : list Z;
  actions : list Z;
  rewards : list float;
  terminals : list Z;
  truncations : list Z;
  kinship_matrix : list Z;
  dnas : list Z;
  family_sizes : list Z;
  prev_family_sizes : list Z;
  n_genes : Z;
  n_alleles : Z;
  width : Z;
  height : Z;
  tick : Z;
  is_winter : bool;
  max_agents : Z;
  n_roles : Z;
  min_ep_length : Z;
  max_ep_length : Z;
  next_max_ep_length : Z;
  reward_growth_rate : bool;
  rand_state : list Z
}.

Definition set_stats (x : Territories) (v : Stats) : Territories :=
  {| stats := v; extinction_reward := extinction_reward x; agents := agents x;
     agent_manager := agent_manager x; pids_2d := pids_2d x;
     is_soil := is_soil x; tile_props := tile_props x; actions := actions x;
     rewards := rewards x; terminals := terminals x;
     truncations := truncations x; kinship_matrix := kinship_matrix x;
     dnas := dnas x; family_sizes := family_sizes x;
     prev_family_sizes := prev_family_sizes x; n_genes := n_genes x;
     n_alleles := n_alleles x; width := width x; height := height x;
     tick := tick x; is_winter := is_winter x; max_agents := max_agents x;
     n_roles := n_roles x; min_ep_length := min_ep_length x;
     max_ep_length := max_ep_length x;
     next_max_ep_length := next_max_ep_length x;
     reward_growth_rate := reward_growth_rate x; rand_state := rand_state x |}.

Definition set_agents (x : Territories) (v : list Agent.t) : Territories :=
  {| stats := stats x; extinction_reward := extinction_reward x; agents := v;
     agent_manager := agent_manager x; pids_2d := pids_2d x;
     is_soil := is_soil x; tile_props := tile_props x; actions := actions x;
     rewards := rewards x; terminals := terminals x;
     truncations := truncations x; kinship_matrix := kinship_matrix x;
     dnas := dnas x; family_sizes := family_sizes x;
     prev_family_sizes := prev_family_sizes x; n_genes := n_genes x;
     n_alleles := n_alleles x; width := width x; height := height x;
     tick := tick x; is_winter := is_winter x; max_agents := max_agents x;
     n_roles := n_roles x; min_ep_length := min_ep_length x;
     max_ep_length := max_ep_length x;
     next_max_ep_length := next_max_ep_length x;
     reward_growth_rate := reward_growth_rate x; rand_state := rand_state x |}.

Definition set_agent_manager (x : Territories) (v : AgentManager) : Territories :=
  {| stats := stats x; extinction_reward := extinction_reward x;
     agents := agents x; agent_manager := v; pids_2d := pids_2d x;
     is_soil := is_soil x; tile_props := tile_props x; actions := actions x;
     rewards := rewards x; terminals := terminals x;
     truncations := truncations x; kinship_matrix := kinship_matrix x;
     dnas := dnas x; family_sizes := family_sizes x;
     prev_family_sizes := prev_family_sizes x; n_genes := n_genes x;
     n_alleles := n_alleles x; width := width x; height := height x;
     tick := tick x; is_winter := is_winter x; max_agents := max_agents x;
     n_roles := n_roles x; min_ep_length := min_ep_length x;
     max_ep_length := max_ep_length x;
     next_max_ep_length := next_max_ep_length x;
     reward_growth_rate := reward_growth_rate x; rand_state := rand_state x |}.

Definition set_pids_2d (x : Territories) (v : list Z) : Territories :=
  {| stats := stats x; extinction_reward := extinction_reward x;
     agents := agents x; agent_manager := agent_manager x; pids_2d := v;
     is_soil := is_soil x; tile_props := tile_props x; actions := actions x;
     rewards := rewards x; terminals := terminals x;
     truncations := truncations x; kinship_matrix := kinship_matrix x;
     dnas := dnas x; family_sizes := family_sizes x;
     prev_family_sizes := prev_family_sizes x; n_genes := n_genes x;
     n_alleles := n_alleles x; width := width x; height := height x;
     tick := tick x; is_winter := is_winter x; max_agents := max_agents x;
     n_roles := n_roles x; min_ep_length := min_ep_length x;
     max_ep_length := max_ep_length x;
     next_max_ep_length := next_max_ep_length x;
     reward_growth_rate := reward_growth_rate x; rand_state := rand_state x |}.

Definition set_tile_props (x : Territories) (v : list Z) : Territories :=
  {| stats := stats x; extinction_reward := extinction_reward x;
     agents := agents x; agent_manager := agent_manager x; pids_2d := pids_2d x;
     is_soil := is_soil x; tile_props := v; actions := actions x;
     rewards := rewards x; terminals := terminals x;
     truncations := truncations x; kinship_matrix := kinship_matrix x;
     dnas := dnas x; family_sizes := family_sizes x;
     prev_family_sizes := prev_family_sizes x; n_genes := n_genes x;
     n_alleles := n_alleles x; width := width x; height := height x;
     tick := tick x; is_winter := is_winter x; max_agents := max_agents x;
     n_roles := n_roles x; min_ep_length := min_ep_length x;
     max_ep_length := max_ep_length x;
     next_max_ep_length := next_max_ep_length x;
     reward_growth_rate := reward_growth_rate x; rand_state := rand_state x |}.

Definition set_actions (x : Territories) (v : list Z) : Territories :=
  {| stats := stats x; extinction_reward := extinction_reward x;
     agents := agents x; agent_manager := agent_manager x; pids_2d := pids_2d x;
     is_soil := is_soil x; tile_props := tile_props x; actions := v;
     rewards := rewards x; terminals := terminals x;
     truncations := truncations x; kinship_matrix := kinship_matrix x;
     dnas := dnas x; family_sizes := family_sizes x;
     prev_family_sizes := prev_family_sizes x; n_genes := n_genes x;
     n_alleles := n_alleles x; width := width x; height := height x;
     tick := tick x; is_winter := is_winter x; max_agents := max_agents x;
     n_roles := n_roles x; min_ep_length := min_ep_length x;
     max_ep_length := max_ep_length x;
     next_max_ep_length := next_max_ep_length x;
     reward_growth_rate := reward_growth_rate x; rand_state := rand_state x |}.

Definition set_rewards (x : Territories) (v : list float) : Territories :=
  {| stats := stats x; extinction_reward := extinction_reward x;
     agents := agents x; agent_manager := agent_manager x; pids_2d := pids_2d x;
     is_soil := is_soil x; tile_props := tile_props x; actions := actions x;
     rewards := v; terminals := terminals x; truncations := truncations x;
     kinship_matrix := kinship_matrix x; dnas := dnas x;
     family_sizes := family_sizes x; prev_family_sizes := prev_family_sizes x;
     n_genes := n_genes x; n_alleles := n_alleles x; width := width x;
     height := height x; tick := tick x; is_winter := is_winter x;
     max_agents := max_agents x; n_roles := n_roles x;
     min_ep_length := min_ep_length x; max_ep_length := max_ep_length x;
     next_max_ep_length := next_max_ep_length x;
     reward_growth_rate := reward_growth_rate x; rand_state := rand_state x |}.

Definition set_terminals (x : Territories) (v : list Z) : Territories :=
  {| stats := stats x; extinction_reward := extinction_reward x;
     agents := agents x; agent_manager := agent_manager x; pids_2d := pids_2d x;
     is_soil := is_soil x; tile_props := tile_props x; actions := actions x;
     rewards := rewards x; terminals := v; truncations := truncations x;
     kinship_matrix := kinship_matrix x; dnas := dnas x;
     family_sizes := family_sizes x; prev_family_sizes := prev_family_sizes x;
     n_genes := n_genes x; n_alleles := n_alleles x; width := width x;
     height := height x; tick := tick x; is_winter := is_winter x;
     max_agents := max_agents x; n_roles := n_roles x;
     min_ep_length := min_ep_length x; max_ep_length := max_ep_length x;
     next_max_ep_length := next_max_ep_length x;
     reward_growth_rate := reward_growth_rate x; rand_state := rand_state x |}.

Definition set_truncations (x : Territories) (v : list Z) : Territories :=
  {| stats := stats x; extinction_reward := extinction_reward x;
     agents := agents x; agent_manager := agent_manager x; pids_2d := pids_2d x;
     is_soil := is_soil x; tile_props := tile_props x; actions := actions x;
     rewards := rewards x; terminals := terminals x; truncations := v;
     kinship_matrix := kinship_matrix x; dnas := dnas x;
     family_sizes := family_sizes x; prev_family_sizes := prev_family_sizes x;
     n_genes := n_genes x; n_alleles := n_alleles x; width := width x;
     height := height x; tick := tick x; is_winter := is_winter x;
     max_agents := max_agents x; n_roles := n_roles x;
     min_ep_length := min_ep_length x; max_ep_length := max_ep_length x;
     next_max_ep_length := next_max_ep_length x;
     reward_growth_rate := reward_growth_rate x; rand_state := rand_state x |}.

Definition set_kinship_matrix (x : Territories) (v : list Z) : Territories :=
  {| stats := stats x; extinction_reward := extinction_reward x;
     agents := agents x; agent_manager := agent_manager x; pids_2d := pids_2d x;
     is_soil := is_soil x; tile_props := tile_props x; actions := actions x;
     rewards := rewards x; terminals := terminals x;
     truncations := truncations x; kinship_matrix := v; dnas := dnas x;
     family_sizes := family_sizes x; prev_family_sizes := prev_family_sizes x;
     n_genes := n_genes x; n_alleles := n_alleles x; width := width x;
     height := height x; tick := tick x; is_winter := is_winter x;
     max_agents := max_agents x; n_roles := n_roles x;
     min_ep_length := min_ep_length x; max_ep_length := max_ep_length x;
     next_max_ep_length := next_max_ep_length x;
     reward_growth_rate := reward_growth_rate x; rand_state := rand_state x |}.

Definition set_dnas (x : Territories) (v : list Z) : Territories :=
  {| stats := stats x; extinction_reward := extinction_reward x;
     agents := agents x; agent_manager := agent_manager x; pids_2d := pids_2d x;
     is_soil := is_soil x; tile_props := tile_props x; actions := actions x;
     rewards := rewards x; terminals := terminals x;
     truncations := truncations x; kinship_matrix := kinship_matrix x;
     dnas := v; family_sizes := family_sizes x;
     prev_family_sizes := prev_family_sizes x; n_genes := n_genes x;
     n_alleles := n_alleles x; width := width x; height := height x;
     tick := tick x; is_winter := is_winter x; max_agents := max_agents x;
     n_roles := n_roles x; min_ep_length := min_ep_length x;
     max_ep_length := max_ep_length x;
     next_max_ep_length := next_max_ep_length x;
     reward_growth_rate := reward_growth_rate x; rand_state := rand_state x |}.

Definition set_family_sizes (x : Territories) (v : list Z) : Territories :=
  {| stats := stats x; extinction_reward := extinction_reward x;
     agents := agents x; agent_manager := agent_manager x; pids_2d := pids_2d x;
     is_soil := is_soil x; tile_props := tile_props x; actions := actions x;
     rewards := rewards x; terminals := terminals x;
     truncations := truncations x; kinship_matrix := kinship_matrix x;
     dnas := dnas x; family_sizes := v;
     prev_family_sizes := prev_family_sizes x; n_genes := n_genes x;
     n_alleles := n_alleles x; width := width x; height := height x;
     tick := tick x; is_winter := is_winter x; max_agents := max_agents x;
     n_roles := n_roles x; min_ep_length := min_ep_length x;
     max_ep_length := max_ep_length x;
     next_max_ep_length := next_max_ep_length x;
     reward_growth_rate := reward_growth_rate x; rand_state := rand_state x |}.

Definition set_prev_family_sizes (x : Territories) (v : list Z) : Territories :=
  {| stats := stats x; extinction_reward := extinction_reward x;
     agents := agents x; agent_manager := agent_manager x; pids_2d := pids_2d x;
     is_soil := is_soil x; tile_props := tile_props x; actions := actions x;
     rewards := rewards x; terminals := terminals x;
     truncations := truncations x; kinship_matrix := kinship_matrix x;
     dnas := dnas x; family_sizes := family_sizes x; prev_family_sizes := v;
     n_genes := n_genes x; n_alleles := n_alleles x; width := width x;
     height := height x; tick := tick x; is_winter := is_winter x;
     max_agents := max_agents x; n_roles := n_roles x;
     min_ep_length := min_ep_length x; max_ep_length := max_ep_length x;
     next_max_ep_length := next_max_ep_length x;
     reward_growth_rate := reward_growth_rate x; rand_state := rand_state x |}.

Definition set_tick (x : Territories) (v : Z) : Territories :=
  {| stats := stats x; extinction_reward := extinction_reward x;
     agents := agents x; agent_manager := agent_manager x; pids_2d := pids_2d x;
     is_soil := is_soil x; tile_props := tile_props x; actions := actions x;
     rewards := rewards x; terminals := terminals x;
     truncations := truncations x; kinship_matrix := kinship_matrix x;
     dnas := dnas x; family_sizes := family_sizes x;
     prev_family_sizes := prev_family_sizes x; n_genes := n_genes x;
     n_alleles := n_alleles x; width := width x; height := height x; tick := v;
     is_winter := is_winter x; max_agents := max_agents x; n_roles := n_roles x;
     min_ep_length := min_ep_length x; max_ep_length := max_ep_length x;
     next_max_ep_length := next_max_ep_length x;
     reward_growth_rate := reward_growth_rate x; rand_state := rand_state x |}.

Definition set_is_winter (x : Territories) (v : bool) : Territories :=
  {| stats := stats x; extinction_reward := extinction_reward x;
     agents := agents x; agent_manager := agent_manager x; pids_2d := pids_2d x;
     is_soil := is_soil x; tile_props := tile_props x; actions := actions x;
     rewards := rewards x; terminals := terminals x;
     truncations := truncations x; kinship_matrix := kinship_matrix x;
     dnas := dnas x; family_sizes := family_sizes x;
     prev_family_sizes := prev_family_sizes x; n_genes := n_genes x;
     n_alleles := n_alleles x; width := width x; height := height x;
     tick := tick x; is_winter := v; max_agents := max_agents x;
     n_roles := n_roles x; min_ep_length := min_ep_length x;
     max_ep_length := max_ep_length x;
     next_max_ep_length := next_max_ep_length x;
     reward_growth_rate := reward_growth_rate x; rand_state := rand_state x |}.

Definition set_next_max_ep_length (x : Territories) (v : Z) : Territories :=
  {| stats := stats x; extinction_reward := extinction_reward x;
     agents := agents x; agent_manager := agent_manager x; pids_2d := pids_2d x;
     is_soil := is_soil x; tile_props := tile_props x; actions := actions x;
     rewards := rewards x; terminals := terminals x;
     truncations := truncations x; kinship_matrix := kinship_matrix x;
     dnas := dnas x; family_sizes := family_sizes x;
     prev_family_sizes := prev_family_sizes x; n_genes := n_genes x;
     n_alleles := n_alleles x; width := width x; height := height x;
     tick := tick x; is_winter := is_winter x; max_agents := max_agents x;
     n_roles := n_roles x; min_ep_length := min_ep_length x;
     max_ep_length := max_ep_length x; next_max_ep_length := v;
     reward_growth_rate := reward_growth_rate x; rand_state := rand_state x |}.

Definition set_rand_state (x : Territories) (v : list Z) : Territories :=
  {| stats := stats x; extinction_reward := extinction_reward x;
     agents := agents x; agent_manager := agent_manager x; pids_2d := pids_2d x;
     is_soil := is_soil x; tile_props := tile_props x; actions := actions x;
     rewards := rewards x; terminals := terminals x;
     truncations := truncations x; kinship_matrix := kinship_matrix x;
     dnas := dnas x; family_sizes := family_sizes x;
     prev_family_sizes := prev_family_sizes x; n_genes := n_genes x;
     n_alleles := n_alleles x; width := width x; height := height x;
     tick := tick x; is_winter := is_winter x; max_agents := max_agents x;
     n_roles := n_roles x; min_ep_length := min_ep_length x;
     max_ep_length := max_ep_length x;
     next_max_ep_length := next_max_ep_length x;
     reward_growth_rate := reward_growth_rate x; rand_state := v |}.

(** ** Accessors *)

Definition ag (env : Territories) (pid : Z) : Agent.t :=
  zget Agent.zero (agents env) pid.

Definition upd_agent (env : Territories) (pid : Z) (f : Agent.t -> Agent.t)
  : Territories :=
  set_agents env (zset (agents env) pid (f (ag env pid))).

Definition upd_am (env : Territories) (f : AgentManager -> AgentManager)
  : Territories :=
  set_agent_manager env (f (agent_manager env)).

Definition upd_stats (env : Territories) (f : Stats -> Stats) : Territories :=
  set_stats env (f (stats env)).

(** [tile_props[(r*width + c)*4 + k]]. *)
Definition tile_adr (env : Territories) (r c k : Z) : Z :=
  (r * width env + c) * 4 + k.

Definition tile (env : Territories) (r c k : Z) : Z :=
  geti (tile_props env) (tile_adr env r c k).

Definition set_tile (env : Territories) (r c k v : Z) : Territories :=
  set_tile_props env (zset (tile_props env) (tile_adr env r c k) (u16 v)).

Definition pid_at (env : Territories) (r c : Z) : Z :=
  zget (-1) (pids_2d env) (r * width env + c).

Definition set_pid_at (env : Territories) (r c v : Z) : Territories :=
  set_pids_2d env (zset (pids_2d env) (r * width env + c) (s16 v)).

Definition soil_at (env : Territories) (r c : Z) : bool :=
  getb (is_soil env) (r * width env + c).

Definition day_number (env : Territories) : Z :=
  Z.rem (tick env + STARTING_DAY) (SUMMER_DURATION + WINTER_DURATION).

(** [if (env->tick < env->min_ep_length) stats = f stats]. *)
Definition count_stat (env : Territories) (f : Stats -> Stats) : Territories :=
  if tick env <? min_ep_length env then upd_stats env f else env.

(** [rand()]: the next value of the stream, in [0, RAND_MAX]. *)
Definition rand (env : Territories) : Z * Territories :=
  match rand_state env with
  | [] => (0, env)
  | x :: s => (x mod (RAND_MAX + 1), set_rand_state env s)
  end.

(** ** Kinship *)

Definition kinship_get (env : Territories) (pid1 pid2 ng : Z) : Z :=
  for_range 0 ng
    (fun i result =>
       u8 (result +
           (if geti (dnas env) (pid1 * ng + i) =? geti (dnas env) (pid2 * ng + i)
            then 1 else 0)))
    0.

Definition kinship_matrix_reset (env : Territories) : Territories :=
  let env1 :=
    set_kinship_matrix env
      (fill 0 (max_agents env * max_agents env) (kinship_matrix env)) in
  for_range 0 (max_agents env)
    (fun i e =>
       set_kinship_matrix e
         (zset (kinship_matrix e) (i * max_agents e + i) (u8 (n_genes e))))
    env1.

Definition kinship_matrix_update (env : Territories) (pid : Z) : Territories :=
  let env1 :=
    set_prev_family_sizes env
      (zset (prev_family_sizes env) pid (u16 (n_genes env))) in
  for_range 0 (max_agents env)
    (fun pid2 e =>
       if negb (getb (alive_mask (agent_manager e)) pid2) || (pid2 =? pid)
       then e
       else
         let kinship := kinship_get e pid pid2 (n_genes e) in
         let e1 :=
           set_kinship_matrix e
             (zset (kinship_matrix e) (pid * max_agents e + pid2) kinship) in
         let e2 :=
           set_kinship_matrix e1
             (zset (kinship_matrix e1) (pid2 * max_agents e1 + pid) kinship) in
         set_prev_family_sizes e2
           (zset (prev_family_sizes e2) pid
              (u16 (geti (prev_family_sizes e2) pid + kinship))))
    env1.

(** ** Agent management *)

Definition agent_manager_reset (env : Territories) : Territories :=
  upd_am env (fun am =>
    {| alive_bitset := bitset_clear (alive_bitset am);
       alive_mask := fill false (max_agents env) (alive_mask am);
       free_pids := fill 0 (max_agents env) (free_pids am);
       alive_pids := fill 0 (max_agents env) (alive_pids am);
       free_count := 0;
       alive_count := 0;
       next_pid := 0 |}).

(** Returns the environment and the slot, [-1] when the cap is reached. *)
Definition spawn_agent (env : Territories) (r c : Z) : Territories * Z :=
  let am := agent_manager env in
  if alive_count am >=? max_agents env then (env, -1)
  else
    let '(am1, pid) :=
      if free_count am >? 0 then
        let fc := u16 (free_count am - 1) in
        (set_free_count am fc, geti (free_pids am) fc)
      else
        (set_next_pid am (u16 (next_pid am + 1)), next_pid am) in
    let am2 := set_alive_mask am1 (zset (alive_mask am1) pid true) in
    let am3 := set_alive_count am2 (u16 (alive_count am2 + 1)) in
    let am4 := set_alive_bitset am3 (bitset_add (alive_bitset am3) pid) in
    let env1 := set_agent_manager env am4 in
    let '(x, env2) := rand env1 in
    let env3 :=
      upd_agent env2 pid (fun a =>
        {| Agent.r := r;
           Agent.c := c;
           Agent.dir := Z.rem x 4;
           Agent.hp := 1;
           Agent.hp_max := 1;
           Agent.satiation := MAX_SATIATION;
           Agent.max_satiation := MAX_SATIATION;
           Agent.age := 0;
           Agent.food_carried := 0;
           Agent.stone_carried := 0;
           Agent.role := Agent.role a |}) in
    (env3, pid).

Definition kill_agent (env : Territories) (pid : Z) : Territories :=
  let am := agent_manager env in
  if negb (getb (alive_mask am) pid) then env
  else
    let am1 := set_alive_mask am (zset (alive_mask am) pid false) in
    let am2 := set_free_pids am1 (zset (free_pids am1) (free_count am1) (u16 pid)) in
    let am3 := set_free_count am2 (u16 (free_count am2 + 1)) in
    let am4 := set_alive_count am3 (u16 (alive_count am3 - 1)) in
    let am5 := set_alive_bitset am4 (bitset_remove (alive_bitset am4) pid) in
    let env1 := set_agent_manager env am5 in
    let agent := ag env1 pid in
    let env2 :=
      upd_stats env1 (fun s =>
        set_agent_life_expectancy s
          (f_add (agent_life_expectancy s) (f_of_int (Agent.age agent)))) in
    upd_stats env2 (fun s => set_agent_n s (f_add (agent_n s) (f_of_int 1))).

(** The assertion on the count is compiled out. *)
Definition update_alive_pids (env : Territories) : Territories :=
  upd_am env (fun am =>
    set_alive_pids am
      (fst (bitset_update_members (alive_bitset am) (alive_pids am)))).

(** ** World mechanics *)

Definition get_growth_days (env : Territories) (r c : Z) : Z :=
  if is_winter env
     || negb (soil_at env r c)
     || (tile env r c STORED_FOOD >? 0)
     || (tile env r c STONE >? 0)
     || (tile env r c WALL_HP >? 0)
  then 0
  else Z.min (day_number env - tile env r c LAST_HARVEST) MAX_GROWTH_DURATION.

Definition start_crop_growth (env : Territories) : Territories :=
  for_range 0 (height env)
    (fun r e =>
       for_range 0 (width e)
         (fun c e' =>
            if soil_at e' r c then set_tile e' r c LAST_HARVEST 0 else e')
         e)
    env.

(** The sprite bookkeeping of the rendering client is left out. *)
Definition place_wall (env : Territories) (r c : Z) : Territories :=
  if tile env r c WALL_HP >? 0 then env
  else
    let env1 := for_range 0 3 (fun i e => set_tile e r c i 0) env in
    set_tile env1 r c WALL_HP WALL_HP_MAX.

Definition destroy_wall (env : Territories) (r c : Z) : Territories :=
  if tile env r c WALL_HP =? 0 then env
  else
    let env1 := set_tile env r c WALL_HP 0 in
    let day := day_number env1 in
    if negb (is_winter env1) && soil_at env1 r c
    then set_tile env1 r c LAST_HARVEST day
    else env1.

Definition tile_is_blocked (env : Territories) (r c : Z) : bool :=
  (tile env r c WALL_HP >? 0)
  || (tile env r c STONE >? 0)
  || negb (pid_at env r c =? -1).

(** ** Agent actions *)

Definition _agent_can_reproduce (agent : Agent.t) : bool :=
  (Agent.age agent >=? REPRODUCTION_AGE)
  && (Agent.satiation agent >? Z.quot MAX_SATIATION 2).

(** The offsets visited by the two nested loops over [-1..1], the centre
    skipped, in the order of the loops. *)
Definition moore_offsets : list (Z * Z) :=
  flat_map
    (fun r_offset =>
       flat_map
         (fun c_offset =>
            if (r_offset =? 0) && (c_offset =? 0) then []
            else [(r_offset, c_offset)])
         [-1; 0; 1])
    [-1; 0; 1].

(** First element of a scan on which the body returns. *)
Fixpoint scan {A B : Type} (f : A -> option B) (l : list A) : option B :=
  match l with
  | [] => None
  | x :: t => match f x with Some y => Some y | None => scan f t end
  end.

Definition find_empty_cell (r c : Z) (env : Territories) : Z :=
  let R := height env in
  let C := width env in
  match
    scan
      (fun o : Z * Z =>
         let tr := Z.rem (r + fst o + R) R in
         let tc := Z.rem (c + snd o + C) C in
         if negb (tile_is_blocked env tr tc) then Some (tr * C + tc) else None)
      moore_offsets
  with
  | Some adr => adr
  | None => -1
  end.

Definition _find_mate (agent : Agent.t) (env : Territories) : Z :=
  let R := height env in
  let C := width env in
  let r := Agent.r agent in
  let c := Agent.c agent in
  match
    scan
      (fun o : Z * Z =>
         let tr := Z.rem (r + fst o + R) R in
         let tc := Z.rem (c + snd o + C) C in
         let pid := zget (-1) (pids_2d env) (tr * C + tc) in
         if negb (pid =? -1) && (geti (actions env) pid =? REPRODUCE)
         then if _agent_can_reproduce (ag env pid) then Some pid else None
         else None)
      moore_offsets
  with
  | Some pid => pid
  | None => -1
  end.

Definition agent_reproduce (pid : Z) (env : Territories) : Territories :=
  let agent := ag env pid in
  if negb (_agent_can_reproduce agent)
     || (alive_count (agent_manager env) >=? max_agents env)
  then env
  else
    let mate_pid := _find_mate agent env in
    if mate_pid =? -1 then env
    else
      let empty_adr := find_empty_cell (Agent.r agent) (Agent.c agent) env in
      let env1 :=
        upd_agent env pid (fun a =>
          Agent.set_satiation a (Agent.satiation a - Z.quot MAX_SATIATION 2)) in
      let env2 :=
        upd_agent env1 mate_pid (fun a =>
          Agent.set_satiation a (Agent.satiation a - Z.quot MAX_SATIATION 2)) in
      let new_r := Z.quot empty_adr (width env2) in
      let new_c := Z.rem empty_adr (width env2) in
      let '(env3, child_pid) := spawn_agent env2 new_r new_c in
      let env4 := set_pid_at env3 new_r new_c child_pid in
      let env5 :=
        for_range 0 (n_genes env4)
          (fun j e =>
             let '(x, e1) := rand e in
             let p := Z.rem x 2 in
             set_dnas e1
               (zset (dnas e1) (child_pid * n_genes e1 + j)
                  (u8 (if p =? 0
                       then geti (dnas e1) (pid * n_genes e1 + j)
                       else geti (dnas e1) (mate_pid * n_genes e1 + j)))))
          env4 in
      let '(x, env6) := rand env5 in
      let env7 :=
        upd_agent env6 child_pid (fun a =>
          Agent.set_role a (Z.rem x (n_roles env6))) in
      let env8 := kinship_matrix_update env7 child_pid in
      count_stat env8 (fun s => set_births s (f_add (births s) (f_of_int 1))).

(** The scan of [agent_mine]: the first cardinal direction with stone. *)
Definition mine_scan (pid : Z) (env : Territories) : option (Z * Z * Z) :=
  let R := height env in
  let C := width env in
  let agent := ag env pid in
  scan
    (fun d : Z =>
       let rr := Z.rem (Agent.r agent + fst (DELTAS d) + R) R in
       let cc := Z.rem (Agent.c agent + snd (DELTAS d) + C) C in
       if tile env rr cc STONE >? 0 then Some (d, rr, cc) else None)
    [0; 1; 2; 3].

Definition agent_mine (pid : Z) (env : Territories) : Territories :=
  if Agent.stone_carried (ag env pid) >=? MAX_STONE_CARRYING_CAPACITY then env
  else
    match mine_scan pid env with
    | None => env
    | Some (d, target_r, target_c) =>
        let env1 := upd_agent env pid (fun a => Agent.set_dir a d) in
        if target_c =? -1 then env1
        else
          let env2 :=
            set_tile env1 target_r target_c STONE
              (tile env1 target_r target_c STONE - 1) in
          let env3 :=
            upd_agent env2 pid (fun a =>
              Agent.set_stone_carried a (Agent.stone_carried a + 1)) in
          count_stat env3 (fun s =>
            set_stone_mined s
              (f_add (stone_mined s) (f_of_int STONE_MINED_PER_TICK)))
    end.

(** The scan of [agent_attack]: the four directions clockwise from the
    facing of the agent; in each direction the cell read is the one at
    [deltas[dir][0]].  Returns the direction, the target cell and whether
    it holds a wall. *)
Definition attack_scan (pid : Z) (env : Territories)
  : option (Z * Z * Z * bool) :=
  let agent := ag env pid in
  let r := Agent.r agent in
  let c := Agent.c agent in
  let R := height env in
  let C := width env in
  scan
    (fun direction : Z =>
       let d := Z.rem (Agent.dir agent + direction) 4 in
       let dr := fst (ATTACK_SWORD d 0) in
       let dc := snd (ATTACK_SWORD d 0) in
       let rr := Z.rem (r + dr + R) R in
       let cc := Z.rem (c + dc + C) C in
       if tile env rr cc WALL_HP >? 0 then Some (d, rr, cc, true)
       else if negb (pid_at env rr cc =? -1) then Some (d, rr, cc, false)
       else None)
    [0; 1; 2; 3].

Definition agent_attack (pid : Z) (env : Territories) : Territories :=
  match attack_scan pid env with
  | None => env
  | Some (d, target_r, target_c, is_wall) =>
      let env1 := upd_agent env pid (fun a => Agent.set_dir a d) in
      if is_wall then
        let env2 :=
          set_tile env1 target_r target_c WALL_HP
            (tile env1 target_r target_c WALL_HP - 1) in
        if tile env2 target_r target_c WALL_HP =? 0 then
          let env3 :=
            count_stat env2 (fun s =>
              set_wall_destroyed s (f_add (wall_destroyed s) (f_of_int 1))) in
          destroy_wall env3 target_r target_c
        else env2
      else
        let target_pid := pid_at env1 target_r target_c in
        let env2 :=
          upd_agent env1 target_pid (fun a =>
            Agent.set_hp a (Agent.hp a - 1)) in
        if Agent.hp (ag env2 target_pid) =? 0 then
          let env3 :=
            count_stat env2 (fun s =>
              set_murders s (f_add (murders s) (f_of_int 1))) in
          let env4 :=
            upd_agent env3 pid (fun a =>
              Agent.set_satiation a
                (Z.min MAX_SATIATION
                   (Agent.satiation a
                    + Z.quot (Agent.satiation (ag env3 target_pid)) 2))) in
          let env5 :=
            upd_agent env4 pid (fun a =>
              Agent.set_stone_carried a
                (Z.min MAX_STONE_CARRYING_CAPACITY
                   (Agent.stone_carried a
                    + Agent.stone_carried (ag env4 target_pid)))) in
          upd_agent env5 pid (fun a =>
            Agent.set_food_carried a
              (Z.min MAX_FOOD_CARRYING_CAPACITY
                 (Agent.food_carried a
                  + Agent.food_carried (ag env5 target_pid))))
        else env2
  end.

(** ** Rewards *)

Fixpoint copy_nat {A : Type} (n : nat) (src dst : list A) : list A :=
  match n, src, dst with
  | S n', s :: src', _ :: dst' => s :: copy_nat n' src' dst'
  | _, _, _ => dst
  end.

(** [memcpy] of the first [n] cells of [src] over [dst]. *)
Definition copy {A : Type} (n : Z) (src dst : list A) : list A :=
  copy_nat (Z.to_nat n) src dst.

(** The inner loop of both reward kernels: [family_sizes[pid]] is cleared
    and receives the kinship of [pid] with every entry of the alive list. *)
Definition sum_family (env : Territories) (pid : Z) : Territories :=
  let am := agent_manager env in
  let env1 := set_family_sizes env (zset (family_sizes env) pid 0) in
  for_range 0 (alive_count am)
    (fun j e =>
       let pid2 := geti (alive_pids am) j in
       set_family_sizes e
         (zset (family_sizes e) pid
            (u16 (geti (family_sizes e) pid
                  + geti (kinship_matrix e) (pid * max_agents e + pid2)))))
    env1.

Definition add_total_reward (env : Territories) (pid : Z) : Territories :=
  count_stat env (fun s =>
    set_total_reward s
      (f_add (total_reward s) (zget 0%Q (rewards env) pid))).

Definition _delta_rewards (env : Territories) : Territories :=
  let am := agent_manager env in
  let env' :=
    for_range 0 (max_agents env)
      (fun pid e =>
         if getb (alive_mask am) pid || negb (geti (terminals e) pid =? 0)
         then
           let e1 := sum_family e pid in
           let e2 :=
             set_rewards e1
               (zset (rewards e1) pid
                  (f_div
                     (f_sub (f_of_int (geti (family_sizes e1) pid))
                            (f_of_int (geti (prev_family_sizes e1) pid)))
                     (f_of_int (n_genes e1)))) in
           add_total_reward e2 pid
         else e)
      env in
  set_prev_family_sizes env'
    (copy (max_agents env') (family_sizes env') (prev_family_sizes env')).

Definition _growth_rate_rewards (env : Territories) : Territories :=
  let am := agent_manager env in
  let env' :=
    for_range 0 (max_agents env)
      (fun pid e =>
         if getb (alive_mask am) pid || negb (geti (terminals e) pid =? 0)
         then
           let e1 := sum_family e pid in
           let fs := geti (family_sizes e1) pid in
           let prev := geti (prev_family_sizes e1) pid in
           let e2 :=
             if fs =? 0 then
               let e' :=
                 set_rewards e1 (zset (rewards e1) pid (extinction_reward e1)) in
               if prev >? 1 then
                 set_rewards e'
                   (zset (rewards e') pid
                      (d_to_f
                         (d_add (f_to_d (zget 0%Q (rewards e') pid))
                            (d_log
                               (f_to_d
                                  (f_div (f_of_int 1) (f_of_int prev)))))))
               else e'
             else
               set_rewards e1
                 (zset (rewards e1) pid
                    (d_to_f
                       (d_log
                          (f_to_d (f_div (f_of_int fs) (f_of_int prev)))))) in
           add_total_reward e2 pid
         else e)
      env in
  set_prev_family_sizes env'
    (copy (max_agents env') (family_sizes env') (prev_family_sizes env')).

Definition compute_rewards (env : Territories) : Territories :=
  if reward_growth_rate env then _growth_rate_rewards env
  else _delta_rewards env.

(** ** Shuffle ([utils/helper.h]) *)

(** The rounds [i, i-1, ..., i-k+1] of the Fisher-Yates loop on the alive
    list; [i], [j] and [temp] are [short]. *)
Fixpoint shuffle_rounds (k : nat) (i : Z) (env : Territories) : Territories :=
  match k with
  | O => env
  | S k' =>
      let '(x, env1) := rand env in
      let j := s16 (Z.rem x (i + 1)) in
      let arr := alive_pids (agent_manager env1) in
      let temp := s16 (geti arr i) in
      let arr1 := zset arr i (geti arr j) in
      let arr2 := zset arr1 j (u16 temp) in
      shuffle_rounds k' (i - 1)
        (upd_am env1 (fun am => set_alive_pids am arr2))
  end.

(** [shuffle(am->alive_pids, n)]. *)
Definition shuffle (env : Territories) (n : Z) : Territories :=
  let i := s16 (n - 1) in
  shuffle_rounds (Z.to_nat i) i env.

(** ** The crop law *)

(** [(int)(exp(K * growth_days) - 1)]. *)
Definition crop_available (growth_days : Z) : Z :=
  d_to_int (d_sub (d_exp (d_mul d_K (d_of_int growth_days))) (d_of_int 1)).

(** ** The per-agent part of [c_step] *)

(** Ageing, metabolism and eating, before the action. *)
Definition pre_action (pid : Z) (env : Territories) : Territories :=
  let env1 := upd_agent env pid (fun a => Agent.set_age a (Agent.age a + 1)) in
  let env2 :=
    if Agent.age (ag env1 pid) =? REPRODUCTION_AGE then
      upd_agent env1 pid (fun a =>
        Agent.set_hp (Agent.set_hp_max a MAX_HP) MAX_HP)
    else env1 in
  let env3 :=
    upd_agent env2 pid (fun a =>
      Agent.set_satiation a (Agent.satiation a - METABOLISM_RATE)) in
  if Agent.food_carried (ag env3 pid) >? 0 then
    let appetite := MAX_SATIATION - Agent.satiation (ag env3 pid) in
    let food_to_eat := Z.min appetite (Agent.food_carried (ag env3 pid)) in
    let env4 :=
      upd_agent env3 pid (fun a =>
        Agent.set_food_carried a (Agent.food_carried a - food_to_eat)) in
    let env5 :=
      upd_agent env4 pid (fun a =>
        Agent.set_satiation a (Agent.satiation a + food_to_eat)) in
    count_stat env5 (fun s =>
      set_food_eaten s (f_add (food_eaten s) (f_of_int food_to_eat)))
  else env3.

(** The branch [action >= MOVE_UP && action <= MOVE_LEFT]. *)
Definition step_move (pid action : Z) (env : Territories) : Territories :=
  let R := height env in
  let C := width env in
  let agent := ag env pid in
  let env1 :=
    if action =? Agent.dir agent then
      let new_r :=
        if action =? MOVE_UP then Agent.r agent - 1
        else if action =? MOVE_RIGHT then Agent.r agent
        else if action =? MOVE_DOWN then Agent.r agent + 1
        else Agent.r agent in
      let new_c :=
        if action =? MOVE_UP then Agent.c agent
        else if action =? MOVE_RIGHT then Agent.c agent + 1
        else if action =? MOVE_DOWN then Agent.c agent
        else Agent.c agent - 1 in
      let new_r := Z.rem (new_r + R) R in
      let new_c := Z.rem (new_c + C) C in
      if negb (tile_is_blocked env new_r new_c) then
        let e1 := set_pid_at env (Agent.r agent) (Agent.c agent) (-1) in
        let e2 := set_pid_at e1 new_r new_c pid in
        upd_agent e2 pid (fun a => Agent.set_c (Agent.set_r a new_r) new_c)
      else env
    else env in
  upd_agent env1 pid (fun a => Agent.set_dir a action).

(** The branch [action == PICKUP]; [day] is the day number read at the top
    of [c_step], before the tick is advanced. *)
Definition step_pickup (day pid : Z) (env : Territories) : Territories :=
  let agent := ag env pid in
  let r := Agent.r agent in
  let c := Agent.c agent in
  let food_capacity := MAX_FOOD_CARRYING_CAPACITY - Agent.food_carried agent in
  if tile env r c STORED_FOOD >? 0 then
    let stored_food := tile env r c STORED_FOOD in
    let food_to_pickup := Z.min stored_food food_capacity in
    let env1 := set_tile env r c STORED_FOOD (stored_food - food_to_pickup) in
    let env2 :=
      upd_agent env1 pid (fun a =>
        Agent.set_food_carried a (Agent.food_carried a + food_to_pickup)) in
    if (food_to_pickup =? stored_food) && negb (is_winter env2)
       && soil_at env2 r c
    then set_tile env2 r c LAST_HARVEST day
    else env2
  else
    let growth_days := get_growth_days env r c in
    if growth_days >? 0 then
      let crop := crop_available growth_days in
      let food_to_pickup := Z.min crop food_capacity in
      let env1 := set_tile env r c LAST_HARVEST day in
      let env2 :=
        upd_agent env1 pid (fun a =>
          Agent.set_food_carried a (Agent.food_carried a + food_to_pickup)) in
      if food_to_pickup <? crop
      then set_tile env2 r c STORED_FOOD (crop - food_to_pickup)
      else env2
    else env.

(** The branch [action == PACKAGE_FOOD]. *)
Definition step_package (day pid : Z) (env : Territories) : Territories :=
  let r := Agent.r (ag env pid) in
  let c := Agent.c (ag env pid) in
  let growth_days := get_growth_days env r c in
  let env1 :=
    if growth_days >? 0 then
      let crop := crop_available growth_days in
      let e1 := set_tile env r c LAST_HARVEST day in
      let e2 := set_tile e1 r c STORED_FOOD (tile e1 r c STORED_FOOD + crop) in
      count_stat e2 (fun s =>
        set_food_stored s (f_add (food_stored s) (f_of_int crop)))
    else env in
  if Agent.food_carried (ag env1 pid) >? 0 then
    let tile_storage_capacity :=
      MAX_FOOD_STORAGE_CAPACITY - tile env1 r c STORED_FOOD in
    let food_to_drop :=
      Z.min (Agent.food_carried (ag env1 pid)) tile_storage_capacity in
    let e1 :=
      set_tile env1 r c STORED_FOOD (tile env1 r c STORED_FOOD + food_to_drop) in
    let e2 :=
      upd_agent e1 pid (fun a =>
        Agent.set_food_carried a (Agent.food_carried a - food_to_drop)) in
    count_stat e2 (fun s =>
      set_food_stored s (f_add (food_stored s) (f_of_int food_to_drop)))
  else env1.

(** The branch [action == BUILD_WALL]. *)
Definition step_build_wall (pid : Z) (env : Territories) : Territories :=
  let agent := ag env pid in
  if Agent.stone_carried agent >? 0 then
    let R := height env in
    let C := width env in
    let wall_r := Z.rem (Agent.r agent + fst (DELTAS (Agent.dir agent)) + R) R in
    let wall_c := Z.rem (Agent.c agent + snd (DELTAS (Agent.dir agent)) + C) C in
    if negb (tile_is_blocked env wall_r wall_c) then
      let e1 := place_wall env wall_r wall_c in
      let e2 :=
        upd_agent e1 pid (fun a =>
          Agent.set_stone_carried a (Agent.stone_carried a - 1)) in
      count_stat e2 (fun s =>
        set_walls_built s (f_add (walls_built s) (f_of_int 1)))
    else env
  else env.

(** The dispatch on the action code; every other code does nothing. *)
Definition do_action (day pid action : Z) (env : Territories) : Territories :=
  if (action >=? MOVE_UP) && (action <=? MOVE_LEFT) then step_move pid action env
  else if action =? PICKUP then step_pickup day pid env
  else if action =? MINE then agent_mine pid env
  else if action =? PACKAGE_FOOD then step_package day pid env
  else if action =? BUILD_WALL then step_build_wall pid env
  else if action =? ATTACK then agent_attack pid env
  else if action =? REPRODUCE then agent_reproduce pid env
  else env.

(** One round of the loop "Agents act" of [c_step], for the entry [i] of
    the shuffled alive list.  The assertion on the satiation is compiled
    out. *)
Definition agent_turn (day i : Z) (env : Territories) : Territories :=
  let pid := geti (alive_pids (agent_manager env)) i in
  if Agent.hp (ag env pid) <=? 0 then env
  else
    let env1 := pre_action pid env in
    let action := geti (actions env1) pid in
    let env2 := do_action day pid action env1 in
    if Agent.satiation (ag env2 pid) <=? 0 then
      count_stat env2 (fun s =>
        set_starvations s (f_add (starvations s) (f_of_int 1)))
    else env2.

(** One round of the death sweep of [c_step]. *)
Definition sweep_turn (i : Z) (env : Territories) : Territories :=
  let pid := geti (alive_pids (agent_manager env)) i in
  let agent := ag env pid in
  if (Agent.satiation agent <=? 0) || (Agent.hp agent <=? 0) then
    let e1 := kill_agent env pid in
    let e2 := set_pid_at e1 (Agent.r agent) (Agent.c agent) (-1) in
    set_terminals e2 (zset (terminals e2) pid 1)
  else env.

(** ** Reset and step *)

(** [update_episode_logs]: the aggregates go to the episode log, which is
    not modelled; every statistic is cleared. *)
Definition update_episode_logs (env : Territories) : Territories :=
  let z := f_of_int 0 in
  set_stats env (mkStats z z z z z z z z z z z z z z).

(** One breeding pair of [c_reset]: the body of [while (true)], retried on
    [continue].  [None] when the retries are used up. *)
Fixpoint spawn_pair (retries : nat) (env : Territories) : option Territories :=
  match retries with
  | O => None
  | S k =>
      let '(x, env1) := rand env in
      let adr := Z.rem x (width env1 * height env1) in
      let r := Z.quot adr (width env1) in
      let c := Z.rem adr (width env1) in
      if tile_is_blocked env1 r c then spawn_pair k env1
      else
        let n_adr := find_empty_cell r c env1 in
        if n_adr =? -1 then spawn_pair k env1
        else
          let r_2 := Z.quot n_adr (width env1) in
          let c_2 := Z.rem n_adr (width env1) in
          let '(env2, pid) := spawn_agent env1 r c in
          let env3 := set_pid_at env2 r c pid in
          let '(env4, pid2) := spawn_agent env3 r_2 c_2 in
          let env5 := set_pid_at env4 r_2 c_2 pid2 in
          let env6 :=
            for_range 0 (n_genes env5)
              (fun j e =>
                 let '(y, e1) := rand e in
                 let allele := Z.rem y (n_alleles e1) in
                 let e2 :=
                   set_dnas e1
                     (zset (dnas e1) (pid * n_genes e1 + j) (u8 allele)) in
                 set_dnas e2
                   (zset (dnas e2) (pid2 * n_genes e2 + j) (u8 allele)))
              env5 in
          let env7 := upd_agent env6 pid (fun a => Agent.set_role a 0) in
          let env8 := upd_agent env7 pid2 (fun a => Agent.set_role a 0) in
          let env9 := kinship_matrix_update env8 pid in
          Some (kinship_matrix_update env9 pid2)
  end.

(** The part of [c_reset] before the breeding pairs are placed.  The stone
    anchors [(int)((0.25 + 0.50*i) * R)] are [R/4] and [3R/4]: both
    products are exact in double precision. *)
Definition reset_world (env : Territories) : Territories :=
  let N := max_agents env in
  let env1 := set_truncations env (fill 0 N (truncations env)) in
  let env2 := set_prev_family_sizes env1 (fill 0 N (prev_family_sizes env1)) in
  let env3 := set_is_winter (set_tick env2 0) false in
  let '(x, env4) := rand env3 in
  let env5 :=
    set_next_max_ep_length env4
      (min_ep_length env4
       + Z.rem x (max_ep_length env4 - min_ep_length env4)) in
  let cells := width env5 * height env5 in
  let env6 := set_pids_2d env5 (fill (-1) cells (pids_2d env5)) in
  let env7 :=
    if alive_count (agent_manager env6) >? 0 then
      update_alive_pids
        (for_range 0 (alive_count (agent_manager env6))
           (fun i e => kill_agent e (geti (alive_pids (agent_manager e)) i))
           env6)
    else env6 in
  let env8 := set_tile_props env7 (fill 0 (cells * 4) (tile_props env7)) in
  let C := width env8 in
  let R := height env8 in
  let env9 :=
    for_range 0 2
      (fun ri e =>
         for_range 0 2
           (fun ci e' =>
              let r := Z.quot ((1 + 2 * ri) * R) 4 in
              let c := Z.quot ((1 + 2 * ci) * C) 4 in
              set_tile e' r c STONE STONE_PER_MINE)
           e)
      env8 in
  let env10 := set_tile env9 (Z.quot R 2) (Z.quot C 2) STONE STONE_PER_MINE in
  let env11 :=
    for_range 0 cells
      (fun i e => set_pids_2d e (zset (pids_2d e) i (-1)))
      env10 in
  agent_manager_reset (kinship_matrix_reset env11).

Definition bind_env (o : option Territories)
  (f : Territories -> option Territories) : option Territories :=
  match o with
  | Some e => f e
  | None => None
  end.

(** [c_reset], with [retries] rounds allowed to every [while (true)].  The
    observations written at the end are not modelled. *)
Definition c_reset (retries : nat) (env : Territories) : option Territories :=
  bind_env (spawn_pair retries (reset_world env)) (fun e1 =>
  bind_env (spawn_pair retries e1) (fun e2 =>
  bind_env (spawn_pair retries e2) (fun e3 =>
  bind_env (spawn_pair retries e3) (fun e4 =>
  Some (compute_rewards (update_alive_pids e4)))))).

(** The season switch at the top of a tick; [day] is the day number before
    the tick is advanced. *)
Definition season_update (day : Z) (env : Territories) : Territories :=
  if negb (is_winter env) && (day >=? SUMMER_DURATION)
  then set_is_winter env true
  else if is_winter env && (day <? SUMMER_DURATION)
  then start_crop_growth (set_is_winter env false)
  else env.

Definition population_stats (env : Territories) : Territories :=
  let n := f_of_int (alive_count (agent_manager env)) in
  count_stat
    (count_stat
       (count_stat env (fun s =>
          set_avg_population s (f_add (avg_population s) n)))
       (fun s => set_max_pop s (f_max (max_pop s) n)))
    (fun s => set_min_pop s (f_min (min_pop s) n)).

(** The loop "Agents act": the first [alive_count] entries of the shuffled
    list, the count being read before the loop. *)
Definition action_pass (day : Z) (env : Territories) : Territories :=
  for_range 0 (alive_count (agent_manager env)) (agent_turn day) env.

Definition death_sweep (env : Territories) : Territories :=
  for_range 0 (alive_count (agent_manager env)) sweep_turn env.

(** The tick of [c_step] when the episode goes on, up to the death sweep
    and the truncation flags. *)
Definition tick_body (env : Territories) : Territories :=
  let day := day_number env in
  let env1 := season_update day env in
  let env2 := set_tick env1 (tick env1 + 1) in
  let env3 := population_stats env2 in
  let env4 := shuffle env3 (alive_count (agent_manager env3)) in
  let env5 := action_pass day env4 in
  let env6 := update_alive_pids env5 in
  let env7 := death_sweep env6 in
  let env8 := update_alive_pids env7 in
  if tick env8 >=? next_max_ep_length env8
  then set_truncations env8 (fill 1 (max_agents env8) (truncations env8))
  else env8.

(** [c_step].  The observations written at the end are not modelled. *)
Definition c_step (retries : nat) (env : Territories) : option Territories :=
  let env0 := set_terminals env (fill 0 (max_agents env) (terminals env)) in
  if (alive_count (agent_manager env0) =? 0)
     || (tick env0 >=? next_max_ep_length env0)
  then c_reset retries (update_episode_logs env0)
  else Some (compute_rewards (tick_body env0)).

(** ** Vocabulary of the statements *)

(** [f lo + f (lo+1) + ... + f (lo+n-1)]. *)
Fixpoint zsum (f : Z -> Z) (lo : Z) (n : nat) : Z :=
  match n with
  | O => 0
  | S n' => f lo + zsum f (lo + 1) n'
  end.

(** The kinship of [pid] summed over the alive list. *)
Definition kin_sum (env : Territories) (pid : Z) : Z :=
  let am := agent_manager env in
  zsum
    (fun j =>
       geti (kinship_matrix env) (pid * max_agents env + geti (alive_pids am) j))
    0 (Z.to_nat (alive_count am)).

(** The reward the delta kernel writes for [pid], from the family size it
    has just computed and the previous one. *)
Definition delta_reward (env : Territories) (pid : Z) : float :=
  f_div
    (f_sub (f_of_int (u16 (kin_sum env pid)))
           (f_of_int (geti (prev_family_sizes env) pid)))
    (f_of_int (n_genes env)).

Definition rewarded (env : Territories) (pid : Z) : bool :=
  getb (alive_mask (agent_manager env)) pid
  || negb (geti (terminals env) pid =? 0).

Definition delta_body (am : AgentManager) (pid : Z) (e : Territories)
  : Territories :=
  if getb (alive_mask am) pid || negb (geti (terminals e) pid =? 0)
  then
    let e1 := sum_family e pid in
    let e2 :=
      set_rewards e1
        (zset (rewards e1) pid
           (f_div
              (f_sub (f_of_int (geti (family_sizes e1) pid))
                     (f_of_int (geti (prev_family_sizes e1) pid)))
              (f_of_int (n_genes e1)))) in
    add_total_reward e2 pid
  else e.

Definition delta_inv (env : Territories) (i : Z) (e : Territories) : Prop :=
  agent_manager e = agent_manager env
  /\ kinship_matrix e = kinship_matrix env
  /\ terminals e = terminals env
  /\ prev_family_sizes e = prev_family_sizes env
  /\ max_agents e = max_agents env
  /\ n_genes e = n_genes env
  /\ length (family_sizes e) = length (family_sizes env)
  /\ length (rewards e) = length (rewards env)
  /\ forall p, 0 <= p < i -> rewarded env p = true ->
       geti (family_sizes e) p = u16 (kin_sum env p)
       /\ zget 0%Q (rewards e) p = delta_reward env p.

(** ** Invariants *)

(** The buffers have the sizes [init] and the host give them, and the
    capacity admits the four breeding pairs of [c_reset]. *)
Definition well_configured (env : Territories) : Prop :=
  let N := max_agents env in
  let am := agent_manager env in
  8 <= N <= 65535
  /\ 0 <= n_genes env <= 255
  /\ Z.of_nat (length (kinship_matrix env)) = N * N
  /\ Z.of_nat (length (alive_mask am)) = N
  /\ Z.of_nat (length (free_pids am)) = N
  /\ Z.of_nat (length (tile_props env)) = width env * height env * 4.

(** The kinship matrix is symmetric with [n_genes] on its diagonal. *)
Definition kin_inv (env : Territories) : Prop :=
  let N := max_agents env in
  forall i j, 0 <= i < N -> 0 <= j < N ->
    geti (kinship_matrix env) (i * N + i) = n_genes env
    /\ geti (kinship_matrix env) (i * N + j)
       = geti (kinship_matrix env) (j * N + i).

Fixpoint count_true (l : list bool) : Z :=
  match l with
  | [] => 0
  | b :: t => (if b then 1 else 0) + count_true t
  end.

(** The slot manager: the alive count is the number of raised flags, the
    free stack holds distinct dead slots below the high-water mark, and
    every alive slot is below the mark. *)
Definition am_inv (env : Territories) : Prop :=
  let am := agent_manager env in
  let N := max_agents env in
  0 <= free_count am
  /\ next_pid am = alive_count am + free_count am
  /\ next_pid am <= N
  /\ alive_count am = count_true (alive_mask am)
  /\ (forall k, 0 <= k < free_count am ->
        0 <= geti (free_pids am) k < next_pid am
        /\ getb (alive_mask am) (geti (free_pids am) k) = false)
  /\ (forall k k', 0 <= k < k' -> k' < free_count am ->
        geti (free_pids am) k <> geti (free_pids am) k')
  /\ (forall p, getb (alive_mask am) p = true -> p < next_pid am).

(** Off soil the harvest day of a tile stays 0. *)
Definition tile_inv (env : Territories) : Prop :=
  forall i, 0 <= i < width env * height env ->
    getb (is_soil env) i = false ->
    geti (tile_props env) (i * 4) = 0.

Definition engine_inv (env : Territories) : Prop :=
  well_configured env /\ am_inv env /\ kin_inv env /\ tile_inv env.

(** The states of a run: the host resets a configured environment, then
    alternates writing the actions and stepping. *)
Inductive reachable : Territories -> Prop :=
| reach_reset (env env' : Territories) (retries : nat) :
    well_configured env ->
    c_reset retries env = Some env' ->
    reachable env'
| reach_actions (env : Territories) (acts : list Z) :
    reachable env ->
    reachable (set_actions env acts)
| reach_step (env env' : Territories) (retries : nat) :
    reachable env ->
    c_step retries env = Some env' ->
    reachable env'.

(** The part of the environment the invariants read. *)
Definition am_core (am : AgentManager)
  : list bool * list Z * Z * Z * Z :=
  (alive_mask am, free_pids am, free_count am, alive_count am, next_pid am).

Definition core (env : Territories) :=
  (max_agents env, n_genes env, width env, height env, is_soil env,
   kinship_matrix env, tile_props env, am_core (agent_manager env)).

(** The kinship matrix apart, the two environments read the same. *)
Definition same_but_kinship (e e' : Territories) : Prop :=
  max_agents e' = max_agents e
  /\ n_genes e' = n_genes e
  /\ width e' = width e
  /\ height e' = height e
  /\ is_soil e' = is_soil e
  /\ tile_props e' = tile_props e
  /\ alive_mask (agent_manager e') = alive_mask (agent_manager e)
  /\ free_pids (agent_manager e') = free_pids (agent_manager e).

End Engine.

(** ** An instance of the floating-point interface

    Exact rational arithmetic: no rounding, [exp] by its Taylor polynomial
    of degree 40 and [log] by 60 terms of the series of
    [2 * atanh ((x - 1) / (x + 1))].  It serves to evaluate the engine on
    closed inputs; the statements proved for every instance do not rely on
    it.  Its [double] operations are accurate in the sense of
    [double_accurate]. *)

Fixpoint q_exp_terms (n : nat) (k : Z) (term acc x : Q) : Q :=
  match n with
  | O => acc
  | S n' =>
      let term' := Qred (term * x / inject_Z k) in
      q_exp_terms n' (k + 1) term' (Qred (acc + term')) x
  end.

Definition q_exp (x : Q) : Q := q_exp_terms 40 1 1%Q 1%Q x.

Fixpoint q_atanh_terms (n : nat) (k : Z) (pow acc z2 : Q) : Q :=
  match n with
  | O => acc
  | S n' =>
      let pow' := Qred (pow * z2) in
      q_atanh_terms n' (k + 2) pow' (Qred (acc + pow' / inject_Z k)) z2
  end.

Definition q_log (x : Q) : Q :=
  let z := Qred ((x - 1) / (x + 1)) in
  Qred (2 * q_atanh_terms 60 3 z z (Qred (z * z))).

Definition q_trunc (x : Q) : Z := Z.quot (Qnum x) (Z.pos (Qden x)).

#[export] Instance rational_float : CFloat :=
  {| f_of_int := inject_Z;
     f_add := Qplus;
     f_sub := Qminus;
     f_div := Qdiv;
     f_ltb := fun a b => negb (Qle_bool b a);
     f_to_d := fun x => x;
     d_to_f := fun x => x;
     d_of_int := inject_Z;
     d_K := (7167543 # 100000000)%Q;
     d_add := Qplus;
     d_sub := Qminus;
     d_mul := Qmult;
     d_exp := q_exp;
     d_log := q_log;
     d_to_int := q_trunc |}.

(** ** Initial states

    [init] receives the environment from the host: the parameters are
    set, and the buffers the host owns (actions, rewards, terminals,
    truncations, the kinship matrix, the genes and the alive mask) are
    allocated.  [init] checks its assertions, allocates the agents, the
    family sizes, the tiles and the grid with [calloc], reads the soil
    map and builds the slot manager. *)

Definition zeros (n : Z) : list Z := repeat 0 (Z.to_nat n).

Definition bitset_create (maxn : Z) : BitSet :=
  let w := Z.quot (maxn + 63) 64 in
  {| max_num := maxn; words := w; data := zeros w |}.

(** [mask] is [env->alive_mask], the array of the host that the manager
    takes as its alive mask. *)
Definition agent_manager_init (N : Z) (mask : list bool) : AgentManager :=
  {| alive_bitset := bitset_create N;
     alive_mask := mask;
     free_pids := zeros N;
     alive_pids := zeros N;
     free_count := 0;
     alive_count := 0;
     next_pid := 0 |}.

Section Init.

Context {fl : CFloat}.

(** The assertions at the head of [init]; a failed assertion aborts. *)
Definition init_asserts (env : Territories) : bool :=
  (n_genes env <? 4) && (n_genes env >=? 0)
  && (max_agents env >? 0)
  && (n_roles env >? 0)
  && (min_ep_length env >? 0)
  && (min_ep_length env <? max_ep_length env)
  && f_ltb (extinction_reward env) (f_of_int 0)
  && (n_alleles env >? 0).

(** [init]: [None] when an assertion fails.  [soil] is the map that
    [read_is_soil] reads from its file and [mask] the alive mask of the
    host. *)
Definition init (soil mask : list bool) (env : Territories)
  : option Territories :=
  if init_asserts env then
    let N := max_agents env in
    let cells := width env * height env in
    Some
      {| stats := stats env;
         extinction_reward := extinction_reward env;
         agents := repeat Agent.zero (Z.to_nat N);
         agent_manager := agent_manager_init N mask;
         pids_2d := zeros cells;
         is_soil := soil;
         tile_props := zeros (cells * 4);
         actions := actions env;
         rewards := rewards env;
         terminals := terminals env;
         truncations := truncations env;
         kinship_matrix := kinship_matrix env;
         dnas := dnas env;
         family_sizes := zeros N;
         prev_family_sizes := zeros N;
         n_genes := n_genes env;
         n_alleles := n_alleles env;
         width := width env;
         height := height env;
         tick := tick env;
         is_winter := is_winter env;
         max_agents := N;
         n_roles := n_roles env;
         min_ep_length := min_ep_length env;
         max_ep_length := max_ep_length env;
         next_max_ep_length := next_max_ep_length env;
         reward_growth_rate := reward_growth_rate env;
         rand_state := rand_state env |}
  else None.

End Init.

(** The environment as a host hands it to [init]: the parameters, zeroed
    buffers of the sizes the engine indexes them with ([max_agents]
    entries, [max_agents * max_agents] for the kinship matrix,
    [max_agents * n_genes] for the genes), and nothing allocated yet for
    what [init] allocates.  [seed] is the stream [rand()] will deliver. *)
Definition host_env (W H N genes alleles roles min_ep max_ep : Z)
  (growth : bool) (extinction : float) (seed : list Z) : Territories :=
  let z := 0%Q in
  {| stats := mkStats z z z z z z z z z z z z z z;
     extinction_reward := extinction;
     agents := [];
     agent_manager :=
       {| alive_bitset := {| max_num := 0; words := 0; data := [] |};
          alive_mask := [];
          free_pids := [];
          alive_pids := [];
          free_count := 0;
          alive_count := 0;
          next_pid := 0 |};
     pids_2d := [];
     is_soil := [];
     tile_props := [];
     actions := zeros N;
     rewards := repeat z (Z.to_nat N);
     terminals := zeros N;
     truncations := zeros N;
     kinship_matrix := zeros (N * N);
     dnas := zeros (N * genes);
     family_sizes := [];
     prev_family_sizes := [];
     n_genes := genes;
     n_alleles := alleles;
     width := W;
     height := H;
     tick := 0;
     is_winter := false;
     max_agents := N;
     n_roles := roles;
     min_ep_length := min_ep;
     max_ep_length := max_ep;
     next_max_ep_length := 0;
     reward_growth_rate := growth;
     rand_state := seed |}.

(** The environment after [init], for parameters that pass its
    assertions. *)
Definition boot (W H N genes alleles roles min_ep max_ep : Z)
  (growth : bool) (extinction : float) (soil : list bool) (seed : list Z)
  : Territories :=
  let host :=
    host_env W H N genes alleles roles min_ep max_ep growth extinction seed in
  match init soil (repeat false (Z.to_nat N)) host with
  | Some env => env
  | None => host
  end.

(** ** Scenarios

    Closed environments on a 5 x 5 map of soil with 8 slots, one gene, two
    alleles and one role, built from [init] with the operations of the
    engine.  The grid starts empty: every cell of [pids_2d] holds -1, as
    [c_reset] leaves it before the agents are placed. *)

Definition meadow (seed : list Z) : Territories :=
  let env := boot 5 5 8 1 2 1 50 100 false (-1 # 1)%Q (repeat true 25) seed in
  set_pids_2d env (fill (-1) (width env * height env) (pids_2d env)).

(** An agent spawned on a free cell and entered in the grid, as [c_reset]
    does, then given a facing, an age, hp and a satiation. *)
Definition settle (env : Territories) (r c facing years health sat : Z)
  : Territories :=
  let '(env1, pid) := spawn_agent env r c in
  let env2 := set_pid_at env1 r c pid in
  upd_agent env2 pid (fun a =>
    Agent.set_satiation
      (Agent.set_hp
         (Agent.set_hp_max (Agent.set_age (Agent.set_dir a facing) years)
            health)
         health)
      sat).

(** A young agent at (2,2) facing up, and a wall on the cell straight
    ahead, (1,2): the middle cell of the arc [(-1,-1), (-1,0), (-1,1)]. *)
Definition wall_ahead_scene : Territories :=
  place_wall (settle (meadow []) 2 2 0 3 1 100) 1 2.

(** A run of the host: one vector of actions, then one step, for every
    entry of the script. *)
Definition play (retries : nat) (script : list (list Z)) (env : Territories)
  : option Territories :=
  fold_left
    (fun o acts => bind_env o (fun e => c_step retries (set_actions e acts)))
    script (Some env).

(** A 4 x 4 map of soil with 16 slots.  The stream of [rand()] makes
    [c_reset] put the four pairs on (0,0)-(3,0), (0,1)-(3,2), (0,3)-(0,2)
    and (1,0)-(2,3), and then keeps every shuffle in slot order. *)
Definition hamlet : Territories :=
  boot 4 4 16 1 2 1 50 100 false (-1 # 1)%Q (repeat true 16)
    ([0; 0; 0; 0; 0; 1; 0; 0; 0; 3; 0; 0; 0; 4; 0; 0; 0]
     ++ concat (repeat [7; 6; 5; 4; 3; 2; 1] 11)).

(** Ten ticks: slots 0 and 1 pick up the crop of their tiles, then
    everybody waits. *)
Definition hamlet_script : list (list Z) :=
  (PICKUP :: PICKUP :: repeat NOOP 14) :: repeat (repeat NOOP 16) 9.

(** The hamlet as [c_reset] leaves it, and ten ticks later. *)
Definition hamlet_at_reset :=
  Eval vm_compute in
    match c_reset 20 hamlet with
    | Some env => env
    | None => hamlet
    end.

Definition hamlet_after_ten :=
  Eval vm_compute in
    match play 0 hamlet_script hamlet_at_reset with
    | Some env => env
    | None => hamlet
    end.

(** The host then asks slots 0 and 1 to reproduce.  All eight agents are
    adults.  Slot 0 stands on (0,0): its neighbours are the stones (3,3),
    (3,1), (1,3), (1,1) and the agents on (3,0), (0,3), (0,1), (1,0). *)
Definition crowded_hamlet :=
  Eval vm_compute in
    set_actions hamlet_after_ten (REPRODUCE :: REPRODUCE :: repeat NOOP 14).

(** Two attackers and one victim: slot 0 at (2,2) facing up, slot 1 at
    (2,0) facing right, and slot 2 at (1,1) with 1 hp, satiation 80, 20
    food and 3 stone.  (1,1) is the cell both attackers read first. *)
Definition ambush_scene : Territories :=
  let env1 := settle (meadow []) 2 2 0 10 3 60 in
  let env2 := settle env1 2 0 1 10 3 60 in
  let env3 := settle env2 1 1 2 3 1 80 in
  let env4 :=
    upd_agent env3 2 (fun a =>
      Agent.set_stone_carried (Agent.set_food_carried a 20) 3) in
  update_alive_pids env4.

(** What the attacker holds after a loot of [target], from the state
    [env] before the hit. *)
Definition looted (env env' : Territories) (attacker target : Z) : Prop :=
  Agent.satiation (ag env' attacker)
  = Z.min MAX_SATIATION
      (Agent.satiation (ag env attacker)
       + Z.quot (Agent.satiation (ag env target)) 2)
  /\ Agent.stone_carried (ag env' attacker)
     = Z.min MAX_STONE_CARRYING_CAPACITY
         (Agent.stone_carried (ag env attacker)
          + Agent.stone_carried (ag env target))
  /\ Agent.food_carried (ag env' attacker)
     = Z.min MAX_FOOD_CARRYING_CAPACITY
         (Agent.food_carried (ag env attacker)
          + Agent.food_carried (ag env target)).

(** A single agent on summer soil at (2,2). *)
Definition forager_scene : Territories :=
  update_alive_pids (settle (meadow []) 2 2 0 3 1 100).

(** The same map with grass on the cell (0,1), before any reset, and the
    episode that [c_reset] starts on it. *)
Definition pasture : Territories :=
  boot 5 5 8 1 2 1 50 100 false (-1 # 1)%Q
    (true :: false :: repeat true 23)
    [7; 0; 1; 2; 3; 4; 5; 6; 7; 8; 9; 10; 11; 12; 13; 14; 15; 16; 17; 18; 19;
     20; 21; 22; 23; 24; 25; 26; 27; 28; 29; 30; 31; 32; 33; 34; 35; 36; 37;
     38; 39; 40].

Definition first_episode : Territories :=
  match c_reset 20 pasture with
  | Some env => env
  | None => pasture
  end.

(** The ambush after the first attacker has struck. *)
Definition ambush_after_first_hit : Territories :=
  agent_attack 0 ambush_scene.

(** A 4 x 4 map of soil with 4 slots only: [init] asks for
    [max_agents > 0].  The stream of [rand()] makes [c_reset] put the
    first pair on (0,0)-(3,0) with allele 1 and the second pair on
    (0,1)-(3,2) with allele 0; it then draws the cells (0,3) and (1,0) and
    the allele 0 for the third and fourth pairs. *)
Definition cramped : Territories :=
  boot 4 4 4 1 2 1 50 100 false (-1 # 1)%Q (repeat true 16)
    [0; 0; 0; 0; 1; 1; 0; 0; 0; 3; 0; 4; 0].

Definition cramped_at_reset :=
  Eval vm_compute in
    match c_reset 20 cramped with
    | Some env => env
    | None => cramped
    end.


(** ** Vocabulary of the bitset *)

(** [lo, lo+1, ..., lo+n-1]. *)
Fixpoint zrange (lo : Z) (n : nat) : list Z :=
  match n with
  | O => []
  | S n' => lo :: zrange (lo + 1) n'
  end.

Definition bitset_mem (bs : BitSet) (x : Z) : bool :=
  bitset_contains bs x =? 1.

(** The elements of the set, in ascending order. *)
Definition bitset_elements (bs : BitSet) : list Z :=
  filter (bitset_mem bs) (zrange 0 (Z.to_nat (max_num bs))).

(** The shape [bitset_create] gives a set: [words] 64-bit words, and no
    bit raised at or above [max_num]. *)
Definition bitset_wf (bs : BitSet) : Prop :=
  0 <= max_num bs
  /\ words bs = Z.quot (max_num bs + 63) 64
  /\ Z.of_nat (length (data bs)) = words bs
  /\ (forall wi, 0 <= geti (data bs) wi < 2 ^ 64)
  /\ (forall wi b, 0 <= wi -> 0 <= b < 64 ->
        Z.testbit (geti (data bs) wi) b = true -> wi * 64 + b < max_num bs).

(** The elements below [B], ascending. *)
Definition elements_below (bs : BitSet) (B : Z) : list Z :=
  filter (bitset_mem bs) (zrange 0 (Z.to_nat B)).

(** The state of [bitset_update_members] once every element below [B] is
    written: [members[0..n)] lists them in ascending order. *)
Definition listed (bs : BitSet) (members0 : list Z) (B : Z)
  (st : list Z * Z) : Prop :=
  snd st = Z.of_nat (length (elements_below bs B))
  /\ length (fst st) = length members0
  /\ firstn (Z.to_nat (snd st)) (fst st) = elements_below bs B.

(** ** Vocabulary of the kinship update *)

(** The kinship of [pid] with the slot [q] when [q] is alive and is not
    [pid], and 0 otherwise. *)
Definition kin_with_alive (env : Territories) (pid q : Z) : Z :=
  if getb (alive_mask (agent_manager env)) q && negb (q =? pid)
  then kinship_get env pid q (n_genes env)
  else 0.

(** ** Vocabulary of the slot manager *)

(** Every field but the agents, the slot manager, the statistics and the
    random stream. *)
Definition world (env : Territories) :=
  (extinction_reward env, pids_2d env, is_soil env, tile_props env,
   actions env, rewards env, terminals env, truncations env,
   kinship_matrix env, dnas env, family_sizes env, prev_family_sizes env,
   (n_genes env, n_alleles env, width env, height env, tick env,
    is_winter env, max_agents env, n_roles env, min_ep_length env,
    max_ep_length env, next_max_ep_length env, reward_growth_rate env)).

(** The record [spawn_agent] writes in the slot it takes. *)
Definition newborn (r c facing caste : Z) : Agent.t :=
  {| Agent.r := r; Agent.c := c; Agent.dir := facing;
     Agent.hp := 1; Agent.hp_max := 1;
     Agent.satiation := MAX_SATIATION; Agent.max_satiation := MAX_SATIATION;
     Agent.age := 0; Agent.food_carried := 0; Agent.stone_carried := 0;
     Agent.role := caste |}.

(** ** Vocabulary of the neighbourhood scans *)

(** The cell at the offset [o] of [(r, c)] on the torus. *)
Definition neighbour (env : Territories) (r c : Z) (o : Z * Z) : Z * Z :=
  (Z.rem (r + fst o + height env) (height env),
   Z.rem (c + snd o + width env) (width env)).

(** The test of [_find_mate] on the occupant of a cell. *)
Definition willing_mate (env : Territories) (pid : Z) : bool :=
  negb (pid =? -1) && (geti (actions env) pid =? REPRODUCE)
  && _agent_can_reproduce (ag env pid).

(** ** Vocabulary of the life invariants *)

(** The bounds the engine keeps on an agent. *)
Definition agent_ok (a : Agent.t) : Prop :=
  Agent.hp a <= Agent.hp_max a
  /\ Agent.hp_max a <= MAX_HP
  /\ Agent.satiation a <= Agent.max_satiation a
  /\ Agent.max_satiation a = MAX_SATIATION
  /\ Agent.stone_carried a <= MAX_STONE_CARRYING_CAPACITY
  /\ 0 <= Agent.age a.

Definition healthy (a : Agent.t) : Prop :=
  0 < Agent.hp a /\ 0 < Agent.satiation a.

Definition agent_fit (a : Agent.t) : Prop := agent_ok a /\ healthy a.

(** Every slot whose alive flag is raised holds an agent with [J]. *)
Definition agents_sat (J : Agent.t -> Prop) (env : Territories) : Prop :=
  forall p, getb (alive_mask (agent_manager env)) p = true -> J (ag env p).

(** The alive bitset and the alive mask describe the same set. *)
Definition bits_agree (env : Territories) : Prop :=
  bitset_wf (alive_bitset (agent_manager env))
  /\ forall p,
       bitset_mem (alive_bitset (agent_manager env)) p
       = getb (alive_mask (agent_manager env)) p.

(** The sizes of the buffers of the slot manager and of the agents. *)
Definition shape (env : Territories) :=
  let am := agent_manager env in
  (max_agents env, length (agents env), length (alive_mask am),
   length (alive_pids am), max_num (alive_bitset am),
   words (alive_bitset am), length (data (alive_bitset am))).

(** The sizes [init] and [agent_manager_init] give these buffers. *)
Definition allocated (env : Territories) : Prop :=
  let am := agent_manager env in
  let N := max_agents env in
  Z.of_nat (length (agents env)) = N
  /\ Z.of_nat (length (alive_mask am)) = N
  /\ Z.of_nat (length (alive_pids am)) = N
  /\ max_num (alive_bitset am) = N
  /\ words (alive_bitset am) = Z.quot (N + 63) 64
  /\ Z.of_nat (length (data (alive_bitset am))) = words (alive_bitset am).

Definition life (J : Agent.t -> Prop) (env : Territories) : Prop :=
  allocated env /\ bits_agree env /\ agents_sat J env.

(** What the life invariants read. *)
Definition vit (env : Territories) :=
  (shape env, agents env, alive_bitset (agent_manager env),
   alive_mask (agent_manager env)).

(** [e'] has the sizes of [e] and the life invariants of [e]. *)
Definition keeps (J : Agent.t -> Prop) (e e' : Territories) : Prop :=
  shape e' = shape e /\ (life J e -> life J e').

(** The same from a state with the invariants of the engine, which [e']
    then has too. *)
Definition carries (J : Agent.t -> Prop) (e e' : Territories) : Prop :=
  engine_inv e -> engine_inv e' /\ keeps J e e'.

(** The alive slots, ascending. *)
Definition alive_slots (env : Territories) : list Z :=
  filter (getb (alive_mask (agent_manager env)))
    (zrange 0 (Z.to_nat (max_agents env))).

(** The head of the alive list is the list of the alive slots. *)
Definition alive_listed (env : Territories) : Prop :=
  firstn (Z.to_nat (alive_count (agent_manager env)))
    (alive_pids (agent_manager env))
  = alive_slots env.

(** What the rewards leave alone. *)
Definition body (env : Territories) :=
  (agents env, agent_manager env, pids_2d env, tile_props env, is_soil env,
   actions env, terminals env, truncations env, kinship_matrix env, dnas env,
   (n_genes env, n_alleles env, width env, height env, tick env,
    is_winter env, max_agents env, n_roles env, min_ep_length env,
    max_ep_length env, next_max_ep_length env, reward_growth_rate env,
    rand_state env, extinction_reward env)).

(** The configuration, the clock of the episode and the actions. *)
Definition conf (env : Territories) :=
  (extinction_reward env, is_soil env, n_genes env, n_alleles env,
   width env, height env, max_agents env, n_roles env, min_ep_length env,
   max_ep_length env, reward_growth_rate env).

Definition clock (env : Territories) :=
  (tick env, is_winter env, next_max_ep_length env).

Definition era (env : Territories) := (clock env, conf env, actions env).

(** ** More scenarios *)

(** A set over 100 slots holding 3 and 70: two words, one member in
    each. *)
Definition sample_bitset : BitSet :=
  bitset_add (bitset_add (bitset_create 100) 3) 70.

(** The young agent of [wall_ahead_scene] with the wall on (1,1), the
    first cell of the arc it faces. *)
Definition wall_corner_scene : Territories :=
  place_wall (settle (meadow []) 2 2 0 3 1 100) 1 1.

(** The forager with two stones in hand, with three stones on the cell
    ahead of it, and with 40 food stored on its own cell. *)
Definition mason_scene : Territories :=
  upd_agent forager_scene 0 (fun a => Agent.set_stone_carried a 2).

Definition quarry_scene : Territories := set_tile forager_scene 1 2 STONE 3.

Definition larder_scene : Territories :=
  set_tile forager_scene 2 2 STORED_FOOD 40.

(** A family of 21846 agents of one genotype on a 150 x 150 map of soil,
    in delta mode: every slot of the table is alive, the agent of slot
    [p] stands on the cell of address [p], the three genes of all agents
    are equal, and so every cell of the kinship matrix holds 3.  The run
    that breeds such a family is not computed; the state satisfies the
    invariants of the engine. *)
Definition clan_size : Z := 21846.

Definition clan_member (p : Z) : Agent.t :=
  {| Agent.r := Z.quot p 150;
     Agent.c := Z.rem p 150;
     Agent.dir := 0;
     Agent.hp := MAX_HP;
     Agent.hp_max := MAX_HP;
     Agent.satiation := MAX_SATIATION;
     Agent.max_satiation := MAX_SATIATION;
     Agent.age := 60;
     Agent.food_carried := 0;
     Agent.stone_carried := 0;
     Agent.role := 0 |}.

Definition clan : Territories :=
  let N := clan_size in
  let cells := 150 * 150 in
  let z := 0%Q in
  {| stats := mkStats z z z z z z z z z z z z z z;
     extinction_reward := (-1 # 1)%Q;
     agents := map clan_member (zrange 0 (Z.to_nat N));
     agent_manager :=
       {| alive_bitset :=
            {| max_num := N;
               words := 342;
               data := repeat (2 ^ 64 - 1) 341 ++ [2 ^ 22 - 1] |};
          alive_mask := repeat true (Z.to_nat N);
          free_pids := zeros N;
          alive_pids := zrange 0 (Z.to_nat N);
          free_count := 0;
          alive_count := N;
          next_pid := N |};
     pids_2d := zrange 0 (Z.to_nat N) ++ repeat (-1) (Z.to_nat (cells - N));
     is_soil := repeat true (Z.to_nat cells);
     tile_props := zeros (cells * 4);
     actions := repeat NOOP (Z.to_nat N);
     rewards := repeat z (Z.to_nat N);
     terminals := zeros N;
     truncations := zeros N;
     kinship_matrix := repeat 3 (Z.to_nat (N * N));
     dnas := zeros (N * 3);
     family_sizes := zeros N;
     prev_family_sizes := zeros N;
     n_genes := 3;
     n_alleles := 2;
     width := 150;
     height := 150;
     tick := 60;
     is_winter := false;
     max_agents := N;
     n_roles := 1;
     min_ep_length := 50;
     max_ep_length := 100;
     next_max_ep_length := 90;
     reward_growth_rate := false;
     rand_state := [] |}.

(** ** Vocabulary of the crop law

    The crop is computed in [double]; the statement on it is about the
    real exponential.  A [double] is read as the real number it denotes,
    [Q2R]. *)

Section CropLaw.

Local Open Scope R_scope.

(** A term of the series of the exponential. *)
Definition exp_term (x : R) (k : nat) : R := / INR (fact k) * x ^ k.

(** Bounds of the series in fixed point, with [crop_scale] units to 1.
    From the term of degree [k - 1] of [num / den] and the sum up to it,
    [n] more terms; every quotient is rounded down in [series_lo] and up
    in [series_hi].  The result is the last term and the sum. *)
Definition crop_scale : Z := 10 ^ 40.

Fixpoint series_lo (n : nat) (k num den term acc : Z) : Z * Z :=
  match n with
  | O => (term, acc)
  | S n' =>
      let term' := (term * num / (den * k))%Z in
      series_lo n' (k + 1)%Z num den term' (acc + term')%Z
  end.

Fixpoint series_hi (n : nat) (k num den term acc : Z) : Z * Z :=
  match n with
  | O => (term, acc)
  | S n' =>
      let term' := ((term * num + den * k - 1) / (den * k))%Z in
      series_hi n' (k + 1)%Z num den term' (acc + term')%Z
  end.

(** The arithmetic of the crop law is accurate when every operation it
    uses returns its exact result up to a relative error of [2^-30], on
    results of moderate size.  The operations of IEEE-754 binary64 are
    within [2^-53] of the exact result there, the literal [K] is the
    [double] nearest to 0.07167543, a small [int] converts exactly, the
    cast [(int)] truncates, and the [exp] of a C library is accurate to a
    few units in the last place. *)
Definition near (q : Q) (r : R) : Prop :=
  Rabs (Q2R q - r) <= / 2 ^ 30 * Rabs r.

Definition moderate (r : R) : Prop := / 100 <= Rabs r <= 1000.

Definition double_accurate (fl : CFloat) : Prop :=
  (forall z, (Z.abs z <= 1000)%Z -> Q2R (d_of_int z) = IZR z)
  /\ near d_K (7167543 / 100000000)
  /\ (forall a b, moderate (Q2R a * Q2R b) ->
        near (d_mul a b) (Q2R a * Q2R b))
  /\ (forall a b, moderate (Q2R a - Q2R b) ->
        near (d_sub a b) (Q2R a - Q2R b))
  /\ (forall a, 0 <= Q2R a <= 6 -> near (d_exp a) (exp (Q2R a)))
  /\ (forall a, 0 <= Q2R a <= 1000 ->
        IZR (d_to_int a) <= Q2R a < IZR (d_to_int a) + 1).

(** The check that settles the crop of [g] growth days.  With
    [x = 7167543 g / 10^8], the sum of 40 terms rounded down is a lower
    bound of [exp x], and the sum of 40 terms rounded up plus twice the
    term of degree 41 is an upper bound.  [crop_floor g] is the integer
    part of the lower bound of [exp x - 1]; the check is that it lies
    between 0 and 150 and that both bounds of [exp x - 1] stay 1/100000
    away from the integers around them. *)
Definition crop_lo (g : Z) : Z :=
  snd (series_lo 40 1 (7167543 * g) 100000000 crop_scale crop_scale).

Definition crop_hi (g : Z) : Z :=
  let '(t, s) :=
    series_hi 41 1 (7167543 * g) 100000000 crop_scale crop_scale in
  (s + t)%Z.

Definition crop_floor (g : Z) : Z := (crop_lo g / crop_scale - 1)%Z.

Definition margin_ok (n lo hi : Z) : bool :=
  let m := (crop_scale / 100000)%Z in
  ((0 <=? n) && (n <=? 150)
   && (crop_scale * (n + 1) + m <=? lo)
   && (hi <=? crop_scale * (n + 2) - m))%Z.

End CropLaw.

(** * Properties *)

(** ** Arrays and loops *)

Lemma upd_nth_length {A : Type} (n : nat) (v : A) (l : list A) :
  length (upd_nth n v l) = length l.
Proof.
  revert n; induction l as [|h t IH]; intros [|n]; simpl; auto.
Qed.

Lemma nth_upd_nth_eq {A : Type} (n : nat) (v d : A) (l : list A) :
  (n < length l)%nat -> nth n (upd_nth n v l) d = v.
Proof.
  revert n; induction l as [|h t IH]; intros [|n] Hn; simpl in *;
    try lia; auto.
  apply IH; lia.
Qed.

Lemma nth_upd_nth_neq {A : Type} (n m : nat) (v d : A) (l : list A) :
  n <> m -> nth m (upd_nth n v l) d = nth m l d.
Proof.
  revert n m; induction l as [|h t IH]; intros [|n] [|m] Hnm; simpl;
    try congruence; auto.
Qed.

Lemma zset_length {A : Type} (l : list A) (i : Z) (v : A) :
  length (zset l i v) = length l.
Proof.
  unfold zset; destruct (i <? 0); auto using upd_nth_length.
Qed.

Lemma zget_zset_eq {A : Type} (d : A) (l : list A) (i : Z) (v : A) :
  0 <= i < Z.of_nat (length l) -> zget d (zset l i v) i = v.
Proof.
  intros Hi; unfold zget, zset.
  destruct (i <? 0) eqn:E; [lia|].
  apply nth_upd_nth_eq; lia.
Qed.

Lemma zget_zset_neq {A : Type} (d : A) (l : list A) (i j : Z) (v : A) :
  i <> j -> zget d (zset l i v) j = zget d l j.
Proof.
  intros Hij; unfold zget, zset.
  destruct (j <? 0) eqn:Ej; auto.
  destruct (i <? 0) eqn:Ei; auto.
  apply nth_upd_nth_neq; lia.
Qed.

Lemma zget_outside {A : Type} (d : A) (l : list A) (i : Z) :
  i < 0 \/ Z.of_nat (length l) <= i -> zget d l i = d.
Proof.
  intros Hi; unfold zget.
  destruct (i <? 0) eqn:E; auto.
  apply nth_overflow; lia.
Qed.

Lemma zset_outside {A : Type} (l : list A) (i : Z) (v : A) :
  i < 0 \/ Z.of_nat (length l) <= i -> zset l i v = l.
Proof.
  intros Hi; unfold zset.
  destruct (i <? 0) eqn:E; auto.
  assert (Hn : (length l <= Z.to_nat i)%nat) by lia.
  clear Hi E; revert Hn; generalize (Z.to_nat i) as n.
  induction l as [|h t IH]; intros [|n] Hn; simpl in *; auto; try lia.
  f_equal; apply IH; lia.
Qed.

Lemma geti_zset_eq (l : list Z) (i v : Z) :
  0 <= i < Z.of_nat (length l) -> geti (zset l i v) i = v.
Proof. apply zget_zset_eq. Qed.

Lemma geti_zset_neq (l : list Z) (i j v : Z) :
  i <> j -> geti (zset l i v) j = geti l j.
Proof. apply zget_zset_neq. Qed.

(** A write is either dropped or lands in the cell. *)
Lemma zget_zset_cases {A : Type} (d : A) (l : list A) (i j : Z) (v : A) :
  zget d (zset l i v) j = zget d l j
  \/ (i = j /\ 0 <= i < Z.of_nat (length l) /\ zget d (zset l i v) j = v).
Proof.
  destruct (Z.eq_dec i j) as [->|Hne].
  - destruct (Z_lt_dec j 0) as [Hn|Hn].
    + left; rewrite zset_outside by lia; reflexivity.
    + destruct (Z_lt_dec j (Z.of_nat (length l))) as [Hl|Hl].
      * right; repeat split; try lia. apply zget_zset_eq; lia.
      * left; rewrite zset_outside by lia; reflexivity.
  - left; apply zget_zset_neq; assumption.
Qed.

Lemma fill_nat_length {A : Type} (v : A) (n : nat) (l : list A) :
  length (fill_nat v n l) = length l.
Proof.
  revert l; induction n as [|n IH]; intros [|h t]; simpl; auto.
Qed.

Lemma fill_length {A : Type} (v : A) (n : Z) (l : list A) :
  length (fill v n l) = length l.
Proof. apply fill_nat_length. Qed.

Lemma nth_fill_nat {A : Type} (v d : A) (n m : nat) (l : list A) :
  nth m (fill_nat v n l) d
  = if (m <? n)%nat && (m <? length l)%nat then v else nth m l d.
Proof.
  revert m l; induction n as [|n IH]; intros m [|h t]; simpl.
  - reflexivity.
  - reflexivity.
  - destruct m; simpl; [reflexivity|].
    destruct (Nat.ltb_spec (S m) (S n)); reflexivity.
  - destruct m as [|m]; simpl; [reflexivity|].
    rewrite IH.
    change (S m <? S n)%nat with (m <? n)%nat.
    change (S m <? S (length t))%nat with (m <? length t)%nat.
    reflexivity.
Qed.

Lemma zget_fill_in {A : Type} (v d : A) (n : Z) (l : list A) (i : Z) :
  0 <= i < n -> i < Z.of_nat (length l) -> zget d (fill v n l) i = v.
Proof.
  intros Hi Hl; unfold zget, fill.
  destruct (i <? 0) eqn:E; [lia|].
  rewrite nth_fill_nat.
  destruct (Nat.ltb_spec (Z.to_nat i) (Z.to_nat n)); [|lia].
  destruct (Nat.ltb_spec (Z.to_nat i) (length l)); [|lia].
  reflexivity.
Qed.

Lemma zget_fill_default {A : Type} (v : A) (n : Z) (l : list A) (i : Z) :
  0 <= i < n -> zget v (fill v n l) i = v.
Proof.
  intros Hi.
  destruct (Z_lt_dec i (Z.of_nat (length l))) as [Hl|Hl].
  - apply zget_fill_in; assumption.
  - apply zget_outside; rewrite fill_length; lia.
Qed.

Lemma copy_nat_length {A : Type} (n : nat) (src dst : list A) :
  length (copy_nat n src dst) = length dst.
Proof.
  revert src dst; induction n as [|n IH]; intros [|s src] [|x dst]; simpl; auto.
Qed.

Lemma nth_copy_nat {A : Type} (d : A) (n m : nat) (src dst : list A) :
  (m < n)%nat -> (m < length src)%nat -> (m < length dst)%nat ->
  nth m (copy_nat n src dst) d = nth m src d.
Proof.
  revert m src dst; induction n as [|n IH]; intros m [|s src] [|x dst];
    simpl; intros Hn Hs Hd; try lia.
  destruct m as [|m]; [reflexivity|].
  apply IH; lia.
Qed.

Lemma zget_copy {A : Type} (d : A) (n : Z) (src dst : list A) (i : Z) :
  0 <= i < n -> i < Z.of_nat (length src) -> i < Z.of_nat (length dst) ->
  zget d (copy n src dst) i = zget d src i.
Proof.
  intros Hi Hs Hd; unfold zget, copy.
  destruct (i <? 0) eqn:E; [lia|].
  apply nth_copy_nat; lia.
Qed.

(** Invariants of counted loops. *)
Lemma for_up_ind {St : Type} (P : Z -> St -> Prop) (body : Z -> St -> St)
  (n : nat) (lo : Z) (s : St) :
  P lo s ->
  (forall i x, lo <= i < lo + Z.of_nat n -> P i x -> P (i + 1) (body i x)) ->
  P (lo + Z.of_nat n) (for_up n lo body s).
Proof.
  revert lo s; induction n as [|n IH]; intros lo s H0 Hstep.
  - simpl. replace (lo + 0) with lo by lia. exact H0.
  - simpl for_up.
    replace (lo + Z.of_nat (S n)) with ((lo + 1) + Z.of_nat n) by lia.
    apply IH.
    + apply Hstep; [lia|exact H0].
    + intros i x Hi; apply Hstep; lia.
Qed.

Lemma for_up_preserves {St : Type} (P : St -> Prop) (body : Z -> St -> St)
  (n : nat) (lo : Z) (s : St) :
  P s ->
  (forall i x, lo <= i < lo + Z.of_nat n -> P x -> P (body i x)) ->
  P (for_up n lo body s).
Proof.
  intros H0 Hstep.
  apply (for_up_ind (fun _ => P)); assumption.
Qed.

Lemma for_range_preserves {St : Type} (P : St -> Prop) (body : Z -> St -> St)
  (lo hi : Z) (s : St) :
  P s ->
  (forall i x, lo <= i < hi -> P x -> P (body i x)) ->
  P (for_range lo hi body s).
Proof.
  intros H0 Hstep; unfold for_range.
  apply for_up_preserves; [assumption|].
  intros i x Hi; apply Hstep; lia.
Qed.

Lemma for_range_ind {St : Type} (P : Z -> St -> Prop) (body : Z -> St -> St)
  (lo hi : Z) (s : St) :
  lo <= hi ->
  P lo s ->
  (forall i x, lo <= i < hi -> P i x -> P (i + 1) (body i x)) ->
  P hi (for_range lo hi body s).
Proof.
  intros Hle H0 Hstep; unfold for_range.
  replace hi with (lo + Z.of_nat (Z.to_nat (hi - lo))) at 1 by lia.
  apply for_up_ind; [assumption|].
  intros i x Hi; apply Hstep; lia.
Qed.

Section Proofs.

Context {fl : CFloat}.

(** Reduction of the record projections through the field updates. *)
Ltac fld :=
  cbn [stats extinction_reward agents agent_manager pids_2d is_soil
       tile_props actions rewards terminals truncations kinship_matrix dnas
       family_sizes prev_family_sizes n_genes n_alleles width height tick
       is_winter max_agents n_roles min_ep_length max_ep_length
       next_max_ep_length reward_growth_rate rand_state
       set_stats set_agents set_agent_manager set_pids_2d set_tile_props
       set_actions set_rewards set_terminals set_truncations
       set_kinship_matrix set_dnas set_family_sizes set_prev_family_sizes
       set_tick set_is_winter set_next_max_ep_length set_rand_state
       upd_agent upd_am upd_stats set_tile set_pid_at
       alive_bitset alive_mask free_pids alive_pids free_count alive_count
       next_pid set_alive_bitset set_alive_mask set_free_pids set_alive_pids
       set_free_count set_alive_count set_next_pid] in *.

Ltac fld_goal :=
  cbn [stats extinction_reward agents agent_manager pids_2d is_soil
       tile_props actions rewards terminals truncations kinship_matrix dnas
       family_sizes prev_family_sizes n_genes n_alleles width height tick
       is_winter max_agents n_roles min_ep_length max_ep_length
       next_max_ep_length reward_growth_rate rand_state
       set_stats set_agents set_agent_manager set_pids_2d set_tile_props
       set_actions set_rewards set_terminals set_truncations
       set_kinship_matrix set_dnas set_family_sizes set_prev_family_sizes
       set_tick set_is_winter set_next_max_ep_length set_rand_state
       upd_agent upd_am upd_stats set_tile set_pid_at
       alive_bitset alive_mask free_pids alive_pids free_count alive_count
       next_pid set_alive_bitset set_alive_mask set_free_pids set_alive_pids
       set_free_count set_alive_count set_next_pid].

(** ** Reading back agents and tiles *)

Lemma ag_upd_agent_eq (env : Territories) (pid : Z) (f : Agent.t -> Agent.t) :
  0 <= pid < Z.of_nat (length (agents env)) ->
  ag (upd_agent env pid f) pid = f (ag env pid).
Proof.
  intros H; unfold ag; fld_goal. apply zget_zset_eq; assumption.
Qed.

Lemma ag_upd_agent_neq (env : Territories) (pid q : Z) (f : Agent.t -> Agent.t) :
  pid <> q -> ag (upd_agent env pid f) q = ag env q.
Proof.
  intros H; unfold ag; fld_goal. apply zget_zset_neq; assumption.
Qed.

Lemma agents_upd_agent_length (env : Territories) (pid : Z)
  (f : Agent.t -> Agent.t) :
  length (agents (upd_agent env pid f)) = length (agents env).
Proof. fld_goal; apply zset_length. Qed.

Lemma tile_set_tile_eq (env : Territories) (r c k v : Z) :
  0 <= tile_adr env r c k < Z.of_nat (length (tile_props env)) ->
  tile (set_tile env r c k v) r c k = u16 v.
Proof.
  intros H; unfold tile, tile_adr in *; fld_goal.
  unfold geti; apply zget_zset_eq; assumption.
Qed.

Lemma tile_set_tile_other (env : Territories) (r c k v r' c' k' : Z) :
  tile_adr env r c k <> tile_adr env r' c' k' ->
  tile (set_tile env r c k v) r' c' k' = tile env r' c' k'.
Proof.
  intros H; unfold tile, tile_adr in *; fld_goal.
  unfold geti; apply zget_zset_neq; assumption.
Qed.

Lemma day_number_mod (env : Territories) :
  0 <= tick env ->
  day_number env = (tick env + 55) mod 110.
Proof.
  intros H; unfold day_number, STARTING_DAY, SUMMER_DURATION, WINTER_DURATION.
  apply Z.rem_mod_nonneg; lia.
Qed.

(** ** The slot manager: killing a dead slot *)

Lemma kill_agent_not_alive (env : Territories) (pid : Z) :
  getb (alive_mask (agent_manager env)) pid = false ->
  kill_agent env pid = env.
Proof.
  intros H; unfold kill_agent; rewrite H; reflexivity.
Qed.

(** Killing twice is killing once. *)
Lemma kill_agent_twice (env : Territories) (pid : Z) :
  kill_agent (kill_agent env pid) pid = kill_agent env pid.
Proof.
  destruct (getb (alive_mask (agent_manager env)) pid) eqn:E.
  - assert (Hin : 0 <= pid < Z.of_nat (length (alive_mask (agent_manager env)))).
    { destruct (Z_lt_dec pid 0) as [Hn|Hn];
        [unfold getb in E; rewrite zget_outside in E by lia; discriminate|].
      destruct (Z_lt_dec pid (Z.of_nat (length (alive_mask (agent_manager env)))))
        as [Hl|Hl]; [lia|].
      unfold getb in E; rewrite zget_outside in E by lia; discriminate. }
    set (e1 := kill_agent env pid).
    assert (Hd : getb (alive_mask (agent_manager e1)) pid = false).
    { subst e1; unfold kill_agent; rewrite E; fld_goal.
      unfold getb; apply zget_zset_eq; assumption. }
    unfold kill_agent at 1; rewrite Hd; reflexivity.
  - rewrite (kill_agent_not_alive env pid E).
    apply kill_agent_not_alive; assumption.
Qed.

(** C10.  [kill_agent] on a slot whose alive flag is not set returns the
    environment it was given: the free stack, the alive bitset, the alive
    mask, the alive count and the life-expectancy statistics are those of
    the argument.  Hence a second kill of a slot, from any state, adds
    nothing to the first. *)
Theorem kill_agent_dead_slot_noop (env : Territories) (pid : Z) :
  getb (alive_mask (agent_manager env)) pid = false ->
  kill_agent env pid = env
  /\ free_pids (agent_manager (kill_agent env pid))
     = free_pids (agent_manager env)
  /\ free_count (agent_manager (kill_agent env pid))
     = free_count (agent_manager env)
  /\ alive_bitset (agent_manager (kill_agent env pid))
     = alive_bitset (agent_manager env)
  /\ alive_mask (agent_manager (kill_agent env pid))
     = alive_mask (agent_manager env)
  /\ alive_count (agent_manager (kill_agent env pid))
     = alive_count (agent_manager env)
  /\ agent_life_expectancy (stats (kill_agent env pid))
     = agent_life_expectancy (stats env)
  /\ agent_n (stats (kill_agent env pid)) = agent_n (stats env)
  /\ forall env0, kill_agent (kill_agent env0 pid) pid = kill_agent env0 pid.
Proof.
  intros H. rewrite (kill_agent_not_alive env pid H).
  repeat split; try reflexivity.
  intros env0; apply kill_agent_twice.
Qed.

(** ** The action pass: slots already at zero hp *)

(** C9.  In the loop "Agents act", the round of an agent whose hp is zero
    or below returns the environment unchanged: no ageing, no metabolism,
    no eating, and the chosen action is not run. *)
Theorem agent_turn_skips_dead_agent (day i : Z) (env : Territories) :
  Agent.hp (ag env (geti (alive_pids (agent_manager env)) i)) <= 0 ->
  agent_turn day i env = env.
Proof.
  intros H; unfold agent_turn.
  destruct (Z.leb_spec (Agent.hp (ag env (geti (alive_pids (agent_manager env)) i))) 0);
    [reflexivity|lia].
Qed.

(** ** Crop growth and harvest *)

Lemma get_growth_days_positive_soil (env : Territories) (r c : Z) :
  0 < get_growth_days env r c ->
  is_winter env = false /\ soil_at env r c = true.
Proof.
  unfold get_growth_days.
  destruct (is_winter env); simpl; [lia|].
  destruct (soil_at env r c); simpl; [auto|lia].
Qed.

Lemma tile_set_tile_col (env : Territories) (r c k v k' : Z) :
  k <> k' -> tile (set_tile env r c k v) r c k' = tile env r c k'.
Proof.
  intros H; apply tile_set_tile_other; unfold tile_adr; lia.
Qed.

Lemma tile_upd_agent (env : Territories) (pid : Z) (f : Agent.t -> Agent.t)
  (r c k : Z) :
  tile (upd_agent env pid f) r c k = tile env r c k.
Proof. reflexivity. Qed.

Lemma ag_set_tile (env : Territories) (r c k v pid : Z) :
  ag (set_tile env r c k v) pid = ag env pid.
Proof. reflexivity. Qed.

Lemma tile_props_set_tile_length (env : Territories) (r c k v : Z) :
  length (tile_props (set_tile env r c k v)) = length (tile_props env).
Proof. fld_goal; apply zset_length. Qed.

(** The growth of a cell. *)
Lemma growth_days_law (env : Territories) (r c : Z) :
  0 <= tick env ->
  (is_winter env = true \/ soil_at env r c = false
   \/ 0 < tile env r c STORED_FOOD \/ 0 < tile env r c STONE
   \/ 0 < tile env r c WALL_HP ->
   get_growth_days env r c = 0)
  /\ (is_winter env = false -> soil_at env r c = true ->
      tile env r c STORED_FOOD <= 0 -> tile env r c STONE <= 0 ->
      tile env r c WALL_HP <= 0 ->
      get_growth_days env r c
      = Z.min ((tick env + 55) mod 110 - tile env r c LAST_HARVEST) 70).
Proof.
  intros Htick. split.
  - intros H; unfold get_growth_days.
    destruct (is_winter env); [reflexivity|].
    destruct (soil_at env r c); [|reflexivity].
    simpl.
    destruct (Z.gtb_spec (tile env r c STORED_FOOD) 0); [reflexivity|].
    destruct (Z.gtb_spec (tile env r c STONE) 0); [reflexivity|].
    destruct (Z.gtb_spec (tile env r c WALL_HP) 0); [reflexivity|].
    simpl.
    destruct H as [H|[H|[H|[H|H]]]]; try discriminate; lia.
  - intros Hw Hs H1 H2 H3; unfold get_growth_days.
    rewrite Hw, Hs; simpl.
    destruct (Z.gtb_spec (tile env r c STORED_FOOD) 0); [lia|].
    destruct (Z.gtb_spec (tile env r c STONE) 0); [lia|].
    destruct (Z.gtb_spec (tile env r c WALL_HP) 0); [lia|].
    simpl. rewrite day_number_mod by assumption. reflexivity.
Qed.

Lemma growth_days_at_most_70 (env : Territories) (r c : Z) :
  get_growth_days env r c <= 70.
Proof.
  unfold get_growth_days, MAX_GROWTH_DURATION.
  match goal with
  | |- (if ?b then _ else _) <= _ => destruct b
  end; lia.
Qed.

(** A pickup on a cell without stored food and with [g > 0] growth days
    harvests [crop_available g]: the agent receives what fits its carrying
    capacity, the rest is stored on the tile, and the harvest day is
    recorded. *)
Lemma harvest_written (env : Territories) (day pid : Z) :
  let a := ag env pid in
  let r := Agent.r a in
  let c := Agent.c a in
  let g := get_growth_days env r c in
  0 <= pid < Z.of_nat (length (agents env)) ->
  0 <= tile_adr env r c LAST_HARVEST ->
  tile_adr env r c WALL_HP < Z.of_nat (length (tile_props env)) ->
  tile env r c STORED_FOOD = 0 ->
  0 < g ->
  let env' := step_pickup day pid env in
  let got :=
    Z.min (crop_available g)
      (MAX_FOOD_CARRYING_CAPACITY - Agent.food_carried a) in
  Agent.food_carried (ag env' pid) = Agent.food_carried a + got
  /\ tile env' r c STORED_FOOD = u16 (crop_available g - got)
  /\ tile env' r c LAST_HARVEST = u16 day.
Proof.
  intros a r c g Hpid Hlo Hhi Hstored Hg.
  cbv zeta.
  unfold step_pickup.
  fold a; fold r; fold c; fold g.
  destruct (Z.gtb_spec (tile env r c STORED_FOOD) 0) as [Hs|_]; [lia|].
  destruct (Z.gtb_spec g 0) as [_|Hn]; [|lia].
  set (got := Z.min (crop_available g)
                (MAX_FOOD_CARRYING_CAPACITY - Agent.food_carried a)).
  set (env1 := set_tile env r c LAST_HARVEST day).
  set (env2 := upd_agent env1 pid
                 (fun a0 => Agent.set_food_carried a0
                              (Agent.food_carried a0 + got))).
  assert (Hfood : Agent.food_carried (ag env2 pid)
                  = Agent.food_carried a + got).
  { subst env2. rewrite ag_upd_agent_eq by exact Hpid. reflexivity. }
  assert (Hlh : tile env2 r c LAST_HARVEST = u16 day).
  { subst env2 env1. rewrite tile_upd_agent.
    apply tile_set_tile_eq.
    unfold tile_adr, LAST_HARVEST, WALL_HP in *; lia. }
  assert (Hst : tile env2 r c STORED_FOOD = 0).
  { subst env2 env1. rewrite tile_upd_agent.
    rewrite tile_set_tile_col by (unfold LAST_HARVEST, STORED_FOOD; lia).
    exact Hstored. }
  destruct (Z.ltb_spec got (crop_available g)) as [Hlt|Hge].
  + split; [|split].
    * rewrite ag_set_tile. exact Hfood.
    * apply tile_set_tile_eq.
      change (tile_adr env2 r c STORED_FOOD)
        with (tile_adr env r c STORED_FOOD).
      replace (length (tile_props env2)) with (length (tile_props env))
        by (subst env2 env1; fld_goal; symmetry; apply zset_length).
      unfold tile_adr, LAST_HARVEST, STORED_FOOD, WALL_HP in *; lia.
    * rewrite tile_set_tile_col by (unfold LAST_HARVEST, STORED_FOOD; lia).
      exact Hlh.
  + split; [exact Hfood|split; [|exact Hlh]].
    rewrite Hst.
    assert (Hz : crop_available g - got = 0) by (subst got; lia).
    rewrite Hz. reflexivity.
Qed.

(** ** Attack *)

Lemma agents_count_stat (env : Territories) (f : Stats -> Stats) :
  agents (count_stat env f) = agents env.
Proof. unfold count_stat; destruct (tick env <? min_ep_length env); reflexivity. Qed.

Lemma pids_2d_count_stat (env : Territories) (f : Stats -> Stats) :
  pids_2d (count_stat env f) = pids_2d env.
Proof. unfold count_stat; destruct (tick env <? min_ep_length env); reflexivity. Qed.

Lemma agent_manager_count_stat (env : Territories) (f : Stats -> Stats) :
  agent_manager (count_stat env f) = agent_manager env.
Proof. unfold count_stat; destruct (tick env <? min_ep_length env); reflexivity. Qed.

Lemma ag_count_stat (env : Territories) (f : Stats -> Stats) (pid : Z) :
  ag (count_stat env f) pid = ag env pid.
Proof. unfold ag; rewrite agents_count_stat; reflexivity. Qed.

(** C6, as the code has it.  When the attack of [pid] lands on another
    agent, the target loses one hp and stays on the grid and in the slot
    manager.  The attacker loots (half the satiation of the target, its
    stone and its food, each capped) exactly when this hit brings the hp of
    the target to 0, that is when the hp was 1.  A hit on a target whose hp
    is already 0 or below takes its hp below 0 and leaves the satiation,
    the stone and the food of the attacker as they were. *)
Theorem attack_loots_on_the_killing_hit_only
  (env : Territories) (pid d tr tc : Z) :
  let target := pid_at env tr tc in
  let env' := agent_attack pid env in
  let A := ag env pid in
  let T := ag env target in
  let A' := ag env' pid in
  let T' := ag env' target in
  attack_scan pid env = Some (d, tr, tc, false) ->
  0 <= pid < Z.of_nat (length (agents env)) ->
  0 <= target < Z.of_nat (length (agents env)) ->
  target <> pid ->
  pids_2d env' = pids_2d env
  /\ agent_manager env' = agent_manager env
  /\ Agent.hp T' = Agent.hp T - 1
  /\ (Agent.hp T = 1 ->
      Agent.satiation A'
      = Z.min MAX_SATIATION (Agent.satiation A + Z.quot (Agent.satiation T) 2)
      /\ Agent.stone_carried A'
         = Z.min MAX_STONE_CARRYING_CAPACITY
             (Agent.stone_carried A + Agent.stone_carried T)
      /\ Agent.food_carried A'
         = Z.min MAX_FOOD_CARRYING_CAPACITY
             (Agent.food_carried A + Agent.food_carried T))
  /\ (Agent.hp T <> 1 ->
      Agent.satiation A' = Agent.satiation A
      /\ Agent.stone_carried A' = Agent.stone_carried A
      /\ Agent.food_carried A' = Agent.food_carried A).
Proof.
  intros target env' A T A' T' Hscan Hpid Htgt Hne.
  subst env' A' T'. unfold agent_attack. rewrite Hscan.
  set (env1 := upd_agent env pid (fun a => Agent.set_dir a d)).
  assert (Hlen1 : length (agents env1) = length (agents env))
    by apply agents_upd_agent_length.
  assert (Ht1 : pid_at env1 tr tc = target) by reflexivity.
  rewrite Ht1.
  assert (HT1 : ag env1 target = T)
    by (apply ag_upd_agent_neq; congruence).
  assert (HA1 : ag env1 pid = Agent.set_dir A d)
    by (apply ag_upd_agent_eq; assumption).
  set (env2 := upd_agent env1 target (fun a => Agent.set_hp a (Agent.hp a - 1))).
  assert (Hlen2 : length (agents env2) = length (agents env))
    by (subst env2; rewrite agents_upd_agent_length; assumption).
  assert (HT2 : ag env2 target = Agent.set_hp T (Agent.hp T - 1)).
  { subst env2. rewrite ag_upd_agent_eq by (rewrite Hlen1; assumption).
    rewrite HT1; reflexivity. }
  assert (HA2 : ag env2 pid = Agent.set_dir A d).
  { subst env2. rewrite ag_upd_agent_neq by assumption. exact HA1. }
  rewrite HT2.
  change (Agent.hp (Agent.set_hp T (Agent.hp T - 1))) with (Agent.hp T - 1).
  destruct (Z.eqb_spec (Agent.hp T - 1) 0) as [Hz|Hnz].
  - set (env3 := count_stat env2 _).
    assert (Hag3 : forall q, ag env3 q = ag env2 q)
      by (intros q; apply ag_count_stat).
    assert (Hlen3 : length (agents env3) = length (agents env))
      by (subst env3; rewrite agents_count_stat; assumption).
    set (env4 := upd_agent env3 pid _).
    assert (Hlen4 : length (agents env4) = length (agents env))
      by (subst env4; rewrite agents_upd_agent_length; assumption).
    set (env5 := upd_agent env4 pid _).
    assert (Hlen5 : length (agents env5) = length (agents env))
      by (subst env5; rewrite agents_upd_agent_length; assumption).
    assert (HT4 : ag env4 target = ag env2 target).
    { subst env4. rewrite ag_upd_agent_neq by congruence. apply Hag3. }
    assert (HT5 : ag env5 target = ag env2 target).
    { subst env5. rewrite ag_upd_agent_neq by congruence. exact HT4. }
    assert (HA4 : ag env4 pid
                  = Agent.set_satiation (Agent.set_dir A d)
                      (Z.min MAX_SATIATION
                         (Agent.satiation A + Z.quot (Agent.satiation T) 2))).
    { subst env4. rewrite ag_upd_agent_eq by (rewrite Hlen3; assumption).
      rewrite !Hag3, HA2, HT2. reflexivity. }
    assert (HA5 : ag env5 pid
                  = Agent.set_stone_carried (ag env4 pid)
                      (Z.min MAX_STONE_CARRYING_CAPACITY
                         (Agent.stone_carried A + Agent.stone_carried T))).
    { subst env5. rewrite ag_upd_agent_eq by (rewrite Hlen4; assumption).
      rewrite HT4, HT2, HA4. reflexivity. }
    rewrite ag_upd_agent_eq by (rewrite Hlen5; assumption).
    rewrite ag_upd_agent_neq by congruence.
    rewrite HT5, HA5, HA4, HT2.
    split; [|split; [|split; [|split]]].
    + transitivity (pids_2d env3); [reflexivity|].
      subst env3. rewrite pids_2d_count_stat. reflexivity.
    + transitivity (agent_manager env3); [reflexivity|].
      subst env3. rewrite agent_manager_count_stat. reflexivity.
    + reflexivity.
    + intros _. repeat split.
    + intros Hn; lia.
  - rewrite HT2, HA2.
    split; [reflexivity|split; [reflexivity|split; [reflexivity|split]]].
    + intros H1; lia.
    + intros _; repeat split.
Qed.

(** When the scan finds nothing the attack changes nothing. *)
Lemma agent_attack_no_hit (env : Territories) (pid : Z) :
  attack_scan pid env = None -> agent_attack pid env = env.
Proof. intros H; unfold agent_attack; rewrite H; reflexivity. Qed.

(** ** Delta rewards *)

Lemma zset_zset {A : Type} (l : list A) (i : Z) (a b : A) :
  zset (zset l i a) i b = zset l i b.
Proof.
  unfold zset; destruct (i <? 0); [reflexivity|].
  generalize (Z.to_nat i) as n.
  induction l as [|h t IH]; intros [|n]; simpl; auto.
  f_equal; apply IH.
Qed.

Lemma u16_add_idemp (a b : Z) : u16 (u16 a + b) = u16 (a + b).
Proof. unfold u16; apply Zplus_mod_idemp_l. Qed.

Lemma sum_family_loop (env : Territories) (pid : Z) (n : nat) (j s : Z) :
  0 <= pid < Z.of_nat (length (family_sizes env)) ->
  let am := agent_manager env in
  let k := fun j => geti (kinship_matrix env)
                      (pid * max_agents env + geti (alive_pids am) j) in
  for_up n j
    (fun j e =>
       let pid2 := geti (alive_pids am) j in
       set_family_sizes e
         (zset (family_sizes e) pid
            (u16 (geti (family_sizes e) pid
                  + geti (kinship_matrix e) (pid * max_agents e + pid2)))))
    (set_family_sizes env (zset (family_sizes env) pid (u16 s)))
  = set_family_sizes env
      (zset (family_sizes env) pid (u16 (s + zsum k j n))).
Proof.
  intros Hpid am k.
  set (body := fun (j : Z) (e : Territories) =>
       let pid2 := geti (alive_pids am) j in
       set_family_sizes e
         (zset (family_sizes e) pid
            (u16 (geti (family_sizes e) pid
                  + geti (kinship_matrix e) (pid * max_agents e + pid2))))).
  assert (Hbody : forall j s,
             body j (set_family_sizes env (zset (family_sizes env) pid (u16 s)))
             = set_family_sizes env
                 (zset (family_sizes env) pid (u16 (s + k j)))).
  { intros j0 s0. subst body. cbv beta zeta.
    assert (E : geti (family_sizes
                        (set_family_sizes env
                           (zset (family_sizes env) pid (u16 s0)))) pid
                = u16 s0).
    { fld_goal. unfold geti. apply zget_zset_eq. assumption. }
    rewrite E. rewrite u16_add_idemp.
    fld_goal. rewrite zset_zset. reflexivity. }
  revert j s.
  induction n as [|n IH]; intros j s.
  - cbn [for_up zsum]. replace (s + 0) with s by lia. reflexivity.
  - cbn [for_up zsum]. rewrite Hbody. rewrite IH.
    replace (s + k j + zsum k (j + 1) n) with (s + (k j + zsum k (j + 1) n))
      by lia.
    reflexivity.
Qed.

Lemma sum_family_spec (env : Territories) (pid : Z) :
  0 <= pid < Z.of_nat (length (family_sizes env)) ->
  sum_family env pid
  = set_family_sizes env
      (zset (family_sizes env) pid (u16 (kin_sum env pid))).
Proof.
  intros Hpid. unfold sum_family, for_range, kin_sum.
  replace (alive_count (agent_manager env) - 0)
    with (alive_count (agent_manager env)) by lia.
  pose proof (sum_family_loop env pid
                (Z.to_nat (alive_count (agent_manager env))) 0 0 Hpid) as H.
  cbv zeta in H. simpl (0 + _) in H.
  exact H.
Qed.

Lemma kin_sum_ext (e env : Territories) (pid : Z) :
  agent_manager e = agent_manager env ->
  kinship_matrix e = kinship_matrix env ->
  max_agents e = max_agents env ->
  kin_sum e pid = kin_sum env pid.
Proof.
  intros H1 H2 H3; unfold kin_sum; rewrite H1, H2, H3; reflexivity.
Qed.

Lemma zsum_bound (f : Z -> Z) (b lo : Z) (n : nat) :
  (forall j, 0 <= f j <= b) ->
  0 <= zsum f lo n <= b * Z.of_nat n.
Proof.
  intros Hf. revert lo; induction n as [|n IH]; intros lo.
  - cbn [zsum]. lia.
  - cbn [zsum]. specialize (IH (lo + 1)). specialize (Hf lo). nia.
Qed.

(** With kinship entries in [0, b] the sum over the alive list is at most
    [b] times the number of alive agents: with [b = 3] genes, it fits an
    [unsigned short] up to 21845 alive agents. *)
Lemma kin_sum_bound (env : Territories) (pid b : Z) :
  (forall i, 0 <= geti (kinship_matrix env) i <= b) ->
  0 <= alive_count (agent_manager env) ->
  0 <= kin_sum env pid <= b * alive_count (agent_manager env).
Proof.
  intros HK Hac. unfold kin_sum.
  pose proof (zsum_bound
                (fun j => geti (kinship_matrix env)
                            (pid * max_agents env
                             + geti (alive_pids (agent_manager env)) j))
                b 0 (Z.to_nat (alive_count (agent_manager env)))
                (fun j => HK _)) as H.
  rewrite Z2Nat.id in H by exact Hac. exact H.
Qed.

Lemma delta_body_inv (env : Territories) (i : Z) (e : Territories) :
  0 <= i < Z.of_nat (length (family_sizes env)) ->
  i < Z.of_nat (length (rewards env)) ->
  delta_inv env i e ->
  delta_inv env (i + 1) (delta_body (agent_manager env) i e).
Proof.
  intros Hi Hr (Ham & HK & Ht & Hp & HN & Hg & Hlf & Hlr & Hdone).
  unfold delta_body. rewrite Ht.
  fold (rewarded env i).
  destruct (rewarded env i) eqn:Hc.
  - rewrite sum_family_spec by (rewrite Hlf; assumption).
    rewrite (kin_sum_ext e env i Ham HK HN).
    set (e1 := set_family_sizes e _).
    assert (Hfs1 : geti (family_sizes e1) i = u16 (kin_sum env i)).
    { subst e1; fld_goal; unfold geti; apply zget_zset_eq.
      rewrite Hlf; assumption. }
    rewrite Hfs1.
    change (prev_family_sizes e1) with (prev_family_sizes e).
    change (n_genes e1) with (n_genes e).
    rewrite Hp, Hg.
    fold (delta_reward env i).
    set (e2 := set_rewards e1 _).
    assert (Hfields :
              agent_manager e2 = agent_manager env
              /\ kinship_matrix e2 = kinship_matrix env
              /\ terminals e2 = terminals env
              /\ prev_family_sizes e2 = prev_family_sizes env
              /\ max_agents e2 = max_agents env
              /\ n_genes e2 = n_genes env
              /\ length (family_sizes e2) = length (family_sizes env)
              /\ length (rewards e2) = length (rewards env)).
    { subst e2 e1; fld_goal. rewrite !zset_length. tauto. }
    assert (Hvals : forall p, 0 <= p < i + 1 -> rewarded env p = true ->
                geti (family_sizes e2) p = u16 (kin_sum env p)
                /\ zget 0%Q (rewards e2) p = delta_reward env p).
    { intros p Hpi Hcp.
      destruct (Z.eq_dec p i) as [->|Hne].
      - split; [exact Hfs1|].
        subst e2; fld_goal. apply zget_zset_eq.
        subst e1; fld_goal. rewrite Hlr; lia.
      - destruct (Hdone p ltac:(lia) Hcp) as [Hf Hw].
        split.
        + subst e2 e1; fld_goal. unfold geti.
          rewrite zget_zset_neq by congruence. exact Hf.
        + subst e2 e1; fld_goal.
          rewrite zget_zset_neq by congruence. exact Hw. }
    unfold add_total_reward, count_stat.
    destruct (tick e2 <? min_ep_length e2);
      (split; [|split; [|split; [|split; [|split; [|split; [|split; [|split]]]]]]]);
      try (apply Hfields); exact Hvals.
  - repeat (split; [assumption|]).
    intros p Hpi Hcp.
    assert (p <> i) by (intros ->; congruence).
    apply Hdone; [lia|assumption].
Qed.

(** What [_delta_rewards] writes for a slot that is alive or whose
    terminal flag is raised. *)
Lemma delta_rewards_written (env : Territories) (p : Z) :
  Z.of_nat (length (family_sizes env)) = max_agents env ->
  Z.of_nat (length (prev_family_sizes env)) = max_agents env ->
  Z.of_nat (length (rewards env)) = max_agents env ->
  0 <= p < max_agents env ->
  getb (alive_mask (agent_manager env)) p = true
  \/ geti (terminals env) p <> 0 ->
  let env' := _delta_rewards env in
  geti (family_sizes env') p = u16 (kin_sum env p)
  /\ zget 0%Q (rewards env') p
     = f_div
         (f_sub (f_of_int (geti (family_sizes env') p))
                (f_of_int (geti (prev_family_sizes env) p)))
         (f_of_int (n_genes env))
  /\ forall q, 0 <= q < max_agents env ->
       geti (prev_family_sizes env') q = geti (family_sizes env') q.
Proof.
  intros Hlf Hlp Hlr Hp Hcond env'. subst env'.
  unfold _delta_rewards.
  fold (delta_body (agent_manager env)).
  set (loop := for_range 0 (max_agents env) (delta_body (agent_manager env)) env).
  assert (Hinv : delta_inv env (max_agents env) loop).
  { subst loop. apply for_range_ind.
    - lia.
    - repeat (split; [reflexivity|]). intros q Hq; lia.
    - intros i x Hi Hx. apply delta_body_inv; [lia|lia|exact Hx]. }
  destruct Hinv as (Ham & HK & Ht & Hpf & HN & Hg & Hlf' & Hlr' & Hdone).
  assert (Hc : rewarded env p = true).
  { unfold rewarded. destruct Hcond as [Ha|Hn]; [rewrite Ha; reflexivity|].
    destruct (Z.eqb_spec (geti (terminals env) p) 0); [contradiction|].
    apply orb_true_r. }
  destruct (Hdone p Hp Hc) as [Hf Hw].
  fld_goal.
  split; [exact Hf|split].
  - rewrite Hw, Hf. reflexivity.
  - intros q Hq. rewrite HN. unfold geti.
    apply zget_copy; [lia| |].
    + rewrite Hlf'; lia.
    + rewrite Hpf; lia.
Qed.

(** C3.  In delta mode ([reward_growth_rate] false) the reward pass that
    ends every step and every reset is [_delta_rewards].  For every slot
    [p] that is alive or whose terminal flag is raised: the family size
    written is the sum of [K[p][q]] over the alive list reduced modulo
    65536, the cell being an [unsigned short], and so the sum itself when
    it is below 65536; the reward written is the difference between this
    family size and the previous one, divided by the number of genes, in
    [float] arithmetic; and at the end every slot has its previous family
    size equal to its family size. *)
Theorem delta_rewards_family_and_reward (env : Territories) (p : Z) :
  let env' := compute_rewards env in
  reward_growth_rate env = false ->
  Z.of_nat (length (family_sizes env)) = max_agents env ->
  Z.of_nat (length (prev_family_sizes env)) = max_agents env ->
  Z.of_nat (length (rewards env)) = max_agents env ->
  0 <= p < max_agents env ->
  getb (alive_mask (agent_manager env)) p = true
  \/ geti (terminals env) p <> 0 ->
  env' = _delta_rewards env
  /\ geti (family_sizes env') p = kin_sum env p mod 65536
  /\ (0 <= kin_sum env p < 65536 ->
      geti (family_sizes env') p = kin_sum env p)
  /\ zget 0%Q (rewards env') p
     = f_div
         (f_sub (f_of_int (geti (family_sizes env') p))
                (f_of_int (geti (prev_family_sizes env) p)))
         (f_of_int (n_genes env))
  /\ forall q, 0 <= q < max_agents env ->
       geti (prev_family_sizes env') q = geti (family_sizes env') q.
Proof.
  intros env' Hmode Hlf Hlp Hlr Hp Hcond.
  assert (Henv' : env' = _delta_rewards env)
    by (subst env'; unfold compute_rewards; rewrite Hmode; reflexivity).
  split; [exact Henv'|]. rewrite Henv'. clear env' Henv'.
  destruct (delta_rewards_written env p Hlf Hlp Hlr Hp Hcond)
    as (Hf & Hw & Hq).
  split; [exact Hf|split; [|split; [exact Hw|exact Hq]]].
  intros Hfit. rewrite Hf. unfold u16. apply Z.mod_small. exact Hfit.
Qed.

(** Every call of [c_step] that returns ends with the reward pass. *)
Lemma c_step_ends_with_compute_rewards (retries : nat)
  (env env' : Territories) :
  c_step retries env = Some env' ->
  exists pre, env' = compute_rewards pre.
Proof.
  unfold c_step.
  match goal with
  | |- (if ?b then _ else _) = _ -> _ => destruct b
  end.
  - unfold c_reset.
    repeat match goal with
           | |- bind_env ?o _ = _ -> _ =>
               destruct o; cbn [bind_env]; [|discriminate]
           end.
    intros H; injection H as <-. eexists; reflexivity.
  - intros H; injection H as <-. eexists; reflexivity.
Qed.

(** ** The invariants of the engine *)

Lemma engine_inv_core (e e' : Territories) :
  core e' = core e -> engine_inv e -> engine_inv e'.
Proof.
  unfold core, am_core. intros H.
  injection H as H1 H2 H3 H4 H5 H6 H7 H8 H9 H10 H11 H12.
  unfold engine_inv, well_configured, am_inv, kin_inv, tile_inv.
  cbv zeta.
  rewrite H1, H2, H3, H4, H5, H6, H7, H8, H9, H10, H11, H12.
  tauto.
Qed.

Lemma well_configured_core (e e' : Territories) :
  core e' = core e -> well_configured e -> well_configured e'.
Proof.
  unfold core, am_core. intros H.
  injection H as H1 H2 H3 H4 H5 H6 H7 H8 H9 H10 H11 H12.
  unfold well_configured. cbv zeta.
  rewrite H1, H2, H3, H4, H6, H7, H8, H9.
  tauto.
Qed.

Lemma core_fields (e e' : Territories) :
  core e' = core e ->
  max_agents e' = max_agents e
  /\ n_genes e' = n_genes e
  /\ width e' = width e
  /\ height e' = height e
  /\ is_soil e' = is_soil e
  /\ kinship_matrix e' = kinship_matrix e
  /\ tile_props e' = tile_props e
  /\ alive_mask (agent_manager e') = alive_mask (agent_manager e)
  /\ free_pids (agent_manager e') = free_pids (agent_manager e)
  /\ alive_count (agent_manager e') = alive_count (agent_manager e).
Proof.
  unfold core, am_core. intros H.
  injection H as H1 H2 H3 H4 H5 H6 H7 H8 H9 H10 H11 H12.
  repeat split; assumption.
Qed.

Lemma core_count_stat (env : Territories) (f : Stats -> Stats) :
  core (count_stat env f) = core env.
Proof.
  unfold count_stat; destruct (tick env <? min_ep_length env); reflexivity.
Qed.

Lemma core_rand (env : Territories) : core (snd (rand env)) = core env.
Proof. unfold rand; destruct (rand_state env); reflexivity. Qed.

(** Writing a tile keeps the invariants when the column is not the harvest
    day, when the cell is soil, or when the value written is 0. *)
Lemma tile_inv_set_tile (env : Territories) (r c k v : Z) :
  (1 <= k <= 3) \/ (k = 0 /\ (soil_at env r c = true \/ u16 v = 0)) ->
  tile_inv env -> tile_inv (set_tile env r c k v).
Proof.
  intros Hside Htile.
  unfold tile_inv in *. fld_goal. intros i Hi Hs.
  specialize (Htile i Hi Hs).
  unfold geti in *.
  destruct (zget_zset_cases 0 (tile_props env) (tile_adr env r c k) (i * 4)
              (u16 v)) as [E|(Eadr & _ & E)].
  - rewrite E; exact Htile.
  - rewrite E. unfold tile_adr in Eadr.
    destruct Hside as [Hk|[-> [Hsoil|Hz]]].
    + lia.
    + assert (i = r * width env + c) by lia. subst i.
      unfold soil_at in Hsoil. congruence.
    + exact Hz.
Qed.

Lemma well_configured_set_tile (env : Territories) (r c k v : Z) :
  well_configured env -> well_configured (set_tile env r c k v).
Proof.
  intros Hwf. unfold well_configured in *. fld_goal.
  rewrite zset_length. exact Hwf.
Qed.

Lemma engine_inv_set_tile (env : Territories) (r c k v : Z) :
  (1 <= k <= 3) \/ (k = 0 /\ (soil_at env r c = true \/ u16 v = 0)) ->
  engine_inv env -> engine_inv (set_tile env r c k v).
Proof.
  intros Hside (Hwf & Ham & Hkin & Htile).
  split; [|split; [|split]].
  - apply well_configured_set_tile; exact Hwf.
  - exact Ham.
  - exact Hkin.
  - apply tile_inv_set_tile; assumption.
Qed.

Lemma engine_inv_upd_agent (env : Territories) (pid : Z)
  (f : Agent.t -> Agent.t) :
  engine_inv env -> engine_inv (upd_agent env pid f).
Proof. apply engine_inv_core; reflexivity. Qed.

Lemma engine_inv_count_stat (env : Territories) (f : Stats -> Stats) :
  engine_inv env -> engine_inv (count_stat env f).
Proof. apply engine_inv_core; apply core_count_stat. Qed.

Lemma engine_inv_set_pid_at (env : Territories) (r c v : Z) :
  engine_inv env -> engine_inv (set_pid_at env r c v).
Proof. apply engine_inv_core; reflexivity. Qed.

Lemma engine_inv_place_wall (env : Territories) (r c : Z) :
  engine_inv env -> engine_inv (place_wall env r c).
Proof.
  intros H; unfold place_wall.
  destruct (tile env r c WALL_HP >? 0); [exact H|].
  apply engine_inv_set_tile; [left; unfold WALL_HP; lia|].
  apply for_range_preserves; [exact H|].
  intros i x Hi Hx. apply engine_inv_set_tile; [|exact Hx].
  destruct (Z.eq_dec i 0) as [->|Hne]; [right; split; [|right]; reflexivity|].
  left; lia.
Qed.

Lemma engine_inv_destroy_wall (env : Territories) (r c : Z) :
  engine_inv env -> engine_inv (destroy_wall env r c).
Proof.
  intros H; unfold destroy_wall.
  destruct (tile env r c WALL_HP =? 0); [exact H|].
  assert (H1 : engine_inv (set_tile env r c WALL_HP 0))
    by (apply engine_inv_set_tile; [left; unfold WALL_HP; lia|exact H]).
  destruct (negb (is_winter (set_tile env r c WALL_HP 0))
            && soil_at (set_tile env r c WALL_HP 0) r c) eqn:E; [|exact H1].
  apply andb_true_iff in E as [_ Es].
  apply engine_inv_set_tile; [|exact H1].
  right; split; [reflexivity|left; exact Es].
Qed.

Lemma engine_inv_pre_action (pid : Z) (env : Territories) :
  engine_inv env -> engine_inv (pre_action pid env).
Proof.
  intros H; unfold pre_action.
  repeat match goal with
         | |- engine_inv (if ?b then _ else _) => destruct b
         | |- engine_inv (count_stat _ _) => apply engine_inv_count_stat
         | |- engine_inv (upd_agent _ _ _) => apply engine_inv_upd_agent
         end; exact H.
Qed.

Lemma engine_inv_step_move (pid action : Z) (env : Territories) :
  engine_inv env -> engine_inv (step_move pid action env).
Proof.
  intros H; unfold step_move.
  repeat match goal with
         | |- engine_inv (if ?b then _ else _) => destruct b
         | |- engine_inv (upd_agent _ _ _) => apply engine_inv_upd_agent
         | |- engine_inv (set_pid_at _ _ _ _) => apply engine_inv_set_pid_at
         end; exact H.
Qed.

Lemma engine_inv_step_pickup (day pid : Z) (env : Territories) :
  engine_inv env -> engine_inv (step_pickup day pid env).
Proof.
  intros H; unfold step_pickup.
  set (r := Agent.r (ag env pid)). set (c := Agent.c (ag env pid)).
  destruct (tile env r c STORED_FOOD >? 0).
  - match goal with
    | |- engine_inv (if ?b then _ else _) => destruct b eqn:E
    end.
    + apply andb_true_iff in E as [_ Es].
      apply engine_inv_set_tile;
        [right; split; [reflexivity|left; exact Es]|].
      apply engine_inv_upd_agent.
      apply engine_inv_set_tile; [left; unfold STORED_FOOD; lia|exact H].
    + apply engine_inv_upd_agent.
      apply engine_inv_set_tile; [left; unfold STORED_FOOD; lia|exact H].
  - destruct (Z.gtb_spec (get_growth_days env r c) 0) as [Hg|Hg]; [|exact H].
    destruct (get_growth_days_positive_soil env r c) as [_ Hs]; [lia|].
    assert (H2 : engine_inv
                   (upd_agent (set_tile env r c LAST_HARVEST day) pid
                      (fun a => Agent.set_food_carried a
                         (Agent.food_carried a
                          + Z.min (crop_available (get_growth_days env r c))
                              (MAX_FOOD_CARRYING_CAPACITY
                               - Agent.food_carried (ag env pid)))))).
    { apply engine_inv_upd_agent.
      apply engine_inv_set_tile;
        [right; split; [reflexivity|left; exact Hs]|exact H]. }
    match goal with
    | |- engine_inv (if ?b then _ else _) => destruct b
    end; [|exact H2].
    apply engine_inv_set_tile; [left; unfold STORED_FOOD; lia|exact H2].
Qed.

Lemma engine_inv_step_package (day pid : Z) (env : Territories) :
  engine_inv env -> engine_inv (step_package day pid env).
Proof.
  intros H; unfold step_package.
  set (r := Agent.r (ag env pid)). set (c := Agent.c (ag env pid)).
  set (env1 := if get_growth_days env r c >? 0 then _ else env).
  assert (H1 : engine_inv env1).
  { subst env1.
    destruct (Z.gtb_spec (get_growth_days env r c) 0) as [Hg|Hg]; [|exact H].
    destruct (get_growth_days_positive_soil env r c) as [_ Hs]; [lia|].
    apply engine_inv_count_stat.
    apply engine_inv_set_tile; [left; unfold STORED_FOOD; lia|].
    apply engine_inv_set_tile;
      [right; split; [reflexivity|left; exact Hs]|exact H]. }
  destruct (Agent.food_carried (ag env1 pid) >? 0); [|exact H1].
  apply engine_inv_count_stat, engine_inv_upd_agent.
  apply engine_inv_set_tile; [left; unfold STORED_FOOD; lia|exact H1].
Qed.

Lemma engine_inv_step_build_wall (pid : Z) (env : Territories) :
  engine_inv env -> engine_inv (step_build_wall pid env).
Proof.
  intros H; unfold step_build_wall.
  repeat match goal with
         | |- engine_inv (if ?b then _ else _) => destruct b
         | |- engine_inv (count_stat _ _) => apply engine_inv_count_stat
         | |- engine_inv (upd_agent _ _ _) => apply engine_inv_upd_agent
         | |- engine_inv (place_wall _ _ _) => apply engine_inv_place_wall
         end; exact H.
Qed.

Lemma engine_inv_agent_mine (pid : Z) (env : Territories) :
  engine_inv env -> engine_inv (agent_mine pid env).
Proof.
  intros H; unfold agent_mine.
  destruct (Agent.stone_carried (ag env pid) >=? MAX_STONE_CARRYING_CAPACITY);
    [exact H|].
  destruct (mine_scan pid env) as [[[d tr] tc]|]; [|exact H].
  destruct (tc =? -1); [apply engine_inv_upd_agent; exact H|].
  apply engine_inv_count_stat, engine_inv_upd_agent.
  apply engine_inv_set_tile; [left; unfold STONE; lia|].
  apply engine_inv_upd_agent; exact H.
Qed.

Lemma engine_inv_agent_attack (pid : Z) (env : Territories) :
  engine_inv env -> engine_inv (agent_attack pid env).
Proof.
  intros H; unfold agent_attack.
  destruct (attack_scan pid env) as [[[[d tr] tc] [|]]|]; [| |exact H].
  - set (env2 := set_tile _ tr tc WALL_HP _).
    assert (H2 : engine_inv env2).
    { subst env2. apply engine_inv_set_tile; [left; unfold WALL_HP; lia|].
      apply engine_inv_upd_agent; exact H. }
    destruct (tile env2 tr tc WALL_HP =? 0); [|exact H2].
    apply engine_inv_destroy_wall, engine_inv_count_stat; exact H2.
  - repeat match goal with
           | |- engine_inv (if ?b then _ else _) => destruct b
           | |- engine_inv (count_stat _ _) => apply engine_inv_count_stat
           | |- engine_inv (upd_agent _ _ _) => apply engine_inv_upd_agent
           end; exact H.
Qed.

(** ** The slot manager *)

Lemma u16_small (x : Z) : 0 <= x < 65536 -> u16 x = x.
Proof. intros H; unfold u16; apply Z.mod_small; exact H. Qed.

Lemma count_true_nonneg (l : list bool) : 0 <= count_true l.
Proof.
  induction l as [|h t IH]; cbn [count_true]; [lia|destruct h; lia].
Qed.

Lemma getb_true_in_range (l : list bool) (p : Z) :
  getb l p = true -> 0 <= p < Z.of_nat (length l).
Proof.
  intros H.
  destruct (Z_lt_dec p 0) as [Hn|Hn];
    [unfold getb in H; rewrite zget_outside in H by lia; discriminate|].
  destruct (Z_lt_dec p (Z.of_nat (length l))) as [Hl|Hl]; [lia|].
  unfold getb in H; rewrite zget_outside in H by lia; discriminate.
Qed.

Lemma count_true_upd_nth (l : list bool) (n : nat) (b : bool) :
  (n < length l)%nat ->
  count_true (upd_nth n b l)
  = count_true l - (if nth n l false then 1 else 0) + (if b then 1 else 0).
Proof.
  revert n; induction l as [|h t IH]; intros [|n] Hn;
    cbn [count_true upd_nth nth length] in *; try lia.
  rewrite IH by lia. lia.
Qed.

Lemma count_true_zset (l : list bool) (p : Z) (b : bool) :
  0 <= p < Z.of_nat (length l) ->
  count_true (zset l p b)
  = count_true l - (if getb l p then 1 else 0) + (if b then 1 else 0).
Proof.
  intros Hp; unfold zset, getb, zget.
  destruct (p <? 0) eqn:E; [lia|].
  apply count_true_upd_nth; lia.
Qed.

Lemma count_true_pos (l : list bool) (p : Z) :
  getb l p = true -> 1 <= count_true l.
Proof.
  intros H. pose proof (getb_true_in_range l p H) as Hr.
  pose proof (count_true_zset l p false Hr) as Hc.
  rewrite H in Hc.
  pose proof (count_true_nonneg (zset l p false)). lia.
Qed.

Lemma count_true_fill_false (n : nat) (l : list bool) :
  (length l <= n)%nat -> count_true (fill_nat false n l) = 0.
Proof.
  revert l; induction n as [|n IH]; intros [|h t] Hl;
    cbn [count_true fill_nat length] in *; try reflexivity; try lia.
  rewrite IH by lia. reflexivity.
Qed.

Lemma spawn_agent_inv (env : Territories) (r c : Z) :
  engine_inv env ->
  alive_count (agent_manager env) < max_agents env ->
  engine_inv (fst (spawn_agent env r c))
  /\ 0 <= snd (spawn_agent env r c) < max_agents env
  /\ alive_count (agent_manager (fst (spawn_agent env r c)))
     = alive_count (agent_manager env) + 1.
Proof.
  intros (Hwf & Ham & Hkin & Htile) Hcap.
  destruct Hwf as (HN & Hg & HlK & Hlm & Hlf & Hlt).
  destruct Ham as (Hfc & Hnext & HnN & Hcount & Hfree & Hdist & Halive).
  pose proof (count_true_nonneg (alive_mask (agent_manager env))) as Hc0.
  unfold spawn_agent.
  destruct (Z.geb_spec (alive_count (agent_manager env)) (max_agents env));
    [lia|].
  set (am := agent_manager env) in *.
  (* the slot and the manager after the allocation *)
  set (alloc := if free_count am >? 0 then _ else _).
  assert (Halloc :
            exists am1 pid, alloc = (am1, pid)
              /\ alive_mask am1 = alive_mask am
              /\ free_pids am1 = free_pids am
              /\ alive_count am1 = alive_count am
              /\ alive_bitset am1 = alive_bitset am
              /\ 0 <= pid < next_pid am1
              /\ next_pid am1 <= max_agents env
              /\ 0 <= free_count am1
              /\ next_pid am1 = alive_count am + 1 + free_count am1
              /\ getb (alive_mask am) pid = false
              /\ (forall k, 0 <= k < free_count am1 ->
                    0 <= geti (free_pids am) k < next_pid am1
                    /\ getb (alive_mask am) (geti (free_pids am) k) = false
                    /\ geti (free_pids am) k <> pid)
              /\ (forall k k', 0 <= k < k' -> k' < free_count am1 ->
                    geti (free_pids am) k <> geti (free_pids am) k')
              /\ (forall p, getb (alive_mask am) p = true -> p < next_pid am1)).
  { subst alloc.
    destruct (Z.gtb_spec (free_count am) 0) as [Hpos|Hzero].
    - assert (Hu : u16 (free_count am - 1) = free_count am - 1)
        by (apply u16_small; lia).
      eexists _, _; split; [reflexivity|].
      fld_goal. rewrite Hu.
      destruct (Hfree (free_count am - 1)) as [Hr Hd]; [lia|].
      repeat split; try lia; try assumption.
      + apply Hfree; lia.
      + apply Hfree; lia.
      + apply Hfree; lia.
      + apply Hdist; lia.
      + intros k k' Hk Hk'. apply Hdist; lia.
    - assert (Hfc0 : free_count am = 0) by lia.
      assert (Hu : u16 (next_pid am + 1) = next_pid am + 1)
        by (apply u16_small; lia).
      eexists _, _; split; [reflexivity|].
      fld_goal. rewrite Hu.
      assert (Hdead : getb (alive_mask am) (next_pid am) = false).
      { destruct (getb (alive_mask am) (next_pid am)) eqn:E; [|reflexivity].
        apply Halive in E. lia. }
      repeat split; try lia; try assumption.
      intros p Hp. apply Halive in Hp. lia. }
  destruct Halloc as (am1 & pid & -> & Em & Ef & Ea & Eb & Hpid & HnN1 & Hfc1
                      & Hnext1 & Hdead & Hfree1 & Hdist1 & Halive1).
  set (am4 := set_alive_bitset _ _).
  set (env1 := set_agent_manager env am4).
  assert (Hrand : forall x env2, rand env1 = (x, env2) -> core env2 = core env1).
  { intros x env2 E. pose proof (core_rand env1) as Hc. rewrite E in Hc.
    exact Hc. }
  destruct (rand env1) as [x env2] eqn:Er.
  specialize (Hrand x env2 eq_refl).
  cbn [fst snd].
  assert (Hinv1 : engine_inv env1).
  { assert (Hu : u16 (alive_count am + 1) = alive_count am + 1)
      by (apply u16_small; lia).
    assert (Hin : 0 <= pid < Z.of_nat (length (alive_mask am))) by lia.
    split; [|split; [|split]].
    - unfold well_configured; subst env1 am4; fld_goal.
      rewrite Em, Ef, zset_length. fold am. tauto.
    - unfold am_inv; subst env1 am4; fld_goal.
      rewrite Em, Ef, Ea, Hu.
      split; [lia|split; [lia|split; [lia|split; [|split; [|split]]]]].
      + rewrite count_true_zset by exact Hin. rewrite Hdead. lia.
      + intros k Hk. destruct (Hfree1 k Hk) as (H1 & H2 & H3).
        split; [exact H1|].
        unfold getb in *. rewrite zget_zset_neq by congruence. exact H2.
      + exact Hdist1.
      + intros p Hp.
        destruct (Z.eq_dec p pid) as [->|Hne]; [lia|].
        unfold getb in Hp. rewrite zget_zset_neq in Hp by congruence.
        apply Halive1; exact Hp.
    - exact Hkin.
    - exact Htile. }
  split; [|split].
  - eapply engine_inv_core; [|exact Hinv1].
    etransitivity; [|exact Hrand]. reflexivity.
  - lia.
  - transitivity (alive_count (agent_manager env1)).
    + injection Hrand as _ _ _ _ _ _ _ _ _ _ Hac _.
      exact Hac.
    + subst env1 am4; fld_goal. rewrite Ea. apply u16_small; lia.
Qed.

Lemma kill_agent_inv (env : Territories) (pid : Z) :
  engine_inv env -> engine_inv (kill_agent env pid).
Proof.
  intros Hinv. unfold kill_agent.
  destruct (getb (alive_mask (agent_manager env)) pid) eqn:Hlive;
    [|exact Hinv].
  cbn [negb].
  destruct Hinv as (Hwf & Ham & Hkin & Htile).
  destruct Hwf as (HN & Hg & HlK & Hlm & Hlf & Hlt).
  destruct Ham as (Hfc & Hnext & HnN & Hcount & Hfree & Hdist & Halive).
  set (am := agent_manager env) in *.
  pose proof (getb_true_in_range _ _ Hlive) as Hin.
  pose proof (count_true_pos _ _ Hlive) as Hpos.
  pose proof (Halive pid Hlive) as Hlt'.
  set (am5 := set_alive_bitset _ _).
  eapply (engine_inv_core (set_agent_manager env am5)); [reflexivity|].
  assert (Hu1 : u16 pid = pid) by (apply u16_small; lia).
  assert (Hu2 : u16 (free_count am + 1) = free_count am + 1)
    by (apply u16_small; lia).
  assert (Hu3 : u16 (alive_count am - 1) = alive_count am - 1)
    by (apply u16_small; lia).
  split; [|split; [|split]].
  - unfold well_configured; subst am5; fld_goal.
    rewrite !zset_length. fold am. tauto.
  - unfold am_inv; subst am5; fld_goal. fold am.
    rewrite Hu1, Hu2, Hu3.
    split; [lia|split; [lia|split; [lia|split; [|split; [|split]]]]].
    + rewrite count_true_zset by exact Hin. rewrite Hlive. lia.
    + intros k Hk.
      destruct (Z.eq_dec k (free_count am)) as [->|Hne].
      * unfold geti, getb. rewrite !zget_zset_eq by lia. split; [lia|reflexivity].
      * unfold geti. rewrite zget_zset_neq by congruence.
        destruct (Hfree k) as [H1 H2]; [lia|].
        split; [exact H1|].
        unfold getb in *.
        destruct (Z.eq_dec pid (zget 0 (free_pids am) k)) as [E|E].
        -- rewrite <- E. apply zget_zset_eq; exact Hin.
        -- rewrite zget_zset_neq by exact E. exact H2.
    + intros k k' Hk Hk'.
      unfold geti. rewrite (zget_zset_neq 0 (free_pids am) (free_count am) k)
        by lia.
      destruct (Z.eq_dec k' (free_count am)) as [->|Hne].
      * rewrite zget_zset_eq by lia.
        destruct (Hfree k) as [_ H2]; [lia|].
        intros E. unfold geti in H2. rewrite E in H2. congruence.
      * rewrite zget_zset_neq by congruence.
        apply Hdist; lia.
    + intros p Hp.
      destruct (Z.eq_dec p pid) as [->|Hne]; [exact Hlt'|].
      unfold getb in Hp. rewrite zget_zset_neq in Hp by congruence.
      apply Halive; exact Hp.
  - exact Hkin.
  - exact Htile.
Qed.

(** ** The kinship matrix *)

Lemma cell_index_inj (N i j i' j' : Z) :
  0 <= j < N -> 0 <= j' < N -> i * N + j = i' * N + j' -> i = i' /\ j = j'.
Proof.
  intros Hj Hj' E.
  assert (i = i') by nia. subst i'. split; [reflexivity|lia].
Qed.

Lemma cell_index_range (N i j : Z) :
  0 <= i < N -> 0 <= j < N -> 0 <= i * N + j < N * N.
Proof. intros; nia. Qed.

(** Writing one value in a cell and in its transpose. *)
Lemma kin_inv_pair_update (env : Territories) (a b v : Z) :
  Z.of_nat (length (kinship_matrix env)) = max_agents env * max_agents env ->
  0 <= a < max_agents env -> 0 <= b < max_agents env -> a <> b ->
  kin_inv env ->
  kin_inv
    (set_kinship_matrix env
       (zset (zset (kinship_matrix env) (a * max_agents env + b) v)
          (b * max_agents env + a) v)).
Proof.
  intros Hlen Ha Hb Hab Hkin.
  unfold kin_inv in *. fld_goal.
  set (N := max_agents env) in *. set (K := kinship_matrix env) in *.
  pose proof (cell_index_range N a b Ha Hb) as Rab.
  pose proof (cell_index_range N b a Hb Ha) as Rba.
  assert (Hne : a * N + b <> b * N + a).
  { intros E. apply cell_index_inj in E; lia. }
  assert (Hread : forall i j, 0 <= i < N -> 0 <= j < N ->
            geti (zset (zset K (a * N + b) v) (b * N + a) v) (i * N + j)
            = if ((i =? a) && (j =? b)) || ((i =? b) && (j =? a))
              then v else geti K (i * N + j)).
  { intros i j Hi Hj. unfold geti.
    destruct (Z.eqb_spec i a) as [->|Hia]; destruct (Z.eqb_spec j b) as [->|Hjb];
      cbn [andb orb].
    - rewrite zget_zset_neq by congruence.
      apply zget_zset_eq; lia.
    - destruct (Z.eqb_spec a b); [contradiction|]. cbn [andb].
      rewrite !zget_zset_neq; [reflexivity| |];
        intros E; apply cell_index_inj in E; lia.
    - destruct (Z.eqb_spec i b) as [->|Hib];
        destruct (Z.eqb_spec b a) as [E0|_]; try congruence; cbn [andb];
        rewrite !zget_zset_neq; try reflexivity;
        intros E; apply cell_index_inj in E; lia.
    - destruct (Z.eqb_spec i b) as [->|Hib];
        destruct (Z.eqb_spec j a) as [->|Hja]; cbn [andb].
      + apply zget_zset_eq. rewrite zset_length. lia.
      + rewrite !zget_zset_neq; [reflexivity| |];
          intros E; apply cell_index_inj in E; lia.
      + rewrite !zget_zset_neq; [reflexivity| |];
          intros E; apply cell_index_inj in E; lia.
      + rewrite !zget_zset_neq; [reflexivity| |];
          intros E; apply cell_index_inj in E; lia. }
  intros i j Hi Hj.
  rewrite !Hread by assumption.
  destruct (Hkin i j Hi Hj) as [Hd Hs].
  split.
  - destruct (Z.eqb_spec i a); destruct (Z.eqb_spec i b); cbn [andb orb];
      try (subst; congruence); exact Hd.
  - destruct (Z.eqb_spec i a); destruct (Z.eqb_spec j b);
      destruct (Z.eqb_spec i b); destruct (Z.eqb_spec j a);
      cbn [andb orb]; try reflexivity; exact Hs.
Qed.

Lemma engine_inv_pair_update (env : Territories) (a b v : Z) :
  0 <= a < max_agents env -> 0 <= b < max_agents env -> a <> b ->
  engine_inv env ->
  engine_inv
    (set_kinship_matrix env
       (zset (zset (kinship_matrix env) (a * max_agents env + b) v)
          (b * max_agents env + a) v)).
Proof.
  intros Ha Hb Hab (Hwf & Ham & Hkin & Htile).
  split; [|split; [|split]].
  - unfold well_configured in *; fld_goal. rewrite !zset_length. exact Hwf.
  - exact Ham.
  - apply kin_inv_pair_update; try assumption. apply Hwf.
  - exact Htile.
Qed.

Lemma kinship_matrix_update_inv (env : Territories) (pid : Z) :
  0 <= pid < max_agents env ->
  engine_inv env ->
  engine_inv (kinship_matrix_update env pid)
  /\ agent_manager (kinship_matrix_update env pid) = agent_manager env
  /\ max_agents (kinship_matrix_update env pid) = max_agents env.
Proof.
  intros Hpid Hinv. unfold kinship_matrix_update.
  apply (for_range_preserves
           (fun e => engine_inv e
                     /\ agent_manager e = agent_manager env
                     /\ max_agents e = max_agents env)).
  - split; [|split; reflexivity].
    eapply engine_inv_core; [|exact Hinv]. reflexivity.
  - intros pid2 e Hp2 (He & Hae & HNe).
    destruct (negb (getb (alive_mask (agent_manager e)) pid2)) eqn:E1;
      cbn [orb]; [tauto|].
    destruct (Z.eqb_spec pid2 pid) as [Heq|Hne]; [tauto|].
    split; [|split; [exact Hae|exact HNe]].
    eapply engine_inv_core;
      [|apply (engine_inv_pair_update e pid pid2
                 (kinship_get e pid pid2 (n_genes e)));
        [lia|lia|congruence|exact He]].
    reflexivity.
Qed.

Lemma u8_small (x : Z) : 0 <= x < 256 -> u8 x = x.
Proof. intros H; unfold u8; apply Z.mod_small; exact H. Qed.

Lemma kinship_matrix_reset_kin_inv (env : Territories) :
  Z.of_nat (length (kinship_matrix env)) = max_agents env * max_agents env ->
  0 <= n_genes env <= 255 ->
  0 <= max_agents env ->
  kin_inv (kinship_matrix_reset env)
  /\ same_but_kinship env (kinship_matrix_reset env)
  /\ length (kinship_matrix (kinship_matrix_reset env))
     = length (kinship_matrix env).
Proof.
  intros Hlen Hg HN0. unfold kinship_matrix_reset.
  set (N := max_agents env) in *.
  set (env1 := set_kinship_matrix env _).
  pose (P := fun (i : Z) (e : Territories) =>
               max_agents e = N /\ n_genes e = n_genes env
               /\ Z.of_nat (length (kinship_matrix e)) = N * N
               /\ same_but_kinship env e
               /\ forall a b, 0 <= a < N -> 0 <= b < N ->
                    geti (kinship_matrix e) (a * N + b)
                    = if (a =? b) && (a <? i) then n_genes env else 0).
  assert (HP : P N (for_range 0 N
                      (fun i e =>
                         set_kinship_matrix e
                           (zset (kinship_matrix e) (i * max_agents e + i)
                              (u8 (n_genes e)))) env1)).
  { apply for_range_ind; [lia| |].
    - subst P env1; cbv beta; fld_goal. rewrite fill_length.
      split; [reflexivity|split; [reflexivity|split; [exact Hlen|split]]].
      + unfold same_but_kinship. tauto.
      + intros a b Ha Hb.
        destruct (Z.ltb_spec a 0); [lia|]. rewrite andb_false_r.
        unfold geti. apply zget_fill_default. apply cell_index_range; lia.
    - intros i e Hi (H1 & H2 & H3 & H4 & H5). subst P; cbv beta; fld_goal.
      rewrite zset_length. rewrite H1, H2.
      split; [reflexivity|split; [reflexivity|split; [exact H3|split]]].
      + exact H4.
      + intros a b Ha Hb.
        rewrite u8_small by lia.
        destruct (Z.eq_dec a i) as [->|Hai].
        * destruct (Z.eqb_spec i b) as [<-|Hib]; cbn [andb].
          -- destruct (Z.ltb_spec i (i + 1)); [|lia].
             apply geti_zset_eq. rewrite H3. apply cell_index_range; lia.
          -- rewrite geti_zset_neq
               by (intros E; apply cell_index_inj in E; lia).
             rewrite (H5 i b) by lia.
             destruct (Z.eqb_spec i b); [contradiction|reflexivity].
        * rewrite geti_zset_neq
            by (intros E; apply cell_index_inj in E; lia).
          rewrite (H5 a b) by lia.
          destruct (Z.eqb_spec a b); cbn [andb]; [|reflexivity].
          destruct (Z.ltb_spec a i); destruct (Z.ltb_spec a (i + 1));
            try reflexivity; lia. }
  destruct HP as (H1 & H2 & H3 & H4 & H5).
  split; [|split; [exact H4|]].
  - unfold kin_inv. rewrite H1, H2. intros i j Hi Hj.
    rewrite !H5 by assumption.
    split.
    + rewrite Z.eqb_refl. destruct (Z.ltb_spec i N); [reflexivity|lia].
    + destruct (Z.eqb_spec i j) as [Hij|Hij].
      * subst j. rewrite Z.eqb_refl. reflexivity.
      * destruct (Z.eqb_spec j i); [congruence|reflexivity].
  - apply Nat2Z.inj. rewrite H3, Hlen. reflexivity.
Qed.

(** ** The action pass and the death sweep *)

Lemma rand_core (env env' : Territories) (x : Z) :
  rand env = (x, env') -> core env' = core env.
Proof.
  intros E. pose proof (core_rand env) as H. rewrite E in H. exact H.
Qed.

Lemma core_alive_count (e e' : Territories) :
  core e' = core e ->
  alive_count (agent_manager e') = alive_count (agent_manager e)
  /\ max_agents e' = max_agents e.
Proof.
  unfold core, am_core. intros H.
  injection H as H1 H2 H3 H4 H5 H6 H7 H8 H9 H10 H11 H12.
  split; assumption.
Qed.

Lemma spawn_agent_max_agents (env : Territories) (r c : Z) :
  max_agents (fst (spawn_agent env r c)) = max_agents env.
Proof.
  unfold spawn_agent.
  destruct (alive_count (agent_manager env) >=? max_agents env);
    [reflexivity|].
  destruct (free_count (agent_manager env) >? 0);
    match goal with
    | |- context [rand ?e] =>
        pose proof (core_rand e) as H; destruct (rand e) as [x e2]
    end;
    cbn [fst snd] in *; fld_goal;
    destruct (core_alive_count _ _ H) as [_ ->]; reflexivity.
Qed.

Lemma agent_reproduce_inv (pid : Z) (env : Territories) :
  engine_inv env -> engine_inv (agent_reproduce pid env).
Proof.
  intros Hinv. unfold agent_reproduce.
  destruct (negb (_agent_can_reproduce (ag env pid))); cbn [orb]; [exact Hinv|].
  destruct (Z.geb_spec (alive_count (agent_manager env)) (max_agents env))
    as [Hfull|Hroom]; [exact Hinv|].
  destruct (_find_mate (ag env pid) env =? -1); [exact Hinv|].
  set (mate_pid := _find_mate (ag env pid) env).
  set (env2 := upd_agent (upd_agent env pid _) mate_pid _).
  assert (Hinv2 : engine_inv env2)
    by (subst env2; apply engine_inv_upd_agent, engine_inv_upd_agent; exact Hinv).
  set (new_r := Z.quot _ (width env2)). set (new_c := Z.rem _ (width env2)).
  destruct (spawn_agent_inv env2 new_r new_c Hinv2 Hroom) as (Hinv3 & Hchild & _).
  pose proof (spawn_agent_max_agents env2 new_r new_c) as HN3.
  destruct (spawn_agent env2 new_r new_c) as [env3 child_pid].
  cbn [fst snd] in Hinv3, Hchild, HN3.
  change (max_agents env2) with (max_agents env) in Hchild, HN3.
  set (env4 := set_pid_at env3 new_r new_c child_pid).
  set (env5 := for_range 0 (n_genes env4) _ env4).
  assert (Hc5 : core env5 = core env3).
  { subst env5.
    apply (for_range_preserves (fun e => core e = core env3)); [reflexivity|].
    intros j e _ He.
    destruct (rand e) as [x e1] eqn:Er.
    rewrite <- He, <- (rand_core e e1 x Er). reflexivity. }
  destruct (rand env5) as [x env6] eqn:Er6.
  pose proof (rand_core env5 env6 x Er6) as Hc6.
  set (env7 := upd_agent env6 child_pid _).
  assert (Hc7 : core env7 = core env3)
    by (rewrite <- Hc5, <- Hc6; reflexivity).
  assert (Hinv7 : engine_inv env7)
    by (eapply engine_inv_core; [exact Hc7|exact Hinv3]).
  assert (HN7 : max_agents env7 = max_agents env).
  { destruct (core_alive_count env3 env7 Hc7) as [_ ->]. exact HN3. }
  apply engine_inv_count_stat.
  apply kinship_matrix_update_inv; [rewrite HN7; exact Hchild|exact Hinv7].
Qed.

Lemma do_action_inv (day pid action : Z) (env : Territories) :
  engine_inv env -> engine_inv (do_action day pid action env).
Proof.
  intros H; unfold do_action.
  repeat match goal with
         | |- engine_inv (if ?b then _ else _) => destruct b
         end;
    auto using engine_inv_step_move, engine_inv_step_pickup,
      engine_inv_agent_mine, engine_inv_step_package,
      engine_inv_step_build_wall, engine_inv_agent_attack,
      agent_reproduce_inv.
Qed.

Lemma agent_turn_inv (day i : Z) (env : Territories) :
  engine_inv env -> engine_inv (agent_turn day i env).
Proof.
  intros H; unfold agent_turn.
  destruct (Agent.hp (ag env (geti (alive_pids (agent_manager env)) i)) <=? 0);
    [exact H|].
  match goal with
  | |- engine_inv (if ?b then _ else _) => destruct b
  end; [apply engine_inv_count_stat|];
    apply do_action_inv, engine_inv_pre_action; exact H.
Qed.

Lemma action_pass_inv (day : Z) (env : Territories) :
  engine_inv env -> engine_inv (action_pass day env).
Proof.
  intros H; unfold action_pass.
  apply for_range_preserves; [exact H|].
  intros i x _ Hx; apply agent_turn_inv; exact Hx.
Qed.

Lemma sweep_turn_inv (i : Z) (env : Territories) :
  engine_inv env -> engine_inv (sweep_turn i env).
Proof.
  intros H; unfold sweep_turn.
  match goal with
  | |- engine_inv (if ?b then _ else _) => destruct b
  end; [|exact H].
  eapply engine_inv_core; [|apply kill_agent_inv; exact H].
  reflexivity.
Qed.

Lemma death_sweep_inv (env : Territories) :
  engine_inv env -> engine_inv (death_sweep env).
Proof.
  intros H; unfold death_sweep.
  apply for_range_preserves; [exact H|].
  intros i x _ Hx; apply sweep_turn_inv; exact Hx.
Qed.

Lemma shuffle_rounds_core (k : nat) (i : Z) (env : Territories) :
  core (shuffle_rounds k i env) = core env.
Proof.
  revert i env; induction k as [|k IH]; intros i env; [reflexivity|].
  cbn [shuffle_rounds].
  destruct (rand env) as [x env1] eqn:Er.
  rewrite IH. rewrite <- (rand_core env env1 x Er). reflexivity.
Qed.

Lemma shuffle_core (env : Territories) (n : Z) :
  core (shuffle env n) = core env.
Proof. apply shuffle_rounds_core. Qed.

Lemma sum_family_core (env : Territories) (pid : Z) :
  core (sum_family env pid) = core env.
Proof.
  unfold sum_family.
  apply (for_range_preserves (fun e => core e = core env)); [reflexivity|].
  intros j e _ He. rewrite <- He. reflexivity.
Qed.

Lemma add_total_reward_core (env : Territories) (pid : Z) :
  core (add_total_reward env pid) = core env.
Proof. apply core_count_stat. Qed.

Lemma compute_rewards_core (env : Territories) :
  core (compute_rewards env) = core env.
Proof.
  unfold compute_rewards.
  destruct (reward_growth_rate env).
  - unfold _growth_rate_rewards.
    set (loop := for_range _ _ _ _).
    assert (H : core loop = core env).
    { subst loop.
      apply (for_range_preserves (fun e => core e = core env)); [reflexivity|].
      intros pid e _ He.
      destruct (getb (alive_mask (agent_manager env)) pid
                || negb (geti (terminals e) pid =? 0)); [|exact He].
      rewrite add_total_reward_core.
      pose proof (sum_family_core e pid) as Hs.
      repeat match goal with
             | |- context [if ?b then _ else _] => destruct b
             end;
        (etransitivity; [|exact He]); (etransitivity; [|exact Hs]);
        reflexivity. }
    rewrite <- H. reflexivity.
  - unfold _delta_rewards.
    set (loop := for_range _ _ _ _).
    assert (H : core loop = core env).
    { subst loop.
      apply (for_range_preserves (fun e => core e = core env)); [reflexivity|].
      intros pid e _ He.
      destruct (getb (alive_mask (agent_manager env)) pid
                || negb (geti (terminals e) pid =? 0)); [|exact He].
      rewrite add_total_reward_core.
      pose proof (sum_family_core e pid) as Hs.
      etransitivity; [|exact He]. etransitivity; [|exact Hs].
      reflexivity. }
    rewrite <- H. reflexivity.
Qed.

Lemma start_crop_growth_inv (env : Territories) :
  engine_inv env -> engine_inv (start_crop_growth env).
Proof.
  intros H; unfold start_crop_growth.
  apply for_range_preserves; [exact H|].
  intros r e _ He.
  apply for_range_preserves; [exact He|].
  intros c e' _ He'.
  destruct (soil_at e' r c) eqn:Es; [|exact He'].
  apply engine_inv_set_tile; [|exact He'].
  right; split; [reflexivity|left; exact Es].
Qed.

Lemma season_update_inv (day : Z) (env : Territories) :
  engine_inv env -> engine_inv (season_update day env).
Proof.
  intros H; unfold season_update.
  destruct (negb (is_winter env) && (day >=? SUMMER_DURATION)).
  - eapply engine_inv_core; [|exact H]. reflexivity.
  - destruct (is_winter env && (day <? SUMMER_DURATION)); [|exact H].
    apply start_crop_growth_inv.
    eapply engine_inv_core; [|exact H]. reflexivity.
Qed.

Lemma tick_body_inv (env : Territories) :
  engine_inv env -> engine_inv (tick_body env).
Proof.
  intros H; unfold tick_body.
  set (env1 := season_update (day_number env) env).
  assert (H1 : engine_inv env1) by (apply season_update_inv; exact H).
  set (env2 := set_tick env1 (tick env1 + 1)).
  set (env3 := population_stats env2).
  assert (H3 : engine_inv env3).
  { subst env3; unfold population_stats.
    do 3 apply engine_inv_count_stat.
    eapply engine_inv_core; [|exact H1]. reflexivity. }
  set (env4 := shuffle env3 _).
  assert (H4 : engine_inv env4)
    by (eapply engine_inv_core; [apply shuffle_core|exact H3]).
  set (env5 := action_pass (day_number env) env4).
  assert (H5 : engine_inv env5) by (apply action_pass_inv; exact H4).
  set (env6 := update_alive_pids env5).
  assert (H6 : engine_inv env6)
    by (eapply engine_inv_core; [|exact H5]; reflexivity).
  set (env7 := death_sweep env6).
  assert (H7 : engine_inv env7) by (apply death_sweep_inv; exact H6).
  set (env8 := update_alive_pids env7).
  assert (H8 : engine_inv env8)
    by (eapply engine_inv_core; [|exact H7]; reflexivity).
  destruct (tick env8 >=? next_max_ep_length env8); [|exact H8].
  eapply engine_inv_core; [|exact H8]. reflexivity.
Qed.

(** ** Reset *)

Lemma well_configured_kill_agent (env : Territories) (pid : Z) :
  well_configured env -> well_configured (kill_agent env pid).
Proof.
  intros H; unfold kill_agent.
  destruct (negb (getb (alive_mask (agent_manager env)) pid)); [exact H|].
  unfold well_configured in *; fld_goal. rewrite !zset_length. exact H.
Qed.

Lemma getb_fill_false (n : Z) (l : list bool) (p : Z) :
  Z.of_nat (length l) <= n -> getb (fill false n l) p = false.
Proof.
  intros Hl; unfold getb.
  destruct (Z_lt_dec p 0); [apply zget_outside; lia|].
  destruct (Z_lt_dec p (Z.of_nat (length l))).
  - apply zget_fill_in; lia.
  - apply zget_outside; rewrite fill_length; lia.
Qed.

Lemma agent_manager_reset_am_inv (env : Territories) :
  Z.of_nat (length (alive_mask (agent_manager env))) = max_agents env ->
  0 <= max_agents env ->
  am_inv (agent_manager_reset env)
  /\ alive_count (agent_manager (agent_manager_reset env)) = 0.
Proof.
  intros Hl HN. split; [|reflexivity].
  unfold am_inv, agent_manager_reset; fld_goal.
  split; [lia|split; [lia|split; [lia|split; [|split; [|split]]]]].
  - symmetry. apply count_true_fill_false. lia.
  - intros k Hk; lia.
  - intros k k' Hk Hk'; lia.
  - intros p Hp. rewrite getb_fill_false in Hp by lia. discriminate.
Qed.

Lemma reset_world_inv (env : Territories) :
  well_configured env ->
  engine_inv (reset_world env)
  /\ alive_count (agent_manager (reset_world env)) = 0.
Proof.
  intros Hwf. unfold reset_world.
  set (env3 := set_is_winter _ false).
  assert (H3 : well_configured env3)
    by (eapply well_configured_core; [|exact Hwf]; reflexivity).
  destruct (rand env3) as [x env4] eqn:Er.
  assert (H4 : well_configured env4)
    by (eapply well_configured_core; [apply (rand_core _ _ _ Er)|exact H3]).
  set (env5 := set_next_max_ep_length env4 _).
  set (cells := width env5 * height env5).
  set (env6 := set_pids_2d env5 _).
  assert (H6 : well_configured env6)
    by (eapply well_configured_core; [|exact H4]; reflexivity).
  set (env7 := if alive_count (agent_manager env6) >? 0 then _ else env6).
  assert (H7 : well_configured env7).
  { subst env7. destruct (alive_count (agent_manager env6) >? 0); [|exact H6].
    eapply well_configured_core; [reflexivity|].
    apply for_range_preserves; [exact H6|].
    intros i e _ He. apply well_configured_kill_agent; exact He. }
  set (env8 := set_tile_props env7 _).
  assert (H8 : well_configured env8).
  { subst env8. unfold well_configured in *; fld_goal.
    rewrite fill_length. exact H7. }
  assert (T8 : tile_inv env8).
  { subst env8. unfold tile_inv; fld_goal. intros i Hi _.
    unfold geti. apply zget_fill_default.
    subst cells. change (width env5) with (width env4).
    change (height env5) with (height env4).
    assert (Ew : width env7 = width env4 /\ height env7 = height env4).
    { subst env7. destruct (alive_count (agent_manager env6) >? 0);
        [|split; reflexivity].
      change (width env4) with (width env6).
      change (height env4) with (height env6).
      apply (for_range_preserves
               (fun e => width (update_alive_pids e) = width env6
                         /\ height (update_alive_pids e) = height env6));
        [split; reflexivity|].
      intros j e _ He. unfold kill_agent.
      destruct (negb (getb (alive_mask (agent_manager e))
                        (geti (alive_pids (agent_manager e)) j)));
        exact He. }
    destruct Ew as [Ew Eh]. rewrite Ew, Eh in Hi. lia. }
  set (env9 := for_range 0 2 _ env8).
  assert (H9 : well_configured env9 /\ tile_inv env9).
  { subst env9.
    apply (for_range_preserves (fun e => well_configured e /\ tile_inv e));
      [split; assumption|].
    intros ri e _ He.
    apply (for_range_preserves (fun e => well_configured e /\ tile_inv e));
      [exact He|].
    intros ci e' _ [He1 He2]. split.
    - apply well_configured_set_tile; exact He1.
    - apply tile_inv_set_tile; [left; unfold STONE; lia|exact He2]. }
  set (C := width env8) in *. set (R := height env8) in *.
  set (env10 := set_tile env9 _ _ STONE STONE_PER_MINE).
  assert (H10 : well_configured env10 /\ tile_inv env10).
  { subst env10. destruct H9 as [Ha Hb]. split.
    - apply well_configured_set_tile; exact Ha.
    - apply tile_inv_set_tile; [left; unfold STONE; lia|exact Hb]. }
  set (env11 := for_range 0 cells _ env10).
  assert (H11 : core env11 = core env10).
  { subst env11.
    apply (for_range_preserves (fun e => core e = core env10)); [reflexivity|].
    intros i e _ He. rewrite <- He. reflexivity. }
  destruct H10 as [W10 T10].
  assert (W11 : well_configured env11)
    by (eapply well_configured_core; [exact H11|exact W10]).
  destruct (core_fields _ _ H11)
    as (_ & _ & F3 & F4 & F5 & _ & F6 & _ & _ & _).
  destruct W11 as (WN & Wg & WK & Wm & Wf & Wt).
  destruct (kinship_matrix_reset_kin_inv env11) as (Hkin & Hsame & HlenK);
    [exact WK|exact Wg|lia|].
  set (env12 := kinship_matrix_reset env11) in *.
  destruct Hsame as (E1 & E2 & E3 & E4 & E5 & E6 & G1 & G2).
  destruct (agent_manager_reset_am_inv env12) as [Ham Hcount];
    [rewrite G1, E1; exact Wm|rewrite E1; lia|].
  split; [|exact Hcount].
  split; [|split; [|split]].
  - unfold well_configured, agent_manager_reset; fld_goal.
    rewrite !fill_length. rewrite HlenK, G1, G2, E1, E2, E3, E4, E6.
    repeat split; try assumption; try lia.
  - exact Ham.
  - exact Hkin.
  - unfold tile_inv, agent_manager_reset; fld_goal.
    rewrite E3, E4, E5, E6, F3, F4, F5, F6. exact T10.
Qed.

Lemma spawn_pair_inv (retries : nat) (env env' : Territories) :
  engine_inv env ->
  alive_count (agent_manager env) + 2 <= max_agents env ->
  spawn_pair retries env = Some env' ->
  engine_inv env'
  /\ alive_count (agent_manager env')
     = alive_count (agent_manager env) + 2
  /\ max_agents env' = max_agents env.
Proof.
  revert env env'; induction retries as [|k IH]; intros env env' Hinv Hroom Hrun;
    [discriminate|].
  cbn [spawn_pair] in Hrun.
  destruct (rand env) as [x env1] eqn:Er.
  pose proof (rand_core env env1 x Er) as Hc1.
  assert (Hinv1 : engine_inv env1)
    by (eapply engine_inv_core; [exact Hc1|exact Hinv]).
  destruct (core_alive_count env env1 Hc1) as [Ea1 EN1].
  assert (Hretry : forall e'', spawn_pair k env1 = Some e'' ->
            engine_inv e''
            /\ alive_count (agent_manager e'')
               = alive_count (agent_manager env) + 2
            /\ max_agents e'' = max_agents env).
  { intros e'' Hk. rewrite <- Ea1, <- EN1. apply IH; [exact Hinv1|lia|exact Hk]. }
  set (r := Z.quot _ (width env1)) in Hrun.
  set (c := Z.rem _ (width env1)) in Hrun.
  destruct (tile_is_blocked env1 r c); [apply Hretry; exact Hrun|].
  destruct (find_empty_cell r c env1 =? -1); [apply Hretry; exact Hrun|].
  set (r_2 := Z.quot _ (width env1)) in Hrun.
  set (c_2 := Z.rem _ (width env1)) in Hrun.
  destruct (spawn_agent_inv env1 r c Hinv1) as (Hinv2 & Hpid & Ea2); [lia|].
  pose proof (spawn_agent_max_agents env1 r c) as EN2.
  destruct (spawn_agent env1 r c) as [env2 pid].
  cbn [fst snd] in Hinv2, Hpid, Ea2, EN2.
  set (env3 := set_pid_at env2 r c pid) in Hrun.
  assert (Hinv3 : engine_inv env3)
    by (apply engine_inv_set_pid_at; exact Hinv2).
  destruct (spawn_agent_inv env3 r_2 c_2 Hinv3) as (Hinv4 & Hpid2 & Ea4).
  { change (alive_count (agent_manager env3))
      with (alive_count (agent_manager env2)).
    change (max_agents env3) with (max_agents env2). lia. }
  pose proof (spawn_agent_max_agents env3 r_2 c_2) as EN4.
  destruct (spawn_agent env3 r_2 c_2) as [env4 pid2].
  cbn [fst snd] in Hinv4, Hpid2, Ea4, EN4.
  change (alive_count (agent_manager env3))
    with (alive_count (agent_manager env2)) in Ea4.
  change (max_agents env3) with (max_agents env2) in EN4, Hpid2.
  set (env5 := set_pid_at env4 r_2 c_2 pid2) in Hrun.
  set (env6 := for_range 0 (n_genes env5) _ env5) in Hrun.
  assert (Hc6 : core env6 = core env4).
  { subst env6.
    apply (for_range_preserves (fun e => core e = core env4)); [reflexivity|].
    intros j e _ He.
    destruct (rand e) as [y e1] eqn:Ey.
    rewrite <- He, <- (rand_core e e1 y Ey). reflexivity. }
  set (env8 := upd_agent (upd_agent env6 pid _) pid2 _) in Hrun.
  assert (Hc8 : core env8 = core env4) by (rewrite <- Hc6; reflexivity).
  assert (Hinv8 : engine_inv env8)
    by (eapply engine_inv_core; [exact Hc8|exact Hinv4]).
  destruct (core_alive_count env4 env8 Hc8) as [Ea8 EN8].
  destruct (kinship_matrix_update_inv env8 pid) as (Hinv9 & Eam9 & EN9);
    [lia|exact Hinv8|].
  set (env9 := kinship_matrix_update env8 pid) in *.
  destruct (kinship_matrix_update_inv env9 pid2) as (Hinv10 & Eam10 & EN10);
    [lia|exact Hinv9|].
  injection Hrun as <-.
  split; [exact Hinv10|split].
  - rewrite Eam10, Eam9. lia.
  - lia.
Qed.

Lemma c_reset_inv (retries : nat) (env env' : Territories) :
  well_configured env ->
  c_reset retries env = Some env' ->
  engine_inv env'.
Proof.
  intros Hwf Hrun. unfold c_reset in Hrun.
  destruct (reset_world_inv env Hwf) as [H0 A0].
  assert (HN : 8 <= max_agents (reset_world env)) by (apply H0).
  destruct (spawn_pair retries (reset_world env)) as [e1|] eqn:E1;
    [|discriminate].
  destruct (spawn_pair_inv _ _ _ H0 ltac:(lia) E1) as (H1 & A1 & N1).
  cbn [bind_env] in Hrun.
  destruct (spawn_pair retries e1) as [e2|] eqn:E2; [|discriminate].
  destruct (spawn_pair_inv _ _ _ H1 ltac:(lia) E2) as (H2 & A2 & N2).
  cbn [bind_env] in Hrun.
  destruct (spawn_pair retries e2) as [e3|] eqn:E3; [|discriminate].
  destruct (spawn_pair_inv _ _ _ H2 ltac:(lia) E3) as (H3 & A3 & N3).
  cbn [bind_env] in Hrun.
  destruct (spawn_pair retries e3) as [e4|] eqn:E4; [|discriminate].
  destruct (spawn_pair_inv _ _ _ H3 ltac:(lia) E4) as (H4 & A4 & N4).
  cbn [bind_env] in Hrun.
  injection Hrun as <-.
  eapply engine_inv_core; [apply compute_rewards_core|].
  eapply engine_inv_core; [|exact H4]. reflexivity.
Qed.

Lemma c_step_inv (retries : nat) (env env' : Territories) :
  engine_inv env ->
  c_step retries env = Some env' ->
  engine_inv env'.
Proof.
  intros Hinv Hrun. unfold c_step in Hrun.
  set (env0 := set_terminals env _) in Hrun.
  assert (H0 : engine_inv env0)
    by (eapply engine_inv_core; [|exact Hinv]; reflexivity).
  destruct ((alive_count (agent_manager env0) =? 0)
            || (tick env0 >=? next_max_ep_length env0)).
  - eapply c_reset_inv; [|exact Hrun].
    eapply well_configured_core; [|apply H0]. reflexivity.
  - injection Hrun as <-.
    eapply engine_inv_core; [apply compute_rewards_core|].
    apply tick_body_inv; exact H0.
Qed.

Lemma reachable_engine_inv (env : Territories) :
  reachable env -> engine_inv env.
Proof.
  induction 1 as [env env' retries Hwf Hrun
                 |env acts Hr IH
                 |env env' retries Hr IH Hrun].
  - eapply c_reset_inv; eassumption.
  - eapply engine_inv_core; [|exact IH]. reflexivity.
  - eapply c_step_inv; eassumption.
Qed.

(** ** Kinship symmetry *)

Lemma kill_agent_kinship_matrix (env : Territories) (pid : Z) :
  kinship_matrix (kill_agent env pid) = kinship_matrix env.
Proof.
  unfold kill_agent.
  destruct (negb (getb (alive_mask (agent_manager env)) pid)); reflexivity.
Qed.

(** X29.  In every state of a run that starts with the reset of a
    configured environment (which has at least 8 slots, so that the four
    pairs of [c_reset] find their slots, and at most 255 genes), the
    kinship matrix has [n_genes] on its diagonal and is symmetric, for all
    slots [i], [j] of the table; and a death ([kill_agent]) leaves the
    matrix untouched. *)
Theorem kinship_matrix_symmetric_diagonal_n_genes
  (env : Territories) (i j pid : Z) :
  reachable env ->
  0 <= i < max_agents env ->
  0 <= j < max_agents env ->
  geti (kinship_matrix env) (i * max_agents env + i) = n_genes env
  /\ geti (kinship_matrix env) (i * max_agents env + j)
     = geti (kinship_matrix env) (j * max_agents env + i)
  /\ kinship_matrix (kill_agent env pid) = kinship_matrix env.
Proof.
  intros Hr Hi Hj.
  destruct (reachable_engine_inv env Hr) as (_ & _ & Hkin & _).
  destruct (Hkin i j Hi Hj) as [Hd Hs].
  split; [exact Hd|split; [exact Hs|apply kill_agent_kinship_matrix]].
Qed.

(** ** Walls *)

Lemma zset_same {A : Type} (d : A) (l : list A) (i : Z) (v : A) :
  zget d l i = v -> zset l i v = l.
Proof.
  intros H. unfold zset, zget in *.
  destruct (i <? 0); [reflexivity|].
  revert H; generalize (Z.to_nat i) as n.
  induction l as [|h t IH]; intros [|n] H; cbn [upd_nth nth] in *;
    try reflexivity.
  - congruence.
  - f_equal. apply IH. exact H.
Qed.

Lemma set_tile_props_same (env : Territories) :
  set_tile_props env (tile_props env) = env.
Proof. destruct env; reflexivity. Qed.

Lemma set_tile_noop (env : Territories) (r c k v : Z) :
  tile env r c k = u16 v -> set_tile env r c k v = env.
Proof.
  intros H. unfold set_tile.
  rewrite (zset_same 0 (tile_props env) (tile_adr env r c k) (u16 v))
    by exact H.
  apply set_tile_props_same.
Qed.

(** C8.  On a cell off soil that holds no stored food, no stone, no wall
    and no agent, in a state reached by a reset followed by steps,
    [place_wall] raises a wall of [WALL_HP_MAX] and [destroy_wall] after
    it gives back the environment as it was: the harvest day, the stored
    food, the stone and the wall hp of the cell are the ones from before
    the two calls. *)
Theorem place_wall_destroy_wall_restores_tile (env : Territories) (r c : Z) :
  let env' := destroy_wall (place_wall env r c) r c in
  reachable env ->
  0 <= r < height env ->
  0 <= c < width env ->
  soil_at env r c = false ->
  tile env r c STORED_FOOD = 0 ->
  tile env r c STONE = 0 ->
  tile env r c WALL_HP = 0 ->
  pid_at env r c = -1 ->
  tile (place_wall env r c) r c WALL_HP = WALL_HP_MAX
  /\ tile env' r c LAST_HARVEST = tile env r c LAST_HARVEST
  /\ tile env' r c STORED_FOOD = tile env r c STORED_FOOD
  /\ tile env' r c STONE = tile env r c STONE
  /\ tile env' r c WALL_HP = tile env r c WALL_HP
  /\ env' = env.
Proof.
  intros env' Hr Hrow Hcol Hsoil Hfood Hstone Hwall _.
  destruct (reachable_engine_inv env Hr) as (Hwf & _ & _ & Htile).
  destruct Hwf as (_ & _ & _ & _ & _ & Hlen).
  assert (Hcell : 0 <= r * width env + c < width env * height env) by nia.
  assert (Hlh : tile env r c LAST_HARVEST = 0).
  { unfold tile, tile_adr, LAST_HARVEST.
    replace ((r * width env + c) * 4 + 0) with ((r * width env + c) * 4) by lia.
    apply Htile; [exact Hcell|exact Hsoil]. }
  assert (Hplace : place_wall env r c = set_tile env r c WALL_HP WALL_HP_MAX).
  { unfold place_wall. rewrite Hwall. cbn [Z.gtb Z.compare].
    f_equal.
    change (for_range 0 3 (fun i e => set_tile e r c i 0) env)
      with (set_tile (set_tile (set_tile env r c 0 0) r c 1 0) r c 2 0).
    rewrite (set_tile_noop env r c 0 0) by exact Hlh.
    rewrite (set_tile_noop env r c 1 0) by exact Hfood.
    apply set_tile_noop; exact Hstone. }
  assert (Hin : 0 <= tile_adr env r c WALL_HP
                < Z.of_nat (length (tile_props env)))
    by (unfold tile_adr, WALL_HP; lia).
  assert (Hraised : tile (place_wall env r c) r c WALL_HP = WALL_HP_MAX).
  { rewrite Hplace. rewrite tile_set_tile_eq by exact Hin. reflexivity. }
  assert (Hback : env' = env).
  { subst env'. unfold destroy_wall. rewrite Hraised.
    cbn [WALL_HP_MAX Z.eqb].
    rewrite Hplace.
    change (soil_at (set_tile (set_tile env r c WALL_HP WALL_HP_MAX) r c
                       WALL_HP 0) r c)
      with (soil_at env r c).
    rewrite Hsoil, andb_false_r.
    unfold set_tile; fld_goal. rewrite zset_zset.
    apply (set_tile_noop env r c WALL_HP 0). exact Hwall. }
  rewrite Hback.
  repeat split; try reflexivity. exact Hraised.
Qed.
(** ** The bitset *)

Lemma word_index (x : Z) :
  0 <= x -> Z.shiftr x 6 = x / 64 /\ Z.land x 63 = x mod 64.
Proof.
  intros Hx. split.
  - rewrite Z.shiftr_div_pow2 by lia. reflexivity.
  - change 63 with (Z.ones 6). rewrite Z.land_ones by lia. reflexivity.
Qed.

Lemma word_index_of (wi b : Z) :
  0 <= wi -> 0 <= b < 64 ->
  Z.shiftr (wi * 64 + b) 6 = wi /\ Z.land (wi * 64 + b) 63 = b.
Proof.
  intros Hw Hb. destruct (word_index (wi * 64 + b)) as [E1 E2]; [lia|].
  rewrite E1, E2. split.
  - rewrite Z.add_comm, Z.div_add by lia. rewrite Z.div_small by lia. lia.
  - rewrite Z.add_comm, Z.mod_add by lia. apply Z.mod_small; lia.
Qed.

Lemma land_shiftr_1 (w b : Z) :
  0 <= b -> Z.land (Z.shiftr w b) 1 = Z.b2z (Z.testbit w b).
Proof.
  intros Hb. change 1 with (Z.ones 1) at 1. rewrite Z.land_ones by lia.
  change (2 ^ 1) with 2. rewrite <- Z.bit0_mod.
  rewrite Z.shiftr_spec by lia. reflexivity.
Qed.

Lemma bitset_contains_testbit (bs : BitSet) (x : Z) :
  0 <= x < max_num bs ->
  bitset_contains bs x
  = Z.b2z (Z.testbit (geti (data bs) (x / 64)) (x mod 64)).
Proof.
  intros Hx. unfold bitset_contains.
  destruct (Z.ltb_spec x 0); [lia|].
  destruct (Z.geb_spec x (max_num bs)); [lia|]. cbn [orb].
  destruct (word_index x) as [E1 E2]; [lia|]. rewrite E1, E2.
  apply land_shiftr_1. apply Z.mod_pos_bound; lia.
Qed.

Lemma bitset_mem_testbit (bs : BitSet) (x : Z) :
  0 <= x < max_num bs ->
  bitset_mem bs x = Z.testbit (geti (data bs) (x / 64)) (x mod 64).
Proof.
  intros Hx. unfold bitset_mem. rewrite bitset_contains_testbit by exact Hx.
  destruct (Z.testbit _ _); reflexivity.
Qed.

Lemma bitset_mem_outside (bs : BitSet) (x : Z) :
  x < 0 \/ max_num bs <= x -> bitset_mem bs x = false.
Proof.
  intros Hx. unfold bitset_mem, bitset_contains.
  destruct (Z.ltb_spec x 0); [reflexivity|].
  destruct (Z.geb_spec x (max_num bs)); [reflexivity|lia].
Qed.

Lemma word_slot_in_range (bs : BitSet) (x : Z) :
  bitset_wf bs -> 0 <= x < max_num bs ->
  0 <= x / 64 < Z.of_nat (length (data bs)).
Proof.
  intros (H0 & Hw & Hl & _) Hx. rewrite Hl, Hw.
  rewrite Z.quot_div_nonneg by lia.
  split; [apply Z.div_pos; lia|].
  apply Z.div_lt_upper_bound; [lia|].
  pose proof (Z.mul_div_le (max_num bs + 63) 64 ltac:(lia)).
  pose proof (Z.mod_pos_bound (max_num bs + 63) 64 ltac:(lia)).
  pose proof (Z.div_mod (max_num bs + 63) 64 ltac:(lia)). lia.
Qed.

Lemma split_word_offset (x y : Z) :
  x / 64 = y / 64 -> x mod 64 = y mod 64 -> x = y.
Proof.
  intros Hd Hm.
  rewrite (Z.div_mod x 64), (Z.div_mod y 64) by lia. lia.
Qed.

Lemma testbit_set_bit (w off i : Z) :
  0 <= off -> 0 <= i ->
  Z.testbit (Z.lor w (Z.shiftl 1 off)) i = Z.testbit w i || (i =? off).
Proof.
  intros Ho Hi. rewrite Z.lor_spec, Z.shiftl_spec by lia.
  destruct (Z.eqb_spec i off) as [->|Hne].
  - rewrite Z.sub_diag. reflexivity.
  - f_equal. destruct (Z.ltb_spec i off).
    + apply Z.testbit_neg_r; lia.
    + replace (i - off) with (Z.succ (i - off - 1)) by lia.
      change 1 with (2 * 0 + 1) at 1.
      rewrite Z.testbit_odd_succ by lia. apply Z.testbit_0_l.
Qed.

Lemma testbit_clear_bit (w off i : Z) :
  0 <= off < 64 -> 0 <= i < 64 ->
  Z.testbit (Z.land w (u64 (Z.lnot (Z.shiftl 1 off)))) i
  = Z.testbit w i && negb (i =? off).
Proof.
  intros Ho Hi. rewrite Z.land_spec. f_equal.
  unfold u64. change 18446744073709551616 with (2 ^ 64).
  rewrite Z.mod_pow2_bits_low by lia.
  rewrite Z.lnot_spec by lia. f_equal.
  rewrite Z.shiftl_spec by lia.
  destruct (Z.eqb_spec i off) as [->|Hne].
  - rewrite Z.sub_diag. reflexivity.
  - destruct (Z.ltb_spec i off).
    + apply Z.testbit_neg_r; lia.
    + replace (i - off) with (Z.succ (i - off - 1)) by lia.
      change 1 with (2 * 0 + 1) at 1.
      rewrite Z.testbit_odd_succ by lia. apply Z.testbit_0_l.
Qed.

Lemma contains_after_add (bs : BitSet) (x y : Z) :
  bitset_wf bs -> 0 <= x < max_num bs ->
  bitset_contains (bitset_add bs x) x = 1
  /\ (y <> x ->
      bitset_contains (bitset_add bs x) y = bitset_contains bs y).
Proof.
  intros Hwf Hx.
  pose proof (word_slot_in_range bs x Hwf Hx) as Hslot.
  assert (Hm : 0 <= x mod 64 < 64) by (apply Z.mod_pos_bound; lia).
  assert (Eadd : bitset_add bs x
                 = {| max_num := max_num bs; words := words bs;
                      data := zset (data bs) (x / 64)
                                (Z.lor (geti (data bs) (x / 64))
                                   (Z.shiftl 1 (x mod 64))) |}).
  { unfold bitset_add.
    destruct (Z.ltb_spec x 0); [lia|].
    destruct (Z.geb_spec x (max_num bs)); [lia|]. cbn [orb].
    destruct (word_index x) as [E1 E2]; [lia|]. rewrite E1, E2.
    reflexivity. }
  split.
  - rewrite bitset_contains_testbit by (rewrite Eadd; exact Hx).
    rewrite Eadd. cbn [data]. rewrite geti_zset_eq by exact Hslot.
    rewrite testbit_set_bit by lia. rewrite Z.eqb_refl, orb_true_r.
    reflexivity.
  - intros Hne.
    destruct (Z.ltb_spec y 0) as [Hy|Hy];
      [|destruct (Z.ltb_spec y (max_num bs)) as [Hy'|Hy']].
    + unfold bitset_contains. rewrite Eadd. cbn [max_num].
      destruct (Z.ltb_spec y 0); [reflexivity|lia].
    + rewrite !bitset_contains_testbit by (rewrite ?Eadd; cbn [max_num]; lia).
      rewrite Eadd. cbn [data]. f_equal.
      destruct (Z.eq_dec (y / 64) (x / 64)) as [Ed|Ed].
      * rewrite Ed, geti_zset_eq by exact Hslot.
        assert (Hym : 0 <= y mod 64 < 64) by (apply Z.mod_pos_bound; lia).
        rewrite testbit_set_bit by lia.
        destruct (Z.eqb_spec (y mod 64) (x mod 64)) as [Em|Em].
        -- exfalso. apply Hne. apply split_word_offset; assumption.
        -- apply orb_false_r.
      * rewrite geti_zset_neq by congruence. reflexivity.
    + unfold bitset_contains. rewrite Eadd. cbn [max_num].
      destruct (Z.geb_spec y (max_num bs)); [|lia].
      rewrite orb_true_r. reflexivity.
Qed.

Lemma contains_after_remove (bs : BitSet) (x y : Z) :
  bitset_wf bs -> 0 <= x < max_num bs ->
  bitset_contains (bitset_remove bs x) x = 0
  /\ (y <> x ->
      bitset_contains (bitset_remove bs x) y = bitset_contains bs y).
Proof.
  intros Hwf Hx.
  pose proof (word_slot_in_range bs x Hwf Hx) as Hslot.
  assert (Hm : 0 <= x mod 64 < 64) by (apply Z.mod_pos_bound; lia).
  assert (Erem : bitset_remove bs x
                 = {| max_num := max_num bs; words := words bs;
                      data := zset (data bs) (x / 64)
                                (Z.land (geti (data bs) (x / 64))
                                   (u64 (Z.lnot (Z.shiftl 1 (x mod 64))))) |}).
  { unfold bitset_remove.
    destruct (Z.ltb_spec x 0); [lia|].
    destruct (Z.geb_spec x (max_num bs)); [lia|]. cbn [orb].
    destruct (word_index x) as [E1 E2]; [lia|]. rewrite E1, E2.
    reflexivity. }
  split.
  - rewrite bitset_contains_testbit by (rewrite Erem; exact Hx).
    rewrite Erem. cbn [data]. rewrite geti_zset_eq by exact Hslot.
    rewrite testbit_clear_bit by lia. rewrite Z.eqb_refl, andb_false_r.
    reflexivity.
  - intros Hne.
    destruct (Z.ltb_spec y 0) as [Hy|Hy];
      [|destruct (Z.ltb_spec y (max_num bs)) as [Hy'|Hy']].
    + unfold bitset_contains. rewrite Erem. cbn [max_num].
      destruct (Z.ltb_spec y 0); [reflexivity|lia].
    + rewrite !bitset_contains_testbit by (rewrite ?Erem; cbn [max_num]; lia).
      rewrite Erem. cbn [data]. f_equal.
      destruct (Z.eq_dec (y / 64) (x / 64)) as [Ed|Ed].
      * rewrite Ed, geti_zset_eq by exact Hslot.
        assert (Hym : 0 <= y mod 64 < 64) by (apply Z.mod_pos_bound; lia).
        rewrite testbit_clear_bit by lia.
        destruct (Z.eqb_spec (y mod 64) (x mod 64)) as [Em|Em].
        -- exfalso. apply Hne. apply split_word_offset; assumption.
        -- apply andb_true_r.
      * rewrite geti_zset_neq by congruence. reflexivity.
    + unfold bitset_contains. rewrite Erem. cbn [max_num].
      destruct (Z.geb_spec y (max_num bs)); [|lia].
      rewrite orb_true_r. reflexivity.
Qed.

(** *** The lowest set bit *)

Lemma lowest_bit_pos (p : positive) :
  exists b, 0 <= b
    /\ Z.land (Z.pos p) (- Z.pos p) = 2 ^ b
    /\ Z.testbit (Z.pos p) b = true
    /\ (forall i, 0 <= i < b -> Z.testbit (Z.pos p) i = false)
    /\ (forall i, 0 <= i ->
          Z.testbit (Z.land (Z.pos p) (Z.pos p - 1)) i
          = Z.testbit (Z.pos p) i && negb (i =? b)).
Proof.
  induction p as [p _|p IH|].
  - exists 0. rewrite Pos2Z.inj_xI. set (m := Z.pos p).
    split; [lia|]. split; [|split; [|split]].
    + apply Z.bits_inj'. intros n Hn. rewrite Z.land_spec.
      replace (- (2 * m + 1)) with (2 * Z.lnot m + 1)
        by (unfold Z.lnot; lia).
      destruct (Z.eq_dec n 0) as [->|Hne].
      * rewrite !Z.testbit_odd_0. reflexivity.
      * replace n with (Z.succ (n - 1)) by lia.
        rewrite !Z.testbit_odd_succ by lia.
        rewrite Z.lnot_spec by lia. rewrite andb_negb_r.
        change (2 ^ 0) with (2 * 0 + 1).
        rewrite Z.testbit_odd_succ by lia. symmetry; apply Z.testbit_0_l.
    + apply Z.testbit_odd_0.
    + intros i Hi; lia.
    + intros i Hi. rewrite Z.land_spec.
      replace (2 * m + 1 - 1) with (2 * m) by lia.
      destruct (Z.eq_dec i 0) as [->|Hne].
      * rewrite Z.testbit_odd_0, Z.testbit_even_0. reflexivity.
      * replace i with (Z.succ (i - 1)) by lia.
        rewrite Z.testbit_odd_succ, Z.testbit_even_succ by lia.
        destruct (Z.eqb_spec (Z.succ (i - 1)) 0); [lia|].
        rewrite andb_diag, andb_true_r. reflexivity.
  - destruct IH as (b & Hb & Hland & Hset & Hlow & Hclr).
    exists (b + 1). rewrite Pos2Z.inj_xO. set (m := Z.pos p) in *.
    split; [lia|]. split; [|split; [|split]].
    + replace (- (2 * m)) with (2 * - m) by lia.
      replace (2 * m) with (Z.shiftl m 1) by (rewrite Z.shiftl_mul_pow2; lia).
      replace (2 * - m) with (Z.shiftl (- m) 1)
        by (rewrite Z.shiftl_mul_pow2; lia).
      rewrite <- Z.shiftl_land, Hland. rewrite Z.shiftl_mul_pow2 by lia.
      rewrite Z.pow_add_r by lia. reflexivity.
    + replace (b + 1) with (Z.succ b) by lia.
      rewrite Z.testbit_even_succ by lia. exact Hset.
    + intros i Hi. destruct (Z.eq_dec i 0) as [->|Hne].
      * apply Z.testbit_even_0.
      * replace i with (Z.succ (i - 1)) by lia.
        rewrite Z.testbit_even_succ by lia. apply Hlow; lia.
    + intros i Hi. rewrite Z.land_spec.
      replace (2 * m - 1) with (2 * (m - 1) + 1) by lia.
      destruct (Z.eq_dec i 0) as [->|Hne].
      * rewrite Z.testbit_even_0. reflexivity.
      * replace i with (Z.succ (i - 1)) by lia.
        rewrite Z.testbit_odd_succ, Z.testbit_even_succ by lia.
        rewrite <- Z.land_spec, Hclr by lia. f_equal. f_equal.
        destruct (Z.eqb_spec (i - 1) b), (Z.eqb_spec (Z.succ (i - 1)) (b + 1));
          (reflexivity || lia).
  - exists 0. split; [lia|]. split; [reflexivity|]. split; [reflexivity|].
    split; [intros i Hi; lia|].
    intros i Hi. cbn [Z.sub Z.add Z.opp Z.pos_sub Z.land].
    rewrite Z.testbit_0_l.
    destruct (Z.eqb_spec i 0) as [->|Hne]; [reflexivity|].
    replace i with (Z.succ (i - 1)) by lia.
    change 1 with (2 * 0 + 1). rewrite Z.testbit_odd_succ by lia.
    rewrite Z.testbit_0_l. reflexivity.
Qed.

(** [ctzll] is the index of the lowest set bit, and [word & (word - 1)]
    clears that bit. *)
Lemma ctzll_spec (w : Z) :
  0 < w ->
  0 <= ctzll w
  /\ Z.testbit w (ctzll w) = true
  /\ (forall i, 0 <= i < ctzll w -> Z.testbit w i = false)
  /\ (forall i, 0 <= i ->
        Z.testbit (Z.land w (w - 1)) i
        = Z.testbit w i && negb (i =? ctzll w)).
Proof.
  intros Hw. destruct w as [|p|p]; try lia.
  destruct (lowest_bit_pos p) as (b & Hb & Hland & Hset & Hlow & Hclr).
  assert (E : ctzll (Z.pos p) = b).
  { unfold ctzll. change (- Z.pos p) with (- Z.pos p). rewrite Hland.
    apply Z.log2_pow2; exact Hb. }
  rewrite E. auto.
Qed.

(** *** Enumeration of the members *)

Lemma zrange_length (lo : Z) (n : nat) : length (zrange lo n) = n.
Proof. revert lo; induction n as [|n IH]; intros lo; simpl; auto. Qed.

Lemma zrange_app (lo : Z) (n m : nat) :
  zrange lo (n + m) = zrange lo n ++ zrange (lo + Z.of_nat n) m.
Proof.
  revert lo; induction n as [|n IH]; intros lo.
  - simpl. f_equal. lia.
  - cbn [Nat.add zrange app]. f_equal. rewrite IH. do 2 f_equal. lia.
Qed.

Lemma In_zrange (lo : Z) (n : nat) (x : Z) :
  In x (zrange lo n) <-> lo <= x < lo + Z.of_nat n.
Proof.
  revert lo; induction n as [|n IH]; intros lo.
  - simpl. lia.
  - cbn [zrange In]. rewrite IH. lia.
Qed.

Lemma elements_below_succ (bs : BitSet) (B : Z) :
  0 <= B ->
  elements_below bs (B + 1)
  = elements_below bs B ++ (if bitset_mem bs B then [B] else []).
Proof.
  intros HB. unfold elements_below.
  replace (Z.to_nat (B + 1)) with (Z.to_nat B + 1)%nat by lia.
  rewrite zrange_app, filter_app. f_equal.
  cbn [zrange filter]. rewrite Z2Nat.id by lia. reflexivity.
Qed.

Lemma elements_below_skip (bs : BitSet) (B : Z) (n : nat) :
  0 <= B ->
  (forall x, B <= x < B + Z.of_nat n -> bitset_mem bs x = false) ->
  elements_below bs (B + Z.of_nat n) = elements_below bs B.
Proof.
  intros HB. induction n as [|n IH]; intros Hno.
  - f_equal. lia.
  - replace (B + Z.of_nat (S n)) with (B + Z.of_nat n + 1) by lia.
    rewrite elements_below_succ by lia.
    rewrite (Hno (B + Z.of_nat n)) by lia. rewrite app_nil_r.
    apply IH. intros x Hx; apply Hno; lia.
Qed.

Lemma elements_below_length (bs : BitSet) (B : Z) :
  0 <= B -> Z.of_nat (length (elements_below bs B)) <= B.
Proof.
  intros HB. unfold elements_below.
  pose proof (zrange_length 0 (Z.to_nat B)) as Hl.
  revert Hl. generalize (zrange 0 (Z.to_nat B)). intros l Hl.
  assert (Hle : (length (filter (bitset_mem bs) l) <= length l)%nat).
  { clear Hl. induction l as [|a l IH]; [simpl; lia|].
    cbn [filter]. destruct (bitset_mem bs a); simpl; lia. }
  lia.
Qed.

Lemma firstn_upd_nth_snoc {A : Type} (n : nat) (v : A) (l : list A) :
  (n < length l)%nat ->
  firstn (S n) (upd_nth n v l) = firstn n l ++ [v].
Proof.
  revert l; induction n as [|n IH]; intros [|a l] Hn; simpl in Hn; try lia.
  - reflexivity.
  - cbn [upd_nth firstn app]. f_equal. apply IH. lia.
Qed.

Lemma word_bits_bounded (w b : Z) :
  0 <= w < 2 ^ 64 -> Z.testbit w b = true -> b < 64.
Proof.
  intros Hw Hb. destruct (Z.ltb_spec b 64) as [|Hge]; [assumption|].
  destruct (Z.eq_dec w 0) as [->|Hne];
    [rewrite Z.testbit_0_l in Hb; discriminate|].
  rewrite Z.bits_above_log2 in Hb; [discriminate|lia|].
  apply Z.lt_le_trans with 64; [|exact Hge].
  apply Z.log2_lt_pow2; lia.
Qed.

Lemma drain_word_listed (bs : BitSet) (members0 : list Z) (wi : Z) :
  bitset_wf bs -> max_num bs <= 65536 ->
  max_num bs <= Z.of_nat (length members0) -> 0 <= wi ->
  forall (rounds : nat) (k w : Z) (st : list Z * Z),
    0 <= k <= 64 -> 64 - k <= Z.of_nat rounds -> 0 <= w ->
    (forall b, 0 <= b ->
       Z.testbit w b = (k <=? b) && Z.testbit (geti (data bs) wi) b) ->
    listed bs members0 (wi * 64 + k) st ->
    listed bs members0 (wi * 64 + 64) (drain_word rounds wi w st).
Proof.
  intros Hwf Hsmall Hlen Hwi.
  pose proof Hwf as (Hmax & Hwords & Hdata & Hword & Hstray).
  set (W := geti (data bs) wi) in *.
  assert (Hmem : forall b, 0 <= b < 64 ->
            bitset_mem bs (wi * 64 + b) = true -> Z.testbit W b = true).
  { intros b Hb Hm.
    destruct (Z.ltb_spec (wi * 64 + b) (max_num bs)) as [Hin|Hout].
    - rewrite bitset_mem_testbit in Hm by lia.
      rewrite Z.add_comm, Z.div_add, Z.mod_add in Hm by lia.
      rewrite Z.div_small, Z.mod_small in Hm by lia. exact Hm.
    - rewrite bitset_mem_outside in Hm by lia. discriminate. }
  assert (Hmem' : forall b, 0 <= b < 64 -> Z.testbit W b = true ->
            bitset_mem bs (wi * 64 + b) = true).
  { intros b Hb Ht. pose proof (Hstray wi b Hwi Hb Ht) as Hin.
    rewrite bitset_mem_testbit by lia.
    rewrite Z.add_comm, Z.div_add, Z.mod_add by lia.
    rewrite Z.div_small, Z.mod_small by lia. exact Ht. }
  induction rounds as [|rounds IH]; intros k w st Hk Hr Hw Hbits Hst.
  - cbn [drain_word]. replace 64 with k at 2 by lia. exact Hst.
  - cbn [drain_word]. destruct (Z.eqb_spec w 0) as [->|Hne].
    + destruct Hst as (Hn & Hl & Hf).
      assert (E : elements_below bs (wi * 64 + 64)
                  = elements_below bs (wi * 64 + k)).
      { replace (wi * 64 + 64)
          with (wi * 64 + k + Z.of_nat (Z.to_nat (64 - k))) by lia.
        apply elements_below_skip; [lia|].
        intros x Hx.
        destruct (bitset_mem bs x) eqn:Em; [|reflexivity].
        replace x with (wi * 64 + (x - wi * 64)) in Em by lia.
        apply Hmem in Em; [|lia].
        specialize (Hbits (x - wi * 64) ltac:(lia)).
        rewrite Z.testbit_0_l, Em in Hbits.
        destruct (Z.leb_spec k (x - wi * 64)); [discriminate|lia]. }
      unfold listed. rewrite E. auto.
    + destruct (ctzll_spec w ltac:(lia)) as (Hb0 & Hset & Hlow & Hclr).
      set (b := ctzll w) in *.
      pose proof (Hbits b Hb0) as Hbb. rewrite Hset in Hbb.
      symmetry in Hbb. apply andb_true_iff in Hbb as [Hkb HWb].
      apply Z.leb_le in Hkb.
      assert (Hb64 : b < 64)
        by (apply (word_bits_bounded W); [apply Hword|exact HWb]).
      pose proof (Hstray wi b Hwi ltac:(lia) HWb) as Hin.
      destruct Hst as (Hn & Hl & Hf). destruct st as [m n].
      cbn [fst snd] in *.
      assert (Eskip : elements_below bs (wi * 64 + b)
                      = elements_below bs (wi * 64 + k)).
      { replace (wi * 64 + b)
          with (wi * 64 + k + Z.of_nat (Z.to_nat (b - k))) by lia.
        apply elements_below_skip; [lia|].
        intros x Hx.
        destruct (bitset_mem bs x) eqn:Em; [|reflexivity].
        replace x with (wi * 64 + (x - wi * 64)) in Em by lia.
        apply Hmem in Em; [|lia].
        pose proof (Hbits (x - wi * 64) ltac:(lia)) as Hx'.
        rewrite Em, Hlow in Hx' by lia.
        destruct (Z.leb_spec k (x - wi * 64)); [discriminate|lia]. }
      assert (Enext : elements_below bs (wi * 64 + (b + 1))
                      = elements_below bs (wi * 64 + k) ++ [wi * 64 + b]).
      { replace (wi * 64 + (b + 1)) with (wi * 64 + b + 1) by lia.
        rewrite elements_below_succ by lia.
        rewrite Hmem' by (auto; lia). rewrite Eskip. reflexivity. }
      pose proof (elements_below_length bs (wi * 64 + k) ltac:(lia)) as Hcnt.
      apply (IH (b + 1)).
      * lia.
      * lia.
      * apply Z.land_nonneg; left; exact Hw.
      * intros i Hi. rewrite Hclr by exact Hi.
        destruct (Z.lt_total i b) as [Hlt|[->|Hgt]].
        -- rewrite Hlow by lia.
           destruct (Z.leb_spec (b + 1) i); [lia|reflexivity].
        -- rewrite Z.eqb_refl, andb_false_r.
           destruct (Z.leb_spec (b + 1) b); [lia|reflexivity].
        -- rewrite Hbits by exact Hi.
           destruct (Z.eqb_spec i b); [lia|].
           destruct (Z.leb_spec (b + 1) i); [|lia].
           destruct (Z.leb_spec k i); [|lia].
           cbn [andb negb]. apply andb_true_r.
      * unfold listed. cbn [fst snd]. rewrite Enext.
        rewrite length_app. cbn [length].
        split; [lia|]. split.
        -- rewrite zset_length. exact Hl.
        -- unfold zset. destruct (Z.ltb_spec n 0); [lia|].
           replace (Z.to_nat (n + 1)) with (S (Z.to_nat n)) by lia.
           rewrite firstn_upd_nth_snoc by lia.
           rewrite Hf. f_equal. f_equal. unfold u16.
           apply Z.mod_small; lia.
Qed.

Lemma bitset_update_members_listed (bs : BitSet) (members : list Z) :
  bitset_wf bs -> max_num bs <= 65536 ->
  max_num bs <= Z.of_nat (length members) ->
  let r := bitset_update_members bs members in
  snd r = Z.of_nat (length (bitset_elements bs))
  /\ firstn (length (bitset_elements bs)) (fst r) = bitset_elements bs
  /\ length (fst r) = length members.
Proof.
  intros Hwf Hsmall Hlen.
  pose proof Hwf as (Hmax & Hwords & Hdata & Hword & Hstray).
  assert (Hw0 : 0 <= words bs).
  { rewrite Hwords, Z.quot_div_nonneg by lia. apply Z.div_pos; lia. }
  assert (Hloop : listed bs members (words bs * 64)
                    (bitset_update_members bs members)).
  { unfold bitset_update_members.
    apply (for_range_ind (fun wi st => listed bs members (wi * 64) st)).
    - exact Hw0.
    - unfold listed. cbn. auto.
    - intros wi st Hwi Hst.
      replace ((wi + 1) * 64) with (wi * 64 + 64) by lia.
      apply (drain_word_listed bs members wi Hwf Hsmall Hlen ltac:(lia)
               64%nat 0).
      + lia.
      + lia.
      + apply Hword.
      + intros b Hb. destruct (Z.leb_spec 0 b); [reflexivity|lia].
      + replace (wi * 64 + 0) with (wi * 64) by lia. exact Hst. }
  assert (E : elements_below bs (words bs * 64) = bitset_elements bs).
  { assert (Hge : max_num bs <= words bs * 64).
    { rewrite Hwords, Z.quot_div_nonneg by lia.
      pose proof (Z.div_mod (max_num bs + 63) 64 ltac:(lia)).
      pose proof (Z.mod_pos_bound (max_num bs + 63) 64 ltac:(lia)). lia. }
    replace (words bs * 64)
      with (max_num bs + Z.of_nat (Z.to_nat (words bs * 64 - max_num bs)))
      by lia.
    apply elements_below_skip; [lia|].
    intros x Hx. apply bitset_mem_outside; lia. }
  destruct Hloop as (Hn & Hl & Hf). rewrite E in Hn, Hf.
  cbv zeta. split; [exact Hn|]. split; [|exact Hl].
  rewrite Hn, Nat2Z.id in Hf. exact Hf.
Qed.

Lemma zrange_sorted (lo : Z) (n : nat) :
  Sorted.StronglySorted Z.lt (zrange lo n).
Proof.
  revert lo; induction n as [|n IH]; intros lo; cbn [zrange].
  - constructor.
  - constructor; [apply IH|].
    apply Forall_forall. intros x Hx. apply In_zrange in Hx. lia.
Qed.

Lemma filter_sorted (f : Z -> bool) (l : list Z) :
  Sorted.StronglySorted Z.lt l -> Sorted.StronglySorted Z.lt (filter f l).
Proof.
  induction 1 as [|a l Hs IH Hall]; cbn [filter]; [constructor|].
  destruct (f a); [|exact IH].
  constructor; [exact IH|].
  apply Forall_forall. intros x Hx. apply filter_In in Hx as [Hx _].
  rewrite Forall_forall in Hall. apply Hall; exact Hx.
Qed.

(** X4. [bitset_update_members] on a set of at most 65536 values and an
    array with room for them: it returns the number of elements of the
    set and writes them at the head of the array, every value that
    [bitset_contains] accepts once, in strictly ascending order; the array
    keeps its size. *)
Theorem bitset_update_members_lists_elements (bs : BitSet)
  (members : list Z) :
  bitset_wf bs -> max_num bs <= 65536 ->
  max_num bs <= Z.of_nat (length members) ->
  let r := bitset_update_members bs members in
  let found := firstn (Z.to_nat (snd r)) (fst r) in
  0 <= snd r <= max_num bs
  /\ length (fst r) = length members
  /\ (forall x, In x found <-> bitset_contains bs x = 1)
  /\ Sorted.StronglySorted Z.lt found.
Proof.
  intros Hwf Hsmall Hlen.
  destruct (bitset_update_members_listed bs members Hwf Hsmall Hlen)
    as (Hn & Hf & Hl).
  cbv zeta. rewrite Hn, Nat2Z.id, Hf.
  pose proof Hwf as (Hmax & _).
  split; [|split; [exact Hl|split]].
  - pose proof (elements_below_length bs (max_num bs) Hmax) as Hle.
    unfold bitset_elements, elements_below in *. lia.
  - intros x. unfold bitset_elements. rewrite filter_In, In_zrange.
    unfold bitset_mem. rewrite Z.eqb_eq. split; [tauto|].
    intros Hc. split; [|exact Hc].
    unfold bitset_contains in Hc.
    destruct (Z.ltb_spec x 0); [discriminate|].
    destruct (Z.geb_spec x (max_num bs)); [discriminate|]. lia.
  - unfold bitset_elements. apply filter_sorted, zrange_sorted.
Qed.

(** *** The shape of a set is kept *)

Lemma geti_cleared (n : Z) (l : list Z) (i : Z) :
  Z.of_nat (length l) = n -> geti (fill 0 n l) i = 0.
Proof.
  intros Hl. unfold geti.
  destruct (Z_lt_dec i 0) as [Hneg|Hpos];
    [apply zget_outside; left; exact Hneg|].
  destruct (Z_lt_dec i n) as [Hin|Hout].
  - apply zget_fill_default; lia.
  - apply zget_outside. rewrite fill_length. lia.
Qed.

Lemma geti_zeros (n i : Z) : geti (zeros n) i = 0.
Proof.
  unfold geti, zget, zeros. destruct (i <? 0); [reflexivity|].
  generalize (Z.to_nat i) as k. generalize (Z.to_nat n) as m.
  induction m as [|m IH]; intros [|k]; simpl; auto.
Qed.

Lemma zeros_length (n : Z) : 0 <= n -> Z.of_nat (length (zeros n)) = n.
Proof. intros Hn. unfold zeros. rewrite repeat_length. lia. Qed.

Lemma bitset_create_wf (maxn : Z) : 0 <= maxn -> bitset_wf (bitset_create maxn).
Proof.
  intros Hn. unfold bitset_wf, bitset_create. cbn [max_num words data].
  split; [exact Hn|]. split; [reflexivity|]. split.
  - apply zeros_length. rewrite Z.quot_div_nonneg by lia.
    apply Z.div_pos; lia.
  - split; intros wi; [rewrite geti_zeros; lia|].
    intros b _ _. rewrite geti_zeros, Z.testbit_0_l. discriminate.
Qed.

Lemma bitset_clear_shape_wf (bs : BitSet) :
  0 <= max_num bs ->
  words bs = Z.quot (max_num bs + 63) 64 ->
  Z.of_nat (length (data bs)) = words bs ->
  bitset_wf (bitset_clear bs).
Proof.
  intros Hmax Hwords Hdata.
  unfold bitset_wf, bitset_clear. cbn [max_num words data].
  split; [exact Hmax|]. split; [exact Hwords|]. split.
  - rewrite fill_length. exact Hdata.
  - split; intros wi; [rewrite geti_cleared by exact Hdata; lia|].
    intros b _ _. rewrite geti_cleared by exact Hdata.
    rewrite Z.testbit_0_l. discriminate.
Qed.

Lemma bitset_clear_wf (bs : BitSet) : bitset_wf bs -> bitset_wf (bitset_clear bs).
Proof.
  intros (Hmax & Hwords & Hdata & _).
  apply bitset_clear_shape_wf; assumption.
Qed.

Lemma contains_after_clear (bs : BitSet) (x : Z) :
  Z.of_nat (length (data bs)) = words bs ->
  bitset_contains (bitset_clear bs) x = 0.
Proof.
  intros Hdata. unfold bitset_contains, bitset_clear.
  cbn [max_num words data].
  destruct ((x <? 0) || (x >=? max_num bs)); [reflexivity|].
  rewrite geti_cleared by exact Hdata.
  rewrite Z.shiftr_0_l. reflexivity.
Qed.

Lemma word_range_bits (w : Z) :
  0 <= w -> (forall b, 64 <= b -> Z.testbit w b = false) -> 0 <= w < 2 ^ 64.
Proof.
  intros Hw Hhigh. split; [exact Hw|].
  destruct (Z.eq_dec w 0) as [->|Hne]; [lia|].
  apply Z.log2_lt_pow2; [lia|].
  destruct (Z.ltb_spec (Z.log2 w) 64) as [|Hge]; [assumption|].
  pose proof (Z.bit_log2 w ltac:(lia)) as Hb.
  rewrite Hhigh in Hb by lia. discriminate.
Qed.

Lemma word_high_bits (w b : Z) :
  0 <= w < 2 ^ 64 -> 64 <= b -> Z.testbit w b = false.
Proof.
  intros Hw Hb. destruct (Z.testbit w b) eqn:E; [|reflexivity].
  pose proof (word_bits_bounded w b Hw E). lia.
Qed.

Lemma bitset_add_data (bs : BitSet) (x : Z) :
  0 <= x < max_num bs ->
  bitset_add bs x
  = {| max_num := max_num bs; words := words bs;
       data := zset (data bs) (x / 64)
                 (Z.lor (geti (data bs) (x / 64)) (Z.shiftl 1 (x mod 64))) |}.
Proof.
  intros Hx. unfold bitset_add.
  destruct (Z.ltb_spec x 0); [lia|].
  destruct (Z.geb_spec x (max_num bs)); [lia|]. cbn [orb].
  destruct (word_index x) as [E1 E2]; [lia|]. rewrite E1, E2.
  reflexivity.
Qed.

Lemma bitset_remove_data (bs : BitSet) (x : Z) :
  0 <= x < max_num bs ->
  bitset_remove bs x
  = {| max_num := max_num bs; words := words bs;
       data := zset (data bs) (x / 64)
                 (Z.land (geti (data bs) (x / 64))
                    (u64 (Z.lnot (Z.shiftl 1 (x mod 64))))) |}.
Proof.
  intros Hx. unfold bitset_remove.
  destruct (Z.ltb_spec x 0); [lia|].
  destruct (Z.geb_spec x (max_num bs)); [lia|]. cbn [orb].
  destruct (word_index x) as [E1 E2]; [lia|]. rewrite E1, E2.
  reflexivity.
Qed.

Lemma bitset_add_wf (bs : BitSet) (x : Z) :
  bitset_wf bs -> bitset_wf (bitset_add bs x).
Proof.
  intros Hwf.
  destruct (Z_lt_dec x 0) as [Hneg|Hpos];
    [unfold bitset_add; destruct (Z.ltb_spec x 0); [exact Hwf|lia]|].
  destruct (Z_lt_dec x (max_num bs)) as [Hin|Hout];
    [|unfold bitset_add; destruct (Z.geb_spec x (max_num bs));
      [rewrite orb_true_r; exact Hwf|lia]].
  rewrite bitset_add_data by lia.
  pose proof (word_slot_in_range bs x Hwf ltac:(lia)) as Hslot.
  destruct Hwf as (Hmax & Hwords & Hdata & Hword & Hstray).
  assert (Hm : 0 <= x mod 64 < 64) by (apply Z.mod_pos_bound; lia).
  unfold bitset_wf. cbn [max_num words data].
  split; [exact Hmax|]. split; [exact Hwords|]. split.
  - rewrite zset_length. exact Hdata.
  - split.
    + intros wi. destruct (Z.eq_dec wi (x / 64)) as [->|Hne].
      * rewrite geti_zset_eq by exact Hslot.
        apply word_range_bits.
        -- apply Z.lor_nonneg. split; [apply Hword|].
           apply Z.shiftl_nonneg; lia.
        -- intros b Hb. rewrite testbit_set_bit by lia.
           rewrite (word_high_bits _ b (Hword _) Hb).
           destruct (Z.eqb_spec b (x mod 64)); [lia|reflexivity].
      * rewrite geti_zset_neq by congruence. apply Hword.
    + intros wi b Hwi Hb. destruct (Z.eq_dec wi (x / 64)) as [->|Hne].
      * rewrite geti_zset_eq by exact Hslot.
        rewrite testbit_set_bit by lia. intros Ht.
        apply orb_true_iff in Ht as [Ht|Ht].
        -- apply Hstray; assumption.
        -- apply Z.eqb_eq in Ht. subst b.
           pose proof (Z.div_mod x 64 ltac:(lia)). lia.
      * rewrite geti_zset_neq by congruence. apply Hstray; assumption.
Qed.

Lemma bitset_remove_wf (bs : BitSet) (x : Z) :
  bitset_wf bs -> bitset_wf (bitset_remove bs x).
Proof.
  intros Hwf.
  destruct (Z_lt_dec x 0) as [Hneg|Hpos];
    [unfold bitset_remove; destruct (Z.ltb_spec x 0); [exact Hwf|lia]|].
  destruct (Z_lt_dec x (max_num bs)) as [Hin|Hout];
    [|unfold bitset_remove; destruct (Z.geb_spec x (max_num bs));
      [rewrite orb_true_r; exact Hwf|lia]].
  rewrite bitset_remove_data by lia.
  pose proof (word_slot_in_range bs x Hwf ltac:(lia)) as Hslot.
  destruct Hwf as (Hmax & Hwords & Hdata & Hword & Hstray).
  assert (Hm : 0 <= x mod 64 < 64) by (apply Z.mod_pos_bound; lia).
  unfold bitset_wf. cbn [max_num words data].
  split; [exact Hmax|]. split; [exact Hwords|]. split.
  - rewrite zset_length. exact Hdata.
  - split.
    + intros wi. destruct (Z.eq_dec wi (x / 64)) as [->|Hne].
      * rewrite geti_zset_eq by exact Hslot.
        apply word_range_bits.
        -- apply Z.land_nonneg. left; apply Hword.
        -- intros b Hb. rewrite Z.land_spec.
           rewrite (word_high_bits _ b (Hword _) Hb). reflexivity.
      * rewrite geti_zset_neq by congruence. apply Hword.
    + intros wi b Hwi Hb. destruct (Z.eq_dec wi (x / 64)) as [->|Hne].
      * rewrite geti_zset_eq by exact Hslot.
        rewrite testbit_clear_bit by lia. intros Ht.
        apply andb_true_iff in Ht as [Ht _].
        apply Hstray; assumption.
      * rewrite geti_zset_neq by congruence. apply Hstray; assumption.
Qed.

(** X1. [bitset_add] of a value below [max_num] puts it in the set and
    changes the membership of no other value; the set keeps the shape
    [bitset_create] gave it.  A value at or above [max_num] is ignored. *)
Theorem bitset_add_contains (bs : BitSet) (x : Z) :
  bitset_wf bs ->
  bitset_wf (bitset_add bs x)
  /\ (0 <= x < max_num bs ->
      bitset_contains (bitset_add bs x) x = 1
      /\ forall y, y <> x ->
           bitset_contains (bitset_add bs x) y = bitset_contains bs y)
  /\ (max_num bs <= x -> bitset_add bs x = bs).
Proof.
  intros Hwf. split; [apply bitset_add_wf; exact Hwf|]. split.
  - intros Hx. split.
    + apply (contains_after_add bs x x Hwf Hx).
    + intros y. apply (contains_after_add bs x y Hwf Hx).
  - intros Hx. unfold bitset_add.
    destruct (Z.geb_spec x (max_num bs)); [|lia].
    rewrite orb_true_r. reflexivity.
Qed.

(** X2. [bitset_remove] of a value below [max_num] takes it out of the
    set and changes the membership of no other value; the set keeps its
    shape.  A value at or above [max_num] is ignored. *)
Theorem bitset_remove_contains (bs : BitSet) (x : Z) :
  bitset_wf bs ->
  bitset_wf (bitset_remove bs x)
  /\ (0 <= x < max_num bs ->
      bitset_contains (bitset_remove bs x) x = 0
      /\ forall y, y <> x ->
           bitset_contains (bitset_remove bs x) y = bitset_contains bs y)
  /\ (max_num bs <= x -> bitset_remove bs x = bs).
Proof.
  intros Hwf. split; [apply bitset_remove_wf; exact Hwf|]. split.
  - intros Hx. split.
    + apply (contains_after_remove bs x x Hwf Hx).
    + intros y. apply (contains_after_remove bs x y Hwf Hx).
  - intros Hx. unfold bitset_remove.
    destruct (Z.geb_spec x (max_num bs)); [|lia].
    rewrite orb_true_r. reflexivity.
Qed.

(** X3. [bitset_create] gives an empty set, and [bitset_clear] empties a
    set: afterwards [bitset_contains] is 0 for every value, and the set
    has the shape of a fresh one. *)
Theorem bitset_clear_empties (bs : BitSet) (x : Z) :
  bitset_wf bs ->
  bitset_wf (bitset_clear bs)
  /\ bitset_contains (bitset_clear bs) x = 0
  /\ bitset_contains (bitset_create (max_num bs)) x = 0
  /\ bitset_elements (bitset_clear bs) = [].
Proof.
  intros Hwf. pose proof Hwf as (Hmax & _ & Hdata & _).
  split; [apply bitset_clear_wf; exact Hwf|].
  split; [apply contains_after_clear; exact Hdata|]. split.
  - unfold bitset_contains, bitset_create. cbn [max_num data].
    destruct ((x <? 0) || (x >=? max_num bs)); [reflexivity|].
    rewrite geti_zeros, Z.shiftr_0_l. reflexivity.
  - unfold bitset_elements.
    generalize (zrange 0 (Z.to_nat (max_num (bitset_clear bs)))).
    intros l. induction l as [|a l IH]; [reflexivity|].
    cbn [filter]. unfold bitset_mem at 1.
    rewrite contains_after_clear by exact Hdata. exact IH.
Qed.

(** ** Kinship *)

Lemma for_up_ext {St : Type} (f g : Z -> St -> St) (n : nat) (lo : Z) (s : St) :
  (forall i x, lo <= i < lo + Z.of_nat n -> f i x = g i x) ->
  for_up n lo f s = for_up n lo g s.
Proof.
  revert lo s; induction n as [|n IH]; intros lo s H; [reflexivity|].
  cbn [for_up]. rewrite H by lia. apply IH. intros i x Hi; apply H; lia.
Qed.

Lemma zsum_indicator_bound (f : Z -> Z) (lo : Z) (n : nat) :
  (forall i, 0 <= f i <= 1) -> 0 <= zsum f lo n <= Z.of_nat n.
Proof.
  intros Hf. revert lo; induction n as [|n IH]; intros lo.
  - simpl; lia.
  - cbn [zsum]. specialize (IH (lo + 1)). specialize (Hf lo). lia.
Qed.

Lemma zsum_snoc (f : Z -> Z) (lo : Z) (n : nat) :
  zsum f lo (S n) = zsum f lo n + f (lo + Z.of_nat n).
Proof.
  revert lo; induction n as [|n IH]; intros lo.
  - cbn [zsum]. replace (lo + Z.of_nat 0) with lo by lia. lia.
  - change (zsum f lo (S (S n))) with (f lo + zsum f (lo + 1) (S n)).
    rewrite IH. cbn [zsum].
    replace (lo + 1 + Z.of_nat n) with (lo + Z.of_nat (S n)) by lia. lia.
Qed.

(** X5. For at most 255 genes, [kinship_get] is the number of genes on
    which the two slots carry the same allele: the 8-bit counter does not
    wrap.  It lies between 0 and [n_genes], does not depend on the order
    of the two slots, and is [n_genes] for a slot and itself. *)
Theorem kinship_get_counts_equal_genes (env : Territories) (pid1 pid2 ng : Z) :
  0 <= ng <= 255 ->
  kinship_get env pid1 pid2 ng
  = zsum (fun i =>
            if geti (dnas env) (pid1 * ng + i) =? geti (dnas env) (pid2 * ng + i)
            then 1 else 0)
      0 (Z.to_nat ng)
  /\ 0 <= kinship_get env pid1 pid2 ng <= ng
  /\ kinship_get env pid1 pid2 ng = kinship_get env pid2 pid1 ng
  /\ kinship_get env pid1 pid1 ng = ng.
Proof.
  intros Hng.
  assert (Hcount : forall a b,
            kinship_get env a b ng
            = zsum (fun i =>
                      if geti (dnas env) (a * ng + i)
                         =? geti (dnas env) (b * ng + i)
                      then 1 else 0)
                0 (Z.to_nat ng)).
  { intros a b. unfold kinship_get.
    set (f := fun i => if geti (dnas env) (a * ng + i)
                          =? geti (dnas env) (b * ng + i) then 1 else 0).
    assert (Hf : forall i, 0 <= f i <= 1)
      by (intros i; unfold f; destruct (_ =? _); lia).
    apply (for_range_ind
             (fun i result => 0 <= i <= ng -> result = zsum f 0 (Z.to_nat i))).
    - lia.
    - intros _. reflexivity.
    - intros i result Hi IH Hi'. rewrite IH by lia.
      replace (Z.to_nat (i + 1)) with (S (Z.to_nat i)) by lia.
      rewrite zsum_snoc. replace (0 + Z.of_nat (Z.to_nat i)) with i by lia.
      fold (f i). unfold u8. apply Z.mod_small.
      pose proof (zsum_indicator_bound f 0 (Z.to_nat i) Hf).
      specialize (Hf i). lia.
    - lia. }
  split; [apply Hcount|]. split; [|split].
  - rewrite Hcount.
    pose proof (zsum_indicator_bound
                  (fun i => if geti (dnas env) (pid1 * ng + i)
                               =? geti (dnas env) (pid2 * ng + i)
                            then 1 else 0) 0 (Z.to_nat ng)) as Hb.
    cbv beta in Hb.
    assert (forall i : Z,
              0 <= (if geti (dnas env) (pid1 * ng + i)
                       =? geti (dnas env) (pid2 * ng + i) then 1 else 0) <= 1)
      by (intros i; destruct (_ =? _); lia).
    specialize (Hb H). lia.
  - unfold kinship_get, for_range. apply for_up_ext.
    intros i x _. rewrite Z.eqb_sym. reflexivity.
  - rewrite Hcount.
    assert (Hall : forall (n : nat) lo,
              zsum (fun i => if geti (dnas env) (pid1 * ng + i)
                                =? geti (dnas env) (pid1 * ng + i)
                             then 1 else 0) lo n = Z.of_nat n).
    { induction n as [|n IH]; intros lo; [reflexivity|].
      cbn [zsum]. rewrite IH, Z.eqb_refl. lia. }
    rewrite Hall. lia.
Qed.

(** Decides the integer tests of the goal from the hypotheses. *)
Ltac zbool :=
  repeat match goal with
  | |- context [Z.eqb ?x ?y] =>
      first [ replace (Z.eqb x y) with true
                by (symmetry; apply Z.eqb_eq; lia)
            | replace (Z.eqb x y) with false
                by (symmetry; apply Z.eqb_neq; lia) ]
  | |- context [Z.ltb ?x ?y] =>
      first [ replace (Z.ltb x y) with true
                by (symmetry; apply Z.ltb_lt; lia)
            | replace (Z.ltb x y) with false
                by (symmetry; apply Z.ltb_ge; lia) ]
  end.

Lemma pair_write_read (K : list Z) (N a b v i j : Z) :
  Z.of_nat (length K) = N * N ->
  0 <= a < N -> 0 <= b < N -> a <> b -> 0 <= i < N -> 0 <= j < N ->
  geti (zset (zset K (a * N + b) v) (b * N + a) v) (i * N + j)
  = if ((i =? a) && (j =? b)) || ((i =? b) && (j =? a))
    then v else geti K (i * N + j).
Proof.
  intros Hlen Ha Hb Hab Hi Hj.
  pose proof (cell_index_range N a b Ha Hb) as Rab.
  pose proof (cell_index_range N b a Hb Ha) as Rba.
  destruct (Z.eqb_spec i b) as [->|Hib];
    [destruct (Z.eqb_spec j a) as [->|Hja]|].
  - rewrite andb_true_r, orb_true_r || idtac.
    destruct ((b =? a) && (a =? b)); cbn [orb andb];
      apply geti_zset_eq; rewrite zset_length; lia.
  - rewrite andb_false_r, orb_false_r.
    destruct (Z.eqb_spec b a); [congruence|]. cbn [andb].
    rewrite !geti_zset_neq; [reflexivity| |];
      intros E; apply cell_index_inj in E; lia.
  - cbn [andb]. rewrite orb_false_r.
    destruct (Z.eqb_spec i a) as [->|Hia];
      [destruct (Z.eqb_spec j b) as [->|Hjb]|]; cbn [andb].
    + rewrite geti_zset_neq
        by (intros E; apply cell_index_inj in E; lia).
      apply geti_zset_eq; lia.
    + rewrite !geti_zset_neq; [reflexivity| |];
        intros E; apply cell_index_inj in E; lia.
    + rewrite !geti_zset_neq; [reflexivity| |];
        intros E; apply cell_index_inj in E; lia.
Qed.

Lemma kinship_get_dnas (e env : Territories) (a b ng : Z) :
  dnas e = dnas env -> kinship_get e a b ng = kinship_get env a b ng.
Proof. intros H. unfold kinship_get. rewrite H. reflexivity. Qed.

(** X6. [kinship_matrix_update] writes, for every alive slot [q] other
    than [pid], the kinship of [pid] and [q] in the two cells of the pair,
    and no other cell of the matrix: the cells of a dead slot keep their
    old value.  The previous family size of [pid] becomes [n_genes] plus
    its kinship with the alive slots, in 16 bits. *)
Theorem kinship_matrix_update_writes_alive_pairs (env : Territories)
  (pid : Z) :
  well_configured env -> 0 <= pid < max_agents env ->
  let N := max_agents env in
  let env' := kinship_matrix_update env pid in
  (forall a b, 0 <= a < N -> 0 <= b < N ->
     geti (kinship_matrix env') (a * N + b)
     = if (a =? pid) && negb (b =? pid)
          && getb (alive_mask (agent_manager env)) b
       then kinship_get env pid b (n_genes env)
       else if (b =? pid) && negb (a =? pid)
               && getb (alive_mask (agent_manager env)) a
       then kinship_get env pid a (n_genes env)
       else geti (kinship_matrix env) (a * N + b))
  /\ (pid < Z.of_nat (length (prev_family_sizes env)) ->
      geti (prev_family_sizes env') pid
      = u16 (n_genes env
             + zsum (kin_with_alive env pid) 0 (Z.to_nat N))).
Proof.
  intros Hwf Hpid N env'.
  destruct Hwf as (HN & Hng & HK & _).
  set (alive := getb (alive_mask (agent_manager env))).
  set (P := fun (i : Z) (e : Territories) =>
    agent_manager e = agent_manager env
    /\ max_agents e = N /\ n_genes e = n_genes env /\ dnas e = dnas env
    /\ Z.of_nat (length (kinship_matrix e)) = N * N
    /\ length (prev_family_sizes e) = length (prev_family_sizes env)
    /\ (forall a b, 0 <= a < N -> 0 <= b < N ->
          geti (kinship_matrix e) (a * N + b)
          = if (a =? pid) && negb (b =? pid) && alive b && (b <? i)
            then kinship_get env pid b (n_genes env)
            else if (b =? pid) && negb (a =? pid) && alive a && (a <? i)
            then kinship_get env pid a (n_genes env)
            else geti (kinship_matrix env) (a * N + b))
    /\ (pid < Z.of_nat (length (prev_family_sizes env)) ->
        geti (prev_family_sizes e) pid
        = u16 (n_genes env
               + zsum (kin_with_alive env pid) 0 (Z.to_nat i)))).
  assert (Hloop : P N env').
  { subst env'. unfold kinship_matrix_update. apply (for_range_ind P).
    - fold N. lia.
    - unfold P. fld_goal. fold N.
      split; [reflexivity|]. split; [reflexivity|]. split; [reflexivity|].
      split; [reflexivity|]. split; [exact HK|]. split; [apply zset_length|].
      split.
      + intros a b Ha Hb.
        destruct (Z.ltb_spec b 0); [lia|]. destruct (Z.ltb_spec a 0); [lia|].
        rewrite !andb_false_r. reflexivity.
      + intros Hlen. rewrite geti_zset_eq by lia.
        cbn [zsum Z.to_nat]. f_equal. lia.
    - fold N. intros i e Hi (Ham & HNe & Hge & Hd & HKe & Hpl & Hcells & Hfam).
      rewrite Ham. fold alive.
      assert (Eterm : kin_with_alive env pid i
                      = if negb (alive i) || (i =? pid) then 0
                        else kinship_get env pid i (n_genes env)).
      { unfold kin_with_alive. fold alive.
        destruct (alive i), (i =? pid); reflexivity. }
      assert (Ez : Z.to_nat (i + 1) = S (Z.to_nat i)) by lia.
      assert (Ei : 0 + Z.of_nat (Z.to_nat i) = i) by lia.
      destruct (negb (alive i) || (i =? pid)) eqn:Eskip.
      + unfold P. repeat (split; [assumption|]). split.
        * intros a b Ha Hb. rewrite Hcells by assumption.
          apply orb_true_iff in Eskip.
          assert (Hi' : alive i = false \/ i = pid).
          { destruct Eskip as [Hdead|Hself];
              [left; apply negb_true_iff; exact Hdead
              |right; apply Z.eqb_eq; exact Hself]. }
          clear Eskip.
          destruct (Z.eq_dec a pid), (Z.eq_dec b pid),
            (Z.lt_total a i) as [?|[?|?]], (Z.lt_total b i) as [?|[?|?]];
            zbool; cbn [andb orb negb]; rewrite ?andb_true_r;
            try reflexivity;
            destruct (alive a) eqn:Ea, (alive b) eqn:Eb;
            cbn [andb orb negb]; try reflexivity;
            exfalso; destruct Hi' as [Hdead|Hself]; try lia; congruence.
        * intros Hlen. rewrite Hfam by exact Hlen.
          rewrite Ez, zsum_snoc, Ei, Eterm. f_equal. lia.
      + apply orb_false_iff in Eskip as [Halive Hne].
        apply negb_false_iff in Halive. apply Z.eqb_neq in Hne.
        rewrite (kinship_get_dnas e env) by exact Hd.
        rewrite Hge.
        set (v := kinship_get env pid i (n_genes env)).
        unfold P. fld_goal. rewrite HNe.
        split; [exact Ham|]. split; [reflexivity|]. split; [exact Hge|].
        split; [exact Hd|]. split; [rewrite !zset_length; exact HKe|].
        split; [rewrite zset_length; exact Hpl|]. split.
        * intros a b Ha Hb.
          rewrite pair_write_read by (assumption || lia).
          rewrite Hcells by assumption.
          destruct (Z.eq_dec a pid), (Z.eq_dec b pid),
            (Z.lt_total a i) as [?|[?|?]], (Z.lt_total b i) as [?|[?|?]];
            zbool; cbn [andb orb negb]; rewrite ?andb_true_r;
            try reflexivity; try lia;
            destruct (alive a) eqn:Ea, (alive b) eqn:Eb;
            cbn [andb orb negb]; try reflexivity;
            try (subst v; f_equal; lia);
            exfalso; congruence.
        * intros Hlen. rewrite geti_zset_eq by lia.
          rewrite Hfam by exact Hlen. rewrite u16_add_idemp.
          rewrite Ez, zsum_snoc, Ei, Eterm. fold v. f_equal. lia. }
  destruct Hloop as (_ & _ & _ & _ & _ & _ & Hcells & Hfam).
  split; [|exact Hfam].
  intros a b Ha Hb. rewrite Hcells by assumption.
  destruct (Z.ltb_spec b N); [|lia]. destruct (Z.ltb_spec a N); [|lia].
  rewrite !andb_true_r. reflexivity.
Qed.

(** ** The slot manager *)

Lemma spawn_agent_fields (env : Territories) (r c : Z) :
  alive_count (agent_manager env) < max_agents env ->
  let env' := fst (spawn_agent env r c) in
  let pid := snd (spawn_agent env r c) in
  let am := agent_manager env in
  let am' := agent_manager env' in
  alive_mask am' = zset (alive_mask am) pid true
  /\ alive_bitset am' = bitset_add (alive_bitset am) pid
  /\ alive_pids am' = alive_pids am
  /\ alive_count am' = u16 (alive_count am + 1)
  /\ (exists facing,
        0 <= facing < 4
        /\ agents env'
           = zset (agents env) pid
               (newborn r c facing (Agent.role (ag env pid))))
  /\ world env' = world env
  /\ stats env' = stats env.
Proof.
  intros Hroom. unfold spawn_agent.
  destruct (Z.geb_spec (alive_count (agent_manager env)) (max_agents env));
    [lia|].
  assert (Hrem : forall x, 0 <= Z.rem (x mod (RAND_MAX + 1)) 4 < 4).
  { intros x.
    pose proof (Z.mod_pos_bound x (RAND_MAX + 1) ltac:(unfold RAND_MAX; lia)).
    pose proof (Z.rem_bound_pos (x mod (RAND_MAX + 1)) 4 ltac:(lia) ltac:(lia)).
    lia. }
  destruct (free_count (agent_manager env) >? 0);
    unfold rand; fld_goal;
    destruct (rand_state env) as [|x s];
    cbn [fst snd]; fld_goal; unfold newborn;
    (repeat split; try reflexivity;
     eexists; (split; [|reflexivity]));
    first [apply Hrem | cbn; lia].
Qed.

Lemma spawn_agent_pid (env : Territories) (r c : Z) :
  alive_count (agent_manager env) < max_agents env ->
  snd (spawn_agent env r c)
  = if free_count (agent_manager env) >? 0
    then geti (free_pids (agent_manager env))
           (u16 (free_count (agent_manager env) - 1))
    else next_pid (agent_manager env).
Proof.
  intros Hroom. unfold spawn_agent.
  destruct (Z.geb_spec (alive_count (agent_manager env)) (max_agents env));
    [lia|].
  destruct (free_count (agent_manager env) >? 0);
    unfold rand; fld_goal; destruct (rand_state env); reflexivity.
Qed.

Lemma spawn_agent_slot_was_dead (env : Territories) (r c : Z) :
  engine_inv env ->
  alive_count (agent_manager env) < max_agents env ->
  getb (alive_mask (agent_manager env)) (snd (spawn_agent env r c)) = false.
Proof.
  intros (Hwf & Ham & _) Hroom.
  destruct Ham as (Hfc & Hnext & HnN & Hcount & Hfree & Hdist & Halive).
  pose proof (count_true_nonneg (alive_mask (agent_manager env))) as Hc0.
  destruct Hwf as (HN & _).
  rewrite spawn_agent_pid by exact Hroom.
  destruct (Z.gtb_spec (free_count (agent_manager env)) 0) as [Hpos|Hzero].
  - rewrite u16_small by lia.
    apply Hfree; lia.
  - destruct (getb (alive_mask (agent_manager env))
                (next_pid (agent_manager env))) eqn:E; [|reflexivity].
    apply Halive in E. lia.
Qed.

Lemma kill_agent_fields (env : Territories) (pid : Z) :
  getb (alive_mask (agent_manager env)) pid = true ->
  let env' := kill_agent env pid in
  let am := agent_manager env in
  let am' := agent_manager env' in
  alive_mask am' = zset (alive_mask am) pid false
  /\ alive_bitset am' = bitset_remove (alive_bitset am) pid
  /\ alive_pids am' = alive_pids am
  /\ alive_count am' = u16 (alive_count am - 1)
  /\ free_pids am' = zset (free_pids am) (free_count am) (u16 pid)
  /\ free_count am' = u16 (free_count am + 1)
  /\ next_pid am' = next_pid am
  /\ agents env' = agents env
  /\ world env' = world env
  /\ rand_state env' = rand_state env.
Proof.
  intros Hlive. unfold kill_agent. rewrite Hlive. cbn [negb].
  fld_goal. repeat split; reflexivity.
Qed.

(** X7. With room in the manager, [spawn_agent] takes a slot below
    [max_agents] that was dead, raises its flag and no other, counts one
    more alive agent, and writes a newborn at the given cell: 1 health
    point, full satiation, age 0, empty hands.  No other agent and no
    field of the world changes. *)
Theorem spawn_agent_takes_a_dead_slot (env : Territories) (r c : Z) :
  engine_inv env ->
  Z.of_nat (length (agents env)) = max_agents env ->
  alive_count (agent_manager env) < max_agents env ->
  let env' := fst (spawn_agent env r c) in
  let pid := snd (spawn_agent env r c) in
  0 <= pid < max_agents env
  /\ getb (alive_mask (agent_manager env)) pid = false
  /\ getb (alive_mask (agent_manager env')) pid = true
  /\ (forall q, q <> pid ->
        getb (alive_mask (agent_manager env')) q
        = getb (alive_mask (agent_manager env)) q)
  /\ alive_count (agent_manager env')
     = alive_count (agent_manager env) + 1
  /\ (exists facing,
        0 <= facing < 4
        /\ ag env' pid = newborn r c facing (Agent.role (ag env pid)))
  /\ (forall q, q <> pid -> ag env' q = ag env q)
  /\ world env' = world env.
Proof.
  intros Hinv Hagents Hroom env' pid.
  destruct (spawn_agent_inv env r c Hinv Hroom) as (_ & Hpid & Hcount).
  pose proof (spawn_agent_slot_was_dead env r c Hinv Hroom) as Hdead.
  destruct (spawn_agent_fields env r c Hroom)
    as (Hmask & _ & _ & _ & (facing & Hfacing & Hag) & Hworld & _).
  fold env' pid in Hpid, Hcount, Hdead, Hmask, Hag, Hworld.
  destruct Hinv as ((_ & _ & _ & Hlm & _) & _).
  split; [exact Hpid|]. split; [exact Hdead|]. split; [|split; [|split]].
  - rewrite Hmask. unfold getb. apply zget_zset_eq. lia.
  - intros q Hq. rewrite Hmask. unfold getb.
    apply zget_zset_neq. congruence.
  - exact Hcount.
  - split; [|split; [|exact Hworld]].
    + exists facing. split; [exact Hfacing|].
      unfold ag. rewrite Hag. apply zget_zset_eq. lia.
    + intros q Hq. unfold ag. rewrite Hag.
      apply zget_zset_neq. congruence.
Qed.

(** X8. The free slots form a stack: the slot of an agent that has just
    been killed is the one the next [spawn_agent] takes. *)
Theorem spawn_agent_reuses_last_killed_slot (env : Territories)
  (pid r c : Z) :
  engine_inv env ->
  getb (alive_mask (agent_manager env)) pid = true ->
  snd (spawn_agent (kill_agent env pid) r c) = pid.
Proof.
  intros Hinv Hlive.
  pose proof Hinv as ((HN & _ & _ & Hlm & Hlf & _) & Ham & _).
  destruct Ham as (Hfc & Hnext & HnN & Hcount & Hfree & Hdist & Halive).
  pose proof (getb_true_in_range _ _ Hlive) as Hin.
  pose proof (count_true_pos _ _ Hlive) as Hpos.
  destruct (kill_agent_fields env pid Hlive)
    as (_ & _ & _ & Hac & Hfp & Hfc' & _ & _ & Hworld & _).
  assert (HN' : max_agents (kill_agent env pid) = max_agents env).
  { unfold world in Hworld. injection Hworld. auto. }
  set (am := agent_manager env) in *.
  rewrite spawn_agent_pid
    by (rewrite Hac, HN', u16_small by lia; lia).
  rewrite Hfc', Hfp.
  rewrite (u16_small (free_count am + 1)) by lia.
  destruct (Z.gtb_spec (free_count am + 1) 0); [|lia].
  replace (free_count am + 1 - 1) with (free_count am) by lia.
  rewrite (u16_small (free_count am)) by lia.
  rewrite geti_zset_eq by lia. apply u16_small. lia.
Qed.

(** X9. In every state of a run the alive count is the number of raised
    alive flags, it never exceeds [max_agents], and the slots handed out
    so far are the alive ones and the free ones. *)
Theorem reachable_alive_count_within_capacity (env : Territories) :
  reachable env ->
  alive_count (agent_manager env)
  = count_true (alive_mask (agent_manager env))
  /\ 0 <= alive_count (agent_manager env) <= max_agents env
  /\ next_pid (agent_manager env)
     = alive_count (agent_manager env) + free_count (agent_manager env)
  /\ next_pid (agent_manager env) <= max_agents env.
Proof.
  intros Hr. destruct (reachable_engine_inv env Hr) as (_ & Ham & _).
  destruct Ham as (Hfc & Hnext & HnN & Hcount & _).
  pose proof (count_true_nonneg (alive_mask (agent_manager env))).
  repeat split; lia || assumption.
Qed.

(** ** The neighbourhood scans *)

Lemma scan_some {A B : Type} (f : A -> option B) (l : list A) (y : B) :
  scan f l = Some y ->
  exists pre x post,
    l = pre ++ x :: post /\ f x = Some y
    /\ forall z, In z pre -> f z = None.
Proof.
  induction l as [|a l IH]; cbn [scan]; [discriminate|].
  destruct (f a) as [b|] eqn:Ea.
  - intros E; injection E as <-. exists [], a, l.
    split; [reflexivity|]. split; [exact Ea|]. intros z [].
  - intros E. destruct (IH E) as (pre & x & post & -> & Hx & Hpre).
    exists (a :: pre), x, post. split; [reflexivity|]. split; [exact Hx|].
    intros z [<-|Hz]; [exact Ea|apply Hpre; exact Hz].
Qed.

Lemma scan_none {A B : Type} (f : A -> option B) (l : list A) :
  scan f l = None -> forall x, In x l -> f x = None.
Proof.
  induction l as [|a l IH]; cbn [scan]; [intros _ x []|].
  destruct (f a) as [b|] eqn:Ea; [discriminate|].
  intros E x [<-|Hx]; [exact Ea|apply IH; assumption].
Qed.

Lemma moore_offsets_unit (o : Z * Z) :
  In o moore_offsets ->
  -1 <= fst o <= 1 /\ -1 <= snd o <= 1 /\ o <> (0, 0).
Proof.
  cbn. intros H.
  repeat (destruct H as [<-|H]; [cbn; repeat split; (lia || discriminate)|]).
  destruct H.
Qed.

Lemma wrap_in_range (x d n : Z) :
  0 < n -> 0 <= x < n -> -1 <= d <= 1 -> 0 <= Z.rem (x + d + n) n < n.
Proof.
  intros Hn Hx Hd. apply Z.rem_bound_pos; lia.
Qed.

Lemma cell_address_decode (C tr tc : Z) :
  0 < C -> 0 <= tr -> 0 <= tc < C ->
  Z.quot (tr * C + tc) C = tr /\ Z.rem (tr * C + tc) C = tc.
Proof.
  intros HC Htr Htc.
  rewrite Z.quot_div_nonneg, Z.rem_mod_nonneg by nia.
  rewrite Z.add_comm. rewrite Z.div_add, Z.mod_add by lia.
  rewrite Z.div_small, Z.mod_small by lia. lia.
Qed.

(** X10. On a grid, [find_empty_cell] returns [-1] exactly when the eight
    cells around [(r, c)] on the torus are all blocked; otherwise it
    returns the address of one of them that is not blocked, the first in
    the order of the scan, and the caller's [adr / width] and
    [adr % width] give back the row and the column of that cell. *)
Theorem find_empty_cell_unblocked_neighbour (env : Territories) (r c : Z) :
  0 < height env -> 0 < width env ->
  0 <= r < height env -> 0 <= c < width env ->
  let adr := find_empty_cell r c env in
  (adr = -1
   /\ forall o, In o moore_offsets ->
        tile_is_blocked env (fst (neighbour env r c o))
          (snd (neighbour env r c o)) = true)
  \/ (exists pre o post,
        moore_offsets = pre ++ o :: post
        /\ (forall z, In z pre ->
              tile_is_blocked env (fst (neighbour env r c z))
                (snd (neighbour env r c z)) = true)
        /\ let tr := fst (neighbour env r c o) in
           let tc := snd (neighbour env r c o) in
           tile_is_blocked env tr tc = false
           /\ 0 <= tr < height env /\ 0 <= tc < width env
           /\ adr = tr * width env + tc
           /\ Z.quot adr (width env) = tr
           /\ Z.rem adr (width env) = tc).
Proof.
  intros HR HC Hr Hc. unfold find_empty_cell. cbv zeta.
  set (f := fun o : Z * Z => _).
  assert (Hf : forall o,
            f o = if negb (tile_is_blocked env (fst (neighbour env r c o))
                             (snd (neighbour env r c o)))
                  then Some (fst (neighbour env r c o) * width env
                             + snd (neighbour env r c o))
                  else None) by reflexivity.
  destruct (scan f moore_offsets) as [adr|] eqn:Es.
  - right. destruct (scan_some f _ _ Es) as (pre & o & post & El & Ho & Hpre).
    exists pre, o, post. split; [exact El|]. split.
    + intros z Hz. specialize (Hpre z Hz). rewrite Hf in Hpre.
      destruct (tile_is_blocked env _ _); [reflexivity|discriminate].
    + rewrite Hf in Ho.
      destruct (tile_is_blocked env _ _) eqn:Eb; [discriminate|].
      cbn [negb] in Ho. injection Ho as <-.
      assert (Hin : In o moore_offsets)
        by (rewrite El; apply in_or_app; right; left; reflexivity).
      destruct (moore_offsets_unit o Hin) as (Hdr & Hdc & _).
      pose proof (wrap_in_range r (fst o) (height env) HR Hr Hdr) as Htr.
      pose proof (wrap_in_range c (snd o) (width env) HC Hc Hdc) as Htc.
      cbv zeta. unfold neighbour in Eb |- *. cbn [fst snd] in Eb |- *.
      split; [first [exact Eb|reflexivity]|].
      split; [exact Htr|]. split; [exact Htc|].
      split; [reflexivity|].
      apply cell_address_decode; lia.
  - left. split; [reflexivity|]. intros o Ho.
    pose proof (scan_none f _ Es o Ho) as Hn. rewrite Hf in Hn.
    destruct (tile_is_blocked env _ _); [reflexivity|discriminate].
Qed.

(** X11. [_find_mate] returns [-1] when no cell around the agent holds a
    willing mate: an occupant whose action is REPRODUCE and that is old
    and fed enough.  Otherwise it returns the occupant of the first such
    cell in the order of the scan, and that slot is not [-1]. *)
Theorem find_mate_willing_neighbour (agent : Agent.t) (env : Territories) :
  let occupant := fun o =>
    zget (-1) (pids_2d env)
      (fst (neighbour env (Agent.r agent) (Agent.c agent) o) * width env
       + snd (neighbour env (Agent.r agent) (Agent.c agent) o)) in
  let mate := _find_mate agent env in
  (mate = -1
   /\ forall o, In o moore_offsets -> willing_mate env (occupant o) = false)
  \/ (mate <> -1
      /\ geti (actions env) mate = REPRODUCE
      /\ _agent_can_reproduce (ag env mate) = true
      /\ exists pre o post,
           moore_offsets = pre ++ o :: post
           /\ occupant o = mate
           /\ forall z, In z pre -> willing_mate env (occupant z) = false).
Proof.
  intros occupant. unfold _find_mate. cbv zeta.
  set (f := fun o : Z * Z => _).
  assert (Hf : forall o,
            f o = if willing_mate env (occupant o)
                  then Some (occupant o) else None).
  { intros o. unfold f, willing_mate, occupant, neighbour. cbn [fst snd].
    destruct (negb (_ =? -1) && (_ =? REPRODUCE)); cbn [andb];
      [destruct (_agent_can_reproduce _)|]; reflexivity. }
  destruct (scan f moore_offsets) as [pid|] eqn:Es.
  - right. destruct (scan_some f _ _ Es) as (pre & o & post & El & Ho & Hpre).
    rewrite Hf in Ho.
    destruct (willing_mate env (occupant o)) eqn:Ew; [|discriminate].
    injection Ho as <-.
    unfold willing_mate in Ew.
    apply andb_true_iff in Ew as [Ew Hcan].
    apply andb_true_iff in Ew as [Hne Hact].
    apply negb_true_iff, Z.eqb_neq in Hne. apply Z.eqb_eq in Hact.
    split; [exact Hne|]. split; [exact Hact|]. split; [exact Hcan|].
    exists pre, o, post. split; [exact El|]. split; [reflexivity|].
    intros z Hz. specialize (Hpre z Hz). rewrite Hf in Hpre.
    destruct (willing_mate env (occupant z)); [discriminate|reflexivity].
  - left. split; [reflexivity|]. intros o Ho.
    pose proof (scan_none f _ Es o Ho) as Hn. rewrite Hf in Hn.
    destruct (willing_mate env (occupant o)); [discriminate|reflexivity].
Qed.

(** ** Walls *)

Lemma place_wall_unfold (env : Territories) (r c : Z) :
  place_wall env r c
  = if tile env r c WALL_HP >? 0 then env
    else set_tile
           (set_tile
              (set_tile (set_tile env r c LAST_HARVEST 0) r c STORED_FOOD 0)
              r c STONE 0)
           r c WALL_HP WALL_HP_MAX.
Proof. reflexivity. Qed.

Lemma tile_set_tile_cases (env : Territories) (r c k v r' c' k' : Z) :
  0 <= tile_adr env r c k < Z.of_nat (length (tile_props env)) ->
  tile (set_tile env r c k v) r' c' k'
  = if tile_adr env r c k =? tile_adr env r' c' k' then u16 v
    else tile env r' c' k'.
Proof.
  intros Hin. unfold tile. fld_goal.
  destruct (Z.eqb_spec (tile_adr env r c k) (tile_adr env r' c' k')) as [E|E].
  - change (tile_adr (set_tile env r c k v) r' c' k')
      with (tile_adr env r' c' k').
    rewrite <- E. apply geti_zset_eq. exact Hin.
  - apply geti_zset_neq. exact E.
Qed.

Lemma place_wall_fresh (env : Territories) (r c : Z) :
  0 <= r * width env + c ->
  (r * width env + c) * 4 + 3 < Z.of_nat (length (tile_props env)) ->
  tile env r c WALL_HP <= 0 ->
  tile (place_wall env r c) r c WALL_HP = WALL_HP_MAX
  /\ tile (place_wall env r c) r c LAST_HARVEST = 0
  /\ tile (place_wall env r c) r c STORED_FOOD = 0
  /\ tile (place_wall env r c) r c STONE = 0.
Proof.
  intros Hlo Hhi Hw. rewrite place_wall_unfold.
  destruct (Z.gtb_spec (tile env r c WALL_HP) 0); [lia|].
  rewrite !tile_set_tile_cases
    by (rewrite ?tile_props_set_tile_length;
        unfold tile_adr, LAST_HARVEST, STORED_FOOD, STONE, WALL_HP;
        fld_goal; lia).
  unfold tile_adr, LAST_HARVEST, STORED_FOOD, STONE, WALL_HP. fld_goal.
  zbool. cbn. repeat split; reflexivity.
Qed.

(** X12. On a cell of the map, [place_wall] leaves a cell that already
    holds a wall as it is; on any other cell it writes a wall of 8 health
    points and clears the harvest day, the stored food and the stone.
    The cell is blocked afterwards, no other cell changes, and a second
    call changes nothing. *)
Theorem place_wall_builds_once (env : Territories) (r c : Z) :
  0 <= r * width env + c ->
  (r * width env + c) * 4 + 3 < Z.of_nat (length (tile_props env)) ->
  let env' := place_wall env r c in
  tile_is_blocked env' r c = true
  /\ (tile env r c WALL_HP > 0 -> env' = env)
  /\ (tile env r c WALL_HP <= 0 ->
      tile env' r c WALL_HP = WALL_HP_MAX
      /\ tile env' r c LAST_HARVEST = 0
      /\ tile env' r c STORED_FOOD = 0
      /\ tile env' r c STONE = 0)
  /\ (forall r' c' k, r' * width env + c' <> r * width env + c ->
        0 <= k < 4 -> tile env' r' c' k = tile env r' c' k)
  /\ place_wall env' r c = env'.
Proof.
  intros Hlo Hhi env'.
  assert (Hnew : tile env r c WALL_HP <= 0 ->
            tile env' r c WALL_HP = WALL_HP_MAX
            /\ tile env' r c LAST_HARVEST = 0
            /\ tile env' r c STORED_FOOD = 0
            /\ tile env' r c STONE = 0).
  { intros Hw. subst env'. apply place_wall_fresh; assumption. }
  assert (Hold : tile env r c WALL_HP > 0 -> env' = env).
  { intros Hw. subst env'. rewrite place_wall_unfold.
    destruct (Z.gtb_spec (tile env r c WALL_HP) 0); [reflexivity|lia]. }
  assert (Hwall : tile env' r c WALL_HP > 0).
  { destruct (Z_gt_dec (tile env r c WALL_HP) 0) as [Hw|Hw].
    - rewrite (Hold Hw). exact Hw.
    - destruct (Hnew ltac:(lia)) as (-> & _). unfold WALL_HP_MAX. lia. }
  split; [|split; [exact Hold|split; [exact Hnew|split]]].
  - unfold tile_is_blocked.
    destruct (Z.gtb_spec (tile env' r c WALL_HP) 0); [reflexivity|lia].
  - intros r' c' k Hne Hk. subst env'. rewrite place_wall_unfold.
    destruct (tile env r c WALL_HP >? 0); [reflexivity|].
    rewrite !tile_set_tile_other; [reflexivity|..];
      unfold tile_adr, LAST_HARVEST, STORED_FOOD, STONE, WALL_HP;
      fld_goal; lia.
  - rewrite (place_wall_unfold env').
    destruct (Z.gtb_spec (tile env' r c WALL_HP) 0); [reflexivity|lia].
Qed.

(** X13. When the scan of [agent_attack] stops on a wall, the attack
    turns the attacker towards it and takes one health point from the
    wall; nothing else of the tiles changes.  In particular the harvest
    day of the cell is not restarted when the last health point goes:
    [destroy_wall] is called after the health is already written to 0 and
    returns at its first test. *)
Theorem attack_on_wall_only_lowers_wall_hp (pid : Z) (env : Territories)
  (d tr tc : Z) :
  attack_scan pid env = Some (d, tr, tc, true) ->
  let env' := agent_attack pid env in
  tile_props env'
  = tile_props (set_tile env tr tc WALL_HP (tile env tr tc WALL_HP - 1))
  /\ agents env' = agents (upd_agent env pid (fun a => Agent.set_dir a d))
  /\ pids_2d env' = pids_2d env
  /\ agent_manager env' = agent_manager env.
Proof.
  intros Hscan env'. subst env'. unfold agent_attack. rewrite Hscan.
  set (env1 := upd_agent env pid _).
  set (env2 := set_tile env1 tr tc WALL_HP _).
  destruct (Z.eqb_spec (tile env2 tr tc WALL_HP) 0) as [Hz|Hnz].
  - set (env3 := count_stat env2 _).
    assert (E3 : tile env3 tr tc WALL_HP = 0).
    { subst env3. unfold count_stat.
      destruct (tick env2 <? min_ep_length env2); exact Hz. }
    unfold destroy_wall. rewrite E3. cbn [Z.eqb].
    subst env3. unfold count_stat.
    destruct (tick env2 <? min_ep_length env2); repeat split; reflexivity.
  - repeat split; reflexivity.
Qed.

(** X14. [BUILD_WALL] with at least one stone in hand and a facing cell
    that is not blocked raises a wall of 8 health points on that cell and
    costs one stone; the agent stays where it is.  Without stone, or in
    front of a blocked cell, the action changes nothing. *)
Theorem build_wall_costs_one_stone (pid : Z) (env : Territories) :
  0 <= pid < Z.of_nat (length (agents env)) ->
  let a := ag env pid in
  let wall_r :=
    Z.rem (Agent.r a + fst (DELTAS (Agent.dir a)) + height env) (height env) in
  let wall_c :=
    Z.rem (Agent.c a + snd (DELTAS (Agent.dir a)) + width env) (width env) in
  0 <= wall_r * width env + wall_c ->
  (wall_r * width env + wall_c) * 4 + 3 < Z.of_nat (length (tile_props env)) ->
  let env' := step_build_wall pid env in
  if (Agent.stone_carried a >? 0) && negb (tile_is_blocked env wall_r wall_c)
  then tile env' wall_r wall_c WALL_HP = WALL_HP_MAX
       /\ tile env' wall_r wall_c STONE = 0
       /\ tile env' wall_r wall_c STORED_FOOD = 0
       /\ ag env' pid
          = Agent.set_stone_carried a (Agent.stone_carried a - 1)
       /\ pids_2d env' = pids_2d env
  else env' = env.
Proof.
  intros Hpid a wall_r wall_c Hlo Hhi env'. subst env'.
  unfold step_build_wall. fold a. cbv zeta. fold wall_r wall_c.
  destruct (Agent.stone_carried a >? 0); cbn [andb]; [|reflexivity].
  destruct (tile_is_blocked env wall_r wall_c) eqn:Eb; cbn [negb];
    [reflexivity|].
  assert (Hw : tile env wall_r wall_c WALL_HP <= 0).
  { unfold tile_is_blocked in Eb.
    destruct (Z.gtb_spec (tile env wall_r wall_c WALL_HP) 0);
      [discriminate|lia]. }
  destruct (place_wall_fresh env wall_r wall_c Hlo Hhi Hw)
    as (H1 & _ & H3 & H4).
  set (e1 := place_wall env wall_r wall_c) in *.
  assert (Hag : agents e1 = agents env).
  { subst e1. rewrite place_wall_unfold.
    destruct (tile env wall_r wall_c WALL_HP >? 0); reflexivity. }
  assert (Hp : pids_2d e1 = pids_2d env).
  { subst e1. rewrite place_wall_unfold.
    destruct (tile env wall_r wall_c WALL_HP >? 0); reflexivity. }
  assert (Hwd : width e1 = width env).
  { subst e1. rewrite place_wall_unfold.
    destruct (tile env wall_r wall_c WALL_HP >? 0); reflexivity. }
  set (e2 := upd_agent e1 pid _).
  assert (Ht : forall k, tile (count_stat e2
                 (fun s => set_walls_built s
                    (f_add (walls_built s) (f_of_int 1)))) wall_r wall_c k
               = tile e1 wall_r wall_c k).
  { intros k. unfold count_stat.
    destruct (tick e2 <? min_ep_length e2); reflexivity. }
  rewrite !Ht. split; [exact H1|]. split; [exact H4|]. split; [exact H3|].
  split.
  - rewrite ag_count_stat. subst e2.
    rewrite ag_upd_agent_eq by (rewrite Hag; lia).
    replace (ag e1 pid) with a by (unfold a, ag; rewrite Hag; reflexivity).
    reflexivity.
  - rewrite pids_2d_count_stat. exact Hp.
Qed.

(** ** The actions of an agent *)

(** X15. A move action always turns the agent to the direction of the
    action.  The agent changes cell only when it already faced that
    direction and the next cell on the torus is not blocked: the grid then
    forgets the old cell and records the slot on the new one.  Nothing
    else changes: no tile, no other agent, not the slot manager. *)
Theorem step_move_turns_then_moves (pid action : Z) (env : Territories) :
  0 <= pid < Z.of_nat (length (agents env)) ->
  0 <= action <= 3 ->
  let a := ag env pid in
  let new_r :=
    Z.rem (Agent.r a + fst (DELTAS action) + height env) (height env) in
  let new_c :=
    Z.rem (Agent.c a + snd (DELTAS action) + width env) (width env) in
  let env' := step_move pid action env in
  tile_props env' = tile_props env
  /\ agent_manager env' = agent_manager env
  /\ (forall q, q <> pid -> ag env' q = ag env q)
  /\ if (action =? Agent.dir a) && negb (tile_is_blocked env new_r new_c)
     then ag env' pid
          = Agent.set_dir (Agent.set_c (Agent.set_r a new_r) new_c) action
          /\ pids_2d env'
             = zset
                 (zset (pids_2d env) (Agent.r a * width env + Agent.c a) (-1))
                 (new_r * width env + new_c) (s16 pid)
     else ag env' pid = Agent.set_dir a action
          /\ pids_2d env' = pids_2d env.
Proof.
  intros Hpid Hact a new_r new_c env'.
  assert (Hr : new_r
               = Z.rem ((if action =? MOVE_UP then Agent.r a - 1
                         else if action =? MOVE_RIGHT then Agent.r a
                         else if action =? MOVE_DOWN then Agent.r a + 1
                         else Agent.r a) + height env) (height env)).
  { subst new_r. unfold MOVE_UP, MOVE_RIGHT, MOVE_DOWN.
    assert (Ha : action = 0 \/ action = 1 \/ action = 2 \/ action = 3) by lia.
    destruct Ha as [->|[->|[->| ->]]];
      match goal with
      | |- context [DELTAS ?k] =>
          let v := eval vm_compute in (DELTAS k) in change (DELTAS k) with v
      end; cbn [fst snd Z.eqb Pos.eqb]; f_equal; lia. }
  assert (Hc : new_c
               = Z.rem ((if action =? MOVE_UP then Agent.c a
                         else if action =? MOVE_RIGHT then Agent.c a + 1
                         else if action =? MOVE_DOWN then Agent.c a
                         else Agent.c a - 1) + width env) (width env)).
  { subst new_c. unfold MOVE_UP, MOVE_RIGHT, MOVE_DOWN.
    assert (Ha : action = 0 \/ action = 1 \/ action = 2 \/ action = 3) by lia.
    destruct Ha as [->|[->|[->| ->]]];
      match goal with
      | |- context [DELTAS ?k] =>
          let v := eval vm_compute in (DELTAS k) in change (DELTAS k) with v
      end; cbn [fst snd Z.eqb Pos.eqb]; f_equal; lia. }
  subst env'. unfold step_move. fold a. cbv zeta. rewrite <- Hr, <- Hc.
  clearbody new_r new_c.
  destruct (action =? Agent.dir a); cbn [andb];
    [destruct (tile_is_blocked env new_r new_c); cbn [negb]|].
  - split; [reflexivity|]. split; [reflexivity|]. split.
    + intros q Hq. apply ag_upd_agent_neq. congruence.
    + split; [|reflexivity]. apply ag_upd_agent_eq. exact Hpid.
  - split; [reflexivity|]. split; [reflexivity|]. split.
    + intros q Hq. rewrite !ag_upd_agent_neq by congruence. reflexivity.
    + split; [|reflexivity].
      rewrite ag_upd_agent_eq
        by (rewrite agents_upd_agent_length; exact Hpid).
      rewrite ag_upd_agent_eq by exact Hpid. reflexivity.
  - split; [reflexivity|]. split; [reflexivity|]. split.
    + intros q Hq. apply ag_upd_agent_neq. congruence.
    + split; [|reflexivity]. apply ag_upd_agent_eq. exact Hpid.
Qed.

Lemma DELTAS_unit (d : Z) :
  -1 <= fst (DELTAS d) <= 1 /\ -1 <= snd (DELTAS d) <= 1.
Proof.
  unfold DELTAS, zget. destruct (d <? 0); [cbn; lia|].
  destruct (Z.to_nat d) as [|[|[|[|[|n]]]]]; cbn; lia.
Qed.

Lemma tile_count_stat (env : Territories) (f : Stats -> Stats) (r c k : Z) :
  tile (count_stat env f) r c k = tile env r c k.
Proof.
  unfold count_stat. destruct (tick env <? min_ep_length env); reflexivity.
Qed.

(** X16. [agent_mine] on a grid.  An agent that already carries 10
    stones, or that has no stone on the four cells around it, is left
    as it is.  Otherwise the agent turns to a direction in which the next
    cell holds stone, that cell loses one stone and the agent gains one:
    the stone is moved, not created, and no other tile changes. *)
Theorem agent_mine_moves_one_stone (pid : Z) (env : Territories) :
  0 <= pid < Z.of_nat (length (agents env)) ->
  0 < height env -> 0 < width env ->
  0 <= Agent.r (ag env pid) < height env ->
  0 <= Agent.c (ag env pid) < width env ->
  Z.of_nat (length (tile_props env)) = width env * height env * 4 ->
  (forall i, geti (tile_props env) i <= 65535) ->
  let a := ag env pid in
  let env' := agent_mine pid env in
  (env' = env
   /\ (MAX_STONE_CARRYING_CAPACITY <= Agent.stone_carried a
       \/ forall d, In d [0; 1; 2; 3] ->
            tile env (fst (neighbour env (Agent.r a) (Agent.c a) (DELTAS d)))
              (snd (neighbour env (Agent.r a) (Agent.c a) (DELTAS d))) STONE
            <= 0))
  \/ (Agent.stone_carried a < MAX_STONE_CARRYING_CAPACITY
      /\ exists d, In d [0; 1; 2; 3]
         /\ let tr := fst (neighbour env (Agent.r a) (Agent.c a) (DELTAS d)) in
            let tc := snd (neighbour env (Agent.r a) (Agent.c a) (DELTAS d)) in
            0 < tile env tr tc STONE
            /\ tile env' tr tc STONE = tile env tr tc STONE - 1
            /\ ag env' pid
               = Agent.set_stone_carried (Agent.set_dir a d)
                   (Agent.stone_carried a + 1)
            /\ (forall r' c' k,
                  tile_adr env r' c' k <> tile_adr env tr tc STONE ->
                  tile env' r' c' k = tile env r' c' k)).
Proof.
  intros Hpid HR HC Hr Hc Hlen Hu16 a env'. subst env'.
  unfold agent_mine. fold a.
  destruct (Z.geb_spec (Agent.stone_carried a) MAX_STONE_CARRYING_CAPACITY)
    as [Hfull|Hroom].
  { left. split; [reflexivity|left; lia]. }
  unfold mine_scan. fold a. cbv zeta.
  set (f := fun d : Z => _).
  assert (Hf : forall d,
            f d = let tr := fst (neighbour env (Agent.r a) (Agent.c a)
                                   (DELTAS d)) in
                  let tc := snd (neighbour env (Agent.r a) (Agent.c a)
                                   (DELTAS d)) in
                  if tile env tr tc STONE >? 0 then Some (d, tr, tc)
                  else None) by reflexivity.
  destruct (scan f [0; 1; 2; 3]) as [[[d tr] tc]|] eqn:Es.
  - right. split; [lia|].
    destruct (scan_some f _ _ Es) as (pre & d' & post & El & Hd & _).
    rewrite Hf in Hd. cbv zeta in Hd.
    destruct (Z.gtb_spec
                (tile env
                   (fst (neighbour env (Agent.r a) (Agent.c a) (DELTAS d')))
                   (snd (neighbour env (Agent.r a) (Agent.c a) (DELTAS d')))
                   STONE) 0) as [Hstone|]; [|discriminate].
    injection Hd as -> Htr Htc.
    exists d. split; [rewrite El; apply in_or_app; right; left; reflexivity|].
    cbv zeta. unfold neighbour in Htr, Htc, Hstone |- *.
    cbn [fst snd] in Htr, Htc, Hstone |- *. rewrite Htr, Htc.
    destruct (DELTAS_unit d) as [Hdr Hdc].
    assert (Rtr : 0 <= tr < height env)
      by (rewrite <- Htr; apply wrap_in_range; assumption).
    assert (Rtc : 0 <= tc < width env)
      by (rewrite <- Htc; apply wrap_in_range; assumption).
    rewrite Htr, Htc in Hstone.
    destruct (Z.eqb_spec tc (-1)); [lia|].
    set (env1 := upd_agent env pid _).
    assert (Hadr : 0 <= tile_adr env1 tr tc STONE
                   < Z.of_nat (length (tile_props env1))).
    { unfold tile_adr, STONE. subst env1. fld_goal. nia. }
    split; [exact Hstone|]. split; [|split].
    + rewrite tile_count_stat, tile_upd_agent, tile_set_tile_eq by exact Hadr.
      change (tile env1 tr tc STONE) with (tile env tr tc STONE).
      apply u16_small. specialize (Hu16 (tile_adr env tr tc STONE)).
      unfold tile in Hstone |- *. lia.
    + rewrite ag_count_stat.
      rewrite ag_upd_agent_eq
        by (subst env1; fld_goal; rewrite zset_length; exact Hpid).
      rewrite ag_set_tile. subst env1.
      rewrite ag_upd_agent_eq by exact Hpid. reflexivity.
    + intros r' c' k Hne.
      rewrite tile_count_stat, tile_upd_agent.
      rewrite tile_set_tile_other
        by (intros E; apply Hne; symmetry; exact E).
      reflexivity.
  - left. split; [reflexivity|]. right. intros d Hd.
    pose proof (scan_none f _ Es d Hd) as Hn. rewrite Hf in Hn.
    cbv zeta in Hn.
    destruct (Z.gtb_spec
                (tile env
                   (fst (neighbour env (Agent.r a) (Agent.c a) (DELTAS d)))
                   (snd (neighbour env (Agent.r a) (Agent.c a) (DELTAS d)))
                   STONE) 0); [discriminate|lia].
Qed.

(** X17. The part of a turn before the action.  The agent grows one tick
    older, and on the tick it reaches the reproduction age its health and
    its maximal health become 3.  Its satiation drops by 5; if it carries
    food it then eats from it.  An agent that was not above the maximal
    satiation ends not above it, eats a positive amount, and stops only
    when its hands are empty or its satiation is full: what it eats
    leaves its hands and enters its satiation.  No other agent changes. *)
Theorem pre_action_ages_and_feeds (pid : Z) (env : Territories) :
  0 <= pid < Z.of_nat (length (agents env)) ->
  let a := ag env pid in
  let a' := ag (pre_action pid env) pid in
  let eaten := Agent.food_carried a - Agent.food_carried a' in
  Agent.age a' = Agent.age a + 1
  /\ (if Agent.age a + 1 =? REPRODUCTION_AGE
      then Agent.hp a' = MAX_HP /\ Agent.hp_max a' = MAX_HP
      else Agent.hp a' = Agent.hp a /\ Agent.hp_max a' = Agent.hp_max a)
  /\ Agent.satiation a' = Agent.satiation a - METABOLISM_RATE + eaten
  /\ (Agent.food_carried a <= 0 -> eaten = 0)
  /\ (0 < Agent.food_carried a -> Agent.satiation a <= MAX_SATIATION ->
      0 < eaten <= Agent.food_carried a
      /\ Agent.satiation a' <= MAX_SATIATION
      /\ (Agent.food_carried a' = 0 \/ Agent.satiation a' = MAX_SATIATION))
  /\ (Agent.r a', Agent.c a', Agent.dir a', Agent.stone_carried a',
      Agent.role a', Agent.max_satiation a')
     = (Agent.r a, Agent.c a, Agent.dir a, Agent.stone_carried a,
        Agent.role a, Agent.max_satiation a)
  /\ (forall q, q <> pid -> ag (pre_action pid env) q = ag env q)
  /\ world (pre_action pid env) = world env
  /\ agent_manager (pre_action pid env) = agent_manager env.
Proof.
  intros Hpid a a' eaten.
  set (a1 := Agent.set_age a (Agent.age a + 1)).
  set (a2 := if Agent.age a + 1 =? REPRODUCTION_AGE
             then Agent.set_hp (Agent.set_hp_max a1 MAX_HP) MAX_HP else a1).
  set (a3 := Agent.set_satiation a2 (Agent.satiation a2 - METABOLISM_RATE)).
  set (food_to_eat := Z.min (MAX_SATIATION - Agent.satiation a3)
                        (Agent.food_carried a3)).
  set (a5 := Agent.set_satiation
               (Agent.set_food_carried a3 (Agent.food_carried a3 - food_to_eat))
               (Agent.satiation a3 + food_to_eat)).
  assert (Hag : a' = (if Agent.food_carried a >? 0 then a5 else a3)
                /\ (forall q, q <> pid -> ag (pre_action pid env) q = ag env q)
                /\ world (pre_action pid env) = world env
                /\ agent_manager (pre_action pid env) = agent_manager env).
  { subst a'. unfold pre_action.
    set (env1 := upd_agent env pid _).
    assert (E1 : ag env1 pid = a1) by (apply ag_upd_agent_eq; exact Hpid).
    assert (L1 : length (agents env1) = length (agents env))
      by apply agents_upd_agent_length.
    rewrite E1. change (Agent.age a1) with (Agent.age a + 1).
    set (env2 := if Agent.age a + 1 =? REPRODUCTION_AGE then _ else env1).
    assert (E2 : ag env2 pid = a2
                 /\ length (agents env2) = length (agents env)
                 /\ (forall q, q <> pid -> ag env2 q = ag env q)
                 /\ world env2 = world env
                 /\ agent_manager env2 = agent_manager env).
    { subst env2 a2. destruct (Agent.age a + 1 =? REPRODUCTION_AGE).
      - split; [rewrite ag_upd_agent_eq by lia; rewrite E1; reflexivity|].
        split; [rewrite agents_upd_agent_length; exact L1|].
        split; [|split; reflexivity].
        intros q Hq. rewrite ag_upd_agent_neq by congruence.
        apply ag_upd_agent_neq. congruence.
      - split; [exact E1|]. split; [exact L1|].
        split; [|split; reflexivity].
        intros q Hq. apply ag_upd_agent_neq. congruence. }
    destruct E2 as (E2 & L2 & F2 & W2 & M2).
    set (env3 := upd_agent env2 pid _).
    assert (E3 : ag env3 pid = a3)
      by (subst env3; rewrite ag_upd_agent_eq by lia; rewrite E2; reflexivity).
    assert (L3 : length (agents env3) = length (agents env))
      by (subst env3; rewrite agents_upd_agent_length; exact L2).
    assert (F3 : forall q, q <> pid -> ag env3 q = ag env q).
    { intros q Hq. subst env3. rewrite ag_upd_agent_neq by congruence.
      apply F2; exact Hq. }
    rewrite E3.
    assert (Ef : Agent.food_carried a3 = Agent.food_carried a)
      by (subst a3 a2 a1; destruct (Agent.age a + 1 =? REPRODUCTION_AGE);
          reflexivity).
    rewrite Ef. destruct (Agent.food_carried a >? 0).
    - rewrite ag_count_stat.
      set (env4 := upd_agent env3 pid _).
      assert (E4 : ag env4 pid
                   = Agent.set_food_carried a3
                       (Agent.food_carried a3
                        - Z.min (MAX_SATIATION - Agent.satiation a3)
                            (Agent.food_carried a)))
        by (subst env4; rewrite ag_upd_agent_eq by lia; rewrite E3;
            reflexivity).
      split; [|split; [|split]].
      + rewrite ag_upd_agent_eq
          by (subst env4; rewrite agents_upd_agent_length; lia).
        rewrite E4. subst a5 food_to_eat. rewrite Ef. reflexivity.
      + intros q Hq. rewrite ag_count_stat.
        rewrite ag_upd_agent_neq by congruence. subst env4.
        rewrite ag_upd_agent_neq by congruence. apply F3; exact Hq.
      + unfold count_stat.
        match goal with
        | |- context [if ?b then _ else _] => destruct b
        end; exact W2.
      + rewrite agent_manager_count_stat. exact M2.
    - split; [exact E3|]. split; [exact F3|]. split; [exact W2|exact M2]. }
  destruct Hag as (Ea' & Hothers & Hworld & Ham).
  assert (Hage : Agent.age a3 = Agent.age a + 1
            /\ Agent.satiation a3 = Agent.satiation a - METABOLISM_RATE
            /\ Agent.food_carried a3 = Agent.food_carried a
            /\ (Agent.r a3, Agent.c a3, Agent.dir a3, Agent.stone_carried a3,
                Agent.role a3, Agent.max_satiation a3)
               = (Agent.r a, Agent.c a, Agent.dir a, Agent.stone_carried a,
                  Agent.role a, Agent.max_satiation a)
            /\ (if Agent.age a + 1 =? REPRODUCTION_AGE
                then Agent.hp a3 = MAX_HP /\ Agent.hp_max a3 = MAX_HP
                else Agent.hp a3 = Agent.hp a
                     /\ Agent.hp_max a3 = Agent.hp_max a)).
  { subst a3 a2 a1. destruct (Agent.age a + 1 =? REPRODUCTION_AGE);
      repeat split; reflexivity. }
  destruct Hage as (H1 & H2 & H3 & H4 & H5).
  subst eaten. rewrite Ea'.
  destruct (Z.gtb_spec (Agent.food_carried a) 0) as [Hfood|Hfood].
  - subst a5. cbn [Agent.age Agent.hp Agent.hp_max Agent.satiation
                   Agent.food_carried Agent.set_satiation
                   Agent.set_food_carried Agent.r Agent.c Agent.dir
                   Agent.stone_carried Agent.role Agent.max_satiation].
    subst food_to_eat. rewrite H2, H3. unfold METABOLISM_RATE, MAX_SATIATION.
    split; [exact H1|]. split; [exact H5|]. split; [lia|].
    split; [lia|]. split; [|split; [exact H4|auto]].
    intros _ Hsat. unfold MAX_SATIATION in Hsat. lia.
  - split; [exact H1|]. split; [exact H5|]. rewrite H2, H3.
    split; [lia|]. split; [lia|]. split; [lia|]. split; [exact H4|auto].
Qed.

(** X18. [PICKUP] on a cell of the map that holds stored food, by an
    agent that carries at most 150 food.  The agent takes what fits its
    hands: what it gains the tile loses, it ends with at most 150, and
    it leaves food on the tile only when its hands are full.  When the
    store is emptied in summer on soil the harvest day of the tile
    becomes the day of the tick; otherwise it is kept. *)
Theorem pickup_takes_stored_food (day pid : Z) (env : Territories) :
  0 <= pid < Z.of_nat (length (agents env)) ->
  let a := ag env pid in
  let r := Agent.r a in
  let c := Agent.c a in
  0 <= r * width env + c ->
  (r * width env + c) * 4 + 3 < Z.of_nat (length (tile_props env)) ->
  0 < tile env r c STORED_FOOD <= 65535 ->
  Agent.food_carried a <= MAX_FOOD_CARRYING_CAPACITY ->
  let env' := step_pickup day pid env in
  let a' := ag env' pid in
  Agent.food_carried a' + tile env' r c STORED_FOOD
  = Agent.food_carried a + tile env r c STORED_FOOD
  /\ Agent.food_carried a <= Agent.food_carried a'
     <= MAX_FOOD_CARRYING_CAPACITY
  /\ 0 <= tile env' r c STORED_FOOD
  /\ (tile env' r c STORED_FOOD = 0
      \/ Agent.food_carried a' = MAX_FOOD_CARRYING_CAPACITY)
  /\ tile env' r c LAST_HARVEST
     = (if (tile env' r c STORED_FOOD =? 0) && negb (is_winter env)
           && soil_at env r c
        then u16 day else tile env r c LAST_HARVEST)
  /\ tile env' r c STONE = tile env r c STONE
  /\ tile env' r c WALL_HP = tile env r c WALL_HP.
Proof.
  intros Hpid a r c Hlo Hhi Hstored Hfood env' a'.
  subst a' env'. unfold step_pickup. fold a r c.
  destruct (Z.gtb_spec (tile env r c STORED_FOOD) 0) as [_|]; [|lia].
  set (stored := tile env r c STORED_FOOD) in *.
  set (p := Z.min stored (MAX_FOOD_CARRYING_CAPACITY - Agent.food_carried a)).
  set (env1 := set_tile env r c STORED_FOOD (stored - p)).
  set (env2 := upd_agent env1 pid _).
  assert (Hp : 0 <= p <= stored)
    by (subst p; unfold MAX_FOOD_CARRYING_CAPACITY in *; lia).
  assert (Hadr : forall k, 0 <= k <= 3 ->
            0 <= tile_adr env r c k < Z.of_nat (length (tile_props env)))
    by (intros k Hk; unfold tile_adr; lia).
  assert (T1 : tile env1 r c STORED_FOOD = stored - p).
  { subst env1. rewrite tile_set_tile_eq by (apply Hadr; unfold STORED_FOOD; lia).
    apply u16_small. lia. }
  assert (A2 : ag env2 pid
               = Agent.set_food_carried a (Agent.food_carried a + p)).
  { subst env2. rewrite ag_upd_agent_eq
      by (subst env1; fld_goal; exact Hpid).
    reflexivity. }
  assert (Hcol : forall k, k <> STORED_FOOD -> tile env2 r c k = tile env r c k).
  { intros k Hk. subst env2 env1. rewrite tile_upd_agent.
    apply tile_set_tile_col. congruence. }
  assert (T2 : tile env2 r c STORED_FOOD = stored - p) by exact T1.
  assert (Hcond : ((p =? stored) && negb (is_winter env2) && soil_at env2 r c)
                  = ((stored - p =? 0) && negb (is_winter env)
                     && soil_at env r c)).
  { change (is_winter env2) with (is_winter env).
    change (soil_at env2 r c) with (soil_at env r c).
    destruct (Z.eqb_spec p stored), (Z.eqb_spec (stored - p) 0);
      try lia; reflexivity. }
  rewrite Hcond.
  destruct ((stored - p =? 0) && negb (is_winter env) && soil_at env r c)
    eqn:Ec.
  - rewrite ag_set_tile, A2.
    rewrite (tile_set_tile_col env2 r c LAST_HARVEST day STORED_FOOD)
      by (unfold LAST_HARVEST, STORED_FOOD; lia).
    rewrite (tile_set_tile_col env2 r c LAST_HARVEST day STONE)
      by (unfold LAST_HARVEST, STONE; lia).
    rewrite (tile_set_tile_col env2 r c LAST_HARVEST day WALL_HP)
      by (unfold LAST_HARVEST, WALL_HP; lia).
    rewrite tile_set_tile_eq
      by (subst env2 env1; fld_goal; rewrite zset_length;
          apply (Hadr LAST_HARVEST); unfold LAST_HARVEST; lia).
    rewrite T2, Ec, !Hcol by (unfold STORED_FOOD, STONE, WALL_HP; lia).
    cbn [Agent.food_carried Agent.set_food_carried].
    subst p. unfold MAX_FOOD_CARRYING_CAPACITY in *.
    repeat split; try reflexivity; lia.
  - rewrite A2, T2, Ec, !Hcol
      by (unfold LAST_HARVEST, STORED_FOOD, STONE, WALL_HP; lia).
    cbn [Agent.food_carried Agent.set_food_carried].
    subst p. unfold MAX_FOOD_CARRYING_CAPACITY in *.
    repeat split; try reflexivity; lia.
Qed.

(** ** The shuffle *)

Lemma count_occ_upd_nth (l : list Z) (n : nat) (v x : Z) :
  (n < length l)%nat ->
  (count_occ Z.eq_dec (upd_nth n v l) x
   + (if Z.eq_dec (nth n l 0%Z) x then 1 else 0)
   = count_occ Z.eq_dec l x + (if Z.eq_dec v x then 1 else 0))%nat.
Proof.
  revert n; induction l as [|h t IH]; intros [|n] Hn; simpl in Hn; try lia.
  - cbn [upd_nth nth count_occ].
    destruct (Z.eq_dec v x), (Z.eq_dec h x); lia.
  - cbn [upd_nth nth count_occ]. specialize (IH n ltac:(lia)).
    destruct (Z.eq_dec h x); lia.
Qed.

Lemma swap_permutation (l : list Z) (i j : Z) :
  0 <= i < Z.of_nat (length l) -> 0 <= j < Z.of_nat (length l) ->
  Permutation (zset (zset l i (geti l j)) j (geti l i)) l.
Proof.
  intros Hi Hj. apply (Permutation_count_occ Z.eq_dec). intros x.
  unfold zset, geti, zget.
  destruct (Z.ltb_spec i 0); [lia|]. destruct (Z.ltb_spec j 0); [lia|].
  set (ni := Z.to_nat i). set (nj := Z.to_nat j).
  assert (Hni : (ni < length l)%nat) by lia.
  assert (Hnj : (nj < length l)%nat) by lia.
  pose proof (count_occ_upd_nth l ni (nth nj l 0) x Hni) as H1.
  pose proof (count_occ_upd_nth (upd_nth ni (nth nj l 0) l) nj (nth ni l 0) x
                ltac:(rewrite upd_nth_length; exact Hnj)) as H2.
  assert (E : nth nj (upd_nth ni (nth nj l 0) l) 0 = nth nj l 0).
  { destruct (Nat.eq_dec ni nj) as [<-|Hne].
    - apply nth_upd_nth_eq. exact Hni.
    - apply nth_upd_nth_neq. exact Hne. }
  rewrite E in H2. lia.
Qed.

Lemma skipn_upd_nth {A : Type} (n k : nat) (v : A) (l : list A) :
  (k < n)%nat -> skipn n (upd_nth k v l) = skipn n l.
Proof.
  revert k l; induction n as [|n IH]; intros k l Hk; [lia|].
  destruct l as [|h t]; [destruct k; reflexivity|].
  destruct k as [|k]; cbn [upd_nth skipn]; [reflexivity|].
  apply IH. lia.
Qed.

Lemma rand_range (env : Territories) : 0 <= fst (rand env) <= RAND_MAX.
Proof.
  unfold rand. destruct (rand_state env) as [|x s]; cbn [fst].
  - unfold RAND_MAX; lia.
  - pose proof (Z.mod_pos_bound x (RAND_MAX + 1) ltac:(unfold RAND_MAX; lia)).
    lia.
Qed.

Lemma s16_small (x : Z) : -32768 <= x < 32768 -> s16 x = x.
Proof. intros H. unfold s16. rewrite Z.mod_small by lia. lia. Qed.

Lemma u16_s16 (x : Z) : 0 <= x < 65536 -> u16 (s16 x) = x.
Proof.
  intros H. unfold u16, s16.
  rewrite Zminus_mod_idemp_l.
  replace (x + 32768 - 32768) with x by lia. apply Z.mod_small. exact H.
Qed.

Lemma shuffle_rounds_permutes (k : nat) (i : Z) (env : Territories) :
  let arr := alive_pids (agent_manager env) in
  Z.of_nat k <= i -> i < 32768 -> i < Z.of_nat (length arr) ->
  (forall x, 0 <= geti arr x < 65536) ->
  let arr' := alive_pids (agent_manager (shuffle_rounds k i env)) in
  Permutation arr' arr
  /\ skipn (Z.to_nat (i + 1)) arr' = skipn (Z.to_nat (i + 1)) arr.
Proof.
  revert i env. induction k as [|k IH]; intros i env arr Hk Hi Hlen Hu16.
  - cbn [shuffle_rounds]. split; [apply Permutation_refl|reflexivity].
  - cbn [shuffle_rounds]. cbv zeta.
    pose proof (rand_range env) as Hx.
    destruct (rand env) as [x env1] eqn:Er. cbn [fst] in Hx.
    assert (Earr : alive_pids (agent_manager env1) = arr).
    { pose proof (f_equal snd Er) as E. cbn [snd] in E. subst env1.
      unfold rand. destruct (rand_state env); reflexivity. }
    rewrite Earr.
    assert (Hj : 0 <= Z.rem x (i + 1) <= i).
    { pose proof (Z.rem_bound_pos x (i + 1) ltac:(lia) ltac:(lia)). lia. }
    rewrite (s16_small (Z.rem x (i + 1))) by lia.
    set (j := Z.rem x (i + 1)) in *.
    rewrite u16_s16 by apply Hu16.
    set (arr2 := zset (zset arr i (geti arr j)) j (geti arr i)).
    assert (Hp2 : Permutation arr2 arr)
      by (apply swap_permutation; lia).
    assert (Hl2 : length arr2 = length arr)
      by (subst arr2; rewrite !zset_length; reflexivity).
    specialize (IH (i - 1)
                  (upd_am env1 (fun am => set_alive_pids am arr2))).
    cbv zeta in IH. fld. 
    destruct IH as [IHp IHs].
    + lia.
    + lia.
    + rewrite Hl2. lia.
    + intros y. subst arr2.
      destruct (Z.eq_dec y j) as [->|Hyj].
      * rewrite geti_zset_eq by (rewrite zset_length; lia). apply Hu16.
      * rewrite geti_zset_neq by congruence.
        destruct (Z.eq_dec y i) as [->|Hyi].
        -- rewrite geti_zset_eq by lia. apply Hu16.
        -- rewrite geti_zset_neq by congruence. apply Hu16.
    + split.
      * eapply Permutation_trans; [exact IHp|exact Hp2].
      * replace (Z.to_nat (i + 1)) with (1 + Z.to_nat (i - 1 + 1))%nat by lia.
        rewrite <- !skipn_skipn. rewrite IHs. rewrite !skipn_skipn.
        subst arr2. unfold zset.
        destruct (Z.ltb_spec j 0); [lia|]. destruct (Z.ltb_spec i 0); [lia|].
        rewrite !skipn_upd_nth by lia. reflexivity.
Qed.

Lemma shuffle_rounds_frame (k : nat) (i : Z) (env : Territories) :
  agents (shuffle_rounds k i env) = agents env
  /\ pids_2d (shuffle_rounds k i env) = pids_2d env.
Proof.
  revert i env. induction k as [|k IH]; intros i env; [split; reflexivity|].
  cbn [shuffle_rounds].
  destruct (rand env) as [x env1] eqn:Er.
  assert (E1 : agents env1 = agents env /\ pids_2d env1 = pids_2d env).
  { pose proof (f_equal snd Er) as E. cbn [snd] in E. subst env1.
    unfold rand. destruct (rand_state env); split; reflexivity. }
  destruct E1 as [<- <-].
  match goal with
  | |- agents (shuffle_rounds k _ ?e) = _ /\ _ =>
      destruct (IH (i - 1) e) as [-> ->]
  end.
  split; reflexivity.
Qed.

(** X19. [shuffle] on the first [n] entries of the alive list, for [n]
    within the list and within the range of a [short]: the entries are
    rearranged among themselves and the rest of the list is not touched.
    The agents, the grid, the tiles, the kinship matrix and the alive
    flags and counters of the slot manager are as before. *)
Theorem shuffle_permutes_alive_list (env : Territories) (n : Z) :
  let arr := alive_pids (agent_manager env) in
  0 <= n <= 32768 -> n <= Z.of_nat (length arr) ->
  (forall x, 0 <= geti arr x < 65536) ->
  let env' := shuffle env n in
  let arr' := alive_pids (agent_manager env') in
  Permutation (firstn (Z.to_nat n) arr') (firstn (Z.to_nat n) arr)
  /\ skipn (Z.to_nat n) arr' = skipn (Z.to_nat n) arr
  /\ core env' = core env
  /\ agents env' = agents env
  /\ pids_2d env' = pids_2d env.
Proof.
  intros arr Hn Hlen Hu16 env' arr'.
  assert (Hrest : core env' = core env /\ agents env' = agents env
                  /\ pids_2d env' = pids_2d env).
  { split; [apply shuffle_core|]. apply shuffle_rounds_frame. }
  destruct (Z.eq_dec n 0) as [->|Hpos].
  { subst arr' env'. split; [apply Permutation_refl|].
    split; [reflexivity|exact Hrest]. }
  assert (Hi : s16 (n - 1) = n - 1) by (apply s16_small; lia).
  destruct (shuffle_rounds_permutes (Z.to_nat (n - 1)) (n - 1) env)
    as [Hp Hs]; [lia|lia|fold arr; lia|exact Hu16|].
  replace (n - 1 + 1) with n in Hs by lia.
  assert (E' : arr' = alive_pids
                        (agent_manager
                           (shuffle_rounds (Z.to_nat (n - 1)) (n - 1) env))).
  { subst arr' env'. unfold shuffle. rewrite Hi. reflexivity. }
  rewrite <- E' in Hp, Hs. fold arr in Hp, Hs.
  split; [|split; [exact Hs|exact Hrest]].
  apply (Permutation_app_inv_r (skipn (Z.to_nat n) arr)).
  rewrite <- Hs at 1. rewrite !firstn_skipn. exact Hp.
Qed.

(** ** The life invariants: bounds of the agents, bitset and mask *)

Lemma shape_fields (e e' : Territories) :
  shape e' = shape e ->
  max_agents e' = max_agents e
  /\ length (agents e') = length (agents e)
  /\ length (alive_mask (agent_manager e'))
     = length (alive_mask (agent_manager e))
  /\ length (alive_pids (agent_manager e'))
     = length (alive_pids (agent_manager e))
  /\ max_num (alive_bitset (agent_manager e'))
     = max_num (alive_bitset (agent_manager e))
  /\ words (alive_bitset (agent_manager e'))
     = words (alive_bitset (agent_manager e))
  /\ length (data (alive_bitset (agent_manager e')))
     = length (data (alive_bitset (agent_manager e))).
Proof.
  unfold shape. cbv zeta. intros H.
  injection H as H1 H2 H3 H4 H5 H6 H7. repeat split; assumption.
Qed.

Lemma allocated_shape (e e' : Territories) :
  shape e' = shape e -> allocated e -> allocated e'.
Proof.
  intros H. destruct (shape_fields e e' H) as (H1 & H2 & H3 & H4 & H5 & H6 & H7).
  unfold allocated. cbv zeta. rewrite H1, H2, H3, H4, H5, H6, H7. tauto.
Qed.

Lemma vit_fields (e e' : Territories) :
  vit e' = vit e ->
  shape e' = shape e /\ agents e' = agents e
  /\ alive_bitset (agent_manager e') = alive_bitset (agent_manager e)
  /\ alive_mask (agent_manager e') = alive_mask (agent_manager e).
Proof.
  intros H. split; [|split; [|split]].
  - exact (f_equal (fun t => fst (fst (fst t))) H).
  - exact (f_equal (fun t => snd (fst (fst t))) H).
  - exact (f_equal (fun t => snd (fst t)) H).
  - exact (f_equal snd H).
Qed.

Lemma life_vit (J : Agent.t -> Prop) (e e' : Territories) :
  vit e' = vit e -> life J e -> life J e'.
Proof.
  intros H (Ha & Hb & Hs).
  destruct (vit_fields e e' H) as (H1 & H2 & H3 & H4).
  split; [eapply allocated_shape; eassumption|]. split.
  - unfold bits_agree in *. rewrite H3, H4. exact Hb.
  - unfold agents_sat, ag in *. rewrite H2, H4. exact Hs.
Qed.

Lemma keeps_refl (J : Agent.t -> Prop) (e : Territories) : keeps J e e.
Proof. split; [reflexivity|auto]. Qed.

Lemma keeps_trans (J : Agent.t -> Prop) (e1 e2 e3 : Territories) :
  keeps J e1 e2 -> keeps J e2 e3 -> keeps J e1 e3.
Proof.
  intros [S1 L1] [S2 L2]. split; [congruence|auto].
Qed.

Lemma keeps_vit (J : Agent.t -> Prop) (e0 e e' : Territories) :
  vit e' = vit e -> keeps J e0 e -> keeps J e0 e'.
Proof.
  intros H [S L]. destruct (vit_fields e e' H) as (H1 & _).
  split; [congruence|]. intros H0. eapply life_vit; [exact H|]. auto.
Qed.

Lemma vit_count_stat (env : Territories) (f : Stats -> Stats) :
  vit (count_stat env f) = vit env.
Proof.
  unfold count_stat; destruct (tick env <? min_ep_length env); reflexivity.
Qed.

Lemma vit_rand (env : Territories) : vit (snd (rand env)) = vit env.
Proof. unfold rand; destruct (rand_state env); reflexivity. Qed.

Lemma keeps_count_stat (J : Agent.t -> Prop) (e0 e : Territories)
  (f : Stats -> Stats) :
  keeps J e0 e -> keeps J e0 (count_stat e f).
Proof. apply keeps_vit, vit_count_stat. Qed.

(** An update of one agent that keeps [J] on an alive slot. *)
Lemma keeps_upd_agent (J : Agent.t -> Prop) (e0 e : Territories) (p : Z)
  (f : Agent.t -> Agent.t) :
  (getb (alive_mask (agent_manager e)) p = true ->
   J (ag e p) -> J (f (ag e p))) ->
  keeps J e0 e -> keeps J e0 (upd_agent e p f).
Proof.
  intros Hf [S L]. split.
  - rewrite <- S. unfold shape. fld_goal. rewrite zset_length. reflexivity.
  - intros H0. destruct (L H0) as (Ha & Hb & Hs).
    split; [|split; [exact Hb|]].
    + eapply allocated_shape; [|exact Ha].
      unfold shape. fld_goal. rewrite zset_length. reflexivity.
    + intros q Hq. change (alive_mask (agent_manager (upd_agent e p f)))
        with (alive_mask (agent_manager e)) in Hq.
      unfold ag. fld_goal.
      destruct (zget_zset_cases Agent.zero (agents e) p q (f (ag e p)))
        as [E|(Epq & _ & E)]; rewrite E.
      * apply Hs; exact Hq.
      * subst q. apply Hf; [exact Hq|]. apply Hs; exact Hq.
Qed.

Lemma ag_upd_agent_cases (e : Territories) (p : Z) (f : Agent.t -> Agent.t) :
  ag (upd_agent e p f) p = f (ag e p) \/ ag (upd_agent e p f) p = ag e p.
Proof.
  unfold ag at 1 3. fld_goal.
  destruct (zget_zset_cases Agent.zero (agents e) p p (f (ag e p)))
    as [E|(_ & _ & E)]; rewrite E; [right|left]; reflexivity.
Qed.

Ltac agent_bounds :=
  unfold agent_ok, MAX_HP, MAX_SATIATION, MAX_STONE_CARRYING_CAPACITY,
    METABOLISM_RATE in *;
  cbn [Agent.r Agent.c Agent.dir Agent.hp Agent.hp_max Agent.satiation
       Agent.max_satiation Agent.age Agent.food_carried Agent.stone_carried
       Agent.role Agent.set_r Agent.set_c Agent.set_dir Agent.set_hp
       Agent.set_hp_max Agent.set_satiation Agent.set_age
       Agent.set_food_carried Agent.set_stone_carried Agent.set_role] in *;
  change (Z.quot 100 2) with 50 in *;
  lia.

Ltac keeps_walk :=
  repeat match goal with
         | |- keeps _ ?e ?e => apply keeps_refl
         | |- keeps _ _ (if ?b then _ else _) => destruct b eqn:?
         | |- keeps _ _ (count_stat _ _) => apply keeps_count_stat
         | |- keeps _ _ (set_tile ?e _ _ _ _) =>
             apply (keeps_vit _ _ e); [reflexivity|]
         | |- keeps _ _ (set_pid_at ?e _ _ _) =>
             apply (keeps_vit _ _ e); [reflexivity|]
         | |- keeps _ _ (upd_agent _ _ _) =>
             apply keeps_upd_agent; [try solve [intros _ ?; agent_bounds]|]
         end.

Lemma pre_action_keeps (pid : Z) (env : Territories) :
  keeps agent_ok env (pre_action pid env).
Proof.
  unfold pre_action. keeps_walk.
  intros _ Hok.
  match type of Hok with
  | agent_ok (ag (upd_agent ?e ?p ?f) ?p) =>
      destruct (ag_upd_agent_cases e p f) as [E|E]; rewrite E in *; clear E;
      set (b := ag e p) in *
  end; agent_bounds.
Qed.

Lemma vit_place_wall (env : Territories) (r c : Z) :
  vit (place_wall env r c) = vit env.
Proof.
  rewrite place_wall_unfold. destruct (tile env r c WALL_HP >? 0); reflexivity.
Qed.

Lemma vit_destroy_wall (env : Territories) (r c : Z) :
  vit (destroy_wall env r c) = vit env.
Proof.
  unfold destroy_wall. destruct (tile env r c WALL_HP =? 0); [reflexivity|].
  match goal with
  | |- context [if ?b then _ else _] => destruct b
  end; reflexivity.
Qed.

Lemma step_move_keeps (pid action : Z) (env : Territories) :
  keeps agent_ok env (step_move pid action env).
Proof. unfold step_move. keeps_walk. Qed.

Lemma step_pickup_keeps (day pid : Z) (env : Territories) :
  keeps agent_ok env (step_pickup day pid env).
Proof. unfold step_pickup. keeps_walk. Qed.

Lemma step_package_keeps (day pid : Z) (env : Territories) :
  keeps agent_ok env (step_package day pid env).
Proof. unfold step_package. keeps_walk. Qed.

Lemma step_build_wall_keeps (pid : Z) (env : Territories) :
  keeps agent_ok env (step_build_wall pid env).
Proof.
  unfold step_build_wall. keeps_walk.
  eapply keeps_vit; [apply vit_place_wall|]. apply keeps_refl.
Qed.

Lemma agent_mine_keeps (pid : Z) (env : Territories) :
  keeps agent_ok env (agent_mine pid env).
Proof.
  unfold agent_mine.
  destruct (Z.geb_spec (Agent.stone_carried (ag env pid))
              MAX_STONE_CARRYING_CAPACITY) as [|Hroom]; [apply keeps_refl|].
  destruct (mine_scan pid env) as [[[d tr] tc]|]; [|apply keeps_refl].
  keeps_walk.
  intros _ Hok. rewrite ag_set_tile in *.
  destruct (ag_upd_agent_cases env pid (fun a => Agent.set_dir a d))
    as [E|E]; rewrite E in *; clear E; set (b := ag env pid) in *;
    agent_bounds.
Qed.

Lemma agent_attack_keeps (pid : Z) (env : Territories) :
  keeps agent_ok env (agent_attack pid env).
Proof.
  unfold agent_attack.
  destruct (attack_scan pid env) as [[[[d tr] tc] [|]]|];
    [| |apply keeps_refl].
  - keeps_walk.
    eapply keeps_vit; [apply vit_destroy_wall|]. keeps_walk.
  - keeps_walk.
Qed.

Lemma bitset_remove_shape (bs : BitSet) (x : Z) :
  max_num (bitset_remove bs x) = max_num bs
  /\ words (bitset_remove bs x) = words bs
  /\ length (data (bitset_remove bs x)) = length (data bs).
Proof.
  unfold bitset_remove. destruct ((x <? 0) || (x >=? max_num bs));
    cbn [max_num words data]; rewrite ?zset_length; auto.
Qed.

Lemma bitset_add_shape (bs : BitSet) (x : Z) :
  max_num (bitset_add bs x) = max_num bs
  /\ words (bitset_add bs x) = words bs
  /\ length (data (bitset_add bs x)) = length (data bs).
Proof.
  unfold bitset_add. destruct ((x <? 0) || (x >=? max_num bs));
    cbn [max_num words data]; rewrite ?zset_length; auto.
Qed.

Lemma bitset_mem_remove (bs : BitSet) (x p : Z) :
  bitset_wf bs -> 0 <= x < max_num bs ->
  bitset_mem (bitset_remove bs x) p
  = if p =? x then false else bitset_mem bs p.
Proof.
  intros Hwf Hx. unfold bitset_mem.
  destruct (contains_after_remove bs x p Hwf Hx) as [H1 H2].
  destruct (Z.eqb_spec p x) as [->|Hne].
  - rewrite H1. reflexivity.
  - rewrite H2 by exact Hne. reflexivity.
Qed.

Lemma bitset_mem_add (bs : BitSet) (x p : Z) :
  bitset_wf bs -> 0 <= x < max_num bs ->
  bitset_mem (bitset_add bs x) p
  = if p =? x then true else bitset_mem bs p.
Proof.
  intros Hwf Hx. unfold bitset_mem.
  destruct (contains_after_add bs x p Hwf Hx) as [H1 H2].
  destruct (Z.eqb_spec p x) as [->|Hne].
  - rewrite H1. reflexivity.
  - rewrite H2 by exact Hne. reflexivity.
Qed.

Lemma getb_zset (l : list bool) (i p : Z) (v : bool) :
  0 <= i < Z.of_nat (length l) ->
  getb (zset l i v) p = if p =? i then v else getb l p.
Proof.
  intros Hi. unfold getb. destruct (Z.eqb_spec p i) as [->|Hne].
  - apply zget_zset_eq. exact Hi.
  - apply zget_zset_neq. congruence.
Qed.

Lemma kill_agent_keeps (J : Agent.t -> Prop) (env : Territories) (pid : Z) :
  keeps J env (kill_agent env pid).
Proof.
  destruct (getb (alive_mask (agent_manager env)) pid) eqn:Hlive.
  2:{ unfold kill_agent. rewrite Hlive. apply keeps_refl. }
  destruct (kill_agent_fields env pid Hlive)
    as (Hmask & Hbits & Hpids & _ & _ & _ & _ & Hag & Hworld & _).
  destruct (bitset_remove_shape (alive_bitset (agent_manager env)) pid)
    as (S1 & S2 & S3).
  assert (HN : max_agents (kill_agent env pid) = max_agents env).
  { unfold world in Hworld. injection Hworld. auto. }
  assert (Hshape : shape (kill_agent env pid) = shape env).
  { unfold shape. cbv zeta.
    rewrite HN, Hag, Hmask, Hbits, Hpids, S1, S2, S3, zset_length.
    reflexivity. }
  split; [exact Hshape|].
  intros (Ha & (Hwf & Hmem) & Hs).
  pose proof (getb_true_in_range _ _ Hlive) as Hin.
  assert (Hpid : 0 <= pid < max_num (alive_bitset (agent_manager env))).
  { destruct Ha as (_ & Hlm & _ & Hmax & _). lia. }
  split; [eapply allocated_shape; eassumption|]. split; [split|].
  - rewrite Hbits. apply bitset_remove_wf. exact Hwf.
  - intros p. rewrite Hbits, Hmask.
    rewrite bitset_mem_remove by assumption.
    rewrite getb_zset by exact Hin. rewrite Hmem. reflexivity.
  - intros p Hp. rewrite Hmask in Hp.
    rewrite (getb_zset _ pid p false) in Hp by exact Hin.
    unfold ag. rewrite Hag. apply Hs.
    destruct (p =? pid); [discriminate|exact Hp].
Qed.

Lemma sweep_turn_keeps (J : Agent.t -> Prop) (i : Z) (env : Territories) :
  keeps J env (sweep_turn i env).
Proof.
  unfold sweep_turn.
  match goal with
  | |- keeps _ _ (if ?b then _ else _) => destruct b
  end; [|apply keeps_refl].
  eapply keeps_vit; [|apply kill_agent_keeps]. reflexivity.
Qed.

Lemma keeps_for_range (J : Agent.t -> Prop) (lo hi : Z)
  (f : Z -> Territories -> Territories) (e0 e : Territories) :
  (forall i x, keeps J x (f i x)) ->
  keeps J e0 e -> keeps J e0 (for_range lo hi f e).
Proof.
  intros Hf H. apply for_range_preserves; [exact H|].
  intros i x _ Hx. eapply keeps_trans; [exact Hx|apply Hf].
Qed.

Lemma death_sweep_keeps (J : Agent.t -> Prop) (env : Territories) :
  keeps J env (death_sweep env).
Proof.
  unfold death_sweep. apply keeps_for_range; [|apply keeps_refl].
  intros i x. apply sweep_turn_keeps.
Qed.

Lemma drain_word_length (rounds : nat) (wi w : Z) (st : list Z * Z) :
  length (fst (drain_word rounds wi w st)) = length (fst st).
Proof.
  revert w st. induction rounds as [|k IH]; intros w st; [reflexivity|].
  cbn [drain_word]. destruct (w =? 0); [reflexivity|].
  rewrite IH. cbn [fst]. apply zset_length.
Qed.

Lemma bitset_update_members_length (bs : BitSet) (members : list Z) :
  length (fst (bitset_update_members bs members)) = length members.
Proof.
  unfold bitset_update_members.
  apply (for_range_preserves
           (fun st : list Z * Z => length (fst st) = length members));
    [reflexivity|].
  intros wi st _ Hst. rewrite drain_word_length. exact Hst.
Qed.

Lemma vit_update_alive_pids (env : Territories) :
  vit (update_alive_pids env) = vit env.
Proof.
  unfold update_alive_pids, vit, shape. fld_goal.
  rewrite bitset_update_members_length. reflexivity.
Qed.

Lemma vit_shuffle_rounds (k : nat) (i : Z) (env : Territories) :
  vit (shuffle_rounds k i env) = vit env.
Proof.
  revert i env. induction k as [|k IH]; intros i env; [reflexivity|].
  cbn [shuffle_rounds].
  pose proof (vit_rand env) as Hr.
  destruct (rand env) as [x env1]. cbn [snd] in Hr.
  rewrite IH. rewrite <- Hr. unfold vit, shape. fld_goal.
  rewrite !zset_length. reflexivity.
Qed.

Lemma vit_start_crop_growth (env : Territories) :
  vit (start_crop_growth env) = vit env.
Proof.
  unfold start_crop_growth.
  apply (for_range_preserves (fun e => vit e = vit env)); [reflexivity|].
  intros r e _ He.
  apply (for_range_preserves (fun e => vit e = vit env)); [exact He|].
  intros c e' _ He'. destruct (soil_at e' r c); [|exact He'].
  rewrite <- He'. reflexivity.
Qed.

Lemma vit_season_update (day : Z) (env : Territories) :
  vit (season_update day env) = vit env.
Proof.
  unfold season_update.
  destruct (negb (is_winter env) && (day >=? SUMMER_DURATION));
    [reflexivity|].
  destruct (is_winter env && (day <? SUMMER_DURATION)); [|reflexivity].
  rewrite vit_start_crop_growth. reflexivity.
Qed.

Lemma vit_population_stats (env : Territories) :
  vit (population_stats env) = vit env.
Proof.
  unfold population_stats. rewrite !vit_count_stat. reflexivity.
Qed.

Lemma vit_kinship_matrix_update (env : Territories) (pid : Z) :
  vit (kinship_matrix_update env pid) = vit env.
Proof.
  unfold kinship_matrix_update.
  apply (for_range_preserves (fun e => vit e = vit env)); [reflexivity|].
  intros q e _ He.
  match goal with
  | |- context [if ?b then _ else _] => destruct b
  end; [exact He|].
  rewrite <- He. reflexivity.
Qed.

(** *** The rewards touch nothing of the world *)

Lemma body_count_stat (env : Territories) (f : Stats -> Stats) :
  body (count_stat env f) = body env.
Proof.
  unfold count_stat; destruct (tick env <? min_ep_length env); reflexivity.
Qed.

Lemma body_sum_family (env : Territories) (pid : Z) :
  body (sum_family env pid) = body env.
Proof.
  unfold sum_family.
  apply (for_range_preserves (fun e => body e = body env)); [reflexivity|].
  intros j e _ He. rewrite <- He. reflexivity.
Qed.

Lemma body_compute_rewards (env : Territories) :
  body (compute_rewards env) = body env.
Proof.
  unfold compute_rewards.
  destruct (reward_growth_rate env).
  - unfold _growth_rate_rewards.
    set (loop := for_range _ _ _ _).
    assert (H : body loop = body env).
    { subst loop.
      apply (for_range_preserves (fun e => body e = body env)); [reflexivity|].
      intros pid e _ He.
      destruct (getb (alive_mask (agent_manager env)) pid
                || negb (geti (terminals e) pid =? 0)); [|exact He].
      unfold add_total_reward. rewrite body_count_stat.
      pose proof (body_sum_family e pid) as Hs.
      repeat match goal with
             | |- context [if ?b then _ else _] => destruct b
             end;
        (etransitivity; [|exact He]); (etransitivity; [|exact Hs]);
        reflexivity. }
    rewrite <- H. reflexivity.
  - unfold _delta_rewards.
    set (loop := for_range _ _ _ _).
    assert (H : body loop = body env).
    { subst loop.
      apply (for_range_preserves (fun e => body e = body env)); [reflexivity|].
      intros pid e _ He.
      destruct (getb (alive_mask (agent_manager env)) pid
                || negb (geti (terminals e) pid =? 0)); [|exact He].
      unfold add_total_reward. rewrite body_count_stat.
      pose proof (body_sum_family e pid) as Hs.
      etransitivity; [|exact He]. etransitivity; [|exact Hs].
      reflexivity. }
    rewrite <- H. reflexivity.
Qed.

Lemma body_fields (e e' : Territories) :
  body e' = body e ->
  agents e' = agents e /\ agent_manager e' = agent_manager e
  /\ pids_2d e' = pids_2d e /\ tile_props e' = tile_props e
  /\ max_agents e' = max_agents e /\ tick e' = tick e
  /\ is_winter e' = is_winter e.
Proof.
  unfold body. intros H.
  injection H as H1 H2 H3 H4 H5 H6 H7 H8 H9 H10 H11 H12 H13 H14 H15 H16 H17
    H18 H19 H20 H21 H22 H23 H24.
  repeat split; assumption.
Qed.

Lemma vit_of_body (e e' : Territories) : body e' = body e -> vit e' = vit e.
Proof.
  intros H. destruct (body_fields e e' H) as (H1 & H2 & _ & _ & H5 & _).
  unfold vit, shape. cbv zeta. rewrite H1, H2, H5. reflexivity.
Qed.

Lemma carries_of_keeps (J : Agent.t -> Prop) (e e' : Territories) :
  keeps J e e' -> (engine_inv e -> engine_inv e') -> carries J e e'.
Proof. intros Hk Hi Hinv. split; [apply Hi; exact Hinv|exact Hk]. Qed.

Lemma carries_refl (J : Agent.t -> Prop) (e : Territories) : carries J e e.
Proof. intros H. split; [exact H|apply keeps_refl]. Qed.

Lemma carries_trans (J : Agent.t -> Prop) (e1 e2 e3 : Territories) :
  carries J e1 e2 -> carries J e2 e3 -> carries J e1 e3.
Proof.
  intros H12 H23 H1. destruct (H12 H1) as [H2 K12].
  destruct (H23 H2) as [H3 K23].
  split; [exact H3|eapply keeps_trans; eassumption].
Qed.

Lemma carries_for_range (J : Agent.t -> Prop) (lo hi : Z)
  (f : Z -> Territories -> Territories) (e0 e : Territories) :
  (forall i x, carries J x (f i x)) ->
  carries J e0 e -> carries J e0 (for_range lo hi f e).
Proof.
  intros Hf H. apply for_range_preserves; [exact H|].
  intros i x _ Hx. eapply carries_trans; [exact Hx|apply Hf].
Qed.

Lemma spawn_agent_shape (env : Territories) (r c : Z) :
  shape (fst (spawn_agent env r c)) = shape env.
Proof.
  destruct (Z_lt_dec (alive_count (agent_manager env)) (max_agents env))
    as [Hroom|Hfull].
  - destruct (spawn_agent_fields env r c Hroom)
      as (Hmask & Hbits & Hpids & _ & (facing & _ & Hag) & Hworld & _).
    destruct (bitset_add_shape (alive_bitset (agent_manager env))
                (snd (spawn_agent env r c))) as (S1 & S2 & S3).
    assert (HN : max_agents (fst (spawn_agent env r c)) = max_agents env)
      by apply spawn_agent_max_agents.
    unfold shape. cbv zeta.
    rewrite HN, Hag, Hmask, Hbits, Hpids, S1, S2, S3, !zset_length.
    reflexivity.
  - unfold spawn_agent.
    destruct (Z.geb_spec (alive_count (agent_manager env)) (max_agents env));
      [reflexivity|lia].
Qed.

Lemma spawn_agent_carries (J : Agent.t -> Prop) (env : Territories)
  (r c : Z) :
  (forall facing caste, J (newborn r c facing caste)) ->
  alive_count (agent_manager env) < max_agents env ->
  carries J env (fst (spawn_agent env r c)).
Proof.
  intros Hnew Hroom Hinv.
  destruct (spawn_agent_inv env r c Hinv Hroom) as (Hinv' & Hpid & _).
  split; [exact Hinv'|]. split; [apply spawn_agent_shape|].
  intros (Ha & (Hwf & Hmem) & Hs).
  destruct (spawn_agent_fields env r c Hroom)
    as (Hmask & Hbits & _ & _ & (facing & _ & Hag) & _).
  set (pid := snd (spawn_agent env r c)) in *.
  pose proof Ha as (Hla & Hlm & _ & Hmax & _).
  split; [eapply allocated_shape; [apply spawn_agent_shape|exact Ha]|].
  split; [split|].
  - rewrite Hbits. apply bitset_add_wf. exact Hwf.
  - intros p. rewrite Hbits, Hmask.
    rewrite bitset_mem_add by (assumption || lia).
    rewrite getb_zset by lia. rewrite Hmem. reflexivity.
  - intros p Hp. rewrite Hmask in Hp.
    rewrite (getb_zset _ pid p true) in Hp by lia.
    unfold ag. rewrite Hag.
    destruct (Z.eqb_spec p pid) as [Heq|Hne]; [rewrite Heq|].
    + rewrite zget_zset_eq by lia. apply Hnew.
    + rewrite zget_zset_neq by congruence. apply Hs. exact Hp.
Qed.

Lemma agent_ok_newborn (r c facing caste : Z) :
  agent_ok (newborn r c facing caste).
Proof. unfold newborn. agent_bounds. Qed.

Lemma agent_fit_newborn (r c facing caste : Z) :
  agent_fit (newborn r c facing caste).
Proof.
  split; [apply agent_ok_newborn|]. unfold healthy, newborn, MAX_SATIATION.
  cbn. lia.
Qed.

Lemma keeps_of_vit (J : Agent.t -> Prop) (e e' : Territories) :
  vit e' = vit e -> keeps J e e'.
Proof. intros H. eapply keeps_vit; [exact H|apply keeps_refl]. Qed.

Lemma agent_reproduce_carries (pid : Z) (env : Territories) :
  carries agent_ok env (agent_reproduce pid env).
Proof.
  intros Hinv. split; [apply agent_reproduce_inv; exact Hinv|].
  unfold agent_reproduce.
  destruct (negb (_agent_can_reproduce (ag env pid))); cbn [orb];
    [apply keeps_refl|].
  destruct (Z.geb_spec (alive_count (agent_manager env)) (max_agents env))
    as [Hfull|Hroom]; [apply keeps_refl|].
  destruct (_find_mate (ag env pid) env =? -1); [apply keeps_refl|].
  set (mate_pid := _find_mate (ag env pid) env).
  set (env2 := upd_agent (upd_agent env pid _) mate_pid _).
  assert (Hinv2 : engine_inv env2)
    by (subst env2; apply engine_inv_upd_agent, engine_inv_upd_agent;
        exact Hinv).
  assert (K2 : keeps agent_ok env env2) by (subst env2; keeps_walk).
  set (new_r := Z.quot _ (width env2)). set (new_c := Z.rem _ (width env2)).
  destruct (spawn_agent_carries agent_ok env2 new_r new_c
              (agent_ok_newborn new_r new_c) Hroom Hinv2) as (Hinv3 & K3).
  destruct (spawn_agent env2 new_r new_c) as [env3 child_pid].
  cbn [fst snd] in Hinv3, K3.
  set (env4 := set_pid_at env3 new_r new_c child_pid).
  set (env5 := for_range 0 (n_genes env4) _ env4).
  assert (V5 : vit env5 = vit env3).
  { subst env5.
    apply (for_range_preserves (fun e => vit e = vit env3)); [reflexivity|].
    intros j e _ He. pose proof (vit_rand e) as Hr.
    destruct (rand e) as [x e1]. cbn [snd] in Hr.
    rewrite <- He, <- Hr. reflexivity. }
  pose proof (vit_rand env5) as Hr6.
  destruct (rand env5) as [x env6]. cbn [snd] in Hr6.
  eapply keeps_trans; [exact K2|]. eapply keeps_trans; [exact K3|].
  apply keeps_count_stat.
  eapply keeps_vit; [apply vit_kinship_matrix_update|].
  apply keeps_upd_agent; [intros _ ?; agent_bounds|].
  apply keeps_of_vit. rewrite Hr6. exact V5.
Qed.

Lemma do_action_carries (day pid action : Z) (env : Territories) :
  carries agent_ok env (do_action day pid action env).
Proof.
  unfold do_action.
  repeat match goal with
         | |- carries _ _ (if ?b then _ else _) => destruct b
         end;
    try apply carries_refl;
    try apply agent_reproduce_carries;
    apply carries_of_keeps;
    auto using step_move_keeps, step_pickup_keeps, agent_mine_keeps,
      step_package_keeps, step_build_wall_keeps, agent_attack_keeps,
      engine_inv_step_move, engine_inv_step_pickup, engine_inv_agent_mine,
      engine_inv_step_package, engine_inv_step_build_wall,
      engine_inv_agent_attack.
Qed.

Lemma agent_turn_carries (day i : Z) (env : Territories) :
  carries agent_ok env (agent_turn day i env).
Proof.
  unfold agent_turn.
  destruct (Agent.hp (ag env (geti (alive_pids (agent_manager env)) i)) <=? 0);
    [apply carries_refl|].
  set (pid := geti (alive_pids (agent_manager env)) i).
  assert (H : carries agent_ok env
                (do_action day pid (geti (actions (pre_action pid env)) pid)
                   (pre_action pid env))).
  { eapply carries_trans; [|apply do_action_carries].
    apply carries_of_keeps;
      [apply pre_action_keeps|apply engine_inv_pre_action]. }
  match goal with
  | |- carries _ _ (if ?b then _ else _) => destruct b
  end; [|exact H].
  eapply carries_trans; [exact H|].
  apply carries_of_keeps;
    [apply keeps_of_vit, vit_count_stat|apply engine_inv_count_stat].
Qed.

Lemma action_pass_carries (day : Z) (env : Territories) :
  carries agent_ok env (action_pass day env).
Proof.
  unfold action_pass. apply carries_for_range; [|apply carries_refl].
  intros i x. apply agent_turn_carries.
Qed.

(** *** The alive list after [update_alive_pids] *)

Lemma count_true_filter (l : list bool) (g : Z -> bool) (lo : Z) :
  (forall k, (k < length l)%nat -> g (lo + Z.of_nat k) = nth k l false) ->
  Z.of_nat (length (filter g (zrange lo (length l)))) = count_true l.
Proof.
  revert lo. induction l as [|h t IH]; intros lo Hg; [reflexivity|].
  cbn [length zrange filter count_true].
  pose proof (Hg 0%nat ltac:(simpl; lia)) as H0.
  replace (lo + Z.of_nat 0) with lo in H0 by lia. cbn [nth] in H0.
  rewrite H0.
  assert (Ht : Z.of_nat (length (filter g (zrange (lo + 1) (length t))))
               = count_true t).
  { apply IH. intros k Hk. specialize (Hg (S k) ltac:(simpl; lia)).
    cbn [nth] in Hg. rewrite <- Hg. f_equal. lia. }
  destruct h; cbn [length]; lia.
Qed.

Lemma alive_slots_length (env : Territories) :
  Z.of_nat (length (alive_mask (agent_manager env))) = max_agents env ->
  Z.of_nat (length (alive_slots env))
  = count_true (alive_mask (agent_manager env)).
Proof.
  intros Hl. unfold alive_slots.
  replace (Z.to_nat (max_agents env))
    with (length (alive_mask (agent_manager env))) by lia.
  apply count_true_filter. intros k Hk.
  unfold getb, zget. destruct (Z.ltb_spec (0 + Z.of_nat k) 0); [lia|].
  f_equal. lia.
Qed.

Lemma bitset_elements_alive_slots (env : Territories) :
  allocated env -> bits_agree env ->
  bitset_elements (alive_bitset (agent_manager env)) = alive_slots env.
Proof.
  intros (_ & _ & _ & Hmax & _) (_ & Hmem).
  unfold bitset_elements, alive_slots. rewrite Hmax.
  apply filter_ext. exact Hmem.
Qed.

Lemma update_alive_pids_listed (J : Agent.t -> Prop) (env : Territories) :
  engine_inv env -> life J env -> alive_listed (update_alive_pids env).
Proof.
  intros ((HN & _ & _ & Hlm & _) & Ham & _) (Ha & Hb & _).
  destruct Ham as (_ & _ & _ & Hcount & _).
  pose proof Ha as (_ & _ & Hlp & Hmax & _).
  pose proof Hb as (Hwf & _).
  destruct (bitset_update_members_listed
              (alive_bitset (agent_manager env))
              (alive_pids (agent_manager env)) Hwf)
    as (_ & Hf & _); [lia|lia|].
  rewrite (bitset_elements_alive_slots env Ha Hb) in Hf.
  unfold alive_listed, update_alive_pids. fld_goal.
  change (alive_slots (upd_am env _)) with (alive_slots env).
  replace (Z.to_nat (alive_count (agent_manager env)))
    with (length (alive_slots env)); [exact Hf|].
  rewrite Hcount, <- (alive_slots_length env Hlm). lia.
Qed.

Lemma alive_listed_complete (env : Territories) (p : Z) :
  Z.of_nat (length (alive_mask (agent_manager env))) = max_agents env ->
  alive_listed env ->
  getb (alive_mask (agent_manager env)) p = true ->
  exists j, 0 <= j < alive_count (agent_manager env)
            /\ geti (alive_pids (agent_manager env)) j = p.
Proof.
  intros Hl Hlist Hp.
  pose proof (getb_true_in_range _ _ Hp) as Hr.
  assert (Hin : In p (alive_slots env)).
  { unfold alive_slots. apply filter_In. split; [|exact Hp].
    apply In_zrange. lia. }
  rewrite <- Hlist in Hin.
  destruct (In_nth _ _ 0 Hin) as (n & Hn & En).
  rewrite length_firstn in Hn. rewrite nth_firstn in En.
  destruct (Nat.ltb_spec n (Z.to_nat (alive_count (agent_manager env))));
    [|lia].
  exists (Z.of_nat n). split; [lia|].
  unfold geti, zget. destruct (Z.ltb_spec (Z.of_nat n) 0); [lia|].
  rewrite Nat2Z.id. exact En.
Qed.

(** *** The death sweep leaves no alive agent without health or food *)

Lemma kill_agent_mask (env : Territories) (pid p : Z) :
  getb (alive_mask (agent_manager (kill_agent env pid))) p
  = if p =? pid then false else getb (alive_mask (agent_manager env)) p.
Proof.
  destruct (getb (alive_mask (agent_manager env)) pid) eqn:Hlive.
  - destruct (kill_agent_fields env pid Hlive) as (Hmask & _).
    rewrite Hmask. apply getb_zset. apply getb_true_in_range. exact Hlive.
  - unfold kill_agent. rewrite Hlive. cbn [negb].
    destruct (Z.eqb_spec p pid) as [->|]; [exact Hlive|reflexivity].
Qed.

Lemma kill_agent_agents (env : Territories) (pid : Z) :
  agents (kill_agent env pid) = agents env
  /\ alive_pids (agent_manager (kill_agent env pid))
     = alive_pids (agent_manager env).
Proof.
  destruct (getb (alive_mask (agent_manager env)) pid) eqn:Hlive.
  - destruct (kill_agent_fields env pid Hlive)
      as (_ & _ & Hp & _ & _ & _ & _ & Hag & _). split; assumption.
  - unfold kill_agent. rewrite Hlive. split; reflexivity.
Qed.

Lemma death_sweep_healthy (env : Territories) :
  Z.of_nat (length (alive_mask (agent_manager env))) = max_agents env ->
  0 <= alive_count (agent_manager env) ->
  alive_listed env ->
  agents_sat healthy (death_sweep env).
Proof.
  intros Hl Hac Hlist.
  set (pids := alive_pids (agent_manager env)).
  set (P := fun (i : Z) (e : Territories) =>
    agents e = agents env
    /\ alive_pids (agent_manager e) = pids
    /\ (forall p, getb (alive_mask (agent_manager e)) p = true ->
          getb (alive_mask (agent_manager env)) p = true)
    /\ (forall j, 0 <= j < i ->
          getb (alive_mask (agent_manager e)) (geti pids j) = true ->
          healthy (ag env (geti pids j)))).
  assert (Hloop : P (alive_count (agent_manager env)) (death_sweep env)).
  { unfold death_sweep. apply (for_range_ind P).
    - exact Hac.
    - unfold P. split; [reflexivity|]. split; [reflexivity|].
      split; [auto|]. intros j Hj; lia.
    - intros i e Hi (Hag & Hpids & Hsub & Hdone).
      unfold sweep_turn. rewrite Hpids.
      set (pid := geti pids i).
      assert (Eag : ag e pid = ag env pid) by (unfold ag; rewrite Hag; reflexivity).
      rewrite Eag.
      destruct ((Agent.satiation (ag env pid) <=? 0)
                || (Agent.hp (ag env pid) <=? 0)) eqn:Edead.
      + destruct (kill_agent_agents e pid) as [Ka Kp].
        unfold P. fld_goal.
        split; [rewrite Ka; exact Hag|]. split; [rewrite Kp; exact Hpids|].
        split.
        * intros p Hp. rewrite kill_agent_mask in Hp.
          destruct (p =? pid); [discriminate|]. apply Hsub; exact Hp.
        * intros j Hj Hp. rewrite kill_agent_mask in Hp.
          destruct (Z.eqb_spec (geti pids j) pid) as [|Hne]; [discriminate|].
          apply Hdone; [|exact Hp].
          destruct (Z.eq_dec j i) as [->|]; [contradiction|lia].
      + unfold P. split; [exact Hag|]. split; [exact Hpids|].
        split; [exact Hsub|].
        intros j Hj Hp. destruct (Z.eq_dec j i) as [->|Hne].
        * apply orb_false_iff in Edead as [E1 E2].
          apply Z.leb_gt in E1, E2. split; assumption.
        * apply Hdone; [lia|exact Hp]. }
  destruct Hloop as (Hag & _ & Hsub & Hdone).
  intros p Hp. pose proof (Hsub p Hp) as Hp0.
  destruct (alive_listed_complete env p Hl Hlist Hp0) as (j & Hj & Ej).
  fold pids in Ej. unfold ag. rewrite Hag. fold (ag env p).
  rewrite <- Ej. apply Hdone; [exact Hj|]. rewrite Ej. exact Hp.
Qed.

(** *** A tick *)

Lemma life_weaken (J K : Agent.t -> Prop) (env : Territories) :
  (forall a, J a -> K a) -> life J env -> life K env.
Proof.
  intros HJK (Ha & Hb & Hs). split; [exact Ha|]. split; [exact Hb|].
  intros p Hp. apply HJK, Hs, Hp.
Qed.

Lemma alive_listed_am (e e' : Territories) :
  agent_manager e' = agent_manager e -> max_agents e' = max_agents e ->
  alive_listed e -> alive_listed e'.
Proof.
  intros Ham HN H. unfold alive_listed, alive_slots in *.
  rewrite Ham, HN. exact H.
Qed.

Lemma agents_sat_same (J : Agent.t -> Prop) (e e' : Territories) :
  agents e' = agents e ->
  alive_mask (agent_manager e') = alive_mask (agent_manager e) ->
  agents_sat J e -> agents_sat J e'.
Proof.
  intros Hag Hm H p Hp. unfold ag. rewrite Hag. apply H.
  rewrite <- Hm. exact Hp.
Qed.

Lemma tick_body_life (env : Territories) :
  engine_inv env ->
  shape (tick_body env) = shape env
  /\ (life agent_ok env ->
      life agent_fit (tick_body env) /\ alive_listed (tick_body env)).
Proof.
  intros Hinv. unfold tick_body.
  set (day := day_number env).
  set (env1 := season_update day env).
  set (env2 := set_tick env1 (tick env1 + 1)).
  set (env3 := population_stats env2).
  set (env4 := shuffle env3 _).
  assert (V4 : vit env4 = vit env).
  { subst env4. unfold shuffle. rewrite vit_shuffle_rounds.
    subst env3. rewrite vit_population_stats. subst env2 env1.
    rewrite <- (vit_season_update day env). reflexivity. }
  assert (H4 : engine_inv env4).
  { subst env4. eapply engine_inv_core; [apply shuffle_core|].
    subst env3. unfold population_stats. do 3 apply engine_inv_count_stat.
    subst env2. eapply engine_inv_core;
      [|apply (season_update_inv day env Hinv)]. reflexivity. }
  set (env5 := action_pass day env4).
  destruct (action_pass_carries day env4 H4) as [H5 K5]. fold env5 in H5, K5.
  set (env6 := update_alive_pids env5).
  assert (H6 : engine_inv env6)
    by (eapply engine_inv_core; [|exact H5]; reflexivity).
  assert (V6 : vit env6 = vit env5) by apply vit_update_alive_pids.
  set (env7 := death_sweep env6).
  assert (H7 : engine_inv env7) by (apply death_sweep_inv; exact H6).
  pose proof (death_sweep_keeps agent_ok env6) as K7. fold env7 in K7.
  set (env8 := update_alive_pids env7).
  assert (H8 : engine_inv env8)
    by (eapply engine_inv_core; [|exact H7]; reflexivity).
  assert (V8 : vit env8 = vit env7) by apply vit_update_alive_pids.
  assert (Hshape : shape env8 = shape env).
  { destruct (vit_fields _ _ V8) as [-> _]. destruct K7 as [-> _].
    destruct (vit_fields _ _ V6) as [-> _]. destruct K5 as [-> _].
    destruct (vit_fields _ _ V4) as [-> _]. reflexivity. }
  assert (Hfinal : life agent_ok env ->
            life agent_fit env8 /\ alive_listed env8).
  { intros L0.
    assert (L4 : life agent_ok env4) by (eapply life_vit; eassumption).
    assert (L5 : life agent_ok env5) by (apply K5; exact L4).
    assert (L6 : life agent_ok env6) by (eapply life_vit; eassumption).
    assert (L7 : life agent_ok env7) by (apply K7; exact L6).
    assert (L8 : life agent_ok env8) by (eapply life_vit; eassumption).
    assert (Hlist6 : alive_listed env6)
      by exact (update_alive_pids_listed agent_ok env5 H5 L5).
    assert (Hh7 : agents_sat healthy env7).
    { subst env7. destruct H6 as ((_ & _ & _ & Hlm & _) & Ham6 & _).
      destruct Ham6 as (_ & _ & _ & Hc & _).
      apply death_sweep_healthy; [exact Hlm| |exact Hlist6].
      rewrite Hc. apply count_true_nonneg. }
    assert (Hh8 : agents_sat healthy env8).
    { destruct (vit_fields _ _ V8) as (_ & Ea & _ & Em).
      eapply agents_sat_same; eassumption. }
    split.
    - destruct L8 as (A8 & B8 & S8). split; [exact A8|]. split; [exact B8|].
      intros p Hp. split; [apply S8|apply Hh8]; exact Hp.
    - exact (update_alive_pids_listed agent_ok env7 H7 L7). }
  destruct (tick env8 >=? next_max_ep_length env8).
  - split; [exact Hshape|]. intros L0. destruct (Hfinal L0) as [L8 Hl8].
    split.
    + eapply life_vit; [|exact L8]. reflexivity.
    + eapply alive_listed_am; [| |exact Hl8]; reflexivity.
  - split; assumption.
Qed.

(** *** Reset *)

Lemma vit_kinship_matrix_reset (env : Territories) :
  vit (kinship_matrix_reset env) = vit env.
Proof.
  unfold kinship_matrix_reset.
  apply (for_range_preserves (fun e => vit e = vit env)); [reflexivity|].
  intros i e _ He. rewrite <- He. reflexivity.
Qed.

Lemma agent_manager_reset_shape (env : Territories) :
  shape (agent_manager_reset env) = shape env.
Proof.
  unfold shape, agent_manager_reset. fld_goal.
  unfold bitset_clear. cbn [max_num words data].
  rewrite !fill_length. reflexivity.
Qed.

Lemma agent_manager_reset_life (J : Agent.t -> Prop) (env : Territories) :
  0 <= max_agents env -> allocated env -> life J (agent_manager_reset env).
Proof.
  intros HN Ha.
  pose proof (allocated_shape env _ (agent_manager_reset_shape env) Ha) as Ha'.
  destruct Ha as (_ & Hlm & _ & Hmax & Hw & Hd).
  assert (Hdead : forall p,
            getb (alive_mask (agent_manager (agent_manager_reset env))) p
            = false).
  { intros p. unfold agent_manager_reset. fld_goal.
    apply getb_fill_false. lia. }
  split; [exact Ha'|]. split; [split|].
  - unfold agent_manager_reset. fld_goal.
    apply bitset_clear_shape_wf; [lia|rewrite Hmax; exact Hw|exact Hd].
  - intros p. rewrite Hdead. unfold agent_manager_reset. fld_goal.
    unfold bitset_mem. rewrite contains_after_clear by exact Hd. reflexivity.
  - intros p Hp. rewrite Hdead in Hp. discriminate.
Qed.

Lemma reset_world_inner (env : Territories) :
  exists e, reset_world env = agent_manager_reset e /\ shape e = shape env.
Proof.
  unfold reset_world.
  set (env3 := set_is_winter _ false).
  pose proof (vit_rand env3) as Hr.
  destruct (rand env3) as [x env4]. cbn [snd] in Hr.
  set (env5 := set_next_max_ep_length env4 _).
  set (cells := width env5 * height env5).
  set (env6 := set_pids_2d env5 _).
  assert (S6 : shape env6 = shape env).
  { destruct (vit_fields _ _ Hr) as [S4 _].
    transitivity (shape env4); [reflexivity|]. rewrite S4. reflexivity. }
  set (env7 := if alive_count (agent_manager env6) >? 0 then _ else env6).
  assert (S7 : shape env7 = shape env).
  { subst env7. destruct (alive_count (agent_manager env6) >? 0);
      [|exact S6].
    destruct (vit_fields _ _ (vit_update_alive_pids
                (for_range 0 (alive_count (agent_manager env6))
                   (fun i e => kill_agent e
                      (geti (alive_pids (agent_manager e)) i)) env6)))
      as [-> _].
    apply (for_range_preserves (fun e => shape e = shape env));
      [exact S6|].
    intros i e _ He. destruct (kill_agent_keeps agent_ok e
                                 (geti (alive_pids (agent_manager e)) i))
      as [-> _]. exact He. }
  set (env8 := set_tile_props env7 _).
  set (env9 := for_range 0 2 _ env8).
  assert (V9 : vit env9 = vit env7).
  { subst env9.
    apply (for_range_preserves (fun e => vit e = vit env7)); [reflexivity|].
    intros ri e _ He.
    apply (for_range_preserves (fun e => vit e = vit env7)); [exact He|].
    intros ci e' _ He'. rewrite <- He'. reflexivity. }
  set (env10 := set_tile env9 _ _ STONE STONE_PER_MINE).
  set (env11 := for_range 0 cells _ env10).
  assert (V11 : vit env11 = vit env7).
  { subst env11.
    apply (for_range_preserves (fun e => vit e = vit env7)).
    - rewrite <- V9. reflexivity.
    - intros i e _ He. rewrite <- He. reflexivity. }
  pose proof (vit_kinship_matrix_reset env11) as V12.
  exists (kinship_matrix_reset env11). split; [reflexivity|].
  destruct (vit_fields _ _ V12) as [-> _].
  destruct (vit_fields _ _ V11) as [-> _]. exact S7.
Qed.

Lemma reset_world_shape (env : Territories) :
  shape (reset_world env) = shape env.
Proof.
  destruct (reset_world_inner env) as (e & -> & <-).
  apply agent_manager_reset_shape.
Qed.

Lemma reset_world_life (J : Agent.t -> Prop) (env : Territories) :
  0 <= max_agents env -> allocated env -> life J (reset_world env).
Proof.
  intros HN Ha. destruct (reset_world_inner env) as (e & -> & He).
  destruct (shape_fields _ _ He) as (EN & _).
  apply agent_manager_reset_life; [rewrite EN; exact HN|].
  eapply allocated_shape; [exact He|exact Ha].
Qed.

Lemma spawn_pair_keeps (J : Agent.t -> Prop) (retries : nat)
  (env env' : Territories) :
  (forall r c facing caste, J (newborn r c facing caste)) ->
  (forall a v, J a -> J (Agent.set_role a v)) ->
  engine_inv env ->
  alive_count (agent_manager env) + 2 <= max_agents env ->
  spawn_pair retries env = Some env' ->
  keeps J env env'.
Proof.
  intros Hnew Hrole.
  revert env env'; induction retries as [|k IH]; intros env env' Hinv Hroom Hrun;
    [discriminate|].
  cbn [spawn_pair] in Hrun.
  pose proof (vit_rand env) as V1.
  destruct (rand env) as [x env1] eqn:Er. cbn [snd] in V1.
  pose proof (rand_core env env1 x Er) as Hc1.
  assert (Hinv1 : engine_inv env1)
    by (eapply engine_inv_core; [exact Hc1|exact Hinv]).
  destruct (core_alive_count env env1 Hc1) as [Ea1 EN1].
  assert (K1 : keeps J env env1) by (apply keeps_of_vit; exact V1).
  assert (Hretry : forall e'', spawn_pair k env1 = Some e'' ->
            keeps J env e'').
  { intros e'' Hk. eapply keeps_trans; [exact K1|].
    apply IH; [exact Hinv1|lia|exact Hk]. }
  set (r := Z.quot _ (width env1)) in Hrun.
  set (c := Z.rem _ (width env1)) in Hrun.
  destruct (tile_is_blocked env1 r c); [apply Hretry; exact Hrun|].
  destruct (find_empty_cell r c env1 =? -1); [apply Hretry; exact Hrun|].
  set (r_2 := Z.quot _ (width env1)) in Hrun.
  set (c_2 := Z.rem _ (width env1)) in Hrun.
  destruct (spawn_agent_inv env1 r c Hinv1) as (_ & Hpid & Ea2); [lia|].
  destruct (spawn_agent_carries J env1 r c (Hnew r c) ltac:(lia) Hinv1)
    as (Hinv2 & K2).
  pose proof (spawn_agent_max_agents env1 r c) as EN2.
  destruct (spawn_agent env1 r c) as [env2 pid].
  cbn [fst snd] in Hinv2, Hpid, Ea2, EN2, K2.
  set (env3 := set_pid_at env2 r c pid) in Hrun.
  assert (Hinv3 : engine_inv env3)
    by (apply engine_inv_set_pid_at; exact Hinv2).
  assert (Hroom3 : alive_count (agent_manager env3) < max_agents env3).
  { change (alive_count (agent_manager env3))
      with (alive_count (agent_manager env2)).
    change (max_agents env3) with (max_agents env2). lia. }
  destruct (spawn_agent_carries J env3 r_2 c_2 (Hnew r_2 c_2) Hroom3 Hinv3)
    as (Hinv4 & K4).
  destruct (spawn_agent env3 r_2 c_2) as [env4 pid2].
  cbn [fst snd] in Hinv4, K4.
  set (env5 := set_pid_at env4 r_2 c_2 pid2) in Hrun.
  set (env6 := for_range 0 (n_genes env5) _ env5) in Hrun.
  assert (V6 : vit env6 = vit env4).
  { subst env6.
    apply (for_range_preserves (fun e => vit e = vit env4)); [reflexivity|].
    intros j e _ He. pose proof (vit_rand e) as Hr.
    destruct (rand e) as [y e1]. cbn [snd] in Hr.
    rewrite <- He, <- Hr. reflexivity. }
  injection Hrun as <-.
  eapply keeps_trans; [exact K1|]. eapply keeps_trans; [exact K2|].
  eapply keeps_trans; [apply (keeps_of_vit J env2 env3); reflexivity|].
  eapply keeps_trans; [exact K4|].
  eapply keeps_vit; [apply vit_kinship_matrix_update|].
  eapply keeps_vit; [apply vit_kinship_matrix_update|].
  apply keeps_upd_agent; [intros _; apply Hrole|].
  apply keeps_upd_agent; [intros _; apply Hrole|].
  apply keeps_of_vit. exact V6.
Qed.

Lemma agent_fit_set_role (a : Agent.t) (v : Z) :
  agent_fit a -> agent_fit (Agent.set_role a v).
Proof. intros H. exact H. Qed.

Lemma c_reset_life (retries : nat) (env env' : Territories) :
  well_configured env ->
  c_reset retries env = Some env' ->
  shape env' = shape env
  /\ (allocated env -> life agent_fit env' /\ alive_listed env').
Proof.
  intros Hwf Hrun. unfold c_reset in Hrun.
  destruct (reset_world_inv env Hwf) as [H0 A0].
  assert (HN : 8 <= max_agents (reset_world env)) by (apply H0).
  pose proof (reset_world_shape env) as S0.
  destruct (spawn_pair retries (reset_world env)) as [e1|] eqn:E1;
    [|discriminate].
  destruct (spawn_pair_inv _ _ _ H0 ltac:(lia) E1) as (H1 & A1 & N1).
  pose proof (spawn_pair_keeps agent_fit _ _ _ agent_fit_newborn
                agent_fit_set_role H0 ltac:(lia) E1) as K1.
  cbn [bind_env] in Hrun.
  destruct (spawn_pair retries e1) as [e2|] eqn:E2; [|discriminate].
  destruct (spawn_pair_inv _ _ _ H1 ltac:(lia) E2) as (H2 & A2 & N2).
  pose proof (spawn_pair_keeps agent_fit _ _ _ agent_fit_newborn
                agent_fit_set_role H1 ltac:(lia) E2) as K2.
  cbn [bind_env] in Hrun.
  destruct (spawn_pair retries e2) as [e3|] eqn:E3; [|discriminate].
  destruct (spawn_pair_inv _ _ _ H2 ltac:(lia) E3) as (H3 & A3 & N3).
  pose proof (spawn_pair_keeps agent_fit _ _ _ agent_fit_newborn
                agent_fit_set_role H2 ltac:(lia) E3) as K3.
  cbn [bind_env] in Hrun.
  destruct (spawn_pair retries e3) as [e4|] eqn:E4; [|discriminate].
  destruct (spawn_pair_inv _ _ _ H3 ltac:(lia) E4) as (H4 & A4 & N4).
  pose proof (spawn_pair_keeps agent_fit _ _ _ agent_fit_newborn
                agent_fit_set_role H3 ltac:(lia) E4) as K4.
  cbn [bind_env] in Hrun.
  injection Hrun as <-.
  pose proof (body_compute_rewards (update_alive_pids e4)) as Hb.
  pose proof (vit_of_body _ _ Hb) as Vb.
  destruct (body_fields _ _ Hb) as (_ & Bam & _ & _ & BN & _).
  pose proof (vit_update_alive_pids e4) as Vu.
  split.
  - destruct (vit_fields _ _ Vb) as [-> _].
    destruct (vit_fields _ _ Vu) as [-> _].
    destruct K4 as [-> _]. destruct K3 as [-> _]. destruct K2 as [-> _].
    destruct K1 as [-> _]. exact S0.
  - intros Ha.
    assert (L0 : life agent_fit (reset_world env)).
    { apply reset_world_life; [|exact Ha].
      destruct Hwf as (HN0 & _). lia. }
    assert (L4 : life agent_fit e4)
      by (apply K4, K3, K2, K1; exact L0).
    split.
    + eapply life_vit; [exact Vb|]. eapply life_vit; [exact Vu|exact L4].
    + eapply alive_listed_am; [exact Bam|exact BN|].
      exact (update_alive_pids_listed agent_fit e4 H4 L4).
Qed.

Lemma agent_fit_ok (a : Agent.t) : agent_fit a -> agent_ok a.
Proof. intros [H _]. exact H. Qed.

Lemma c_step_life (retries : nat) (env env' : Territories) :
  engine_inv env ->
  c_step retries env = Some env' ->
  shape env' = shape env
  /\ (life agent_fit env -> life agent_fit env' /\ alive_listed env').
Proof.
  intros Hinv Hrun. unfold c_step in Hrun.
  set (env0 := set_terminals env _) in Hrun.
  assert (H0 : engine_inv env0)
    by (eapply engine_inv_core; [|exact Hinv]; reflexivity).
  assert (V0 : vit env0 = vit env) by reflexivity.
  destruct ((alive_count (agent_manager env0) =? 0)
            || (tick env0 >=? next_max_ep_length env0)).
  - destruct (c_reset_life retries (update_episode_logs env0) env')
      as [S L]; [|exact Hrun|].
    { eapply well_configured_core; [|apply H0]. reflexivity. }
    split; [rewrite S; reflexivity|].
    intros (Ha & _). apply L. exact Ha.
  - injection Hrun as <-.
    destruct (tick_body_life env0 H0) as [S L].
    pose proof (body_compute_rewards (tick_body env0)) as Hb.
    pose proof (vit_of_body _ _ Hb) as Vb.
    destruct (body_fields _ _ Hb) as (_ & Bam & _ & _ & BN & _).
    split.
    + destruct (vit_fields _ _ Vb) as [-> _]. rewrite S. reflexivity.
    + intros L0.
      destruct L as [L1 Hl1].
      { eapply life_weaken; [exact agent_fit_ok|].
        eapply life_vit; [exact V0|exact L0]. }
      split; [eapply life_vit; [exact Vb|exact L1]|].
      eapply alive_listed_am; [exact Bam|exact BN|exact Hl1].
Qed.

(** In every state of a run whose buffers have the sizes [init] gives
    them: the bounds of the alive agents, the agreement of the bitset and
    the mask, and the alive list. *)
Lemma reachable_life (env : Territories) :
  reachable env -> allocated env ->
  life agent_fit env /\ alive_listed env.
Proof.
  induction 1 as [env env' retries Hwf Hrun
                 |env acts Hr IH
                 |env env' retries Hr IH Hrun]; intros Ha.
  - destruct (c_reset_life retries env env' Hwf Hrun) as [S L].
    apply L. eapply allocated_shape; [symmetry; exact S|exact Ha].
  - destruct (IH Ha) as [L Hl]. split.
    + eapply life_vit; [|exact L]. reflexivity.
    + exact Hl.
  - destruct (c_step_life retries env env' (reachable_engine_inv env Hr) Hrun)
      as [S L].
    apply L. apply IH. eapply allocated_shape; [symmetry; exact S|exact Ha].
Qed.

(** ** What the agents cannot change: configuration, clock, actions *)

Lemma era_count_stat (env : Territories) (f : Stats -> Stats) :
  era (count_stat env f) = era env.
Proof.
  unfold count_stat; destruct (tick env <? min_ep_length env); reflexivity.
Qed.

Lemma era_rand (env : Territories) : era (snd (rand env)) = era env.
Proof. unfold rand; destruct (rand_state env); reflexivity. Qed.

Lemma era_place_wall (env : Territories) (r c : Z) :
  era (place_wall env r c) = era env.
Proof.
  rewrite place_wall_unfold. destruct (tile env r c WALL_HP >? 0); reflexivity.
Qed.

Lemma era_destroy_wall (env : Territories) (r c : Z) :
  era (destroy_wall env r c) = era env.
Proof.
  unfold destroy_wall. destruct (tile env r c WALL_HP =? 0); [reflexivity|].
  match goal with
  | |- context [if ?b then _ else _] => destruct b
  end; reflexivity.
Qed.

Ltac era_walk :=
  repeat match goal with
         | |- era ?e = era ?e => reflexivity
         | |- era (if ?b then _ else _) = _ => destruct b
         | |- era (count_stat ?e ?f) = _ => rewrite (era_count_stat e f)
         | |- era (place_wall ?e ?r ?c) = _ => rewrite (era_place_wall e r c)
         | |- era (destroy_wall ?e ?r ?c) = _ =>
             rewrite (era_destroy_wall e r c)
         | |- era (upd_agent ?e ?p ?f) = _ =>
             change (era (upd_agent e p f)) with (era e)
         | |- era (set_tile ?e ?r ?c ?k ?v) = _ =>
             change (era (set_tile e r c k v)) with (era e)
         | |- era (set_pid_at ?e ?r ?c ?v) = _ =>
             change (era (set_pid_at e r c v)) with (era e)
         end.

Lemma era_pre_action (pid : Z) (env : Territories) :
  era (pre_action pid env) = era env.
Proof. unfold pre_action. era_walk. Qed.

Lemma era_step_move (pid action : Z) (env : Territories) :
  era (step_move pid action env) = era env.
Proof. unfold step_move. era_walk. Qed.

Lemma era_step_pickup (day pid : Z) (env : Territories) :
  era (step_pickup day pid env) = era env.
Proof. unfold step_pickup. era_walk. Qed.

Lemma era_step_package (day pid : Z) (env : Territories) :
  era (step_package day pid env) = era env.
Proof. unfold step_package. era_walk. Qed.

Lemma era_step_build_wall (pid : Z) (env : Territories) :
  era (step_build_wall pid env) = era env.
Proof. unfold step_build_wall. era_walk. Qed.

Lemma era_agent_mine (pid : Z) (env : Territories) :
  era (agent_mine pid env) = era env.
Proof.
  unfold agent_mine.
  destruct (Agent.stone_carried (ag env pid) >=? MAX_STONE_CARRYING_CAPACITY);
    [reflexivity|].
  destruct (mine_scan pid env) as [[[d tr] tc]|]; [|reflexivity]. era_walk.
Qed.

Lemma era_agent_attack (pid : Z) (env : Territories) :
  era (agent_attack pid env) = era env.
Proof.
  unfold agent_attack.
  destruct (attack_scan pid env) as [[[[d tr] tc] [|]]|]; [| |reflexivity];
    era_walk.
Qed.

Lemma era_kinship_matrix_update (env : Territories) (pid : Z) :
  era (kinship_matrix_update env pid) = era env.
Proof.
  unfold kinship_matrix_update.
  apply (for_range_preserves (fun e => era e = era env)); [reflexivity|].
  intros q e _ He.
  match goal with
  | |- context [if ?b then _ else _] => destruct b
  end; [exact He|].
  rewrite <- He. reflexivity.
Qed.

Lemma era_spawn_agent (env : Territories) (r c : Z) :
  era (fst (spawn_agent env r c)) = era env.
Proof.
  unfold spawn_agent.
  destruct (alive_count (agent_manager env) >=? max_agents env);
    [reflexivity|].
  destruct (free_count (agent_manager env) >? 0);
    unfold rand; fld_goal; destruct (rand_state env); reflexivity.
Qed.

Lemma era_kill_agent (env : Territories) (pid : Z) :
  era (kill_agent env pid) = era env.
Proof.
  unfold kill_agent.
  destruct (negb (getb (alive_mask (agent_manager env)) pid)); reflexivity.
Qed.

Lemma era_agent_reproduce (pid : Z) (env : Territories) :
  era (agent_reproduce pid env) = era env.
Proof.
  unfold agent_reproduce.
  destruct (negb (_agent_can_reproduce (ag env pid))
            || (alive_count (agent_manager env) >=? max_agents env));
    [reflexivity|].
  destruct (_find_mate (ag env pid) env =? -1); [reflexivity|].
  set (mate_pid := _find_mate (ag env pid) env).
  set (env2 := upd_agent (upd_agent env pid _) mate_pid _).
  set (new_r := Z.quot _ (width env2)). set (new_c := Z.rem _ (width env2)).
  pose proof (era_spawn_agent env2 new_r new_c) as E3.
  destruct (spawn_agent env2 new_r new_c) as [env3 child_pid].
  cbn [fst] in E3.
  set (env4 := set_pid_at env3 new_r new_c child_pid).
  set (env5 := for_range 0 (n_genes env4) _ env4).
  assert (E5 : era env5 = era env3).
  { subst env5.
    apply (for_range_preserves (fun e => era e = era env3)); [reflexivity|].
    intros j e _ He. pose proof (era_rand e) as Hr.
    destruct (rand e) as [x e1]. cbn [snd] in Hr.
    rewrite <- He, <- Hr. reflexivity. }
  pose proof (era_rand env5) as E6.
  destruct (rand env5) as [x env6]. cbn [snd] in E6.
  rewrite era_count_stat, era_kinship_matrix_update.
  change (era (upd_agent env6 child_pid _)) with (era env6).
  rewrite E6, E5, E3. reflexivity.
Qed.

Lemma era_do_action (day pid action : Z) (env : Territories) :
  era (do_action day pid action env) = era env.
Proof.
  unfold do_action.
  repeat match goal with
         | |- era (if ?b then _ else _) = _ => destruct b
         end;
    auto using era_step_move, era_step_pickup, era_agent_mine,
      era_step_package, era_step_build_wall, era_agent_attack,
      era_agent_reproduce.
Qed.

Lemma era_actions (e e' : Territories) :
  era e' = era e -> actions e' = actions e.
Proof. intros H. exact (f_equal snd H). Qed.

Lemma era_agent_turn (day i : Z) (env : Territories) :
  era (agent_turn day i env) = era env.
Proof.
  unfold agent_turn.
  destruct (Agent.hp (ag env (geti (alive_pids (agent_manager env)) i)) <=? 0);
    [reflexivity|].
  match goal with
  | |- era (if ?b then _ else _) = _ => destruct b
  end; rewrite ?era_count_stat, era_do_action; apply era_pre_action.
Qed.

Lemma era_action_pass (day : Z) (env : Territories) :
  era (action_pass day env) = era env.
Proof.
  unfold action_pass.
  apply (for_range_preserves (fun e => era e = era env)); [reflexivity|].
  intros i e _ He. rewrite era_agent_turn. exact He.
Qed.

Lemma era_death_sweep (env : Territories) :
  era (death_sweep env) = era env.
Proof.
  unfold death_sweep.
  apply (for_range_preserves (fun e => era e = era env)); [reflexivity|].
  intros i e _ He. unfold sweep_turn.
  match goal with
  | |- era (if ?b then _ else _) = _ => destruct b
  end; [|exact He].
  rewrite <- He, <- (era_kill_agent e (geti (alive_pids (agent_manager e)) i)).
  reflexivity.
Qed.

Lemma era_shuffle_rounds (k : nat) (i : Z) (env : Territories) :
  era (shuffle_rounds k i env) = era env.
Proof.
  revert i env. induction k as [|k IH]; intros i env; [reflexivity|].
  cbn [shuffle_rounds].
  pose proof (era_rand env) as Hr.
  destruct (rand env) as [x env1]. cbn [snd] in Hr.
  rewrite IH. rewrite <- Hr. reflexivity.
Qed.

Lemma era_of_body (e e' : Territories) : body e' = body e -> era e' = era e.
Proof.
  unfold body. intros H.
  injection H as H1 H2 H3 H4 H5 H6 H7 H8 H9 H10 H11 H12 H13 H14 H15 H16 H17
    H18 H19 H20 H21 H22 H23 H24.
  unfold era, clock, conf. congruence.
Qed.

Lemma era_start_crop_growth (env : Territories) :
  era (start_crop_growth env) = era env.
Proof.
  unfold start_crop_growth.
  apply (for_range_preserves (fun e => era e = era env)); [reflexivity|].
  intros r e _ He.
  apply (for_range_preserves (fun e => era e = era env)); [exact He|].
  intros c e' _ He'. destruct (soil_at e' r c); [|exact He'].
  rewrite <- He'. reflexivity.
Qed.

Lemma era_fields (e e' : Territories) :
  era e' = era e ->
  tick e' = tick e /\ is_winter e' = is_winter e
  /\ next_max_ep_length e' = next_max_ep_length e
  /\ conf e' = conf e /\ actions e' = actions e.
Proof.
  intros H. split; [|split; [|split; [|split]]].
  - exact (f_equal (fun t => fst (fst (fst (fst t)))) H).
  - exact (f_equal (fun t => snd (fst (fst (fst t)))) H).
  - exact (f_equal (fun t => snd (fst (fst t))) H).
  - exact (f_equal (fun t => snd (fst t)) H).
  - exact (f_equal snd H).
Qed.

Lemma season_update_clock (day : Z) (env : Territories) :
  tick (season_update day env) = tick env
  /\ is_winter (season_update day env)
     = (if negb (is_winter env) && (day >=? SUMMER_DURATION) then true
        else if is_winter env && (day <? SUMMER_DURATION) then false
        else is_winter env)
  /\ next_max_ep_length (season_update day env) = next_max_ep_length env
  /\ conf (season_update day env) = conf env
  /\ actions (season_update day env) = actions env.
Proof.
  unfold season_update.
  destruct (negb (is_winter env) && (day >=? SUMMER_DURATION));
    [repeat split; reflexivity|].
  destruct (is_winter env && (day <? SUMMER_DURATION));
    [|repeat split; reflexivity].
  destruct (era_fields _ _
              (era_start_crop_growth (set_is_winter env false)))
    as (H1 & H2 & H3 & H4 & H5).
  rewrite H1, H2, H3, H4, H5. repeat split; reflexivity.
Qed.

Lemma era_update_alive_pids (env : Territories) :
  era (update_alive_pids env) = era env.
Proof. reflexivity. Qed.

Lemma era_set_truncations (env : Territories) (v : list Z) :
  era (set_truncations env v) = era env.
Proof. reflexivity. Qed.

Lemma era_population_stats (env : Territories) :
  era (population_stats env) = era env.
Proof. unfold population_stats. rewrite !era_count_stat. reflexivity. Qed.

Lemma era_shuffle (env : Territories) (n : Z) :
  era (shuffle env n) = era env.
Proof. apply era_shuffle_rounds. Qed.

Lemma tick_body_era (env : Territories) :
  era (tick_body env)
  = era (set_tick (season_update (day_number env) env)
           (tick (season_update (day_number env) env) + 1)).
Proof.
  unfold tick_body. cbv zeta.
  match goal with
  | |- era (if ?b then _ else _) = _ => destruct b
  end;
    rewrite ?era_set_truncations, era_update_alive_pids, era_death_sweep,
      era_update_alive_pids, era_action_pass, era_shuffle,
      era_population_stats;
    reflexivity.
Qed.

Lemma tick_body_clock (env : Territories) :
  tick (tick_body env) = tick env + 1
  /\ is_winter (tick_body env) = (day_number env >=? SUMMER_DURATION)
  /\ next_max_ep_length (tick_body env) = next_max_ep_length env
  /\ conf (tick_body env) = conf env
  /\ actions (tick_body env) = actions env.
Proof.
  destruct (era_fields _ _ (tick_body_era env)) as (H1 & H2 & H3 & H4 & H5).
  rewrite H1, H2, H3, H4, H5. clear H1 H2 H3 H4 H5.
  set (day := day_number env).
  destruct (season_update_clock day env) as (T1 & W1 & X1 & C1 & A1).
  generalize dependent (season_update day env). intros env1 T1 W1 X1 C1 A1.
  change (tick (set_tick env1 (tick env1 + 1))) with (tick env1 + 1).
  change (is_winter (set_tick env1 (tick env1 + 1))) with (is_winter env1).
  change (next_max_ep_length (set_tick env1 (tick env1 + 1)))
    with (next_max_ep_length env1).
  change (conf (set_tick env1 (tick env1 + 1))) with (conf env1).
  change (actions (set_tick env1 (tick env1 + 1))) with (actions env1).
  rewrite T1, W1, X1, C1, A1.
  split; [reflexivity|]. split; [|repeat split; reflexivity].
  destruct (is_winter env), (Z.geb_spec day SUMMER_DURATION),
    (Z.ltb_spec day SUMMER_DURATION); cbn [negb andb]; reflexivity || lia.
Qed.

(** X24. A step that does not reset.  When some agent is alive and the
    tick is below the length of the episode, [c_step] returns: the tick
    has advanced by one, the winter flag says whether the day number read
    before the tick is 100 or more, and the length of the episode, the
    configuration and the actions the host wrote are as before. *)
Theorem c_step_advances_clock (retries : nat) (env : Territories) :
  alive_count (agent_manager env) <> 0 ->
  tick env < next_max_ep_length env ->
  exists env',
    c_step retries env = Some env'
    /\ tick env' = tick env + 1
    /\ is_winter env' = (day_number env >=? SUMMER_DURATION)
    /\ next_max_ep_length env' = next_max_ep_length env
    /\ conf env' = conf env
    /\ actions env' = actions env.
Proof.
  intros Halive Htick. unfold c_step.
  set (env0 := set_terminals env _).
  change (alive_count (agent_manager env0))
    with (alive_count (agent_manager env)).
  change (tick env0) with (tick env).
  change (next_max_ep_length env0) with (next_max_ep_length env).
  destruct (Z.eqb_spec (alive_count (agent_manager env)) 0); [contradiction|].
  destruct (Z.geb_spec (tick env) (next_max_ep_length env)); [lia|].
  cbn [orb]. eexists. split; [reflexivity|].
  destruct (era_fields _ _
              (era_of_body _ _ (body_compute_rewards (tick_body env0))))
    as (H1 & H2 & H3 & H4 & H5).
  rewrite H1, H2, H3, H4, H5.
  exact (tick_body_clock env0).
Qed.

(** X23. [compute_rewards] writes rewards, family sizes and statistics
    and nothing else: the agents, the slot manager, the grid, the tiles,
    the kinship matrix, the genes, the flags, the clock, the configuration
    and the random stream are as before. *)
Theorem compute_rewards_touches_only_rewards (env : Territories) :
  body (compute_rewards env) = body env.
Proof. exact (body_compute_rewards env). Qed.

(** *** Reset *)

Lemma era_kinship_matrix_reset (env : Territories) :
  era (kinship_matrix_reset env) = era env.
Proof.
  unfold kinship_matrix_reset.
  apply (for_range_preserves (fun e => era e = era env)); [reflexivity|].
  intros i e _ He. rewrite <- He. reflexivity.
Qed.

Lemma conf_fields (e e' : Territories) :
  conf e' = conf e ->
  is_soil e' = is_soil e /\ n_genes e' = n_genes e
  /\ width e' = width e /\ height e' = height e
  /\ max_agents e' = max_agents e
  /\ min_ep_length e' = min_ep_length e
  /\ max_ep_length e' = max_ep_length e.
Proof.
  unfold conf. intros H.
  injection H as H1 H2 H3 H4 H5 H6 H7 H8 H9 H10 H11.
  repeat split; assumption.
Qed.

Lemma reset_world_clock (env : Territories) :
  tick (reset_world env) = 0
  /\ is_winter (reset_world env) = false
  /\ next_max_ep_length (reset_world env)
     = min_ep_length env
       + Z.rem (fst (rand env)) (max_ep_length env - min_ep_length env)
  /\ conf (reset_world env) = conf env
  /\ actions (reset_world env) = actions env.
Proof.
  unfold reset_world.
  set (env3 := set_is_winter _ false).
  assert (Ex : fst (rand env3) = fst (rand env)
               /\ era (snd (rand env3)) = era env3).
  { split; [|apply era_rand].
    unfold rand. change (rand_state env3) with (rand_state env).
    destruct (rand_state env); reflexivity. }
  destruct (rand env3) as [x env4]. cbn [fst snd] in Ex.
  destruct Ex as [-> E4].
  set (env5 := set_next_max_ep_length env4 _).
  set (cells := width env5 * height env5).
  set (env6 := set_pids_2d env5 _).
  set (env7 := if alive_count (agent_manager env6) >? 0 then _ else env6).
  assert (E7 : era env7 = era env5).
  { subst env7. destruct (alive_count (agent_manager env6) >? 0);
      [|reflexivity].
    rewrite era_update_alive_pids.
    apply (for_range_preserves (fun e => era e = era env5)); [reflexivity|].
    intros i e _ He. rewrite era_kill_agent. exact He. }
  set (env8 := set_tile_props env7 _).
  set (env9 := for_range 0 2 _ env8).
  assert (E9 : era env9 = era env5).
  { subst env9.
    apply (for_range_preserves (fun e => era e = era env5)); [exact E7|].
    intros ri e _ He.
    apply (for_range_preserves (fun e => era e = era env5)); [exact He|].
    intros ci e' _ He'. rewrite <- He'. reflexivity. }
  set (env10 := set_tile env9 _ _ STONE STONE_PER_MINE).
  set (env11 := for_range 0 cells _ env10).
  assert (E11 : era env11 = era env5).
  { subst env11.
    apply (for_range_preserves (fun e => era e = era env5)); [exact E9|].
    intros i e _ He. rewrite <- He. reflexivity. }
  assert (E12 : era (agent_manager_reset (kinship_matrix_reset env11))
                = era env5).
  { transitivity (era (kinship_matrix_reset env11)); [reflexivity|].
    rewrite era_kinship_matrix_reset. exact E11. }
  clearbody env11.
  destruct (era_fields _ _ E12) as (H1 & H2 & H3 & H4 & H5).
  rewrite H1, H2, H3, H4, H5.
  destruct (era_fields _ _ E4) as (G1 & G2 & G3 & G4 & G5).
  change (conf env3) with (conf env) in G4.
  change (actions env3) with (actions env) in G5.
  change (tick env3) with 0 in G1.
  change (is_winter env3) with false in G2.
  destruct (conf_fields _ _ G4) as (_ & _ & _ & _ & _ & Fmin & Fmax).
  subst env5.
  change (tick (set_next_max_ep_length env4 _)) with (tick env4).
  change (is_winter (set_next_max_ep_length env4 _)) with (is_winter env4).
  change (conf (set_next_max_ep_length env4 _)) with (conf env4).
  change (actions (set_next_max_ep_length env4 _)) with (actions env4).
  fld_goal. rewrite Fmin, Fmax.
  repeat split; assumption.
Qed.

Lemma era_spawn_pair (retries : nat) (env env' : Territories) :
  spawn_pair retries env = Some env' -> era env' = era env.
Proof.
  revert env env'; induction retries as [|k IH]; intros env env' Hrun;
    [discriminate|].
  cbn [spawn_pair] in Hrun.
  pose proof (era_rand env) as E1.
  destruct (rand env) as [x env1]. cbn [snd] in E1.
  set (r := Z.quot _ (width env1)) in Hrun.
  set (c := Z.rem _ (width env1)) in Hrun.
  destruct (tile_is_blocked env1 r c);
    [rewrite <- E1; apply IH; exact Hrun|].
  destruct (find_empty_cell r c env1 =? -1);
    [rewrite <- E1; apply IH; exact Hrun|].
  set (r_2 := Z.quot _ (width env1)) in Hrun.
  set (c_2 := Z.rem _ (width env1)) in Hrun.
  pose proof (era_spawn_agent env1 r c) as E2.
  destruct (spawn_agent env1 r c) as [env2 pid]. cbn [fst] in E2.
  set (env3 := set_pid_at env2 r c pid) in Hrun.
  pose proof (era_spawn_agent env3 r_2 c_2) as E4.
  destruct (spawn_agent env3 r_2 c_2) as [env4 pid2]. cbn [fst] in E4.
  set (env5 := set_pid_at env4 r_2 c_2 pid2) in Hrun.
  set (env6 := for_range 0 (n_genes env5) _ env5) in Hrun.
  assert (E6 : era env6 = era env4).
  { subst env6.
    apply (for_range_preserves (fun e => era e = era env4)); [reflexivity|].
    intros j e _ He. pose proof (era_rand e) as Hr.
    destruct (rand e) as [y e1]. cbn [snd] in Hr.
    rewrite <- He, <- Hr. reflexivity. }
  injection Hrun as <-.
  rewrite !era_kinship_matrix_update.
  change (era (upd_agent (upd_agent env6 pid _) pid2 _)) with (era env6).
  rewrite E6, E4. change (era env3) with (era env2). rewrite E2. exact E1.
Qed.

(** X25. A reset of a configured environment whose minimal episode
    length is below the maximal one.  When [c_reset] returns, the tick is
    0, it is summer, exactly 8 agents are alive, the length drawn for the
    episode lies between the minimal length and the maximal one, the
    latter excluded, and the configuration and the actions are those of
    before. *)
Theorem c_reset_starts_an_episode (retries : nat) (env env' : Territories) :
  well_configured env ->
  min_ep_length env < max_ep_length env ->
  c_reset retries env = Some env' ->
  tick env' = 0
  /\ is_winter env' = false
  /\ alive_count (agent_manager env') = 8
  /\ min_ep_length env <= next_max_ep_length env' < max_ep_length env
  /\ conf env' = conf env
  /\ actions env' = actions env.
Proof.
  intros Hwf Hlen Hrun. unfold c_reset in Hrun.
  destruct (reset_world_inv env Hwf) as [H0 A0].
  assert (HN : 8 <= max_agents (reset_world env)) by (apply H0).
  destruct (reset_world_clock env) as (T0 & W0 & X0 & C0 & B0).
  destruct (spawn_pair retries (reset_world env)) as [e1|] eqn:E1;
    [|discriminate].
  destruct (spawn_pair_inv _ _ _ H0 ltac:(lia) E1) as (H1 & A1 & N1).
  pose proof (era_spawn_pair _ _ _ E1) as R1.
  cbn [bind_env] in Hrun.
  destruct (spawn_pair retries e1) as [e2|] eqn:E2; [|discriminate].
  destruct (spawn_pair_inv _ _ _ H1 ltac:(lia) E2) as (H2 & A2 & N2).
  pose proof (era_spawn_pair _ _ _ E2) as R2.
  cbn [bind_env] in Hrun.
  destruct (spawn_pair retries e2) as [e3|] eqn:E3; [|discriminate].
  destruct (spawn_pair_inv _ _ _ H2 ltac:(lia) E3) as (H3 & A3 & N3).
  pose proof (era_spawn_pair _ _ _ E3) as R3.
  cbn [bind_env] in Hrun.
  destruct (spawn_pair retries e3) as [e4|] eqn:E4; [|discriminate].
  destruct (spawn_pair_inv _ _ _ H3 ltac:(lia) E4) as (H4 & A4 & N4).
  pose proof (era_spawn_pair _ _ _ E4) as R4.
  cbn [bind_env] in Hrun.
  injection Hrun as <-.
  pose proof (body_compute_rewards (update_alive_pids e4)) as Hb.
  destruct (body_fields _ _ Hb) as (_ & Bam & _).
  pose proof (era_of_body _ _ Hb) as Rb.
  rewrite era_update_alive_pids, R4, R3, R2, R1 in Rb.
  destruct (era_fields _ _ Rb) as (G1 & G2 & G3 & G4 & G5).
  rewrite G1, G2, G3, G4, G5, Bam, T0, W0, X0, C0, B0.
  split; [reflexivity|]. split; [reflexivity|]. split.
  - change (alive_count (agent_manager (update_alive_pids e4)))
      with (alive_count (agent_manager e4)). lia.
  - split; [|split; reflexivity].
    pose proof (rand_range env) as Hx.
    pose proof (Z.rem_bound_pos (fst (rand env))
                  (max_ep_length env - min_ep_length env)
                  ltac:(lia) ltac:(lia)).
    lia.
Qed.

(** *** The states of a run *)

Lemma bitset_contains_bit (bs : BitSet) (x : Z) :
  bitset_contains bs x = if bitset_mem bs x then 1 else 0.
Proof.
  unfold bitset_mem.
  assert (H : bitset_contains bs x = 0 \/ bitset_contains bs x = 1).
  { unfold bitset_contains.
    destruct ((x <? 0) || (x >=? max_num bs)); [left; reflexivity|].
    rewrite land_shiftr_1 by (apply Z.land_nonneg; right; lia).
    destruct (Z.testbit _ _); [right|left]; reflexivity. }
  destruct H as [-> | ->]; reflexivity.
Qed.

(** X20. In every state of a run whose buffers have the sizes [init]
    gives them, the alive bitset and the alive mask describe the same
    set of slots: [bitset_contains] is 1 on the slots whose flag is
    raised and 0 on every other value. *)
Theorem reachable_bitset_matches_mask (env : Territories) (p : Z) :
  reachable env -> allocated env ->
  bitset_contains (alive_bitset (agent_manager env)) p
  = if getb (alive_mask (agent_manager env)) p then 1 else 0.
Proof.
  intros Hr Ha. destruct (reachable_life env Hr Ha) as ((_ & (_ & Hm) & _) & _).
  rewrite bitset_contains_bit, Hm. reflexivity.
Qed.

(** X21. In every such state the first [alive_count] entries of the alive
    list are the slots whose alive flag is raised, each once, in
    ascending order. *)
Theorem reachable_alive_list_sorted (env : Territories) :
  reachable env -> allocated env ->
  let am := agent_manager env in
  let listed := firstn (Z.to_nat (alive_count am)) (alive_pids am) in
  listed = alive_slots env
  /\ Z.of_nat (length listed) = alive_count am
  /\ (forall p, In p listed <-> getb (alive_mask am) p = true)
  /\ Sorted.StronglySorted Z.lt listed.
Proof.
  intros Hr Ha. destruct (reachable_life env Hr Ha) as (_ & Hl).
  destruct (reachable_engine_inv env Hr) as ((_ & _ & _ & Hlm & _) & Ham & _).
  destruct Ham as (_ & _ & _ & Hcount & _).
  cbv zeta. unfold alive_listed in Hl. rewrite Hl.
  split; [reflexivity|]. split; [|split].
  - rewrite alive_slots_length by exact Hlm. symmetry. exact Hcount.
  - intros p. unfold alive_slots. rewrite filter_In, In_zrange.
    split; [tauto|]. intros Hp. split; [|exact Hp].
    pose proof (getb_true_in_range _ _ Hp). lia.
  - unfold alive_slots. apply filter_sorted, zrange_sorted.
Qed.

(** X22. In every such state an alive agent has between 1 and [hp_max]
    health points with [hp_max] at most 3, a satiation between 1 and
    100, at most 10 stones, and an age that is not negative. *)
Theorem reachable_alive_agents_within_bounds (env : Territories) (p : Z) :
  reachable env -> allocated env ->
  getb (alive_mask (agent_manager env)) p = true ->
  let a := ag env p in
  0 < Agent.hp a <= Agent.hp_max a
  /\ Agent.hp_max a <= MAX_HP
  /\ 0 < Agent.satiation a <= MAX_SATIATION
  /\ Agent.max_satiation a = MAX_SATIATION
  /\ Agent.stone_carried a <= MAX_STONE_CARRYING_CAPACITY
  /\ 0 <= Agent.age a.
Proof.
  intros Hr Ha Hp.
  destruct (reachable_life env Hr Ha) as ((_ & _ & Hs) & _).
  destruct (Hs p Hp) as ((H1 & H2 & H3 & H4 & H5 & H6) & (H7 & H8)).
  cbv zeta. rewrite H4 in H3. repeat split; assumption.
Qed.

(** X26. [kill_agent] on an alive slot of an engine state: the flag of
    the slot is lowered and no other, one agent less is counted, the slot
    is the next one [spawn_agent] hands out, and neither the record of
    the agent nor any field of the world changes; the invariants of the
    slot manager still hold. *)
Theorem kill_agent_frees_the_slot (env : Territories) (pid : Z) :
  engine_inv env ->
  getb (alive_mask (agent_manager env)) pid = true ->
  let env' := kill_agent env pid in
  engine_inv env'
  /\ (forall q, getb (alive_mask (agent_manager env')) q
                = if q =? pid then false
                  else getb (alive_mask (agent_manager env)) q)
  /\ alive_count (agent_manager env') = alive_count (agent_manager env) - 1
  /\ free_count (agent_manager env') = free_count (agent_manager env) + 1
  /\ geti (free_pids (agent_manager env')) (free_count (agent_manager env))
     = pid
  /\ agents env' = agents env
  /\ world env' = world env.
Proof.
  intros Hinv Hlive env'.
  pose proof Hinv as ((HN & _ & _ & Hlm & Hlf & _) & Ham & _).
  destruct Ham as (Hfc & Hnext & HnN & Hcount & _).
  pose proof (getb_true_in_range _ _ Hlive) as Hin.
  pose proof (count_true_pos _ _ Hlive) as Hpos.
  destruct (kill_agent_fields env pid Hlive)
    as (_ & _ & _ & Hac & Hfp & Hfc' & _ & Hag & Hworld & _).
  fold env' in Hac, Hfp, Hfc', Hag, Hworld.
  split; [apply kill_agent_inv; exact Hinv|].
  split; [intros q; apply kill_agent_mask|].
  split; [rewrite Hac; apply u16_small; lia|].
  split; [rewrite Hfc'; apply u16_small; lia|].
  split; [|split; assumption].
  rewrite Hfp, geti_zset_eq by lia. apply u16_small. lia.
Qed.

(** *** Only REPRODUCE touches the slot manager *)

Lemma am_count_stat (env : Territories) (f : Stats -> Stats) :
  agent_manager (count_stat env f) = agent_manager env.
Proof. apply agent_manager_count_stat. Qed.

Lemma am_place_wall (env : Territories) (r c : Z) :
  agent_manager (place_wall env r c) = agent_manager env.
Proof.
  rewrite place_wall_unfold. destruct (tile env r c WALL_HP >? 0); reflexivity.
Qed.

Lemma am_destroy_wall (env : Territories) (r c : Z) :
  agent_manager (destroy_wall env r c) = agent_manager env.
Proof.
  unfold destroy_wall. destruct (tile env r c WALL_HP =? 0); [reflexivity|].
  match goal with
  | |- context [if ?b then _ else _] => destruct b
  end; reflexivity.
Qed.

Ltac am_walk :=
  repeat match goal with
         | |- agent_manager ?e = agent_manager ?e => reflexivity
         | |- agent_manager (if ?b then _ else _) = _ => destruct b
         | |- agent_manager (count_stat ?e ?f) = _ =>
             rewrite (am_count_stat e f)
         | |- agent_manager (place_wall ?e ?r ?c) = _ =>
             rewrite (am_place_wall e r c)
         | |- agent_manager (destroy_wall ?e ?r ?c) = _ =>
             rewrite (am_destroy_wall e r c)
         | |- agent_manager (upd_agent ?e ?p ?f) = _ =>
             change (agent_manager (upd_agent e p f)) with (agent_manager e)
         | |- agent_manager (set_tile ?e ?r ?c ?k ?v) = _ =>
             change (agent_manager (set_tile e r c k v))
               with (agent_manager e)
         | |- agent_manager (set_pid_at ?e ?r ?c ?v) = _ =>
             change (agent_manager (set_pid_at e r c v))
               with (agent_manager e)
         end.

(** X27. An agent's turn leaves the slot manager alone unless its action
    is REPRODUCE: ageing and eating, moving, picking up, mining,
    packaging, building and attacking raise no alive flag and lower none.
    In particular an attack that takes the health of its target to 0 does
    not lower the flag of the target. *)
Theorem only_reproduce_changes_the_manager (day pid action : Z)
  (env : Territories) :
  action <> REPRODUCE ->
  agent_manager (do_action day pid action env) = agent_manager env
  /\ agent_manager (pre_action pid env) = agent_manager env.
Proof.
  intros Hact. split.
  - unfold do_action.
    destruct ((action >=? MOVE_UP) && (action <=? MOVE_LEFT)).
    { unfold step_move. am_walk. }
    destruct (action =? PICKUP). { unfold step_pickup. am_walk. }
    destruct (action =? MINE).
    { unfold agent_mine.
      destruct (Agent.stone_carried (ag env pid)
                >=? MAX_STONE_CARRYING_CAPACITY); [reflexivity|].
      destruct (mine_scan pid env) as [[[d tr] tc]|]; [|reflexivity].
      am_walk. }
    destruct (action =? PACKAGE_FOOD). { unfold step_package. am_walk. }
    destruct (action =? BUILD_WALL). { unfold step_build_wall. am_walk. }
    destruct (action =? ATTACK).
    { unfold agent_attack.
      destruct (attack_scan pid env) as [[[[d tr] tc] [|]]|];
        [| |reflexivity]; am_walk. }
    destruct (Z.eqb_spec action REPRODUCE); [contradiction|reflexivity].
  - unfold pre_action. am_walk.
Qed.

(** *** The end of winter *)

Lemma cell_index_bound (W H r c : Z) :
  0 <= r < H -> 0 <= c < W -> 0 <= r * W + c < W * H.
Proof.
  intros Hr Hc.
  assert (0 <= r * W) by (apply Z.mul_nonneg_nonneg; lia).
  assert ((r + 1) * W <= H * W) by (apply Z.mul_le_mono_nonneg_r; lia).
  lia.
Qed.

(** X28. [start_crop_growth] on a map whose tile buffer has the size
    [init] gives it: the harvest day of every soil cell becomes 0; the
    harvest day of the other cells and the stored food, the stone and the
    wall of every cell are kept.  The agents, the alive flags, the grid,
    the clock, the configuration and the actions are as before. *)
Theorem start_crop_growth_restarts_soil (env : Territories) :
  0 <= width env -> 0 <= height env ->
  Z.of_nat (length (tile_props env)) = width env * height env * 4 ->
  let env' := start_crop_growth env in
  (forall r c k, 0 <= r < height env -> 0 <= c < width env -> 0 <= k < 4 ->
     tile env' r c k
     = if (k =? LAST_HARVEST) && soil_at env r c then 0 else tile env r c k)
  /\ era env' = era env
  /\ vit env' = vit env
  /\ pids_2d env' = pids_2d env.
Proof.
  intros HW HH Hlen env'.
  set (W := width env) in *. set (H := height env) in *.
  set (done := fun (r c r' c' : Z) =>
                 (r' <? r) || ((r' =? r) && (c' <? c))).
  set (P := fun (r c : Z) (e : Territories) =>
    width e = W /\ is_soil e = is_soil env
    /\ length (tile_props e) = length (tile_props env)
    /\ pids_2d e = pids_2d env
    /\ forall r' c' k, 0 <= r' < H -> 0 <= c' < W -> 0 <= k < 4 ->
         tile e r' c' k
         = if (k =? LAST_HARVEST) && soil_at env r' c' && done r c r' c'
           then 0 else tile env r' c' k).
  assert (Hloop : P H 0 env').
  { subst env'. unfold start_crop_growth. fold H.
    apply (for_range_ind (fun r e => P r 0 e)).
    - exact HH.
    - unfold P. repeat split; try reflexivity.
      intros r' c' k Hr' Hc' Hk. unfold done.
      destruct (Z.ltb_spec r' 0); [lia|].
      destruct (Z.eqb_spec r' 0) as [->|]; cbn [orb andb];
        [destruct (Z.ltb_spec c' 0); [lia|]|];
        rewrite andb_false_r; reflexivity.
    - intros r e Hr (Hw & Hs & Hl & Hp & Ht). rewrite Hw.
      assert (Hrow : P r W
                (for_range 0 W
                   (fun c e' => if soil_at e' r c
                                then set_tile e' r c LAST_HARVEST 0 else e')
                   e)).
      { apply (for_range_ind (fun c e' => P r c e')).
        - exact HW.
        - unfold P. repeat split; assumption.
        - intros c e' Hc (Hw' & Hs' & Hl' & Hp' & Ht').
          assert (Esoil : soil_at e' r c = soil_at env r c)
            by (unfold soil_at; rewrite Hw', Hs'; reflexivity).
          rewrite Esoil.
          destruct (soil_at env r c) eqn:Es.
          + unfold P. fld_goal.
            split; [exact Hw'|]. split; [exact Hs'|].
            split; [rewrite zset_length; exact Hl'|].
            split; [exact Hp'|].
            intros r' c' k Hr' Hc' Hk.
            pose proof (cell_index_bound W H r c Hr Hc) as Hb.
            rewrite tile_set_tile_cases
              by (unfold tile_adr, LAST_HARVEST; rewrite Hw'; lia).
            unfold tile_adr. rewrite Hw'. rewrite Ht' by assumption.
            unfold done, LAST_HARVEST.
            destruct (Z.eqb_spec ((r * W + c) * 4 + 0) ((r' * W + c') * 4 + k))
              as [E|E].
            * assert (k = 0) by lia. subst k.
              assert (r = r' /\ c = c') as [<- <-]
                by (apply (cell_index_inj W); lia).
              rewrite Es. zbool. reflexivity.
            * destruct (Z.eq_dec r' r) as [->|Hne];
                [destruct (Z.eq_dec c' c) as [->|Hnc]|].
              -- assert (k <> 0) by lia.
                 destruct (Z.eqb_spec k 0); [contradiction|reflexivity].
              -- replace (c' <? c + 1) with (c' <? c)
                   by (destruct (Z.ltb_spec c' c), (Z.ltb_spec c' (c + 1));
                       reflexivity || lia).
                 reflexivity.
              -- zbool. reflexivity.
          + unfold P. split; [exact Hw'|]. split; [exact Hs'|].
            split; [exact Hl'|]. split; [exact Hp'|].
            intros r' c' k Hr' Hc' Hk. rewrite Ht' by assumption.
            unfold done.
            destruct (Z.eq_dec r' r) as [->|Hne];
              [destruct (Z.eq_dec c' c) as [->|Hnc]|].
            * rewrite Es, andb_false_r. cbn [andb]. reflexivity.
            * replace (c' <? c + 1) with (c' <? c)
                by (destruct (Z.ltb_spec c' c), (Z.ltb_spec c' (c + 1));
                    reflexivity || lia).
              reflexivity.
            * zbool. reflexivity. }
      destruct Hrow as (Hw2 & Hs2 & Hl2 & Hp2 & Ht2).
      unfold P. repeat split; try assumption.
      intros r' c' k Hr' Hc' Hk. rewrite Ht2 by assumption.
      unfold done. destruct (Z.eq_dec r' r) as [->|Hne].
      + zbool. reflexivity.
      + replace (r' <? r + 1) with (r' <? r)
          by (destruct (Z.ltb_spec r' r), (Z.ltb_spec r' (r + 1));
              reflexivity || lia).
        zbool. rewrite !andb_false_r. reflexivity. }
  destruct Hloop as (_ & _ & _ & Hp & Ht).
  split; [|split; [apply era_start_crop_growth
                  |split; [apply vit_start_crop_growth|exact Hp]]].
  intros r c k Hr Hc Hk. rewrite Ht by assumption.
  unfold done. destruct (Z.ltb_spec r H); [|lia].
  cbn [orb]. rewrite andb_true_r. reflexivity.
Qed.

(** *** The buffers of a run *)

(** X30. No reset and no step resizes a buffer: after a [c_reset] of a
    configured environment, and after a [c_step] of an engine state, the
    capacity, the sizes of the agent array, of the alive mask and of the
    alive list, and the shape of the alive bitset are those of before.
    So the buffers of a run that starts from [init] stay allocated. *)
Theorem run_keeps_buffer_sizes (retries : nat) (env env' : Territories) :
  (well_configured env /\ c_reset retries env = Some env')
  \/ (engine_inv env /\ c_step retries env = Some env') ->
  shape env' = shape env /\ (allocated env <-> allocated env').
Proof.
  intros H.
  assert (S : shape env' = shape env).
  { destruct H as [[Hwf Hrun]|[Hinv Hrun]].
    - exact (proj1 (c_reset_life retries env env' Hwf Hrun)).
    - exact (proj1 (c_step_life retries env env' Hinv Hrun)). }
  split; [exact S|]. split.
  - apply allocated_shape. exact S.
  - apply allocated_shape. symmetry. exact S.
Qed.

(** *** Bounds on the cells of a concrete buffer *)

Lemma geti_forallb (p : Z -> bool) (l : list Z) :
  p 0 = true -> forallb p l = true -> forall i, p (geti l i) = true.
Proof.
  intros H0 Hall i. unfold geti, zget.
  destruct (i <? 0); [exact H0|].
  generalize (Z.to_nat i) as n. clear i. revert Hall.
  induction l as [|x l IH]; intros Hall [|n]; cbn [nth]; try exact H0.
  - cbn [forallb] in Hall. apply andb_prop in Hall. exact (proj1 Hall).
  - cbn [forallb] in Hall. apply andb_prop in Hall. apply IH. exact (proj2 Hall).
Qed.

Lemma geti_below (b : Z) (l : list Z) :
  0 <= b -> forallb (fun x => x <=? b) l = true ->
  forall i, geti l i <= b.
Proof.
  intros Hb Hall i. apply Z.leb_le.
  apply (geti_forallb (fun x => x <=? b)); [apply Z.leb_le; exact Hb|exact Hall].
Qed.

Lemma geti_within (b : Z) (l : list Z) :
  0 < b -> forallb (fun x => (0 <=? x) && (x <? b)) l = true ->
  forall i, 0 <= geti l i < b.
Proof.
  intros Hb Hall i.
  pose proof (geti_forallb (fun x => (0 <=? x) && (x <? b)) l) as H.
  cbv beta in H. specialize (H (proj2 (Z.ltb_lt 0 b) Hb) Hall i).
  apply andb_prop in H. destruct H as [H1 H2].
  apply Z.leb_le in H1. apply Z.ltb_lt in H2. lia.
Qed.

(** ** The crop law *)

Section CropReal.

Local Open Scope R_scope.

(** *** The exponential series *)

Lemma exp_term_nonneg (x : R) (k : nat) : 0 <= x -> 0 <= exp_term x k.
Proof.
  intros Hx. unfold exp_term. apply Rmult_le_pos.
  - left. apply Rinv_0_lt_compat. apply INR_fact_lt_0.
  - apply pow_le. exact Hx.
Qed.

Lemma E1_succ (x : R) (n : nat) : E1 x (S n) = E1 x n + exp_term x (S n).
Proof. reflexivity. Qed.

Lemma E1_growing (x : R) : 0 <= x -> Un_growing (E1 x).
Proof.
  intros Hx n. rewrite E1_succ.
  pose proof (exp_term_nonneg x (S n) Hx). lra.
Qed.

Lemma E1_le_exp (x : R) (n : nat) : 0 <= x -> E1 x n <= exp x.
Proof.
  intros Hx. apply (growing_ineq (E1 x)); [apply E1_growing; exact Hx|].
  apply E1_cvg.
Qed.

Lemma exp_term_succ (x : R) (k : nat) :
  exp_term x (S k) = exp_term x k * (x / INR (S k)).
Proof.
  unfold exp_term. rewrite fact_simpl, mult_INR.
  cbn [pow]. field.
  split; [apply not_0_INR; discriminate|apply INR_fact_neq_0].
Qed.

(** The tail of the series after the term [n], for [x < n + 2]: a
    geometric series of ratio [x / (n + 2)]. *)
Lemma exp_term_geometric (x : R) (n m : nat) :
  0 <= x ->
  exp_term x (S n + m) <= exp_term x (S n) * (x / INR (S (S n))) ^ m.
Proof.
  intros Hx. induction m as [|m IH].
  - rewrite Nat.add_0_r. cbn [pow]. lra.
  - replace (S n + S m)%nat with (S (S n + m)) by lia.
    rewrite exp_term_succ. cbn [pow].
    assert (Hq : 0 <= x / INR (S (S n + m)) <= x / INR (S (S n))).
    { assert (0 < INR (S (S n))) by (apply lt_0_INR; lia).
      assert (INR (S (S n)) <= INR (S (S n + m))) by (apply le_INR; lia).
      split.
      - apply Rmult_le_pos; [exact Hx|]. left. apply Rinv_0_lt_compat. lra.
      - apply Rmult_le_compat_l; [exact Hx|].
        apply Rinv_le_contravar; assumption. }
    pose proof (exp_term_nonneg x (S n + m) Hx) as Ht.
    assert (Hp : 0 <= (x / INR (S (S n))) ^ m).
    { apply pow_le. apply Rmult_le_pos; [exact Hx|].
      left. apply Rinv_0_lt_compat. apply lt_0_INR. lia. }
    pose proof (exp_term_nonneg x (S n) Hx) as Ht0.
    apply Rle_trans with (exp_term x (S n + m) * (x / INR (S (S n)))).
    + apply Rmult_le_compat_l; [exact Ht|apply Hq].
    + replace (exp_term x (S n) * (x / INR (S (S n)) * (x / INR (S (S n))) ^ m))
        with (exp_term x (S n) * (x / INR (S (S n))) ^ m * (x / INR (S (S n))))
        by ring.
      apply Rmult_le_compat_r; [lra|exact IH].
Qed.

Lemma E1_tail (x : R) (n m : nat) :
  0 <= x -> x < INR (S (S n)) ->
  let r := x / INR (S (S n)) in
  E1 x (n + m) + exp_term x (S n) * r ^ m / (1 - r)
  <= E1 x n + exp_term x (S n) / (1 - r).
Proof.
  intros Hx Hlt r.
  assert (HN : 0 < INR (S (S n))) by (apply lt_0_INR; lia).
  assert (Hr : 0 <= r < 1).
  { unfold r. split.
    - apply Rmult_le_pos; [exact Hx|]. left. apply Rinv_0_lt_compat. exact HN.
    - apply Rmult_lt_reg_r with (INR (S (S n))); [exact HN|].
      unfold Rdiv. rewrite Rmult_assoc, Rinv_l by lra. lra. }
  pose proof (exp_term_nonneg x (S n) Hx) as Ht0.
  induction m as [|m IH].
  - rewrite Nat.add_0_r. cbn [pow]. lra.
  - replace (n + S m)%nat with (S (n + m)) by lia. rewrite E1_succ.
    pose proof (exp_term_geometric x n m Hx) as Hg. fold r in Hg.
    replace (S (n + m)) with (S n + m)%nat by lia.
    cbn [pow].
    assert (Hpm : 0 <= r ^ m) by (apply pow_le; apply Hr).
    assert (E : exp_term x (S n) * r ^ m
                + exp_term x (S n) * (r * r ^ m) / (1 - r)
                = exp_term x (S n) * r ^ m / (1 - r)) by (field; lra).
    lra.
Qed.

Lemma exp_le_E1_tail (x : R) (n : nat) :
  0 <= x -> x < INR (S (S n)) ->
  exp x <= E1 x n + exp_term x (S n) / (1 - x / INR (S (S n))).
Proof.
  intros Hx Hlt.
  set (B := E1 x n + exp_term x (S n) / (1 - x / INR (S (S n)))).
  apply Rle_cv_lim with (Un := E1 x) (Vn := fun _ : nat => B).
  - intros k.
    assert (HN : 0 < INR (S (S n))) by (apply lt_0_INR; lia).
    assert (Hr : 0 <= x / INR (S (S n)) < 1).
    { split.
      - apply Rmult_le_pos; [exact Hx|]. left. apply Rinv_0_lt_compat. exact HN.
      - apply Rmult_lt_reg_r with (INR (S (S n))); [exact HN|].
        unfold Rdiv. rewrite Rmult_assoc, Rinv_l by lra. lra. }
    pose proof (exp_term_nonneg x (S n) Hx) as Ht0.
    destruct (Nat.le_gt_cases n k) as [Hle|Hgt].
    + replace k with (n + (k - n))%nat by lia.
      pose proof (E1_tail x n (k - n) Hx Hlt) as H. cbv zeta in H.
      assert (0 <= exp_term x (S n) * (x / INR (S (S n))) ^ (k - n)
                   / (1 - x / INR (S (S n)))).
      { apply Rmult_le_pos.
        - apply Rmult_le_pos; [exact Ht0|]. apply pow_le. apply Hr.
        - left. apply Rinv_0_lt_compat. lra. }
      unfold B. lra.
    + assert (E1 x k <= E1 x n).
      { apply Rge_le. apply (growing_prop (E1 x)); [apply E1_growing; exact Hx|lia]. }
      assert (0 <= exp_term x (S n) / (1 - x / INR (S (S n)))).
      { apply Rmult_le_pos; [exact Ht0|]. left. apply Rinv_0_lt_compat. lra. }
      unfold B. lra.
  - apply E1_cvg.
  - intros eps Heps. exists 0%nat. intros k _.
    unfold Rdist. rewrite Rminus_diag, Rabs_R0. exact Heps.
Qed.

(** *** The rational evaluation of the series *)

Lemma Q2R_inject_Z (z : Z) : Q2R (inject_Z z) = IZR z.
Proof. unfold Q2R, inject_Z. cbn [Qnum Qden]. rewrite Rinv_1. ring. Qed.

Lemma Q2R_Qred (q : Q) : Q2R (Qred q) = Q2R q.
Proof. apply Qeq_eqR. apply Qred_correct. Qed.

Lemma q_exp_terms_E1 (x : Q) (n j : nat) (term acc : Q) :
  Q2R term = exp_term (Q2R x) j ->
  Q2R acc = E1 (Q2R x) j ->
  Q2R (q_exp_terms n (Z.of_nat (S j)) term acc x) = E1 (Q2R x) (j + n).
Proof.
  revert j term acc. induction n as [|n IH]; intros j term acc Ht Ha.
  - rewrite Nat.add_0_r. exact Ha.
  - cbn [q_exp_terms].
    replace (Z.of_nat (S j) + 1)%Z with (Z.of_nat (S (S j))) by lia.
    replace (j + S n)%nat with (S j + n)%nat by lia.
    assert (Hk : ~ (inject_Z (Z.of_nat (S j)) == 0)%Q).
    { unfold Qeq, inject_Z. cbn [Qnum Qden]. lia. }
    assert (Ht' : Q2R (Qred (term * x / inject_Z (Z.of_nat (S j))))
                  = exp_term (Q2R x) (S j)).
    { rewrite Q2R_Qred. unfold Qdiv. rewrite !Q2R_mult, Q2R_inv by exact Hk.
      rewrite Q2R_inject_Z, Ht, exp_term_succ, <- INR_IZR_INZ.
      unfold Rdiv. ring. }
    apply IH.
    + exact Ht'.
    + rewrite Q2R_Qred, Q2R_plus, Ha, Ht'. reflexivity.
Qed.

(** *** The series in fixed point *)

Lemma div_floor_R (a b : Z) : (0 < b)%Z -> IZR (a / b) * IZR b <= IZR a.
Proof.
  intros Hb. rewrite <- mult_IZR. apply IZR_le.
  rewrite Z.mul_comm. apply Z.mul_div_le. exact Hb.
Qed.

Lemma div_ceil_R (a b : Z) :
  (0 < b)%Z -> IZR a <= IZR ((a + b - 1) / b) * IZR b.
Proof.
  intros Hb. rewrite <- mult_IZR. apply IZR_le.
  pose proof (Z.div_mod (a + b - 1) b ltac:(lia)) as E.
  pose proof (Z.mod_pos_bound (a + b - 1) b Hb) as M.
  lia.
Qed.

Section Series.

Variables (num den : Z) (x scale : R).
Hypothesis Hnum : (0 <= num)%Z.
Hypothesis Hden : (0 < den)%Z.
Hypothesis Hx : x = IZR num / IZR den.

Lemma series_x_nonneg : 0 <= x.
Proof.
  rewrite Hx. apply Rmult_le_pos; [apply IZR_le; exact Hnum|].
  left. apply Rinv_0_lt_compat. apply IZR_lt. exact Hden.
Qed.

Lemma series_step (j : nat) :
  exp_term x (S j) * (IZR den * IZR (Z.of_nat (S j)))
  = exp_term x j * IZR num.
Proof.
  rewrite exp_term_succ, Hx, <- INR_IZR_INZ.
  assert (IZR den <> 0) by (apply not_0_IZR; lia).
  assert (INR (S j) <> 0) by (apply not_0_INR; discriminate).
  field. split; assumption.
Qed.

Lemma series_lo_spec (n j : nat) (term acc : Z) :
  IZR term <= scale * exp_term x j ->
  IZR acc <= scale * E1 x j ->
  0 <= scale ->
  IZR (fst (series_lo n (Z.of_nat (S j)) num den term acc))
  <= scale * exp_term x (j + n)
  /\ IZR (snd (series_lo n (Z.of_nat (S j)) num den term acc))
     <= scale * E1 x (j + n).
Proof.
  revert j term acc. induction n as [|n IH]; intros j term acc Ht Ha HS.
  - rewrite Nat.add_0_r. cbn [series_lo fst snd]. split; assumption.
  - cbn [series_lo].
    replace (Z.of_nat (S j) + 1)%Z
      with (Z.of_nat (S (S j))) by lia.
    replace (j + S n)%nat with (S j + n)%nat by lia.
    set (k := Z.of_nat (S j)).
    assert (Hk : (0 < den * k)%Z) by (subst k; lia).
    assert (Hkr : 0 < IZR den * IZR k).
    { rewrite <- mult_IZR. apply IZR_lt. exact Hk. }
    assert (Ht' : IZR (term * num / (den * k))
                  <= scale * exp_term x (S j)).
    { apply Rmult_le_reg_r with (IZR den * IZR k); [exact Hkr|].
      rewrite <- (mult_IZR den k) at 1.
      apply Rle_trans with (IZR (term * num)); [apply div_floor_R; exact Hk|].
      rewrite mult_IZR.
      replace (scale * exp_term x (S j) * (IZR den * IZR k))
        with (scale * (exp_term x (S j) * (IZR den * IZR k))) by ring.
      subst k. rewrite series_step.
      replace (scale * (exp_term x j * IZR num))
        with (scale * exp_term x j * IZR num) by ring.
      apply Rmult_le_compat_r; [apply IZR_le; exact Hnum|exact Ht]. }
    apply IH; [exact Ht'| |exact HS].
    rewrite plus_IZR, E1_succ. lra.
Qed.

Lemma series_hi_spec (n j : nat) (term acc : Z) :
  scale * exp_term x j <= IZR term ->
  scale * E1 x j <= IZR acc ->
  0 <= scale ->
  scale * exp_term x (j + n)
  <= IZR (fst (series_hi n (Z.of_nat (S j)) num den term acc))
  /\ scale * E1 x (j + n)
     <= IZR (snd (series_hi n (Z.of_nat (S j)) num den term acc)).
Proof.
  revert j term acc. induction n as [|n IH]; intros j term acc Ht Ha HS.
  - rewrite Nat.add_0_r. cbn [series_hi fst snd]. split; assumption.
  - cbn [series_hi].
    replace (Z.of_nat (S j) + 1)%Z
      with (Z.of_nat (S (S j))) by lia.
    replace (j + S n)%nat with (S j + n)%nat by lia.
    set (k := Z.of_nat (S j)).
    assert (Hk : (0 < den * k)%Z) by (subst k; lia).
    assert (Hkr : 0 < IZR den * IZR k).
    { rewrite <- mult_IZR. apply IZR_lt. exact Hk. }
    assert (Ht' : scale * exp_term x (S j)
                  <= IZR ((term * num + den * k - 1) / (den * k))).
    { apply Rmult_le_reg_r with (IZR den * IZR k); [exact Hkr|].
      rewrite <- (mult_IZR den k) at 2.
      apply Rle_trans with (IZR (term * num)); [|apply div_ceil_R; exact Hk].
      rewrite mult_IZR.
      replace (scale * exp_term x (S j) * (IZR den * IZR k))
        with (scale * (exp_term x (S j) * (IZR den * IZR k))) by ring.
      subst k. rewrite series_step.
      replace (scale * (exp_term x j * IZR num))
        with (scale * exp_term x j * IZR num) by ring.
      apply Rmult_le_compat_r; [apply IZR_le; exact Hnum|exact Ht]. }
    apply IH; [exact Ht'| |exact HS].
    rewrite plus_IZR, E1_succ. lra.
Qed.

End Series.

Lemma exp_term_0 (x : R) : exp_term x 0 = 1.
Proof. unfold exp_term. cbn [fact pow INR]. field. Qed.

Lemma E1_0 (x : R) : E1 x 0 = 1.
Proof. unfold E1. cbn [sum_f_R0 fact pow INR]. field. Qed.

(** Past the middle of the interval of convergence of the bound, the rest
    of the series is at most twice its first term. *)
Lemma exp_le_E1_two_terms (x : R) (n : nat) :
  0 <= x -> 2 * x <= INR (S (S n)) ->
  exp x <= E1 x n + 2 * exp_term x (S n).
Proof.
  intros Hx H2.
  assert (HN : 0 < INR (S (S n))) by (apply lt_0_INR; lia).
  assert (Hr : 0 <= x / INR (S (S n)) <= / 2).
  { split.
    - apply Rmult_le_pos; [exact Hx|]. left. apply Rinv_0_lt_compat. exact HN.
    - apply Rmult_le_reg_r with (INR (S (S n))); [exact HN|].
      unfold Rdiv. rewrite Rmult_assoc, Rinv_l by lra. lra. }
  pose proof (exp_le_E1_tail x n Hx ltac:(lra)) as H.
  pose proof (exp_term_nonneg x (S n) Hx) as Ht.
  set (r := x / INR (S (S n))) in *.
  assert (Hinv : / (1 - r) <= 2).
  { rewrite <- (Rinv_inv 2). apply Rinv_le_contravar; lra. }
  assert (exp_term x (S n) / (1 - r)
          <= exp_term x (S n) * 2)
    by (apply Rmult_le_compat_l; assumption).
  lra.
Qed.

Lemma crop_scale_nonneg : 0 <= IZR crop_scale.
Proof. apply IZR_le. discriminate. Qed.

(** The two bounds of [exp (K g)]. *)
Lemma crop_enclosure (g : Z) :
  (1 <= g <= 70)%Z ->
  IZR (crop_lo g)
  <= IZR crop_scale * exp (7167543 / 100000000 * IZR g)
  <= IZR (crop_hi g).
Proof.
  intros Hg.
  set (x := 7167543 / 100000000 * IZR g).
  assert (Hx : x = IZR (7167543 * g) / IZR 100000000)
    by (subst x; rewrite mult_IZR; field).
  assert (Hnum : (0 <= 7167543 * g)%Z) by lia.
  assert (Hden : (0 < 100000000)%Z) by lia.
  assert (Hx0 : 0 <= x) by (apply (series_x_nonneg _ _ _ Hnum Hden Hx)).
  assert (HS := crop_scale_nonneg).
  assert (Hg70 : IZR g <= 70) by (apply IZR_le; lia).
  split.
  - destruct (series_lo_spec (7167543 * g) 100000000 x (IZR crop_scale)
                Hnum Hden Hx 40 0 crop_scale crop_scale) as [_ Hs].
    + rewrite exp_term_0. lra.
    + rewrite E1_0. lra.
    + lra.
    + unfold crop_lo. cbn [Nat.add] in Hs.
      change (Z.of_nat 1) with 1%Z in Hs.
      apply Rle_trans with (1 := Hs).
      apply Rmult_le_compat_l; [lra|]. apply E1_le_exp. exact Hx0.
  - destruct (series_hi_spec (7167543 * g) 100000000 x (IZR crop_scale)
                Hnum Hden Hx 41 0 crop_scale crop_scale) as [Ht Hs].
    + rewrite exp_term_0. lra.
    + rewrite E1_0. lra.
    + lra.
    + unfold crop_hi. cbn [Nat.add] in Ht, Hs.
      change (Z.of_nat 1) with 1%Z in Ht, Hs.
      destruct (series_hi 41 1 (7167543 * g) 100000000 crop_scale crop_scale)
        as [t s].
      cbn [fst snd] in Ht, Hs. rewrite plus_IZR.
      assert (H2 : 2 * x <= INR 42).
      { change (INR 42) with (INR (S (S 40))).
        rewrite INR_IZR_INZ. change (Z.of_nat 42) with 42%Z.
        subst x. lra. }
      pose proof (exp_le_E1_two_terms x 40 Hx0 H2) as He.
      rewrite E1_succ in Hs.
      assert (IZR crop_scale * exp x
              <= IZR crop_scale * (E1 x 40 + 2 * exp_term x 41))
        by (apply Rmult_le_compat_l; lra).
      lra.
Qed.

(** *** The crop of every growth *)

Lemma crop_margin_all :
  forallb (fun g => margin_ok (crop_floor g) (crop_lo g) (crop_hi g))
    (zrange 1 70) = true.
Proof. vm_compute. reflexivity. Qed.

Lemma crop_scale_pos : 0 < IZR crop_scale.
Proof. apply IZR_lt. reflexivity. Qed.

Lemma crop_scale_margin :
  (crop_scale / 100000 * 100000)%Z = crop_scale.
Proof. vm_compute. reflexivity. Qed.

Lemma margin_ok_spec (n lo hi : Z) (E : R) :
  margin_ok n lo hi = true ->
  IZR lo <= IZR crop_scale * E <= IZR hi ->
  (0 <= n <= 150)%Z
  /\ IZR n + 1 + / 100000 <= E <= IZR n + 2 - / 100000.
Proof.
  intros Hok [Elo Ehi]. unfold margin_ok in Hok. cbv zeta in Hok.
  apply andb_prop in Hok. destruct Hok as [Hok Hhi].
  apply andb_prop in Hok. destruct Hok as [Hok Hlo].
  apply andb_prop in Hok. destruct Hok as [Hn0 Hn1].
  apply Z.leb_le in Hn0, Hn1, Hlo, Hhi.
  split; [lia|].
  pose proof crop_scale_pos as HS.
  pose proof crop_scale_margin as Hm.
  apply (f_equal IZR) in Hm. rewrite mult_IZR in Hm.
  apply IZR_le in Hlo, Hhi.
  rewrite plus_IZR, mult_IZR, plus_IZR in Hlo.
  rewrite minus_IZR, mult_IZR, plus_IZR in Hhi.
  generalize dependent (IZR (crop_scale / 100000)).
  generalize dependent (IZR crop_scale).
  intros scale Elo Ehi HS m Hm Hlo Hhi.
  split.
  - apply Rmult_le_reg_l with scale; [exact HS|]. lra.
  - apply Rmult_le_reg_l with scale; [exact HS|]. lra.
Qed.

Lemma crop_margin (g : Z) :
  (1 <= g <= 70)%Z ->
  (0 <= crop_floor g <= 150)%Z
  /\ IZR (crop_floor g) + 1 + / 100000
     <= exp (7167543 / 100000000 * IZR g)
     <= IZR (crop_floor g) + 2 - / 100000.
Proof.
  intros Hg.
  assert (Hin : In g (zrange 1 70)) by (apply In_zrange; lia).
  pose proof (proj1 (forallb_forall _ _) crop_margin_all g Hin) as Hok.
  cbv beta in Hok.
  exact (margin_ok_spec _ _ _ _ Hok (crop_enclosure g Hg)).
Qed.

(** A value within a relative error [e] of a real of size at most [B] is
    within [e * B] of it. *)
Lemma near_window (q : Q) (r B : R) :
  near q r -> Rabs r <= B -> Rabs (Q2R q - r) <= B / 1000000000.
Proof.
  unfold near. intros H HB.
  assert (He : / 2 ^ 30 <= / 1000000000).
  { apply Rinv_le_contravar; [lra|]. cbn [pow]. lra. }
  assert (H0 : 0 <= Rabs r) by apply Rabs_pos.
  assert (0 < / 2 ^ 30).
  { apply Rinv_0_lt_compat. apply pow_lt. lra. }
  apply Rle_trans with (1 := H).
  apply Rle_trans with (/ 1000000000 * Rabs r).
  - apply Rmult_le_compat_r; assumption.
  - unfold Rdiv. rewrite Rmult_comm. apply Rmult_le_compat_r; [lra|exact HB].
Qed.

Lemma exp_window (t d : R) :
  Rabs t <= d -> d <= / 2 -> 1 - d <= exp t <= 1 + 2 * d.
Proof.
  intros Ht Hd.
  assert (Hd0 : 0 <= d) by (pose proof (Rabs_pos t); lra).
  assert (Htb : - d <= t <= d).
  { split.
    - pose proof (RRle_abs (- t)) as Ha. rewrite Rabs_Ropp in Ha. lra.
    - pose proof (RRle_abs t). lra. }
  split.
  - pose proof (exp_ineq1_le t). lra.
  - pose proof (exp_ineq1_le (- t)) as Hm.
    pose proof (exp_pos t) as Hp.
    assert (Hone : exp t * exp (- t) = 1).
    { rewrite <- exp_plus. replace (t + - t) with 0 by ring. apply exp_0. }
    assert (Hlow : 1 - d <= exp (- t)) by lra.
    assert (exp t * (1 - d) <= 1).
    { rewrite <- Hone. apply Rmult_le_compat_l; lra. }
    nra.
Qed.

Lemma abs_window (a b c : R) : Rabs (a - b) <= c -> b - c <= a <= b + c.
Proof.
  intros H. pose proof (RRle_abs (a - b)).
  pose proof (RRle_abs (- (a - b))) as H1. rewrite Rabs_Ropp in H1. lra.
Qed.

(** For accurate arithmetic the code computes the integer part of the
    lower bound: the error of the four operations is far below the
    margin of [crop_margin]. *)
Lemma crop_available_floor (g : Z) :
  double_accurate fl -> (1 <= g <= 70)%Z ->
  crop_available g = crop_floor g.
Proof.
  intros (Hint & HK & Hmul & Hsub & Hexp & Hcast) Hg.
  destruct (crop_margin g Hg) as [Hn [Elo Ehi]].
  assert (HG : 1 <= IZR g <= 70) by (split; apply IZR_le; lia).
  assert (HN : 0 <= IZR (crop_floor g) <= 150) by (split; apply IZR_le; lia).
  set (G := IZR g) in *.
  set (A := 7167543 / 100000000 * G) in *.
  set (E := exp A) in *.
  set (n := IZR (crop_floor g)) in *.
  assert (HA : 7167543 / 100000000 <= A <= 502 / 100) by (unfold A; lra).
  assert (HE1 : 1 + A <= E) by apply exp_ineq1_le.
  (* the constant and the growth *)
  assert (Hk : 7167543 / 100000000 - / 10000000000
               <= Q2R d_K <= 7167543 / 100000000 + / 10000000000).
  { pose proof (near_window d_K _ (7167543 / 100000000) HK) as H.
    rewrite Rabs_pos_eq in H by lra.
    specialize (H ltac:(lra)). apply abs_window in H. lra. }
  assert (Hgq : Q2R (d_of_int g) = G) by (apply Hint; lia).
  set (k := Q2R d_K) in *.
  (* the product *)
  assert (HkG : A - 7 / 1000000000 <= k * G <= A + 7 / 1000000000).
  { unfold A. split; nra. }
  assert (Hp : A - 13 / 1000000000
               <= Q2R (d_mul d_K (d_of_int g)) <= A + 13 / 1000000000).
  { assert (Hmod : moderate (Q2R d_K * Q2R (d_of_int g))).
    { rewrite Hgq. fold k. unfold moderate.
      rewrite Rabs_pos_eq by lra. lra. }
    pose proof (near_window _ _ 6 (Hmul _ _ Hmod)) as H.
    rewrite Hgq in H. fold k in H.
    rewrite (Rabs_pos_eq (k * G)) in H by lra.
    specialize (H ltac:(lra)). apply abs_window in H. lra. }
  set (p := Q2R (d_mul d_K (d_of_int g))) in *.
  (* the exponential *)
  assert (Hep : E - 4000 / 1000000000 <= exp p <= E + 4000 / 1000000000).
  { replace p with (A + (p - A)) by ring. rewrite exp_plus. fold E.
    assert (Ht : Rabs (p - A) <= 13 / 1000000000).
    { apply Rabs_le. lra. }
    pose proof (exp_window (p - A) _ Ht ltac:(lra)) as Hw.
    assert (HE : 1 <= E <= 152) by lra.
    set (w := exp (p - A)) in *.
    assert (E * (1 - 13 / 1000000000) <= E * w)
      by (apply Rmult_le_compat_l; lra).
    assert (E * w <= E * (1 + 2 * (13 / 1000000000)))
      by (apply Rmult_le_compat_l; lra).
    lra. }
  assert (Hex : E - 4200 / 1000000000
                <= Q2R (d_exp (d_mul d_K (d_of_int g)))
                <= E + 4200 / 1000000000).
  { assert (Hp6 : 0 <= p <= 6) by lra.
    pose proof (near_window _ _ 153 (Hexp (d_mul d_K (d_of_int g)) Hp6)) as H.
    fold p in H. rewrite (Rabs_pos_eq (exp p)) in H by lra.
    specialize (H ltac:(lra)). apply abs_window in H. lra. }
  set (ex := Q2R (d_exp (d_mul d_K (d_of_int g)))) in *.
  (* the subtraction *)
  assert (Hone : Q2R (d_of_int 1) = 1) by (apply Hint; simpl; lia).
  assert (Hy : E - 1 - 4400 / 1000000000
               <= Q2R (d_sub (d_exp (d_mul d_K (d_of_int g))) (d_of_int 1))
               <= E - 1 + 4400 / 1000000000).
  { assert (Hmod : moderate (Q2R (d_exp (d_mul d_K (d_of_int g)))
                            - Q2R (d_of_int 1))).
    { rewrite Hone. fold ex. unfold moderate.
      rewrite Rabs_pos_eq by lra. lra. }
    pose proof (near_window _ _ 153 (Hsub _ _ Hmod)) as H.
    rewrite Hone in H. fold ex in H.
    rewrite (Rabs_pos_eq (ex - 1)) in H by lra.
    specialize (H ltac:(lra)). apply abs_window in H. lra. }
  (* the cast *)
  unfold crop_available.
  set (y := d_sub (d_exp (d_mul d_K (d_of_int g))) (d_of_int 1)) in *.
  destruct (Hcast y ltac:(lra)) as [Hc1 Hc2].
  assert (Hlt1 : IZR (d_to_int y) < IZR (crop_floor g + 1)).
  { rewrite plus_IZR. fold n. lra. }
  assert (Hlt2 : IZR (crop_floor g) < IZR (d_to_int y + 1)).
  { rewrite plus_IZR. fold n. lra. }
  apply lt_IZR in Hlt1, Hlt2. lia.
Qed.

(** *** The rational instance is accurate *)

Lemma near_exact (q : Q) (r : R) : Q2R q = r -> near q r.
Proof.
  intros H. unfold near. rewrite H, Rminus_diag, Rabs_R0.
  apply Rmult_le_pos; [|apply Rabs_pos].
  left. apply Rinv_0_lt_compat. apply pow_lt. lra.
Qed.

Lemma q_exp_E1 (x : Q) : Q2R (q_exp x) = E1 (Q2R x) 40.
Proof.
  unfold q_exp.
  apply (q_exp_terms_E1 x 40 0 1%Q 1%Q).
  - rewrite exp_term_0. unfold Q2R. cbn [Qnum Qden]. field.
  - rewrite E1_0. unfold Q2R. cbn [Qnum Qden]. field.
Qed.

Lemma exp_term_incr (x y : R) (k : nat) :
  0 <= x <= y -> exp_term x k <= exp_term y k.
Proof.
  intros H. unfold exp_term. apply Rmult_le_compat_l.
  - left. apply Rinv_0_lt_compat. apply INR_fact_lt_0.
  - apply pow_incr. exact H.
Qed.

(** The term of degree 41 at 6, the largest argument: below [2^-31]. *)
Lemma exp_term_41_at_6 : 2 * exp_term 6 41 <= / 2 ^ 30.
Proof.
  destruct (series_hi_spec 6 1 6 (IZR crop_scale) ltac:(lia) ltac:(lia)
              ltac:(lra) 41 0 crop_scale crop_scale) as [Ht _].
  - rewrite exp_term_0. lra.
  - rewrite E1_0. lra.
  - apply crop_scale_nonneg.
  - cbn [Nat.add] in Ht. change (Z.of_nat 1) with 1%Z in Ht.
    assert (Hc : (2 * fst (series_hi 41 1 6 1 crop_scale crop_scale) * 2 ^ 30
                  <= crop_scale)%Z) by (vm_compute; discriminate).
    apply IZR_le in Hc. rewrite !mult_IZR in Hc.
    change (IZR (2 ^ 30)) with (IZR (2 ^ Z.of_nat 30)) in Hc.
    rewrite <- pow_IZR in Hc.
    set (t := IZR (fst (series_hi 41 1 6 1 crop_scale crop_scale))) in *.
    pose proof crop_scale_pos as HS.
    assert (Hp : 0 < 2 ^ 30) by (apply pow_lt; lra).
    set (P := 2 ^ 30) in *. set (scale := IZR crop_scale) in *.
    apply Rmult_le_reg_r with P; [exact Hp|].
    rewrite Rinv_l by lra.
    apply Rmult_le_reg_l with scale; [exact HS|].
    assert (scale * (2 * exp_term 6 41 * P)
            = 2 * (scale * exp_term 6 41) * P) by ring.
    assert (2 * (scale * exp_term 6 41) * P <= 2 * t * P).
    { apply Rmult_le_compat_r; [lra|]. lra. }
    lra.
Qed.

Lemma q_exp_near (a : Q) :
  0 <= Q2R a <= 6 -> near (q_exp a) (exp (Q2R a)).
Proof.
  intros Ha. unfold near. rewrite q_exp_E1.
  set (x := Q2R a) in *.
  pose proof (E1_le_exp x 40 ltac:(lra)) as Hlo.
  assert (H2 : 2 * x <= INR 42).
  { rewrite INR_IZR_INZ. change (Z.of_nat 42) with 42%Z. lra. }
  pose proof (exp_le_E1_two_terms x 40 ltac:(lra) H2) as Hhi.
  pose proof (exp_term_incr x 6 41 ltac:(lra)) as Hm.
  pose proof exp_term_41_at_6 as H6.
  pose proof (exp_ineq1_le x) as He.
  rewrite (Rabs_pos_eq (exp x)) by lra.
  rewrite Rabs_minus_sym, Rabs_pos_eq by lra.
  assert (0 < / 2 ^ 30) by (apply Rinv_0_lt_compat; apply pow_lt; lra).
  assert (/ 2 ^ 30 * 1 <= / 2 ^ 30 * exp x)
    by (apply Rmult_le_compat_l; lra).
  lra.
Qed.

Lemma q_trunc_floor (a : Q) :
  0 <= Q2R a -> IZR (q_trunc a) <= Q2R a < IZR (q_trunc a) + 1.
Proof.
  intros Ha. unfold q_trunc, Q2R in *.
  destruct a as [num den]. cbn [Qnum Qden] in *.
  assert (Hd : 0 < IZR (Z.pos den)) by (apply IZR_lt; lia).
  assert (Hnum : (0 <= num)%Z).
  { apply le_IZR. apply Rmult_le_reg_r with (/ IZR (Z.pos den)).
    - apply Rinv_0_lt_compat. exact Hd.
    - lra. }
  rewrite Z.quot_div_nonneg by lia.
  pose proof (Z.mul_div_le num (Z.pos den) ltac:(lia)) as H1.
  pose proof (Z.mul_succ_div_gt num (Z.pos den) ltac:(lia)) as H2.
  apply IZR_le in H1. apply IZR_lt in H2.
  rewrite mult_IZR in H1. rewrite mult_IZR, succ_IZR in H2.
  set (q := IZR (num / Z.pos den)) in *.
  set (d := IZR (Z.pos den)) in *. set (m := IZR num) in *.
  split.
  - apply Rmult_le_reg_r with d; [exact Hd|].
    rewrite Rmult_assoc, Rinv_l by lra. lra.
  - apply Rmult_lt_reg_r with d; [exact Hd|].
    rewrite Rmult_assoc, Rinv_l by lra. lra.
Qed.

Lemma rational_float_accurate : double_accurate rational_float.
Proof.
  unfold double_accurate. cbn [d_of_int d_K d_mul d_sub d_exp d_to_int
                               rational_float].
  split; [|split; [|split; [|split; [|split]]]].
  - intros z _. apply Q2R_inject_Z.
  - apply near_exact. unfold Q2R. cbn [Qnum Qden]. reflexivity.
  - intros a b _. apply near_exact. apply Q2R_mult.
  - intros a b _. apply near_exact. apply Q2R_minus.
  - intros a Ha. apply q_exp_near. exact Ha.
  - intros a [Ha _]. apply q_trunc_floor. exact Ha.
Qed.

(** The crop in the words of the specification. *)
Lemma crop_floor_int_part (g : Z) :
  (1 <= g <= 70)%Z ->
  crop_floor g = Int_part (exp (7167543 / 100000000 * IZR g) - 1).
Proof.
  intros Hg. destruct (crop_margin g Hg) as [_ [Elo Ehi]].
  apply Int_part_spec.
  assert (0 < / 100000) by (apply Rinv_0_lt_compat; lra).
  lra.
Qed.

End CropReal.

(** C5.  The growth of a cell is 0 in winter, off soil, and on a cell that
    holds stored food, stone or a wall; otherwise it is
    [min (day - last_harvest) 70] with [day = (tick + 55) mod 110].  When
    the arithmetic on [double] is accurate ([double_accurate]), the crop
    that the code computes for [g] growth days, [(int)(exp(K * g) - 1)],
    is the integer part of the real number [exp (0.07167543 g) - 1], for
    every [g] from 1 to 70; and a pickup on a cell without stored food
    and with [g > 0] growth days harvests this crop: the agent receives
    what fits its carrying capacity, the rest is stored on the tile, and
    the harvest day is recorded. *)
Theorem crop_growth_and_harvest (env : Territories) :
  0 <= tick env ->
  (forall r c,
      (is_winter env = true \/ soil_at env r c = false
       \/ 0 < tile env r c STORED_FOOD \/ 0 < tile env r c STONE
       \/ 0 < tile env r c WALL_HP ->
       get_growth_days env r c = 0)
      /\ (is_winter env = false -> soil_at env r c = true ->
          tile env r c STORED_FOOD <= 0 -> tile env r c STONE <= 0 ->
          tile env r c WALL_HP <= 0 ->
          get_growth_days env r c
          = Z.min ((tick env + 55) mod 110 - tile env r c LAST_HARVEST) 70))
  /\ (double_accurate fl ->
      (forall g, 0 < g <= 70 ->
         crop_available g
         = Int_part (exp (7167543 / 100000000 * IZR g) - 1)%R)
      /\ (forall day pid,
            let a := ag env pid in
            let r := Agent.r a in
            let c := Agent.c a in
            let g := get_growth_days env r c in
            0 <= pid < Z.of_nat (length (agents env)) ->
            0 <= tile_adr env r c LAST_HARVEST ->
            tile_adr env r c WALL_HP < Z.of_nat (length (tile_props env)) ->
            tile env r c STORED_FOOD = 0 ->
            0 < g ->
            let crop :=
              Int_part (exp (7167543 / 100000000 * IZR g) - 1)%R in
            let env' := step_pickup day pid env in
            let got :=
              Z.min crop
                (MAX_FOOD_CARRYING_CAPACITY - Agent.food_carried a) in
            Agent.food_carried (ag env' pid) = Agent.food_carried a + got
            /\ tile env' r c STORED_FOOD = u16 (crop - got)
            /\ tile env' r c LAST_HARVEST = u16 day)).
Proof.
  intros Htick. split.
  - intros r c. apply growth_days_law. exact Htick.
  - intros Hacc.
    assert (Hcrop : forall g, 0 < g <= 70 ->
              crop_available g
              = Int_part (exp (7167543 / 100000000 * IZR g) - 1)%R).
    { intros g Hg.
      rewrite (crop_available_floor g Hacc) by lia.
      apply crop_floor_int_part. lia. }
    split; [exact Hcrop|].
    intros day pid a r c g Hpid Hlo Hhi Hstored Hg crop.
    assert (Hg70 : g <= 70) by apply growth_days_at_most_70.
    assert (Ec : crop = crop_available g)
      by (subst crop; symmetry; apply Hcrop; lia).
    rewrite Ec.
    exact (harvest_written env day pid Hpid Hlo Hhi Hstored Hg).
Qed.

End Proofs.

(** * Closed instances *)

(** The crop of a tile left to grow for the full 70 days, in exact
    arithmetic. *)
Example crop_at_full_growth : crop_available 70 = 150.
Proof. vm_compute. reflexivity. Qed.

(** ** The hamlet run *)

Lemma play_reachable (retries : nat) (script : list (list Z))
  (env env' : Territories) :
  reachable env -> play retries script env = Some env' -> reachable env'.
Proof.
  unfold play. revert env.
  induction script as [|acts script IH]; intros env Hr Hrun.
  - cbn [fold_left] in Hrun. injection Hrun as <-. exact Hr.
  - cbn [fold_left bind_env] in Hrun.
    destruct (c_step retries (set_actions env acts)) as [e1|] eqn:E1.
    + apply (IH e1); [|exact Hrun].
      eapply reach_step; [apply reach_actions; exact Hr|exact E1].
    + exfalso. clear - Hrun.
      induction script as [|a s IHs]; cbn [fold_left bind_env] in Hrun;
        [discriminate|auto].
Qed.

Lemma hamlet_well_configured : well_configured hamlet.
Proof. vm_compute. repeat split; (discriminate || reflexivity). Qed.

Lemma hamlet_reset_run : c_reset 20 hamlet = Some hamlet_at_reset.
Proof. vm_compute. reflexivity. Qed.

Lemma hamlet_ten_ticks :
  play 0 hamlet_script hamlet_at_reset = Some hamlet_after_ten.
Proof. vm_compute. reflexivity. Qed.

(** The crowded hamlet is a state of a run. *)
Lemma crowded_hamlet_reachable : reachable crowded_hamlet.
Proof.
  change crowded_hamlet
    with (set_actions hamlet_after_ten
            (REPRODUCE :: REPRODUCE :: repeat NOOP 14)).
  apply reach_actions.
  apply (play_reachable 0 hamlet_script hamlet_at_reset hamlet_after_ten);
    [|exact hamlet_ten_ticks].
  exact (reach_reset hamlet hamlet_at_reset 20 hamlet_well_configured
           hamlet_reset_run).
Qed.

(** ** Attack reads one cell of the arc *)

(** C1.  The scan of [agent_attack] reads, in each direction, only the
    first of the three offsets of [ATTACK_SWORD].  With the attacker at
    (2,2) facing up and a wall straight ahead at (1,2), the middle cell of
    the arc, the scan finds nothing and the attack changes nothing: the
    wall keeps its 8 hp.  The same happens right after a reset of the
    hamlet: slot 5 at (0,2) faces up, slot 3 stands straight ahead on
    (3,2), and the attack of slot 5 hits nobody. *)
Theorem attack_misses_wall_in_middle_of_arc :
  (Agent.r (ag wall_ahead_scene 0) = 2
   /\ Agent.c (ag wall_ahead_scene 0) = 2
   /\ Agent.dir (ag wall_ahead_scene 0) = 0
   /\ ATTACK_SWORD 0 1 = (-1, 0)
   /\ tile wall_ahead_scene 1 2 WALL_HP = 8
   /\ attack_scan 0 wall_ahead_scene = None
   /\ agent_attack 0 wall_ahead_scene = wall_ahead_scene)
  /\ (reachable hamlet_at_reset
      /\ Agent.r (ag hamlet_at_reset 5) = 0
      /\ Agent.c (ag hamlet_at_reset 5) = 2
      /\ Agent.dir (ag hamlet_at_reset 5) = 0
      /\ pid_at hamlet_at_reset 3 2 = 3
      /\ attack_scan 5 hamlet_at_reset = None
      /\ agent_attack 5 hamlet_at_reset = hamlet_at_reset).
Proof.
  split.
  - repeat split; vm_compute; reflexivity.
  - split.
    + exact (reach_reset hamlet hamlet_at_reset 20 hamlet_well_configured
               hamlet_reset_run).
    + repeat split; vm_compute; reflexivity.
Qed.

(** ** Reproduction without a free cell *)

(** C2.  In the crowded hamlet slot 0 has a willing mate (slot 1) and no
    unblocked neighbour: [find_empty_cell] returns -1.  [agent_reproduce]
    nevertheless takes 50 satiation from both parents and spawns slot 8,
    at row [-1 / 4 = 0] and column [-1 % 4 = -1]. *)
Theorem reproduce_without_free_cell_still_spawns :
  find_empty_cell 0 0 crowded_hamlet = -1
  /\ _find_mate (ag crowded_hamlet 0) crowded_hamlet = 1
  /\ Agent.satiation (ag crowded_hamlet 0) = 100
  /\ Agent.satiation (ag crowded_hamlet 1) = 100
  /\ alive_count (agent_manager crowded_hamlet) = 8
  /\ Agent.satiation (ag (agent_reproduce 0 crowded_hamlet) 0) = 50
  /\ Agent.satiation (ag (agent_reproduce 0 crowded_hamlet) 1) = 50
  /\ alive_count (agent_manager (agent_reproduce 0 crowded_hamlet)) = 9
  /\ getb (alive_mask (agent_manager (agent_reproduce 0 crowded_hamlet))) 8
     = true
  /\ Agent.r (ag (agent_reproduce 0 crowded_hamlet) 8) = 0
  /\ Agent.c (ag (agent_reproduce 0 crowded_hamlet) 8) = -1.
Proof. repeat split; vm_compute; reflexivity. Qed.

(** C4.  One step from the crowded hamlet, a state reached by a reset and
    ten steps: the child, slot 8, is alive with hp and satiation in range,
    but it stands at column -1, outside the grid, and no cell of [pids_2d]
    holds its slot. *)
Theorem step_leaves_alive_child_off_grid :
  reachable crowded_hamlet
  /\ match c_step 0 crowded_hamlet with
     | Some env' =>
         getb (alive_mask (agent_manager env')) 8 = true
         /\ Agent.hp (ag env' 8) = 1
         /\ Agent.satiation (ag env' 8) = 100
         /\ Agent.r (ag env' 8) = 0
         /\ Agent.c (ag env' 8) = -1
         /\ pid_at env' (Agent.r (ag env' 8)) (Agent.c (ag env' 8)) <> 8
         /\ ~ In 8 (pids_2d env')
     | None => False
     end.
Proof.
  split; [exact crowded_hamlet_reachable|].
  vm_compute.
  repeat split; try reflexivity; try discriminate.
  intros H; repeat (destruct H as [H|H]; [discriminate|]); exact H.
Qed.

(** ** A reset with fewer than eight slots *)

(** C7.  [init] accepts 4 slots, and [c_reset] places four pairs whatever
    the capacity.  After the second pair the table is full: every further
    [spawn_agent] returns -1, and [c_reset] passes this -1 to
    [kinship_matrix_update].  The store to [kinship_matrix[pid2 * 4 + pid]]
    with [pid = -1] and [pid2 = 2] falls on the cell of the slots 1 and 3,
    inside the matrix; the store to the transposed cell does not.  The
    reset ends with [K[1][3] = 1] and [K[3][1] = 0], the slots 1 and 3
    both alive: the matrix is not symmetric. *)
Theorem c_reset_with_four_slots_breaks_symmetry :
  init (repeat true 16) (repeat false 4)
    (host_env 4 4 4 1 2 1 50 100 false (-1 # 1)%Q
       [0; 0; 0; 0; 1; 1; 0; 0; 0; 3; 0; 4; 0])
  = Some cramped
  /\ (exists e2,
        bind_env (spawn_pair 20 (reset_world cramped)) (spawn_pair 20)
        = Some e2
        /\ alive_count (agent_manager e2) = max_agents e2
        /\ forall r c, snd (spawn_agent e2 r c) = -1)
  /\ c_reset 20 cramped = Some cramped_at_reset
  /\ max_agents cramped_at_reset = 4
  /\ n_genes cramped_at_reset = 1
  /\ getb (alive_mask (agent_manager cramped_at_reset)) 1 = true
  /\ getb (alive_mask (agent_manager cramped_at_reset)) 3 = true
  /\ geti (kinship_matrix cramped_at_reset) (1 * 4 + 3) = 1
  /\ geti (kinship_matrix cramped_at_reset) (3 * 4 + 1) = 0.
Proof.
  split; [vm_compute; reflexivity|]. split.
  - eexists. split; [vm_compute; reflexivity|].
    split; [reflexivity|]. intros r c. reflexivity.
  - repeat split; vm_compute; reflexivity.
Qed.

(** ** A second hit on a dead target *)

(** C6, the claim as stated.  After the first attacker has brought slot 2
    to 0 hp and looted it, slot 2 is still on the grid at (1,1) and the
    second attacker hits it; this hit takes the hp to -1 and is not a
    loot. *)
Lemma second_attacker_does_not_loot :
  looted ambush_scene ambush_after_first_hit 0 2
  /\ Agent.hp (ag ambush_after_first_hit 2) = 0
  /\ pid_at ambush_after_first_hit 1 1 = 2
  /\ attack_scan 1 ambush_after_first_hit = Some (1, 1, 1, false)
  /\ Agent.hp (ag (agent_attack 1 ambush_after_first_hit) 2) = -1
  /\ ~ looted ambush_after_first_hit
         (agent_attack 1 ambush_after_first_hit) 1 2.
Proof.
  split; [vm_compute; repeat split; reflexivity|].
  repeat split; try (vm_compute; reflexivity).
  unfold looted. vm_compute. intros (_ & _ & H). discriminate H.
Qed.

(** ** A family larger than an [unsigned short] *)

Lemma zget_repeat {A : Type} (d v : A) (n : nat) (i : Z) :
  0 <= i < Z.of_nat n -> zget d (repeat v n) i = v.
Proof.
  intros Hi. unfold zget. destruct (Z.ltb_spec i 0); [lia|].
  assert (Hk : (Z.to_nat i < n)%nat) by lia.
  generalize dependent (Z.to_nat i). clear.
  induction n as [|n IH]; intros [|k] Hk; cbn [repeat nth]; try lia;
    [reflexivity|apply IH; lia].
Qed.

Lemma geti_zrange (lo : Z) (n : nat) (i : Z) :
  0 <= i < Z.of_nat n -> geti (zrange lo n) i = lo + i.
Proof.
  intros Hi. unfold geti, zget. destruct (Z.ltb_spec i 0); [lia|].
  replace i with (Z.of_nat (Z.to_nat i)) at 2 by lia.
  assert (Hk : (Z.to_nat i < n)%nat) by lia.
  generalize dependent (Z.to_nat i). clear. revert lo.
  induction n as [|n IH]; intros lo [|k] Hk; cbn [zrange nth]; try lia.
  rewrite IH by lia. lia.
Qed.

Lemma count_true_repeat (n : nat) : count_true (repeat true n) = Z.of_nat n.
Proof. induction n as [|n IH]; cbn [repeat count_true]; lia. Qed.

Lemma zsum_const (f : Z -> Z) (v lo : Z) (n : nat) :
  (forall j, lo <= j < lo + Z.of_nat n -> f j = v) ->
  zsum f lo n = v * Z.of_nat n.
Proof.
  revert lo. induction n as [|n IH]; intros lo H; cbn [zsum]; [lia|].
  rewrite H by lia. rewrite IH by (intros j Hj; apply H; lia). lia.
Qed.

Lemma clan_kin_cell (i : Z) :
  0 <= i < clan_size * clan_size -> geti (kinship_matrix clan) i = 3.
Proof.
  intros Hi. unfold clan. cbn [kinship_matrix]. unfold geti.
  apply zget_repeat. rewrite Z2Nat.id by (unfold clan_size; lia). exact Hi.
Qed.

Lemma clan_engine_inv : engine_inv clan.
Proof.
  split; [|split; [|split]].
  - unfold well_configured, clan. cbv zeta.
    cbn [max_agents n_genes kinship_matrix agent_manager alive_mask free_pids
         tile_props width height].
    rewrite !repeat_length, !zeros_length by (unfold clan_size; lia).
    rewrite !Z2Nat.id by (unfold clan_size; lia).
    unfold clan_size. repeat split; lia.
  - unfold am_inv, clan. cbv zeta.
    cbn [agent_manager max_agents free_count next_pid alive_count alive_mask
         free_pids].
    rewrite count_true_repeat, Z2Nat.id by (unfold clan_size; lia).
    repeat split; try (unfold clan_size; lia).
    intros p Hp. apply getb_true_in_range in Hp.
    rewrite repeat_length, Z2Nat.id in Hp by (unfold clan_size; lia).
    lia.
  - intros i j Hi Hj.
    change (max_agents clan) with clan_size in *.
    change (n_genes clan) with 3.
    rewrite !clan_kin_cell by (apply cell_index_range; assumption).
    split; reflexivity.
  - intros i Hi Hs. exfalso.
    change (width clan * height clan) with (150 * 150) in Hi.
    unfold clan in Hs. cbn [is_soil] in Hs.
    unfold getb in Hs.
    rewrite zget_repeat in Hs by (rewrite Z2Nat.id by lia; exact Hi).
    discriminate.
Qed.

Lemma clan_kin_sum : kin_sum clan 0 = 65538.
Proof.
  unfold kin_sum. cbv zeta.
  change (alive_count (agent_manager clan)) with clan_size.
  change (max_agents clan) with clan_size.
  change (alive_pids (agent_manager clan))
    with (zrange 0 (Z.to_nat clan_size)).
  rewrite (zsum_const _ 3).
  - rewrite Z2Nat.id by (unfold clan_size; lia). reflexivity.
  - intros j Hj. rewrite Z2Nat.id in Hj by (unfold clan_size; lia).
    rewrite geti_zrange by (rewrite Z2Nat.id by (unfold clan_size; lia); lia).
    apply clan_kin_cell. unfold clan_size in *. lia.
Qed.

(** C3, the claim as stated.  With 21846 alive agents of one genotype and
    three genes the kinship of slot 0 with the alive list sums to 65538;
    the reward pass stores it in an [unsigned short] and leaves 2 in
    [family_sizes[0]]. *)
Lemma family_size_wraps_at_65536 :
  engine_inv clan
  /\ reward_growth_rate clan = false
  /\ alive_count (agent_manager clan) = 21846
  /\ n_genes clan = 3
  /\ getb (alive_mask (agent_manager clan)) 0 = true
  /\ kin_sum clan 0 = 65538
  /\ geti (family_sizes (compute_rewards clan)) 0 = 2
  /\ geti (family_sizes (compute_rewards clan)) 0 <> kin_sum clan 0.
Proof.
  assert (Hm : getb (alive_mask (agent_manager clan)) 0 = true).
  { unfold clan. cbn [agent_manager alive_mask]. unfold getb.
    apply zget_repeat. rewrite Z2Nat.id by (unfold clan_size; lia).
    unfold clan_size. lia. }
  assert (Hf : geti (family_sizes (compute_rewards clan)) 0 = 2).
  { change (compute_rewards clan) with (_delta_rewards clan).
    destruct (delta_rewards_written clan 0) as (H & _).
    - unfold clan. cbn [family_sizes max_agents].
      apply zeros_length. unfold clan_size. lia.
    - unfold clan. cbn [prev_family_sizes max_agents].
      apply zeros_length. unfold clan_size. lia.
    - unfold clan. cbn [rewards max_agents].
      rewrite repeat_length. apply Z2Nat.id. unfold clan_size. lia.
    - change (max_agents clan) with clan_size. unfold clan_size. lia.
    - left. exact Hm.
    - cbv zeta in H. rewrite H, clan_kin_sum. reflexivity. }
  split; [exact clan_engine_inv|].
  split; [reflexivity|]. split; [reflexivity|]. split; [reflexivity|].
  split; [exact Hm|]. split; [exact clan_kin_sum|]. split; [exact Hf|].
  rewrite Hf, clan_kin_sum. discriminate.
Qed.

(** ** Witnesses *)

Lemma kill_agent_dead_slot_noop_witness :
  getb (alive_mask (agent_manager forager_scene)) 5 = false
  /\ kill_agent forager_scene 5 = forager_scene.
Proof.
  split; [reflexivity|].
  exact (proj1 (kill_agent_dead_slot_noop forager_scene 5 eq_refl)).
Defined.

Lemma agent_turn_skips_dead_agent_witness :
  Agent.hp
    (ag ambush_after_first_hit
       (geti (alive_pids (agent_manager ambush_after_first_hit)) 2)) <= 0
  /\ agent_turn 55 2 ambush_after_first_hit = ambush_after_first_hit.
Proof.
  split; [vm_compute; discriminate|].
  apply agent_turn_skips_dead_agent. vm_compute; discriminate.
Defined.

Lemma crop_growth_and_harvest_witness :
  0 <= tick forager_scene
  /\ double_accurate rational_float
  /\ get_growth_days (set_is_winter forager_scene true) 2 2 = 0
  /\ 0 < get_growth_days forager_scene
            (Agent.r (ag forager_scene 0)) (Agent.c (ag forager_scene 0))
  /\ crop_available 70
     = Int_part (exp (7167543 / 100000000 * IZR 70) - 1)%R
  /\ Agent.food_carried (ag (step_pickup 55 0 forager_scene) 0)
     = Agent.food_carried (ag forager_scene 0)
       + Z.min
           (Int_part
              (exp (7167543 / 100000000
                    * IZR (get_growth_days forager_scene
                             (Agent.r (ag forager_scene 0))
                             (Agent.c (ag forager_scene 0))))
               - 1)%R)
           (MAX_FOOD_CARRYING_CAPACITY
            - Agent.food_carried (ag forager_scene 0)).
Proof.
  assert (H1 : 0 <= tick forager_scene) by (vm_compute; discriminate).
  assert (H1w : 0 <= tick (set_is_winter forager_scene true))
    by (vm_compute; discriminate).
  assert (H2 : 0 <= 0 < Z.of_nat (length (agents forager_scene)))
    by (vm_compute; split; [discriminate|reflexivity]).
  assert (H3 : 0 <= tile_adr forager_scene
                      (Agent.r (ag forager_scene 0))
                      (Agent.c (ag forager_scene 0)) LAST_HARVEST)
    by (vm_compute; discriminate).
  assert (H4 : tile_adr forager_scene
                 (Agent.r (ag forager_scene 0))
                 (Agent.c (ag forager_scene 0)) WALL_HP
               < Z.of_nat (length (tile_props forager_scene)))
    by (vm_compute; reflexivity).
  assert (H5 : tile forager_scene
                 (Agent.r (ag forager_scene 0))
                 (Agent.c (ag forager_scene 0)) STORED_FOOD = 0)
    by (vm_compute; reflexivity).
  assert (H6 : 0 < get_growth_days forager_scene
                     (Agent.r (ag forager_scene 0))
                     (Agent.c (ag forager_scene 0)))
    by (vm_compute; reflexivity).
  destruct (crop_growth_and_harvest forager_scene H1) as (_ & Hh).
  destruct (Hh rational_float_accurate) as (Hc & Hp).
  destruct (crop_growth_and_harvest (set_is_winter forager_scene true) H1w)
    as (Hw & _).
  split; [exact H1|split; [exact rational_float_accurate|]].
  split; [exact (proj1 (Hw 2 2) (or_introl eq_refl))|].
  split; [exact H6|].
  split; [apply Hc; lia|].
  exact (proj1 (Hp 55 0 H2 H3 H4 H5 H6)).
Defined.

Lemma attack_loots_on_the_killing_hit_only_witness :
  attack_scan 0 ambush_scene = Some (0, 1, 1, false)
  /\ pid_at ambush_scene 1 1 = 2
  /\ Agent.hp (ag ambush_scene 2) = 1
  /\ pids_2d (agent_attack 0 ambush_scene) = pids_2d ambush_scene
  /\ Agent.hp (ag (agent_attack 0 ambush_scene) 2) = 1 - 1.
Proof.
  assert (H1 : attack_scan 0 ambush_scene = Some (0, 1, 1, false))
    by (vm_compute; reflexivity).
  assert (H2 : 0 <= 0 < Z.of_nat (length (agents ambush_scene)))
    by (vm_compute; split; [discriminate|reflexivity]).
  assert (H3 : 0 <= pid_at ambush_scene 1 1
               < Z.of_nat (length (agents ambush_scene)))
    by (vm_compute; split; [discriminate|reflexivity]).
  assert (H4 : pid_at ambush_scene 1 1 <> 0) by (vm_compute; discriminate).
  destruct (attack_loots_on_the_killing_hit_only ambush_scene 0 0 1 1
              H1 H2 H3 H4) as (Hp & _ & Hh & _).
  split; [exact H1|split; [vm_compute; reflexivity|split;
    [vm_compute; reflexivity|split; [exact Hp|exact Hh]]]].
Defined.

Lemma pasture_well_configured : well_configured pasture.
Proof. vm_compute. repeat split; (discriminate || reflexivity). Qed.

Lemma first_episode_reset : c_reset 20 pasture = Some first_episode.
Proof. vm_compute. reflexivity. Qed.

Lemma first_episode_reachable : reachable first_episode.
Proof.
  exact (reach_reset pasture first_episode 20 pasture_well_configured
           first_episode_reset).
Qed.

Lemma delta_rewards_family_and_reward_witness :
  reward_growth_rate first_episode = false
  /\ getb (alive_mask (agent_manager first_episode)) 0 = true
  /\ 0 <= kin_sum first_episode 0 < 65536
  /\ geti (family_sizes (compute_rewards first_episode)) 0
     = kin_sum first_episode 0.
Proof.
  assert (H0 : reward_growth_rate first_episode = false)
    by (vm_compute; reflexivity).
  assert (H1 : Z.of_nat (length (family_sizes first_episode))
               = max_agents first_episode) by (vm_compute; reflexivity).
  assert (H2 : Z.of_nat (length (prev_family_sizes first_episode))
               = max_agents first_episode) by (vm_compute; reflexivity).
  assert (H3 : Z.of_nat (length (rewards first_episode))
               = max_agents first_episode) by (vm_compute; reflexivity).
  assert (H4 : 0 <= 0 < max_agents first_episode)
    by (vm_compute; split; [discriminate|reflexivity]).
  assert (H5 : getb (alive_mask (agent_manager first_episode)) 0 = true)
    by (vm_compute; reflexivity).
  assert (H6 : 0 <= kin_sum first_episode 0 < 65536)
    by (vm_compute; split; [discriminate|reflexivity]).
  destruct (delta_rewards_family_and_reward first_episode 0 H0 H1 H2 H3 H4
              (or_introl H5)) as (_ & _ & Hf & _).
  split; [exact H0|split; [exact H5|split; [exact H6|exact (Hf H6)]]].
Defined.

Lemma kinship_matrix_symmetric_diagonal_n_genes_witness :
  reachable first_episode
  /\ geti (kinship_matrix first_episode) (0 * max_agents first_episode + 0)
     = n_genes first_episode
  /\ geti (kinship_matrix first_episode) (0 * max_agents first_episode + 5)
     = geti (kinship_matrix first_episode) (5 * max_agents first_episode + 0).
Proof.
  assert (H1 : 0 <= 0 < max_agents first_episode)
    by (vm_compute; split; [discriminate|reflexivity]).
  assert (H2 : 0 <= 5 < max_agents first_episode)
    by (vm_compute; split; [discriminate|reflexivity]).
  destruct (kinship_matrix_symmetric_diagonal_n_genes first_episode 0 5 0
              first_episode_reachable H1 H2) as (Hd & Hs & _).
  split; [exact first_episode_reachable|split; [exact Hd|exact Hs]].
Defined.

Lemma place_wall_destroy_wall_restores_tile_witness :
  soil_at first_episode 0 1 = false
  /\ pid_at first_episode 0 1 = -1
  /\ tile (place_wall first_episode 0 1) 0 1 WALL_HP = WALL_HP_MAX
  /\ destroy_wall (place_wall first_episode 0 1) 0 1 = first_episode.
Proof.
  assert (H1 : 0 <= 0 < height first_episode)
    by (vm_compute; split; [discriminate|reflexivity]).
  assert (H2 : 0 <= 1 < width first_episode)
    by (vm_compute; split; [discriminate|reflexivity]).
  assert (H3 : soil_at first_episode 0 1 = false) by (vm_compute; reflexivity).
  assert (H4 : tile first_episode 0 1 STORED_FOOD = 0)
    by (vm_compute; reflexivity).
  assert (H5 : tile first_episode 0 1 STONE = 0) by (vm_compute; reflexivity).
  assert (H6 : tile first_episode 0 1 WALL_HP = 0) by (vm_compute; reflexivity).
  assert (H7 : pid_at first_episode 0 1 = -1) by (vm_compute; reflexivity).
  destruct (place_wall_destroy_wall_restores_tile first_episode 0 1
              first_episode_reachable H1 H2 H3 H4 H5 H6 H7)
    as (Hw & _ & _ & _ & _ & He).
  split; [exact H3|split; [exact H7|split; [exact Hw|exact He]]].
Defined.

(** ** Witnesses of the statements on the slot manager, the actions and
    the runs *)

Lemma sample_bitset_wf : bitset_wf sample_bitset.
Proof.
  unfold sample_bitset. apply bitset_add_wf, bitset_add_wf, bitset_create_wf.
  lia.
Qed.

Lemma hamlet_at_reset_reachable : reachable hamlet_at_reset.
Proof.
  exact (reach_reset hamlet hamlet_at_reset 20 hamlet_well_configured
           hamlet_reset_run).
Qed.

Lemma hamlet_at_reset_allocated : allocated hamlet_at_reset.
Proof. vm_compute. repeat split. Qed.

Lemma bitset_add_contains_witness :
  bitset_wf sample_bitset
  /\ bitset_contains (bitset_add sample_bitset 64) 64 = 1
  /\ bitset_contains (bitset_add sample_bitset 64) 70
     = bitset_contains sample_bitset 70.
Proof.
  destruct (bitset_add_contains sample_bitset 64 sample_bitset_wf)
    as (_ & H & _).
  assert (R : 0 <= 64 < max_num sample_bitset)
    by (vm_compute; split; [discriminate|reflexivity]).
  destruct (H R) as (H1 & H2).
  split; [exact sample_bitset_wf|split; [exact H1|apply H2; lia]].
Defined.

Lemma bitset_remove_contains_witness :
  bitset_wf sample_bitset
  /\ bitset_contains (bitset_remove sample_bitset 70) 70 = 0
  /\ bitset_contains (bitset_remove sample_bitset 70) 3
     = bitset_contains sample_bitset 3.
Proof.
  destruct (bitset_remove_contains sample_bitset 70 sample_bitset_wf)
    as (_ & H & _).
  assert (R : 0 <= 70 < max_num sample_bitset)
    by (vm_compute; split; [discriminate|reflexivity]).
  destruct (H R) as (H1 & H2).
  split; [exact sample_bitset_wf|split; [exact H1|apply H2; lia]].
Defined.

Lemma bitset_clear_empties_witness :
  bitset_wf sample_bitset
  /\ bitset_contains (bitset_clear sample_bitset) 70 = 0
  /\ bitset_elements (bitset_clear sample_bitset) = [].
Proof.
  destruct (bitset_clear_empties sample_bitset 70 sample_bitset_wf)
    as (_ & H1 & _ & H2).
  split; [exact sample_bitset_wf|split; [exact H1|exact H2]].
Defined.

Lemma bitset_update_members_lists_elements_witness :
  bitset_wf sample_bitset
  /\ max_num sample_bitset <= 65536
  /\ max_num sample_bitset <= Z.of_nat (length (repeat 0 100))
  /\ (let r := bitset_update_members sample_bitset (repeat 0 100) in
      forall x, In x (firstn (Z.to_nat (snd r)) (fst r))
                <-> bitset_contains sample_bitset x = 1).
Proof.
  assert (H1 : max_num sample_bitset <= 65536) by (vm_compute; discriminate).
  assert (H2 : max_num sample_bitset <= Z.of_nat (length (repeat 0 100)))
    by (vm_compute; discriminate).
  destruct (bitset_update_members_lists_elements sample_bitset (repeat 0 100)
              sample_bitset_wf H1 H2) as (_ & _ & H & _).
  split; [exact sample_bitset_wf|split; [exact H1|split; [exact H2|exact H]]].
Defined.

Lemma kinship_get_counts_equal_genes_witness :
  0 <= n_genes hamlet_at_reset <= 255
  /\ kinship_get hamlet_at_reset 0 5 (n_genes hamlet_at_reset)
     = kinship_get hamlet_at_reset 5 0 (n_genes hamlet_at_reset)
  /\ kinship_get hamlet_at_reset 5 5 (n_genes hamlet_at_reset)
     = n_genes hamlet_at_reset.
Proof.
  assert (H : 0 <= n_genes hamlet_at_reset <= 255)
    by (vm_compute; split; discriminate).
  destruct (kinship_get_counts_equal_genes hamlet_at_reset 0 5
              (n_genes hamlet_at_reset) H) as (_ & _ & H1 & _).
  destruct (kinship_get_counts_equal_genes hamlet_at_reset 5 0
              (n_genes hamlet_at_reset) H) as (_ & _ & _ & H2).
  split; [exact H|split; [exact H1|exact H2]].
Defined.

Lemma hamlet_at_reset_configured : well_configured hamlet_at_reset.
Proof. vm_compute. repeat split; (discriminate || reflexivity). Qed.

Lemma kinship_matrix_update_writes_alive_pairs_witness :
  well_configured hamlet_at_reset
  /\ getb (alive_mask (agent_manager hamlet_at_reset)) 1 = true
  /\ geti (kinship_matrix (kinship_matrix_update hamlet_at_reset 0))
       (0 * max_agents hamlet_at_reset + 1)
     = kinship_get hamlet_at_reset 0 1 (n_genes hamlet_at_reset).
Proof.
  assert (R0 : 0 <= 0 < max_agents hamlet_at_reset)
    by (vm_compute; split; [discriminate|reflexivity]).
  assert (R1 : 0 <= 1 < max_agents hamlet_at_reset)
    by (vm_compute; split; [discriminate|reflexivity]).
  destruct (kinship_matrix_update_writes_alive_pairs hamlet_at_reset 0
              hamlet_at_reset_configured R0) as (H & _).
  split; [exact hamlet_at_reset_configured|split; [reflexivity|]].
  exact (H 0 1 R0 R1).
Defined.

Lemma spawn_agent_takes_a_dead_slot_witness :
  engine_inv hamlet_at_reset
  /\ alive_count (agent_manager hamlet_at_reset) < max_agents hamlet_at_reset
  /\ getb (alive_mask (agent_manager hamlet_at_reset))
       (snd (spawn_agent hamlet_at_reset 2 2)) = false
  /\ alive_count (agent_manager (fst (spawn_agent hamlet_at_reset 2 2)))
     = alive_count (agent_manager hamlet_at_reset) + 1.
Proof.
  pose proof (reachable_engine_inv hamlet_at_reset hamlet_at_reset_reachable)
    as Hinv.
  assert (H1 : Z.of_nat (length (agents hamlet_at_reset))
               = max_agents hamlet_at_reset) by (vm_compute; reflexivity).
  assert (H2 : alive_count (agent_manager hamlet_at_reset)
               < max_agents hamlet_at_reset) by (vm_compute; reflexivity).
  destruct (spawn_agent_takes_a_dead_slot hamlet_at_reset 2 2 Hinv H1 H2)
    as (_ & Hd & _ & _ & Hc & _).
  split; [exact Hinv|split; [exact H2|split; [exact Hd|exact Hc]]].
Defined.

Lemma spawn_agent_reuses_last_killed_slot_witness :
  engine_inv hamlet_at_reset
  /\ getb (alive_mask (agent_manager hamlet_at_reset)) 3 = true
  /\ snd (spawn_agent (kill_agent hamlet_at_reset 3) 2 2) = 3.
Proof.
  pose proof (reachable_engine_inv hamlet_at_reset hamlet_at_reset_reachable)
    as Hinv.
  split; [exact Hinv|split; [reflexivity|]].
  exact (spawn_agent_reuses_last_killed_slot hamlet_at_reset 3 2 2 Hinv
           eq_refl).
Defined.

Lemma reachable_alive_count_within_capacity_witness :
  reachable hamlet_at_reset
  /\ alive_count (agent_manager hamlet_at_reset)
     = count_true (alive_mask (agent_manager hamlet_at_reset))
  /\ next_pid (agent_manager hamlet_at_reset) <= max_agents hamlet_at_reset.
Proof.
  destruct (reachable_alive_count_within_capacity hamlet_at_reset
              hamlet_at_reset_reachable) as (H1 & _ & _ & H2).
  split; [exact hamlet_at_reset_reachable|split; [exact H1|exact H2]].
Defined.

Lemma find_empty_cell_unblocked_neighbour_witness :
  (0 < height hamlet_at_reset /\ 0 < width hamlet_at_reset)
  /\ find_empty_cell 0 0 hamlet_at_reset = -1
  /\ forall o, In o moore_offsets ->
       tile_is_blocked hamlet_at_reset
         (fst (neighbour hamlet_at_reset 0 0 o))
         (snd (neighbour hamlet_at_reset 0 0 o)) = true.
Proof.
  assert (HH : 0 < height hamlet_at_reset) by (vm_compute; reflexivity).
  assert (HW : 0 < width hamlet_at_reset) by (vm_compute; reflexivity).
  assert (Hr : 0 <= 0 < height hamlet_at_reset)
    by (vm_compute; split; [discriminate|reflexivity]).
  assert (Hc : 0 <= 0 < width hamlet_at_reset)
    by (vm_compute; split; [discriminate|reflexivity]).
  split; [split; [exact HH|exact HW]|].
  destruct (find_empty_cell_unblocked_neighbour hamlet_at_reset 0 0
              HH HW Hr Hc) as [T|(pre & o & post & _ & _ & T)].
  - exact T.
  - exfalso. destruct T as (_ & Hr' & Hc' & Hadr & _).
    assert (E : find_empty_cell 0 0 hamlet_at_reset = -1)
      by (vm_compute; reflexivity).
    assert (Ew : width hamlet_at_reset = 4) by reflexivity.
    rewrite E, Ew in Hadr. lia.
Defined.

Lemma place_wall_builds_once_witness :
  0 <= 1 * width forager_scene + 2
  /\ (1 * width forager_scene + 2) * 4 + 3
     < Z.of_nat (length (tile_props forager_scene))
  /\ tile_is_blocked (place_wall forager_scene 1 2) 1 2 = true
  /\ place_wall (place_wall forager_scene 1 2) 1 2
     = place_wall forager_scene 1 2.
Proof.
  assert (H1 : 0 <= 1 * width forager_scene + 2) by (vm_compute; discriminate).
  assert (H2 : (1 * width forager_scene + 2) * 4 + 3
               < Z.of_nat (length (tile_props forager_scene)))
    by (vm_compute; reflexivity).
  destruct (place_wall_builds_once forager_scene 1 2 H1 H2)
    as (Hb & _ & _ & _ & Hi).
  split; [exact H1|split; [exact H2|split; [exact Hb|exact Hi]]].
Defined.

Lemma attack_on_wall_only_lowers_wall_hp_witness :
  attack_scan 0 wall_corner_scene = Some (0, 1, 1, true)
  /\ tile_props (agent_attack 0 wall_corner_scene)
     = tile_props
         (set_tile wall_corner_scene 1 1 WALL_HP
            (tile wall_corner_scene 1 1 WALL_HP - 1))
  /\ agent_manager (agent_attack 0 wall_corner_scene)
     = agent_manager wall_corner_scene.
Proof.
  assert (H : attack_scan 0 wall_corner_scene = Some (0, 1, 1, true))
    by (vm_compute; reflexivity).
  destruct (attack_on_wall_only_lowers_wall_hp 0 wall_corner_scene 0 1 1 H)
    as (Ht & _ & _ & Hm).
  split; [exact H|split; [exact Ht|exact Hm]].
Defined.

Lemma build_wall_costs_one_stone_witness :
  0 <= 0 < Z.of_nat (length (agents mason_scene))
  /\ Agent.stone_carried (ag mason_scene 0) = 2
  /\ tile_is_blocked mason_scene 1 2 = false
  /\ tile (step_build_wall 0 mason_scene) 1 2 WALL_HP = WALL_HP_MAX
  /\ ag (step_build_wall 0 mason_scene) 0
     = Agent.set_stone_carried (ag mason_scene 0) 1.
Proof.
  assert (H1 : 0 <= 0 < Z.of_nat (length (agents mason_scene)))
    by (vm_compute; split; [discriminate|reflexivity]).
  pose proof (build_wall_costs_one_stone 0 mason_scene H1) as T.
  cbv zeta in T.
  assert (H2 : 0 <= Z.rem (Agent.r (ag mason_scene 0)
                           + fst (DELTAS (Agent.dir (ag mason_scene 0)))
                           + height mason_scene) (height mason_scene)
                    * width mason_scene
                    + Z.rem (Agent.c (ag mason_scene 0)
                             + snd (DELTAS (Agent.dir (ag mason_scene 0)))
                             + width mason_scene) (width mason_scene))
    by (vm_compute; discriminate).
  assert (H3 : (Z.rem (Agent.r (ag mason_scene 0)
                       + fst (DELTAS (Agent.dir (ag mason_scene 0)))
                       + height mason_scene) (height mason_scene)
                * width mason_scene
                + Z.rem (Agent.c (ag mason_scene 0)
                         + snd (DELTAS (Agent.dir (ag mason_scene 0)))
                         + width mason_scene) (width mason_scene)) * 4 + 3
               < Z.of_nat (length (tile_props mason_scene)))
    by (vm_compute; reflexivity).
  specialize (T H2 H3).
  split; [exact H1|split; [reflexivity|split; [reflexivity|]]].
  destruct T as (Hw & _ & _ & Ha & _).
  split; [exact Hw|exact Ha].
Defined.

Lemma step_move_turns_then_moves_witness :
  0 <= 0 < Z.of_nat (length (agents forager_scene))
  /\ 0 <= MOVE_UP <= 3
  /\ tile_props (step_move 0 MOVE_UP forager_scene) = tile_props forager_scene
  /\ agent_manager (step_move 0 MOVE_UP forager_scene)
     = agent_manager forager_scene.
Proof.
  assert (H1 : 0 <= 0 < Z.of_nat (length (agents forager_scene)))
    by (vm_compute; split; [discriminate|reflexivity]).
  assert (H2 : 0 <= MOVE_UP <= 3) by (vm_compute; split; discriminate).
  destruct (step_move_turns_then_moves 0 MOVE_UP forager_scene H1 H2)
    as (Ht & Hm & _).
  split; [exact H1|split; [exact H2|split; [exact Ht|exact Hm]]].
Defined.

Lemma agent_mine_moves_one_stone_witness :
  0 <= 0 < Z.of_nat (length (agents quarry_scene))
  /\ Z.of_nat (length (tile_props quarry_scene))
     = width quarry_scene * height quarry_scene * 4
  /\ Agent.stone_carried (ag (agent_mine 0 quarry_scene) 0)
     = Agent.stone_carried (ag quarry_scene 0) + 1.
Proof.
  assert (H1 : 0 <= 0 < Z.of_nat (length (agents quarry_scene)))
    by (vm_compute; split; [discriminate|reflexivity]).
  assert (H2 : 0 < height quarry_scene) by (vm_compute; reflexivity).
  assert (H3 : 0 < width quarry_scene) by (vm_compute; reflexivity).
  assert (H4 : 0 <= Agent.r (ag quarry_scene 0) < height quarry_scene)
    by (vm_compute; split; [discriminate|reflexivity]).
  assert (H5 : 0 <= Agent.c (ag quarry_scene 0) < width quarry_scene)
    by (vm_compute; split; [discriminate|reflexivity]).
  assert (H6 : Z.of_nat (length (tile_props quarry_scene))
               = width quarry_scene * height quarry_scene * 4)
    by (vm_compute; reflexivity).
  assert (H7 : forall i, geti (tile_props quarry_scene) i <= 65535)
    by (apply geti_below; [lia|vm_compute; reflexivity]).
  split; [exact H1|split; [exact H6|]].
  destruct (agent_mine_moves_one_stone 0 quarry_scene H1 H2 H3 H4 H5 H6 H7)
    as [(He & _)|(_ & d & _ & _ & _ & Ha & _)].
  - exfalso.
    apply (f_equal (fun e => Agent.stone_carried (ag e 0))) in He.
    vm_compute in He. discriminate He.
  - rewrite Ha. reflexivity.
Defined.

Lemma pre_action_ages_and_feeds_witness :
  0 <= 0 < Z.of_nat (length (agents forager_scene))
  /\ Agent.age (ag (pre_action 0 forager_scene) 0)
     = Agent.age (ag forager_scene 0) + 1
  /\ agent_manager (pre_action 0 forager_scene) = agent_manager forager_scene.
Proof.
  assert (H1 : 0 <= 0 < Z.of_nat (length (agents forager_scene)))
    by (vm_compute; split; [discriminate|reflexivity]).
  destruct (pre_action_ages_and_feeds 0 forager_scene H1)
    as (Ha & _ & _ & _ & _ & _ & _ & _ & Hm).
  split; [exact H1|split; [exact Ha|exact Hm]].
Defined.

Lemma pickup_takes_stored_food_witness :
  0 < tile larder_scene 2 2 STORED_FOOD <= 65535
  /\ Agent.food_carried (ag larder_scene 0) <= MAX_FOOD_CARRYING_CAPACITY
  /\ Agent.food_carried (ag (step_pickup 55 0 larder_scene) 0)
     + tile (step_pickup 55 0 larder_scene) 2 2 STORED_FOOD
     = Agent.food_carried (ag larder_scene 0)
       + tile larder_scene 2 2 STORED_FOOD.
Proof.
  assert (H1 : 0 <= 0 < Z.of_nat (length (agents larder_scene)))
    by (vm_compute; split; [discriminate|reflexivity]).
  assert (H2 : 0 <= Agent.r (ag larder_scene 0) * width larder_scene
                    + Agent.c (ag larder_scene 0))
    by (vm_compute; discriminate).
  assert (H3 : (Agent.r (ag larder_scene 0) * width larder_scene
                + Agent.c (ag larder_scene 0)) * 4 + 3
               < Z.of_nat (length (tile_props larder_scene)))
    by (vm_compute; reflexivity).
  assert (H4 : 0 < tile larder_scene (Agent.r (ag larder_scene 0))
                     (Agent.c (ag larder_scene 0)) STORED_FOOD <= 65535)
    by (vm_compute; split; [reflexivity|discriminate]).
  assert (H5 : Agent.food_carried (ag larder_scene 0)
               <= MAX_FOOD_CARRYING_CAPACITY) by (vm_compute; discriminate).
  destruct (pickup_takes_stored_food 55 0 larder_scene H1 H2 H3 H4 H5)
    as (Hsum & _).
  split; [exact H4|split; [exact H5|exact Hsum]].
Defined.

Lemma shuffle_permutes_alive_list_witness :
  0 <= 8 <= 32768
  /\ 8 <= Z.of_nat (length (alive_pids (agent_manager hamlet_at_reset)))
  /\ Permutation
       (firstn (Z.to_nat 8)
          (alive_pids (agent_manager (shuffle hamlet_at_reset 8))))
       (firstn (Z.to_nat 8) (alive_pids (agent_manager hamlet_at_reset)))
  /\ agents (shuffle hamlet_at_reset 8) = agents hamlet_at_reset.
Proof.
  assert (H1 : 0 <= 8 <= 32768) by lia.
  assert (H2 : 8 <= Z.of_nat
                      (length (alive_pids (agent_manager hamlet_at_reset))))
    by (vm_compute; discriminate).
  assert (H3 : forall x,
             0 <= geti (alive_pids (agent_manager hamlet_at_reset)) x < 65536)
    by (apply geti_within; [lia|vm_compute; reflexivity]).
  destruct (shuffle_permutes_alive_list hamlet_at_reset 8 H1 H2 H3)
    as (Hp & _ & _ & Ha & _).
  split; [exact H1|split; [exact H2|split; [exact Hp|exact Ha]]].
Defined.

Lemma reachable_bitset_matches_mask_witness :
  reachable hamlet_at_reset
  /\ allocated hamlet_at_reset
  /\ bitset_contains (alive_bitset (agent_manager hamlet_at_reset)) 3
     = (if getb (alive_mask (agent_manager hamlet_at_reset)) 3 then 1 else 0).
Proof.
  split; [exact hamlet_at_reset_reachable|].
  split; [exact hamlet_at_reset_allocated|].
  exact (reachable_bitset_matches_mask hamlet_at_reset 3
           hamlet_at_reset_reachable hamlet_at_reset_allocated).
Defined.

Lemma reachable_alive_list_sorted_witness :
  reachable hamlet_at_reset
  /\ allocated hamlet_at_reset
  /\ Sorted.StronglySorted Z.lt
       (firstn (Z.to_nat (alive_count (agent_manager hamlet_at_reset)))
          (alive_pids (agent_manager hamlet_at_reset))).
Proof.
  destruct (reachable_alive_list_sorted hamlet_at_reset
              hamlet_at_reset_reachable hamlet_at_reset_allocated)
    as (_ & _ & _ & Hs).
  split; [exact hamlet_at_reset_reachable|].
  split; [exact hamlet_at_reset_allocated|exact Hs].
Defined.

Lemma reachable_alive_agents_within_bounds_witness :
  reachable hamlet_at_reset
  /\ allocated hamlet_at_reset
  /\ getb (alive_mask (agent_manager hamlet_at_reset)) 3 = true
  /\ 0 < Agent.hp (ag hamlet_at_reset 3) <= Agent.hp_max (ag hamlet_at_reset 3)
  /\ 0 < Agent.satiation (ag hamlet_at_reset 3) <= MAX_SATIATION.
Proof.
  destruct (reachable_alive_agents_within_bounds hamlet_at_reset 3
              hamlet_at_reset_reachable hamlet_at_reset_allocated eq_refl)
    as (Hh & _ & Hs & _).
  split; [exact hamlet_at_reset_reachable|].
  split; [exact hamlet_at_reset_allocated|].
  split; [reflexivity|split; [exact Hh|exact Hs]].
Defined.

Lemma c_step_advances_clock_witness :
  alive_count (agent_manager hamlet_at_reset) <> 0
  /\ tick hamlet_at_reset < next_max_ep_length hamlet_at_reset
  /\ exists env',
       c_step 0 hamlet_at_reset = Some env'
       /\ tick env' = tick hamlet_at_reset + 1
       /\ is_winter env' = (day_number hamlet_at_reset >=? SUMMER_DURATION)
       /\ next_max_ep_length env' = next_max_ep_length hamlet_at_reset
       /\ conf env' = conf hamlet_at_reset
       /\ actions env' = actions hamlet_at_reset.
Proof.
  assert (H1 : alive_count (agent_manager hamlet_at_reset) <> 0)
    by (vm_compute; discriminate).
  assert (H2 : tick hamlet_at_reset < next_max_ep_length hamlet_at_reset)
    by (vm_compute; reflexivity).
  split; [exact H1|split; [exact H2|]].
  exact (c_step_advances_clock 0 hamlet_at_reset H1 H2).
Defined.

Lemma c_reset_starts_an_episode_witness :
  well_configured hamlet
  /\ min_ep_length hamlet < max_ep_length hamlet
  /\ c_reset 20 hamlet = Some hamlet_at_reset
  /\ tick hamlet_at_reset = 0
  /\ alive_count (agent_manager hamlet_at_reset) = 8
  /\ min_ep_length hamlet <= next_max_ep_length hamlet_at_reset
     < max_ep_length hamlet.
Proof.
  assert (H : min_ep_length hamlet < max_ep_length hamlet)
    by (vm_compute; reflexivity).
  destruct (c_reset_starts_an_episode 20 hamlet hamlet_at_reset
              hamlet_well_configured H hamlet_reset_run)
    as (Ht & _ & Hc & Hn & _).
  split; [exact hamlet_well_configured|split; [exact H|]].
  split; [exact hamlet_reset_run|split; [exact Ht|split; [exact Hc|exact Hn]]].
Defined.

Lemma kill_agent_frees_the_slot_witness :
  engine_inv hamlet_at_reset
  /\ getb (alive_mask (agent_manager hamlet_at_reset)) 3 = true
  /\ engine_inv (kill_agent hamlet_at_reset 3)
  /\ alive_count (agent_manager (kill_agent hamlet_at_reset 3))
     = alive_count (agent_manager hamlet_at_reset) - 1.
Proof.
  pose proof (reachable_engine_inv hamlet_at_reset hamlet_at_reset_reachable)
    as Hinv.
  destruct (kill_agent_frees_the_slot hamlet_at_reset 3 Hinv eq_refl)
    as (Hi & _ & Hc & _).
  split; [exact Hinv|split; [reflexivity|split; [exact Hi|exact Hc]]].
Defined.

Lemma only_reproduce_changes_the_manager_witness :
  ATTACK <> REPRODUCE
  /\ agent_manager (do_action 55 0 ATTACK ambush_scene)
     = agent_manager ambush_scene.
Proof.
  assert (H : ATTACK <> REPRODUCE) by (vm_compute; discriminate).
  split; [exact H|].
  exact (proj1 (only_reproduce_changes_the_manager 55 0 ATTACK ambush_scene H)).
Defined.

Lemma start_crop_growth_restarts_soil_witness :
  Z.of_nat (length (tile_props first_episode))
  = width first_episode * height first_episode * 4
  /\ soil_at first_episode 0 0 = true
  /\ soil_at first_episode 0 1 = false
  /\ tile (start_crop_growth first_episode) 0 0 LAST_HARVEST = 0
  /\ tile (start_crop_growth first_episode) 0 1 LAST_HARVEST
     = tile first_episode 0 1 LAST_HARVEST.
Proof.
  assert (HW : 0 <= width first_episode) by (vm_compute; discriminate).
  assert (HH : 0 <= height first_episode) by (vm_compute; discriminate).
  assert (HL : Z.of_nat (length (tile_props first_episode))
               = width first_episode * height first_episode * 4)
    by (vm_compute; reflexivity).
  assert (R0 : 0 <= 0 < height first_episode)
    by (vm_compute; split; [discriminate|reflexivity]).
  assert (C0 : 0 <= 0 < width first_episode)
    by (vm_compute; split; [discriminate|reflexivity]).
  assert (C1 : 0 <= 1 < width first_episode)
    by (vm_compute; split; [discriminate|reflexivity]).
  assert (K0 : 0 <= LAST_HARVEST < 4)
    by (vm_compute; split; [discriminate|reflexivity]).
  assert (S0 : soil_at first_episode 0 0 = true) by (vm_compute; reflexivity).
  assert (S1 : soil_at first_episode 0 1 = false) by (vm_compute; reflexivity).
  destruct (start_crop_growth_restarts_soil first_episode HW HH HL)
    as (Ht & _).
  split; [exact HL|split; [exact S0|split; [exact S1|]]].
  split.
  - rewrite (Ht 0 0 LAST_HARVEST R0 C0 K0), S0. reflexivity.
  - rewrite (Ht 0 1 LAST_HARVEST R0 C1 K0), S1. reflexivity.
Defined.

Lemma run_keeps_buffer_sizes_witness :
  well_configured hamlet
  /\ c_reset 20 hamlet = Some hamlet_at_reset
  /\ shape hamlet_at_reset = shape hamlet
  /\ (allocated hamlet <-> allocated hamlet_at_reset).
Proof.
  destruct (run_keeps_buffer_sizes 20 hamlet hamlet_at_reset
              (or_introl (conj hamlet_well_configured hamlet_reset_run)))
    as (Hs & Ha).
  split; [exact hamlet_well_configured|].
  split; [exact hamlet_reset_run|split; [exact Hs|exact Ha]].
Defined.
